(** * Agentic-Appium-TS: hybrid locator, perceive-reason-act loop, tree pruner
      and response parser, embedded from the TypeScript sources; with them
      the run of the graph, the vision fallback, the session logger and
      the mock driver.

    Conventions of the embedding.
    - A JavaScript string is a Rocq [string], one [ascii] per code unit
      (code units above 255 are not represented).
    - The edges of a bounds string are read by [parseInt] from numerals
      of any length; they and what is computed from them are embedded as
      [JS.number]: a double whose value is an integer, an infinity, or
      NaN, with the rounding of the doubles written out.
    - Counters, millisecond durations and the coordinates of an action
      are embedded as [Z], the integer a double holds; they are printed
      as the source prints a number.  Ratios ([healingRate], the index
      of the mock driver, the argument of [Math.round]) are embedded as
      [Q].
    - [undefined] / [null] are [None]; an optional property is an [option].
    - An [async] function that may reject is a computation in the monad
      [M], which threads the mutable objects (the healing log, the outside
      world behind the driver) and returns either a thrown value or a
      result. *)

From Stdlib Require Import ZArith QArith Qround List String Ascii Bool Lia.
From Stdlib Require Import DecimalString DecimalPos DecimalZ.
From stdpp Require Import base option list gmap strings.

Import ListNotations.
Local Open Scope string_scope.
Local Open Scope list_scope.
Local Open Scope Z_scope.

(* ================================================================== *)
(** * JavaScript values and helpers *)
(* ================================================================== *)

Module JS.

(** A thrown value: an [Error] object with its message, or anything else. *)
Inductive Thrown :=
| ErrorObj (message : string)
| NonError.

(** Outcome of a call that may throw. *)
Definition outcome (A : Type) : Type := (Thrown + A)%type.

(** [error instanceof Error ? error.message : fallback] *)
Definition messageOr (fallback : string) (e : Thrown) : string :=
  match e with
  | ErrorObj m => m
  | NonError => fallback
  end.

(** Truthiness of an optional string: [undefined] and [""] are falsy. *)
Definition truthy (s : option string) : bool :=
  match s with
  | Some (String _ _) => true
  | _ => false
  end.

(** [a || b] on strings, [b] a string. *)
Definition orElse (a : option string) (b : string) : string :=
  match a with
  | Some (String c s) => String c s
  | _ => b
  end.

(** [a || null] on strings. *)
Definition orNull (a : option string) : option string :=
  match a with
  | Some (String c s) => Some (String c s)
  | _ => None
  end.

(** [a || b || c] where [c] is a non-empty literal. *)
Definition orElse3 (a b : option string) (c : string) : string :=
  orElse a (orElse b c).

(** [n || d] on numbers: [undefined] and [0] are falsy. *)
Definition numOr (n : option Z) (d : Z) : Z :=
  match n with
  | Some v => if v =? 0 then d else v
  | None => d
  end.

(** The decimal numeral of an integer: [`${n}`] for a counter. *)
Definition showZ (n : Z) : string := NilZero.string_of_int (Z.to_int n).

(** White space as [String.prototype.trim] and the regex class [\s]
    see it, among the code units below 256. *)
Definition isSpace (c : ascii) : bool :=
  let n := nat_of_ascii c in
  ((9 <=? n)%nat && (n <=? 13)%nat) || (n =? 32)%nat || (n =? 160)%nat.

(** The regex class [\d]. *)
Definition isDigit (c : ascii) : bool :=
  let n := nat_of_ascii c in (48 <=? n)%nat && (n <=? 57)%nat.

Fixpoint dropSpace (l : list ascii) : list ascii :=
  match l with
  | c :: l' => if isSpace c then dropSpace l' else l
  | [] => []
  end.

(** [String.prototype.trim] *)
Definition trimL (l : list ascii) : list ascii :=
  rev (dropSpace (rev (dropSpace l))).

Definition trim (s : string) : string :=
  string_of_list_ascii (trimL (list_ascii_of_string s)).

(** [s.slice(0, n)] for [0 <= n]. *)
Definition slice0 (n : nat) (s : string) : string :=
  string_of_list_ascii (firstn n (list_ascii_of_string s)).

(** A number whose value is an integer, or one of the three values that
    are not finite: the numbers the bounds code computes with. *)
Inductive number :=
| Finite (value : Z)
| Infinity
| NegInfinity
| NaN.

(** The number nearest to an integer: below [2^53] in size the integer
    itself, from there on the nearest multiple of the spacing of the
    doubles, a tie going to the even one; past the largest double, an
    infinity. *)
Definition toNumber (z : Z) : number :=
  let a := Z.abs z in
  if a <? 2 ^ 53 then Finite z
  else
    let e := Z.log2 a - 52 in
    let q := a / 2 ^ e in
    let r := a mod 2 ^ e in
    let half := 2 ^ (e - 1) in
    let q' := if (half <? r) || ((r =? half) && Z.odd q) then q + 1 else q in
    if 2 ^ 1024 <=? q' * 2 ^ e
    then (if z <? 0 then NegInfinity else Infinity)
    else Finite (Z.sgn z * (q' * 2 ^ e)).

(** [a + b] *)
Definition add (a b : number) : number :=
  match a, b with
  | Finite x, Finite y => toNumber (x + y)
  | NaN, _ | _, NaN => NaN
  | Infinity, NegInfinity | NegInfinity, Infinity => NaN
  | Infinity, _ | _, Infinity => Infinity
  | NegInfinity, _ | _, NegInfinity => NegInfinity
  end.

(** [a - b] *)
Definition sub (a b : number) : number :=
  match a, b with
  | Finite x, Finite y => toNumber (x - y)
  | NaN, _ | _, NaN => NaN
  | Infinity, Infinity | NegInfinity, NegInfinity => NaN
  | Infinity, _ | _, NegInfinity => Infinity
  | NegInfinity, _ | _, Infinity => NegInfinity
  end.

(** [a <= 0]: a comparison with NaN is false. *)
Definition atMostZero (a : number) : bool :=
  match a with
  | Finite x => x <=? 0
  | NegInfinity => true
  | Infinity | NaN => false
  end.

(** The integer that a string of decimal digits denotes. *)
Definition digitVal (c : ascii) : Z := Z.of_nat (nat_of_ascii c) - 48.

Definition mathInt (ds : list ascii) : Z :=
  fold_left (fun acc c => 10 * acc + digitVal c) ds 0.

(** [parseInt(s, 10)] on a string of decimal digits: the number nearest
    to the integer denoted. *)
Definition parseInt (ds : list ascii) : number := toNumber (mathInt ds).

(** [Math.round]: nearest integer, ties towards +infinity. *)
Definition Math_round (q : Q) : Z := Qfloor (q + (1 # 2)).

(** [Math.round(s / 2)] for a number [s]: half of an integer-valued
    double is computed exactly, and so is its rounding. *)
Definition roundHalf (s : number) : number :=
  match s with
  | Finite z => Finite (Math_round (inject_Z z / 2))
  | _ => s
  end.

(** The integer whose numeral [Number.prototype.toString] prints for the
    number of value [a > 0], of [n] decimal digits: the least count [k]
    of leading digits that, followed by zeros, read back as [a], with
    the digits closest to [a] if two strings of [k] digits do. *)
Fixpoint shortest (fuel : nat) (k n a : Z) : Z :=
  let p := 10 ^ (n - k) in
  let lo := a / p in
  let reads s := match toNumber (s * p) with
                 | Finite v => v =? a
                 | _ => false
                 end in
  let closer s t := Z.abs (s * p - a) <? Z.abs (t * p - a) in
  match fuel with
  | O => lo * p
  | S fuel' =>
      if reads lo && reads (lo + 1) then
        (if closer lo (lo + 1) then lo
         else if closer (lo + 1) lo then lo + 1
         else if Z.even lo then lo else lo + 1) * p
      else if reads lo then lo * p
      else if reads (lo + 1) then (lo + 1) * p
      else shortest fuel' (k + 1) n a
  end.

Fixpoint dropZeros (l : list ascii) : list ascii :=
  match l with
  | "0"%char :: l' => dropZeros l'
  | _ => l
  end.

(** The exponent form, [d.ddde+x], of a numeral of 22 digits or more. *)
Definition exponential (numeral : string) : string :=
  let e := showZ (Z.of_nat (String.length numeral) - 1) in
  match rev (dropZeros (rev (list_ascii_of_string numeral))) with
  | [] => numeral
  | [d] => String d ("e+" +:+ e)
  | d :: ds => String d ("." +:+ string_of_list_ascii ds +:+ "e+" +:+ e)
  end.

(** [`${n}`] for a number. *)
Definition showNumber (n : number) : string :=
  match n with
  | Finite z =>
      let a := Z.abs z in
      let numeral :=
        showZ (if a <? 2 ^ 53 then a
               else shortest 17 1 (Z.of_nat (String.length (showZ a))) a) in
      (if z <? 0 then "-" else "")
      +:+ (if a <? 10 ^ 21 then numeral else exponential numeral)
  | Infinity => "Infinity"
  | NegInfinity => "-Infinity"
  | NaN => "NaN"
  end.

(** [arr.slice(-n)] *)
Definition lastN {A} (n : nat) (l : list A) : list A :=
  skipn (length l - n)%nat l.

(** [parts.join(sep)] *)
Fixpoint join (sep : string) (parts : list string) : string :=
  match parts with
  | [] => ""
  | [p] => p
  | p :: rest => p +:+ sep +:+ join sep rest
  end.

(** [s.split(sep).pop()] for a separator of one character: what follows
    its last occurrence. *)
Definition lastSegment (sep : ascii) (s : string) : string :=
  string_of_list_ascii
    (fold_left (fun segment c => if Ascii.eqb c sep then [] else segment ++ [c])
               (list_ascii_of_string s) []).

(** The text between two double quotes. *)
Definition quoted (s : string) : string :=
  String (ascii_of_nat 34) s +:+ String (ascii_of_nat 34) "".

(** ["\n"] *)
Definition newline : string := String (ascii_of_nat 10) "".

End JS.

(* ================================================================== *)
(** * A backtracking matcher for the regular expressions of the sources *)
(* ================================================================== *)

Module Regex.

Inductive cls := Digit | Space | AnyChar.

Definition inCls (k : cls) (c : ascii) : bool :=
  match k with
  | Digit => JS.isDigit c
  | Space => JS.isSpace c
  | AnyChar => true
  end.

(** The regular expressions of the sources are sequences of: a literal
    text, an optional literal [(?:lit)?], and a repeated character
    class, greedy or lazy, with a minimum of zero or one repetition,
    capturing or not. *)
Inductive item :=
| Lit (text : list ascii)
| Opt (text : list ascii)
| Rep (k : cls) (atLeastOne greedy capture : bool).

Record matched := { whole : list ascii; groups : list (list ascii) }.

Fixpoint stripPrefix (p s : list ascii) : option (list ascii) :=
  match p, s with
  | [], _ => Some s
  | a :: p', b :: s' => if Ascii.eqb a b then stripPrefix p' s' else None
  | _ :: _, [] => None
  end.

Definition orTry {A} (a b : option A) : option A :=
  match a with
  | Some r => Some r
  | None => b
  end.

Definition consumed (t : list ascii) (m : matched) : matched :=
  {| whole := t ++ whole m; groups := groups m |}.

Definition closeRep (capture : bool) (m : list ascii * matched) : matched :=
  let (cap, rest) := m in
  {| whole := cap ++ whole rest;
     groups := if capture then cap :: groups rest else groups rest |}.

(** A repeated class [k], followed by what [rest] matches: the
    alternatives in the order a backtracking engine explores them
    (longest first when greedy, shortest first when lazy).  [need] tells
    that one more character is required.  The result is the text the
    repetition took and the match of the rest. *)
Fixpoint repLoop (rest : list ascii -> option matched) (k : cls)
         (greedy need : bool) (s : list ascii)
  : option (list ascii * matched) :=
  let stop := if need then None else (fun m => ([], m)) <$> rest s in
  let more :=
    match s with
    | c :: s' =>
        if inCls k c
        then (fun r => (c :: fst r, snd r)) <$> repLoop rest k greedy false s'
        else None
    | [] => None
    end in
  if greedy then orTry more stop else orTry stop more.

(** Match the items at the start of [s]. *)
Fixpoint matchHere (re : list item) (s : list ascii) : option matched :=
  match re with
  | [] => Some {| whole := []; groups := [] |}
  | Lit t :: re' =>
      match stripPrefix t s with
      | Some s' => consumed t <$> matchHere re' s'
      | None => None
      end
  | Opt t :: re' =>
      orTry
        (match stripPrefix t s with
         | Some s' => consumed t <$> matchHere re' s'
         | None => None
         end)
        (matchHere re' s)
  | Rep k atLeastOne greedy capture :: re' =>
      closeRep capture <$> repLoop (matchHere re') k greedy atLeastOne s
  end.

(** [str.match(re)] without the [g] flag: the leftmost position at which
    the expression matches. *)
Fixpoint search (re : list item) (s : list ascii) : option matched :=
  match matchHere re s with
  | Some m => Some m
  | None =>
      match s with
      | [] => None
      | _ :: s' => search re s'
      end
  end.

Definition exec (re : list item) (s : string) : option matched :=
  search re (list_ascii_of_string s).

Definition group (n : nat) (m : matched) : list ascii :=
  nth n (groups m) [].

End Regex.

(* ================================================================== *)
(** * types.ts: the data model *)
(* ================================================================== *)

Module Types.

Inductive MobileAction := click | type | swipe | scroll | wait | done.

Inductive SwipeDirection := up | down | left | right.

Record Bounds := {
  x1 : JS.number;
  y1 : JS.number;
  x2 : JS.number;
  y2 : JS.number;
  centerX : JS.number;
  centerY : JS.number;
}.

Record PrunedElement := {
  resourceId : option string;
  text : option string;
  contentDesc : option string;
  className : string;
  bounds : Bounds;
  clickable : bool;
  enabled : bool;
}.

Inductive SelectorType :=
| accessibilityId | resourceId_ | text_ | xpath | coordinates.

Record SelectorHint := {
  sel_type : SelectorType;
  sel_value : option string;
  sel_x : option Z;
  sel_y : option Z;
}.

Record ActionParams := {
  p_x : option Z;
  p_y : option Z;
  p_text : option string;
  p_direction : option SwipeDirection;
  p_duration : option Z;
  p_selector : option SelectorHint;
  p_elementDescription : option string;
}.

Record ReasonerOutput := {
  thought : string;
  action : MobileAction;
  params : ActionParams;
  targetElement : string;
}.

Definition actionName (a : MobileAction) : string :=
  match a with
  | click => "click" | type => "type" | swipe => "swipe"
  | scroll => "scroll" | wait => "wait" | done => "done"
  end.

Definition directionName (d : SwipeDirection) : string :=
  match d with
  | up => "up" | down => "down" | left => "left" | right => "right"
  end.

Definition selectorTypeName (t : SelectorType) : string :=
  match t with
  | accessibilityId => "accessibilityId"
  | resourceId_ => "resourceId"
  | text_ => "text"
  | xpath => "xpath"
  | coordinates => "coordinates"
  end.

(** The members of the three [z.enum] lists, in declaration order. *)
Definition actionEnum : list MobileAction :=
  [click; type; swipe; scroll; wait; done].
Definition directionEnum : list SwipeDirection := [up; down; left; right].
Definition selectorTypeEnum : list SelectorType :=
  [accessibilityId; resourceId_; text_; xpath; coordinates].

End Types.

(* ================================================================== *)
(** * utils/xml-parser.ts: the tree pruner *)
(* ================================================================== *)

Module XmlParser.
Import Types.

(** [/\[(\d+),(\d+)\]\[(\d+),(\d+)\]/] *)
Definition BOUNDS_REGEX : list Regex.item :=
  let num := Regex.Rep Regex.Digit true true true in
  let lit := fun s => Regex.Lit (list_ascii_of_string s) in
  [lit "["; num; lit ","; num; lit "]"; lit "["; num; lit ","; num; lit "]"].

Definition MAX_TEXT_LENGTH : nat := 50.

Definition parseBounds (boundsStr : string) : option Bounds :=
  match Regex.exec BOUNDS_REGEX boundsStr with
  | None => None
  | Some m =>
      let x1 := JS.parseInt (Regex.group 0 m) in
      let y1 := JS.parseInt (Regex.group 1 m) in
      let x2 := JS.parseInt (Regex.group 2 m) in
      let y2 := JS.parseInt (Regex.group 3 m) in
      Some {| x1 := x1; y1 := y1; x2 := x2; y2 := y2;
              centerX := JS.roundHalf (JS.add x1 x2);
              centerY := JS.roundHalf (JS.add y1 y2) |}
  end.

Definition truncateText (text : option string) : option string :=
  match text with
  | None => None
  | Some "" => None
  | Some t =>
      let trimmed := JS.trim t in
      if (String.length trimmed =? 0)%nat then None
      else if (String.length trimmed <=? MAX_TEXT_LENGTH)%nat then Some trimmed
      else Some (JS.slice0 MAX_TEXT_LENGTH trimmed +:+ "...")
  end.

(** The attributes of a node: [Record<string, string>]. *)
Abbreviation Attrs := (gmap string string).

Definition hasIdentifiableContent (attrs : Attrs) : bool :=
  JS.truthy (attrs !! "resource-id")
  || JS.truthy (attrs !! "text")
  || JS.truthy (attrs !! "content-desc").

Definition isVisible (attrs : Attrs) : bool :=
  if decide (attrs !! "displayed" = Some "false") then false
  else
    match parseBounds (JS.orElse (attrs !! "bounds") "") with
    | None => false
    | Some bounds =>
        if JS.atMostZero (JS.sub (x2 bounds) (x1 bounds))
           || JS.atMostZero (JS.sub (y2 bounds) (y1 bounds))
        then false
        else true
    end.

(** What the XML parser returns in [preserveOrder] mode: an array of
    nodes.  A node that is an object has an optional [":@"] member (the
    attribute wrapper, itself holding an optional [":@"] attribute
    record) and its other members in key order, each either an array of
    nodes or some other value.  Anything else in the array is skipped. *)
#[warnings="-register-all"]
Inductive XmlNode :=
| XOther
| XObject (attrWrapper : option (option Attrs))
          (members : list (string * option (list XmlNode))).

(** [attrWrapper?.[":@"] || {}] *)
Definition attrsOf (attrWrapper : option (option Attrs)) : Attrs :=
  match attrWrapper with
  | Some (Some a) => a
  | _ => ∅
  end.

(** The object literal pushed for a node. *)
Definition prunedOf (attrs : Attrs) (bounds : Bounds) : PrunedElement :=
  {| resourceId := JS.orNull (attrs !! "resource-id");
     text := truncateText (attrs !! "text");
     contentDesc := truncateText (attrs !! "content-desc");
     className := JS.orElse (attrs !! "class") "unknown";
     bounds := bounds;
     clickable := bool_decide (attrs !! "clickable" = Some "true");
     enabled := negb (bool_decide (attrs !! "enabled" = Some "false")) |}.

(** The first half of the loop body: what the node itself adds. *)
Definition visitNode (attrs : Attrs) (elements : list PrunedElement)
  : list PrunedElement :=
  if JS.truthy (attrs !! "bounds") && isVisible attrs then
    match parseBounds (JS.orElse (attrs !! "bounds") "") with
    | Some bounds =>
        if hasIdentifiableContent attrs
           || bool_decide (attrs !! "clickable" = Some "true")
        then elements ++ [prunedOf attrs bounds]
        else elements
    | None => elements
    end
  else elements.

(** [extractElements] on one node; [elements] is the array being filled
    and the result is that array after the call.  (The recursion is
    taken to stay within the call stack: a tree nested too deep for it
    makes the source throw, and [parseAndroidXml] answer the empty
    array.) *)
Fixpoint extractNode (node : XmlNode) (elements : list PrunedElement)
  : list PrunedElement :=
  match node with
  | XOther => elements
  | XObject attrWrapper members =>
      fold_left
        (fun acc member =>
           match snd member with
           | Some children =>
               fold_left (fun acc' child => extractNode child acc')
                         children acc
           | None => acc
           end)
        members
        (visitNode (attrsOf attrWrapper) elements)
  end.

Definition extractElements (nodes : list XmlNode)
           (elements : list PrunedElement) : list PrunedElement :=
  fold_left (fun acc node => extractNode node acc) nodes elements.

(** [parseAndroidXml], over the XML parser of the library. *)
Definition parseAndroidXml
           (XMLParser_parse : string -> JS.outcome (list XmlNode))
           (xml : string) : list PrunedElement :=
  match XMLParser_parse xml with
  | inr parsed => extractElements parsed []
  | inl _ => []
  end.

(** One line of [formatElementsForPrompt]. *)
Definition formatElement (idx : nat) (el : PrunedElement) : string :=
  JS.join " "
    (["[" +:+ JS.showZ (Z.of_nat idx) +:+ "]"]
     ++ (if JS.truthy (text el)
         then ["text=" +:+ JS.quoted (JS.orElse (text el) "")] else [])
     ++ (if JS.truthy (contentDesc el)
         then ["desc=" +:+ JS.quoted (JS.orElse (contentDesc el) "")] else [])
     ++ (if JS.truthy (resourceId el)
         then
           let id := JS.orElse (resourceId el) "" in
           let shortId := JS.orElse (Some (JS.lastSegment "/" id)) id in
           ["id=" +:+ JS.quoted shortId]
         else [])
     ++ ["class=" +:+ JS.quoted (JS.lastSegment "." (className el))]
     ++ ["center=(" +:+ JS.showNumber (centerX (bounds el)) +:+ ","
         +:+ JS.showNumber (centerY (bounds el)) +:+ ")"]
     ++ (if clickable el then ["clickable"] else [])
     ++ (if enabled el then [] else ["disabled"])).

Definition formatElementsForPrompt (elements : list PrunedElement) : string :=
  match elements with
  | [] => "(No UI elements detected)"
  | _ => JS.join JS.newline (imap formatElement elements)
  end.

End XmlParser.

(* ================================================================== *)
(** * Computations that mutate objects and may throw *)
(* ================================================================== *)

Module Eff.

(** A computation over a mutable store [S]: the thrown value or the
    result, and the store afterwards. *)
Definition M (S A : Type) : Type := S -> JS.outcome A * S.

Definition ret {S A} (a : A) : M S A := fun s => (inr a, s).

Definition throw {S A} (e : JS.Thrown) : M S A := fun s => (inl e, s).

Definition bind {S A B} (c : M S A) (k : A -> M S B) : M S B :=
  fun s =>
    match c s with
    | (inr a, s') => k a s'
    | (inl e, s') => (inl e, s')
    end.

(** [try { c } catch (e) { h e }] *)
Definition tryCatch {S A} (c : M S A) (h : JS.Thrown -> M S A) : M S A :=
  fun s =>
    match c s with
    | (inr a, s') => (inr a, s')
    | (inl e, s') => h e s'
    end.

Definition gets {S A} (f : S -> A) : M S A := fun s => (inr (f s), s).

Definition modify {S} (f : S -> S) : M S unit := fun s => (inr tt, f s).

(** [throw new Error(msg)] *)
Definition throwError {S A} (msg : string) : M S A :=
  throw (JS.ErrorObj msg).

End Eff.

Notation "'do' x <- c ;; k" := (Eff.bind c (fun x => k))
  (at level 10, x name, c at level 99, k at level 200).
Notation "'run' c ;; k" := (Eff.bind c (fun _ => k))
  (at level 10, c at level 99, k at level 200).

(* ================================================================== *)
(** * drivers/types.ts: the device-driver capability set *)
(* ================================================================== *)

Module Driver.

Record ElementResult := {
  found : bool;
  x : option Z;
  y : option Z;
  width : option Z;
  height : option Z;
  text : option string;
  error : option string;
}.

Inductive LocatorStrategy :=
| accessibilityId (value : string)
| resourceId (value : string)
| text_ (value : string)
| xpath (value : string)
| coordinates (x y : Z).

(** The driver, over the outside world [W] it acts on.  Every method is
    asynchronous and may reject.  ([findByText] is only ever called
    without its optional [exact] argument.) *)
Record IMobileDriver (W : Type) := {
  getScreenshot : Eff.M W string;
  getPageSource : Eff.M W string;
  tap : Z -> Z -> Eff.M W unit;
  type : string -> Eff.M W unit;
  swipe : Types.SwipeDirection -> Z -> Eff.M W unit;
  waitFor : Z -> Eff.M W unit;
  findByAccessibilityId : string -> Eff.M W ElementResult;
  findByResourceId : string -> Eff.M W ElementResult;
  findByText : string -> Eff.M W ElementResult;
}.

Arguments getScreenshot {W}.
Arguments getPageSource {W}.
Arguments tap {W}.
Arguments type {W}.
Arguments swipe {W}.
Arguments waitFor {W}.
Arguments findByAccessibilityId {W}.
Arguments findByResourceId {W}.
Arguments findByText {W}.

End Driver.

(* ================================================================== *)
(** * utils/hybrid-locator.ts *)
(* ================================================================== *)

Module HybridLocator.

(** ["selector" | "vision" | "none"]; an event only ever carries one of
    the first two. *)
Inductive Method := selector | vision | none.

Definition methodName (m : Method) : string :=
  match m with
  | selector => "selector" | vision => "vision" | none => "none"
  end.

Record HealingEvent := {
  timestamp : Z;
  attemptedLocator : Driver.LocatorStrategy;
  success : bool;
  method : Method;
  coordinates : option (Z * Z);
  error : option string;
  healingTriggered : bool;
}.

Record HybridLocateResult := {
  r_found : bool;
  r_x : option Z;
  r_y : option Z;
  r_method : Method;
  r_healingTriggered : bool;
  r_error : option string;
}.

(** [(elementDescription, screenshot) => Promise<{x, y} | null>] *)
Definition VisionFallbackFn (W : Type) : Type :=
  string -> string -> Eff.M W (option (Z * Z)).

(** The object: its two mutable fields, and the world its driver acts
    on.  (The [driver] field is never reassigned.) *)
Record State (W : Type) := {
  healingLog : list HealingEvent;
  visionFallback : option (VisionFallbackFn W);
  world : W;
}.

Arguments healingLog {W}.
Arguments visionFallback {W}.
Arguments world {W}.

Record Stats := {
  totalAttempts : nat;
  selectorSuccesses : nat;
  visionSuccesses : nat;
  failures : nat;
  healingRate : Q;
}.

(** The object after its driver has acted on the world. *)
Definition withWorld {W} (st : State W) (w : W) : State W :=
  {| healingLog := healingLog st;
     visionFallback := visionFallback st;
     world := w |}.

(** The object after [this.healingLog.push(event)]. *)
Definition pushed {W} (st : State W) (event : HealingEvent) : State W :=
  {| healingLog := healingLog st ++ [event];
     visionFallback := visionFallback st;
     world := world st |}.

Definition isSelector (m : Method) : bool :=
  match m with selector => true | _ => false end.

Definition isVision (m : Method) : bool :=
  match m with vision => true | _ => false end.

Section WithDriver.
Context {W : Type}.
Variable driver : Driver.IMobileDriver W.
(** [new Date()], read from the world. *)
Variable Date_now : W -> Z.

Definition M := Eff.M (State W).

(** A call through [this.driver] or to the fallback: it acts on the
    world and leaves the fields alone. *)
Definition onWorld {A} (c : Eff.M W A) : M A :=
  fun st => let (r, w') := c (world st) in (r, withWorld st w').

(** [new HybridLocator(driver, visionFallback)] *)
Definition new (fallback : option (VisionFallbackFn W)) (w : W) : State W :=
  {| healingLog := []; visionFallback := fallback; world := w |}.

Definition setVisionFallback (fn : VisionFallbackFn W) : M unit :=
  Eff.modify (fun st =>
    {| healingLog := healingLog st;
       visionFallback := Some fn;
       world := world st |}).

Definition getHealingLog : M (list HealingEvent) := Eff.gets healingLog.

Definition clearHealingLog : M unit :=
  Eff.modify (fun st =>
    {| healingLog := [];
       visionFallback := visionFallback st;
       world := world st |}).

(** [this.healingLog.push(event)] (the console line is not modelled). *)
Definition logEvent (event : HealingEvent) : M unit :=
  Eff.modify (fun st => pushed st event).

Definition trySelector (locator : Driver.LocatorStrategy)
  : M Driver.ElementResult :=
  match locator with
  | Driver.accessibilityId value =>
      onWorld (Driver.findByAccessibilityId driver value)
  | Driver.resourceId value =>
      onWorld (Driver.findByResourceId driver value)
  | Driver.text_ value =>
      onWorld (Driver.findByText driver value)
  | Driver.xpath _ =>
      Eff.ret {| Driver.found := false;
                 Driver.x := None; Driver.y := None;
                 Driver.width := None; Driver.height := None;
                 Driver.text := None;
                 Driver.error :=
                   Some "XPath requires direct driver access" |}
  | Driver.coordinates x y =>
      Eff.ret {| Driver.found := true;
                 Driver.x := Some x; Driver.y := Some y;
                 Driver.width := None; Driver.height := None;
                 Driver.text := None;
                 Driver.error := None |}
  end.

Definition now : M Z := Eff.gets (fun st => Date_now (world st)).

(** Step 2 of [locate]: the [if (this.visionFallback) { try ... }]
    block.  [Some r] when the block returned [r] from [locate],
    [None] when control falls out of it. *)
Definition tryVision (locator : Driver.LocatorStrategy)
           (elementDescription : string)
  : M (option HybridLocateResult) :=
  do fallback <- Eff.gets visionFallback ;;
  match fallback with
  | None => Eff.ret None
  | Some fn =>
      Eff.tryCatch
        (do screenshot <- onWorld (Driver.getScreenshot driver) ;;
         do visionResult <- onWorld (fn elementDescription screenshot) ;;
         match visionResult with
         | Some (vx, vy) =>
             do t <- now ;;
             run logEvent {| timestamp := t;
                         attemptedLocator := locator;
                         success := true;
                         method := vision;
                         coordinates := Some (vx, vy);
                         error := None;
                         healingTriggered := true |} ;;
             Eff.ret (Some {| r_found := true;
                              r_x := Some vx; r_y := Some vy;
                              r_method := vision;
                              r_healingTriggered := true;
                              r_error := None |})
         | None => Eff.ret None
         end)
        (fun _ => Eff.ret None)
  end.

Definition locate (locator : Driver.LocatorStrategy)
           (elementDescription : string) : M HybridLocateResult :=
  do selectorResult <- trySelector locator ;;
  match Driver.found selectorResult,
        Driver.x selectorResult, Driver.y selectorResult with
  | true, Some sx, Some sy =>
      do t <- now ;;
      run logEvent {| timestamp := t;
                  attemptedLocator := locator;
                  success := true;
                  method := selector;
                  coordinates := Some (sx, sy);
                  error := None;
                  healingTriggered := false |} ;;
      Eff.ret {| r_found := true;
                 r_x := Some sx; r_y := Some sy;
                 r_method := selector;
                 r_healingTriggered := false;
                 r_error := None |}
  | _, _, _ =>
      do healed <- tryVision locator elementDescription ;;
      match healed with
      | Some r => Eff.ret r
      | None =>
          do t <- now ;;
          do fallback <- Eff.gets visionFallback ;;
          run logEvent {| timestamp := t;
                      attemptedLocator := locator;
                      success := false;
                      method := selector;
                      coordinates := None;
                      error := Driver.error selectorResult;
                      healingTriggered := bool_decide (is_Some fallback) |} ;;
          Eff.ret {| r_found := false;
                     r_x := None; r_y := None;
                     r_method := none;
                     r_healingTriggered := bool_decide (is_Some fallback);
                     r_error :=
                       Some (JS.orElse (Driver.error selectorResult)
                                       "Element not found") |}
      end
  end.

Definition locateAndTap (locator : Driver.LocatorStrategy)
           (elementDescription : string) : M (Z * Z * Method) :=
  do result <- locate locator elementDescription ;;
  match r_found result, r_x result, r_y result with
  | true, Some rx, Some ry =>
      run onWorld (Driver.tap driver rx ry) ;;
      Eff.ret (rx, ry, r_method result)
  | _, _, _ =>
      Eff.throwError
        ("Failed to locate element: " +:+ elementDescription +:+ ". "
         +:+ JS.orElse (r_error result) "")
  end.

Definition locateAndType (locator : Driver.LocatorStrategy)
           (elementDescription : string) (text : string)
  : M (Z * Z * Method) :=
  do tapResult <- locateAndTap locator elementDescription ;;
  run onWorld (Driver.waitFor driver 200) ;;
  run onWorld (Driver.type driver text) ;;
  Eff.ret tapResult.

End WithDriver.

Definition count (p : HealingEvent -> bool) (log : list HealingEvent) : nat :=
  length (filter (fun e => p e = true) log).

(** [getHealingStats], a read of the log. *)
Definition getHealingStats (log : list HealingEvent) : Stats :=
  let total := length log in
  let selectorSuccesses :=
    count (fun e => success e && isSelector (method e)) log in
  let visionSuccesses :=
    count (fun e => success e && isVision (method e)) log in
  let failures := count (fun e => negb (success e)) log in
  {| totalAttempts := total;
     selectorSuccesses := selectorSuccesses;
     visionSuccesses := visionSuccesses;
     failures := failures;
     healingRate :=
       if (0 <? total)%nat
       then (inject_Z (Z.of_nat visionSuccesses) / inject_Z (Z.of_nat total))%Q
       else 0%Q |}.

End HybridLocator.

(* ================================================================== *)
(** * state.ts: the agent state and its reducers *)
(* ================================================================== *)

Module State.

Record AgentState := {
  screenshot : string;
  uiTree : list Types.PrunedElement;
  goal : string;
  actionHistory : list string;
  retryCount : Z;
  errors : list string;
  isComplete : bool;
  lastAction : option Types.ReasonerOutput;
  iteration : Z;
}.

(** [Partial<AgentStateType>]: what a node returns.  A field is [None]
    when the returned object has no such key. *)
Record Patch := {
  p_screenshot : option string;
  p_uiTree : option (list Types.PrunedElement);
  p_goal : option string;
  p_actionHistory : option (list string);
  p_retryCount : option Z;
  p_errors : option (list string);
  p_isComplete : option bool;
  p_lastAction : option (option Types.ReasonerOutput);
  p_iteration : option Z;
}.

(** [{}] *)
Definition emptyPatch : Patch :=
  {| p_screenshot := None; p_uiTree := None; p_goal := None;
     p_actionHistory := None; p_retryCount := None; p_errors := None;
     p_isComplete := None; p_lastAction := None; p_iteration := None |}.

Definition initial : AgentState :=
  {| screenshot := ""; uiTree := []; goal := ""; actionHistory := [];
     retryCount := 0; errors := []; isComplete := false;
     lastAction := None; iteration := 0 |}.

(** A key of the patch is folded into the state with the reducer of its
    channel; a key the patch does not have leaves the channel alone. *)
Definition reduce {A B} (reducer : A -> B -> A) (prev : A) (next : option B) : A :=
  match next with
  | Some n => reducer prev n
  | None => prev
  end.

Definition replace {A} (_ next : A) : A := next.

Definition applyPatch (s : AgentState) (p : Patch) : AgentState :=
  {| screenshot := reduce replace (screenshot s) (p_screenshot p);
     uiTree := reduce replace (uiTree s) (p_uiTree p);
     goal := reduce replace (goal s) (p_goal p);
     actionHistory :=
       reduce (fun prev next => prev ++ next)
              (actionHistory s) (p_actionHistory p);
     retryCount := reduce replace (retryCount s) (p_retryCount p);
     errors :=
       reduce (fun prev next => prev ++ next) (errors s) (p_errors p);
     isComplete := reduce replace (isComplete s) (p_isComplete p);
     lastAction := reduce replace (lastAction s) (p_lastAction p);
     iteration :=
       reduce (fun prev next => if next =? 0 then 0 else prev + 1)
              (iteration s) (p_iteration p) |}.

End State.

(* ================================================================== *)
(** * graph.ts: the router; index.ts: the outcome of a run *)
(* ================================================================== *)

Module Graph.

Definition MAX_RETRIES : Z := 3.
Definition MAX_ITERATIONS : Z := 15.

(** ["continue" | "end"] *)
Inductive Route := RouteContinue | RouteEnd.

Definition routeName (r : Route) : string :=
  match r with
  | RouteContinue => "continue"
  | RouteEnd => "end"
  end.

Definition router (state : State.AgentState) : Route :=
  if State.isComplete state then RouteEnd
  else if MAX_RETRIES <=? State.retryCount state then RouteEnd
  else if MAX_ITERATIONS <=? State.iteration state then RouteEnd
  else RouteContinue.

Inductive FinalState := completed | failed | max_retries.

(** The [finalState] field computed by [runAutomation]. *)
Definition finalStateOf (s : State.AgentState) : FinalState :=
  if State.isComplete s then completed
  else if 3 <=? State.retryCount s then max_retries
  else failed.

End Graph.

(* ================================================================== *)
(** * nodes/observer.ts *)
(* ================================================================== *)

Module Observer.

Section WithDriver.
Context {W : Type}.
Variable driver : Driver.IMobileDriver W.
Variable XMLParser_parse : string -> JS.outcome (list XmlParser.XmlNode).

(** [Promise.all([a, b])]: both calls are started, in this order; it
    rejects when one of them does.  (When both reject, which reason
    wins depends on timing; the model takes the first.) *)
Definition Promise_all2 {A B} (a : Eff.M W A) (b : Eff.M W B)
  : Eff.M W (A * B) :=
  fun w =>
    let (ra, w1) := a w in
    let (rb, w2) := b w1 in
    match ra, rb with
    | inr va, inr vb => (inr (va, vb), w2)
    | inl e, _ => (inl e, w2)
    | _, inl e => (inl e, w2)
    end.

(** The two captures of the [try] block. *)
Definition capture : Eff.M W (string * string) :=
  Promise_all2 (Driver.getScreenshot driver) (Driver.getPageSource driver).

Definition tryBlock : Eff.M W State.Patch :=
  do captured <- capture ;;
  let screenshot := fst captured in
  let pageSource := snd captured in
  let uiTree := XmlParser.parseAndroidXml XMLParser_parse pageSource in
  Eff.ret {| State.p_screenshot := Some screenshot;
             State.p_uiTree := Some uiTree;
             State.p_goal := None;
             State.p_actionHistory := None;
             State.p_retryCount := None;
             State.p_errors := None;
             State.p_isComplete := None;
             State.p_lastAction := None;
             State.p_iteration := Some 1 |}.

(** The patch of the [catch] block. *)
Definition failurePatch (errorMessage : string) : State.Patch :=
  {| State.p_screenshot := None;
     State.p_uiTree := None;
     State.p_goal := None;
     State.p_actionHistory := None;
     State.p_retryCount := None;
     State.p_errors := Some [errorMessage];
     State.p_isComplete := None;
     State.p_lastAction := None;
     State.p_iteration := None |}.

Definition observer (_state : State.AgentState) : Eff.M W State.Patch :=
  Eff.tryCatch
    tryBlock
    (fun error =>
       let errorMessage := JS.messageOr "Unknown observer error" error in
       Eff.ret (failurePatch errorMessage)).

End WithDriver.

End Observer.

(* ================================================================== *)
(** * types.ts: the Zod schema of the reasoner's output *)
(* ================================================================== *)

Module Schema.
Import Types.

(** A value returned by [JSON.parse].  An object lists its own
    properties in order, each name once; reading a property that is
    not there gives [undefined]. *)
#[warnings="-register-all"]
Inductive JSON :=
| JNull
| JBool (b : bool)
| JNum (n : Z)
| JStr (s : string)
| JArr (items : list JSON)
| JObj (members : list (string * JSON)).

(** [obj[key]] *)
Fixpoint prop (key : string) (members : list (string * JSON)) : option JSON :=
  match members with
  | [] => None
  | (k, v) :: rest => if String.eqb k key then Some v else prop key rest
  end.

(** [z.string()] *)
Definition zString (j : JSON) : option string :=
  match j with JStr s => Some s | _ => None end.

(** [z.number()] *)
Definition zNumber (j : JSON) : option Z :=
  match j with JNum n => Some n | _ => None end.

(** [z.enum([...])]: a string equal to one of the listed names. *)
Definition zEnum {A} (name : A -> string) (members : list A) (j : JSON)
  : option A :=
  match j with
  | JStr s => find (fun a => String.eqb (name a) s) members
  | _ => None
  end.

(** [schema.optional()]: [undefined] passes as it is. *)
Definition zOptional {A} (schema : JSON -> option A) (j : option JSON)
  : option (option A) :=
  match j with
  | None => Some None
  | Some v => Some <$> schema v
  end.

(** [schema.optional().default(d)]: [undefined] is replaced by [d]. *)
Definition zDefault {A} (schema : JSON -> option A) (d : A) (j : option JSON)
  : option A :=
  match j with
  | None => Some d
  | Some v => schema v
  end.

(** A required key: [undefined] is handed to the schema, which rejects it. *)
Definition zRequired {A} (schema : JSON -> option A) (j : option JSON)
  : option A :=
  match j with
  | None => None
  | Some v => schema v
  end.

Definition SelectorHintSchema (j : JSON) : option SelectorHint :=
  match j with
  | JObj o =>
      t ← zRequired (zEnum selectorTypeName selectorTypeEnum) (prop "type" o);
      v ← zOptional zString (prop "value" o);
      x ← zOptional zNumber (prop "x" o);
      y ← zOptional zNumber (prop "y" o);
      Some {| sel_type := t; sel_value := v; sel_x := x; sel_y := y |}
  | _ => None
  end.

Definition ParamsSchema (j : JSON) : option ActionParams :=
  match j with
  | JObj o =>
      x ← zOptional zNumber (prop "x" o);
      y ← zOptional zNumber (prop "y" o);
      text ← zOptional zString (prop "text" o);
      direction ← zOptional (zEnum directionName directionEnum)
                            (prop "direction" o);
      duration ← zOptional zNumber (prop "duration" o);
      selector ← zOptional SelectorHintSchema (prop "selector" o);
      elementDescription ← zOptional zString (prop "elementDescription" o);
      Some {| p_x := x; p_y := y; p_text := text;
              p_direction := direction; p_duration := duration;
              p_selector := selector;
              p_elementDescription := elementDescription |}
  | _ => None
  end.

(** [{}] seen through the parameter schema. *)
Definition noParams : ActionParams :=
  {| p_x := None; p_y := None; p_text := None; p_direction := None;
     p_duration := None; p_selector := None;
     p_elementDescription := None |}.

(** [ReasonerOutputSchema.parse]; [None] when it throws a [ZodError]. *)
Definition ReasonerOutputSchema (j : JSON) : option ReasonerOutput :=
  match j with
  | JObj o =>
      thought ← zRequired zString (prop "thought" o);
      action ← zRequired (zEnum actionName actionEnum) (prop "action" o);
      params ← zDefault ParamsSchema noParams (prop "params" o);
      targetElement ← zDefault zString "unknown" (prop "targetElement" o);
      Some {| thought := thought; action := action; params := params;
              targetElement := targetElement |}
  | _ => None
  end.

End Schema.

(* ================================================================== *)
(** * nodes/reasoner.ts *)
(* ================================================================== *)

Module Reasoner.

Definition MAX_RETRIES : Z := 3.

Definition lit (s : string) : Regex.item := Regex.Lit (list_ascii_of_string s).

(** [/```(?:json)?\s*([\s\S]*?)```/] *)
Definition FENCE_REGEX : list Regex.item :=
  [ lit "```";
    Regex.Opt (list_ascii_of_string "json");
    Regex.Rep Regex.Space false true false;
    Regex.Rep Regex.AnyChar false false true;
    lit "```" ].

(** [/\{[\s\S]*\}/] *)
Definition OBJECT_REGEX : list Regex.item :=
  [ lit "{"; Regex.Rep Regex.AnyChar false true false; lit "}" ].

(** The text handed to [JSON.parse]. *)
Definition extractJson (text : string) : string :=
  match Regex.exec FENCE_REGEX text with
  | Some jsonMatch =>
      JS.trim (string_of_list_ascii (Regex.group 0 jsonMatch))
  | None =>
      match Regex.exec OBJECT_REGEX text with
      | Some objectMatch => string_of_list_ascii (Regex.whole objectMatch)
      | None => JS.trim text
      end
  end.

Definition buildUserPrompt (state : State.AgentState) : string :=
  JS.join JS.newline
    (["GOAL: " +:+ State.goal state; ""]
     ++ (match State.actionHistory state with
         | [] => []
         | _ =>
             ["PREVIOUS ACTIONS:"]
             ++ imap (fun i action =>
                        "  " +:+ JS.showZ (Z.of_nat i + 1) +:+ ". " +:+ action)
                     (JS.lastN 5 (State.actionHistory state))
             ++ [""]
         end)
     ++ (match State.errors state with
         | [] => []
         | _ =>
             ["RECENT ERRORS (self-healing context):"]
             ++ map (fun error => "  - " +:+ error)
                    (JS.lastN 3 (State.errors state))
             ++ ["Retry count: " +:+ JS.showZ (State.retryCount state)
                 +:+ "/" +:+ JS.showZ MAX_RETRIES; ""]
         end)
     ++ ["UI ELEMENTS ("
         +:+ JS.showZ (Z.of_nat (length (State.uiTree state)))
         +:+ " elements):";
         XmlParser.formatElementsForPrompt (State.uiTree state);
         "";
         "Analyze the screenshot and elements above, then provide your next action as JSON only."]).

Section WithJSON.
(** [JSON.parse], and the message of the [ZodError] thrown for a
    value the schema rejects: both belong to libraries. *)
Variable JSON_parse : string -> JS.outcome Schema.JSON.
Variable ZodError_message : Schema.JSON -> string.

Definition parseReasonerResponse (text : string)
  : JS.outcome Types.ReasonerOutput :=
  match JSON_parse (extractJson text) with
  | inl e => inl e
  | inr parsed =>
      match Schema.ReasonerOutputSchema parsed with
      | Some output => inr output
      | None => inl (JS.ErrorObj (ZodError_message parsed))
      end
  end.

(** The reply of the chat endpoint, as the node reads it:
    [response.ok], [response.status], [await response.text()] and
    [(await response.json()).message?.content]. *)
Record Response := {
  ok : bool;
  status : Z;
  textBody : JS.outcome string;
  content : JS.outcome (option string);
}.

Context {W : Type}.
(** [fetch] to the chat endpoint with the user prompt and the
    screenshot (host, model and system prompt are constants). *)
Variable fetchChat : string -> string -> Eff.M W Response.

Definition liftOutcome {A} (r : JS.outcome A) : Eff.M W A :=
  fun w => (r, w).

Definition tryBlock (state : State.AgentState) : Eff.M W State.Patch :=
  if State.isComplete state then Eff.ret State.emptyPatch
  else
    let userPrompt := buildUserPrompt state in
    do response <- fetchChat userPrompt (State.screenshot state) ;;
    run (if ok response then Eff.ret tt
         else
           do errorText <- liftOutcome (textBody response) ;;
           Eff.throwError
             ("Ollama API error: " +:+ JS.showZ (status response)
              +:+ " - " +:+ errorText)) ;;
    do content <- liftOutcome (content response) ;;
    if JS.truthy content then
      do action <- liftOutcome
                     (parseReasonerResponse (JS.orElse content "")) ;;
      Eff.ret {| State.p_screenshot := None;
                 State.p_uiTree := None;
                 State.p_goal := None;
                 State.p_actionHistory := None;
                 State.p_retryCount := None;
                 State.p_errors := None;
                 State.p_isComplete := None;
                 State.p_lastAction := Some (Some action);
                 State.p_iteration := None |}
    else Eff.throwError "No content in Ollama response".

(** The patch of the [catch] block. *)
Definition failurePatch (state : State.AgentState) (errorMessage : string)
  : State.Patch :=
  {| State.p_screenshot := None;
     State.p_uiTree := None;
     State.p_goal := None;
     State.p_actionHistory := None;
     State.p_retryCount := Some (State.retryCount state + 1);
     State.p_errors := Some [errorMessage];
     State.p_isComplete := None;
     State.p_lastAction := None;
     State.p_iteration := None |}.

Definition reasoner (state : State.AgentState) : Eff.M W State.Patch :=
  Eff.tryCatch
    (tryBlock state)
    (fun error =>
       let errorMessage := JS.messageOr "Unknown reasoner error" error in
       Eff.ret (failurePatch state errorMessage)).

End WithJSON.

End Reasoner.

(* ================================================================== *)
(** * nodes/executor.ts *)
(* ================================================================== *)

Module Executor.
Import Types.

Definition DEFAULT_WAIT_MS : Z := 500.
Definition DEFAULT_SWIPE_DURATION : Z := 300.

Definition selectorToLocator (selector : SelectorHint)
  : Driver.LocatorStrategy :=
  match sel_type selector with
  | accessibilityId =>
      Driver.accessibilityId (JS.orElse (sel_value selector) "")
  | resourceId_ => Driver.resourceId (JS.orElse (sel_value selector) "")
  | text_ => Driver.text_ (JS.orElse (sel_value selector) "")
  | xpath => Driver.xpath (JS.orElse (sel_value selector) "")
  | coordinates =>
      Driver.coordinates (JS.numOr (sel_x selector) 0)
                         (JS.numOr (sel_y selector) 0)
  end.

(** [action.params.selector && action.params.selector.type !== "coordinates"]:
    the selector hint when the hybrid locator is to be used. *)
Definition hybridSelector (p : ActionParams) : option SelectorHint :=
  match p_selector p with
  | Some selector =>
      match sel_type selector with
      | coordinates => None
      | _ => Some selector
      end
  | None => None
  end.

(** [text.length > 20 ? text.slice(0, 20) + "..." : text] *)
Definition truncatedText (text : string) : string :=
  if (20 <? String.length text)%nat
  then JS.slice0 20 text +:+ "..."
  else text.

Definition point (x y : Z) : string :=
  "(" +:+ JS.showNumber (JS.Finite x) +:+ ", "
  +:+ JS.showNumber (JS.Finite y) +:+ ")".

(** The patches the node returns. *)
Definition successPatch (historyEntry : string) : State.Patch :=
  {| State.p_screenshot := None;
     State.p_uiTree := None;
     State.p_goal := None;
     State.p_actionHistory := Some [historyEntry];
     State.p_retryCount := Some 0;
     State.p_errors := None;
     State.p_isComplete := None;
     State.p_lastAction := None;
     State.p_iteration := None |}.

Definition donePatch (historyEntry : string) : State.Patch :=
  {| State.p_screenshot := None;
     State.p_uiTree := None;
     State.p_goal := None;
     State.p_actionHistory := Some [historyEntry];
     State.p_retryCount := None;
     State.p_errors := None;
     State.p_isComplete := Some true;
     State.p_lastAction := None;
     State.p_iteration := None |}.

Definition failurePatch (state : State.AgentState)
           (action : ReasonerOutput) (errorMessage : string) : State.Patch :=
  {| State.p_screenshot := None;
     State.p_uiTree := None;
     State.p_goal := None;
     State.p_actionHistory :=
       Some ["FAILED: " +:+ actionName (Types.action action)
             +:+ " - " +:+ errorMessage];
     State.p_retryCount := Some (State.retryCount state + 1);
     State.p_errors := Some ["Executor failed: " +:+ errorMessage];
     State.p_isComplete := None;
     State.p_lastAction := None;
     State.p_iteration := None |}.

Section WithDriver.
Context {W : Type}.
Variable driver : Driver.IMobileDriver W.
Variable Date_now : W -> Z.

(** The node closes over one [HybridLocator]; its state is the store
    of the computation. *)
Definition M := Eff.M (HybridLocator.State W).

Definition callDriver {A} (c : Eff.M W A) : M A :=
  HybridLocator.onWorld c.

Definition healedSuffix (m : HybridLocator.Method) : string :=
  if HybridLocator.isVision m then " [HEALED]" else "".

(** [case "click"]: the history entry, or a throw. *)
Definition doClick (action : ReasonerOutput) : M string :=
  match hybridSelector (params action) with
  | Some selector =>
      let locator := selectorToLocator selector in
      let description :=
        JS.orElse3 (p_elementDescription (params action))
                   (Some (targetElement action)) "unknown element" in
      Eff.tryCatch
        (do result <- HybridLocator.locateAndTap
                        driver Date_now locator description ;;
         let '(rx, ry, m) := result in
         Eff.ret ("Clicked " +:+ description +:+ " at " +:+ point rx ry
                  +:+ " via " +:+ HybridLocator.methodName m
                  +:+ healedSuffix m))
        (fun _ =>
           match p_x (params action), p_y (params action) with
           | Some x, Some y =>
               run callDriver (Driver.tap driver x y) ;;
               Eff.ret ("Clicked at " +:+ point x y +:+ " - "
                        +:+ targetElement action
                        +:+ " (fallback to coordinates)")
           | _, _ =>
               Eff.throwError ("Failed to locate element: " +:+ description)
           end)
  | None =>
      match p_x (params action), p_y (params action) with
      | Some x, Some y =>
          run callDriver (Driver.tap driver x y) ;;
          Eff.ret ("Clicked at " +:+ point x y +:+ " - "
                   +:+ targetElement action)
      | _, _ =>
          Eff.throwError
            "Click action requires x and y coordinates or selector hint"
      end
  end.

(** [case "type"] *)
Definition doType (action : ReasonerOutput) : M string :=
  if JS.truthy (p_text (params action)) then
    let text := JS.orElse (p_text (params action)) "" in
    match hybridSelector (params action) with
    | Some selector =>
        let locator := selectorToLocator selector in
        let description :=
          JS.orElse3 (p_elementDescription (params action))
                     (Some (targetElement action)) "input field" in
        Eff.tryCatch
          (do result <- HybridLocator.locateAndType
                          driver Date_now locator description text ;;
           let '(_, _, m) := result in
           Eff.ret ("Typed " +:+ JS.quoted (truncatedText text) +:+ " into "
                    +:+ description +:+ " via "
                    +:+ HybridLocator.methodName m +:+ healedSuffix m))
          (fun _ =>
             run callDriver (Driver.type driver text) ;;
             Eff.ret ("Typed " +:+ JS.quoted (truncatedText text)
                      +:+ " (field already focused)"))
    | None =>
        run callDriver (Driver.type driver text) ;;
        Eff.ret ("Typed " +:+ JS.quoted (truncatedText text) +:+ " into "
                 +:+ targetElement action)
    end
  else Eff.throwError "Type action requires text parameter".

(** [case "swipe": case "scroll"] *)
Definition doSwipe (action : ReasonerOutput) : M string :=
  match p_direction (params action) with
  | Some direction =>
      run callDriver (Driver.swipe driver direction DEFAULT_SWIPE_DURATION) ;;
      Eff.ret ("Scrolled " +:+ directionName direction)
  | None =>
      Eff.throwError "Scroll/swipe action requires direction parameter"
  end.

(** [case "wait"] *)
Definition doWait (action : ReasonerOutput) : M string :=
  let duration := JS.numOr (p_duration (params action)) DEFAULT_WAIT_MS in
  run callDriver (Driver.waitFor driver duration) ;;
  Eff.ret ("Waited " +:+ JS.showNumber (JS.Finite duration) +:+ "ms").

(** The code after the [switch]: wait for the UI to settle, then
    return the patch of a successful action. *)
Definition afterSwitch (entry : M string) : M State.Patch :=
  do historyEntry <- entry ;;
  run callDriver (Driver.waitFor driver DEFAULT_WAIT_MS) ;;
  Eff.ret (successPatch historyEntry).

(** The [try] block.  [case "done"] returns from the node at once; the
    other cases set [historyEntry] and [break].  ([action.action] is
    one of the six names, so the [default] case is not reached.) *)
Definition tryBlock (action : ReasonerOutput) : M State.Patch :=
  match Types.action action with
  | click => afterSwitch (doClick action)
  | type => afterSwitch (doType action)
  | swipe | scroll => afterSwitch (doSwipe action)
  | wait => afterSwitch (doWait action)
  | done => Eff.ret (donePatch ("Goal completed: " +:+ thought action))
  end.

Definition executor (state : State.AgentState) : M State.Patch :=
  match State.lastAction state with
  | None => Eff.ret State.emptyPatch
  | Some action =>
      Eff.tryCatch
        (tryBlock action)
        (fun error =>
           let errorMessage :=
             JS.messageOr "Unknown executor error" error in
           Eff.ret (failurePatch state action errorMessage))
  end.

End WithDriver.

End Executor.


(* ================================================================== *)
(** * A recording driver, for concrete runs *)
(* ================================================================== *)

Module Fixture.

Inductive Call :=
| CTap (x y : Z)
| CType (text : string)
| CSwipe (direction : Types.SwipeDirection) (duration : Z)
| CWaitFor (ms : Z)
| CGetScreenshot
| CGetPageSource
| CFind (locator : Driver.LocatorStrategy).

(** The world of the recording driver: the calls made so far. *)
Definition World : Type := list Call.

Definition record {A} (c : Call) (r : JS.outcome A) : Eff.M World A :=
  fun w => (r, w ++ [c]).

Definition notFound (error : option string) : Driver.ElementResult :=
  {| Driver.found := false; Driver.x := None; Driver.y := None;
     Driver.width := None; Driver.height := None; Driver.text := None;
     Driver.error := error |}.

Definition foundAt (x y : Z) : Driver.ElementResult :=
  {| Driver.found := true; Driver.x := Some x; Driver.y := Some y;
     Driver.width := None; Driver.height := None; Driver.text := None;
     Driver.error := None |}.

(** A driver that records every call; its actions all end as [actions],
    its two captures as [capture] and its lookups as [lookup]. *)
Definition recording (actions : JS.outcome unit)
           (capture : JS.outcome string)
           (lookup : JS.outcome Driver.ElementResult)
  : Driver.IMobileDriver World :=
  {| Driver.getScreenshot := record CGetScreenshot capture;
     Driver.getPageSource := record CGetPageSource capture;
     Driver.tap := fun x y => record (CTap x y) actions;
     Driver.type := fun text => record (CType text) actions;
     Driver.swipe := fun d ms => record (CSwipe d ms) actions;
     Driver.waitFor := fun ms => record (CWaitFor ms) actions;
     Driver.findByAccessibilityId :=
       fun v => record (CFind (Driver.accessibilityId v)) lookup;
     Driver.findByResourceId :=
       fun v => record (CFind (Driver.resourceId v)) lookup;
     Driver.findByText :=
       fun v => record (CFind (Driver.text_ v)) lookup |}.

Definition clock (w : World) : Z := Z.of_nat (length w).

Definition params0 : Types.ActionParams := Schema.noParams.

Definition act (a : Types.MobileAction) (p : Types.ActionParams)
  : Types.ReasonerOutput :=
  {| Types.thought := "next"; Types.action := a; Types.params := p;
     Types.targetElement := "target" |}.

Definition stateWith (retries : Z) (a : option Types.ReasonerOutput)
  : State.AgentState :=
  {| State.screenshot := ""; State.uiTree := []; State.goal := "goal";
     State.actionHistory := []; State.retryCount := retries;
     State.errors := []; State.isComplete := false;
     State.lastAction := a; State.iteration := 1 |}.

(** A click at explicit coordinates. *)
Definition clickAt (x y : Z) : Types.ReasonerOutput :=
  act Types.click
    {| Types.p_x := Some x; Types.p_y := Some y; Types.p_text := None;
       Types.p_direction := None; Types.p_duration := None;
       Types.p_selector := None; Types.p_elementDescription := None |}.

(** A driver whose actions succeed and whose lookups find nothing. *)
Definition calmDriver : Driver.IMobileDriver World :=
  recording (inr tt) (inr "") (inr (notFound None)).

(** A driver that has lost its session: every call rejects. *)
Definition deadDriver : Driver.IMobileDriver World :=
  recording (inl (JS.ErrorObj "Driver not connected"))
            (inl (JS.ErrorObj "Driver not connected"))
            (inl (JS.ErrorObj "Driver not connected")).

Definition noXml (_ : string) : JS.outcome (list XmlParser.XmlNode) := inr [].
Definition noJson (_ : string) : JS.outcome Schema.JSON :=
  inl (JS.ErrorObj "Unexpected end of JSON input").
Definition noZod (_ : Schema.JSON) : string := "invalid".
Definition noChat (_ _ : string) : Eff.M World Reasoner.Response :=
  fun w => (inl (JS.ErrorObj "fetch failed"), w).

(** A driver whose lookups find nothing and give [message] as the reason. *)
Definition blindDriver (message : option string)
  : Driver.IMobileDriver World :=
  recording (inr tt) (inr "") (inr (notFound message)).

End Fixture.

(* ================================================================== *)
(** * utils/vision-fallback.ts: the vision fallback and the session logger *)
(* ================================================================== *)

Module VisionFallback.

(** [/\{[\s\S]*?\}/] *)
Definition JSON_MATCH_REGEX : list Regex.item :=
  [ Reasoner.lit "{"; Regex.Rep Regex.AnyChar false false false;
    Reasoner.lit "}" ].

(** [typeof parsed[key] === "number"], and the number. *)
Definition numberProp (key : string) (parsed : Schema.JSON) : option Z :=
  match parsed with
  | Schema.JObj o =>
      match Schema.prop key o with
      | Some (Schema.JNum n) => Some n
      | _ => None
      end
  | _ => None
  end.

Section WithFetch.
Variable JSON_parse : string -> JS.outcome Schema.JSON.
Context {W : Type}.
(** [fetch] to the chat endpoint with the prompt made from the element
    description, and the screenshot.  The reply is read as the
    Reasoner reads it: [response.ok] and
    [(await response.json()).message?.content]. *)
Variable fetchVision : string -> string -> Eff.M W Reasoner.Response.

(** The [try] block of [visionFallback]. *)
Definition tryBlock (elementDescription screenshot : string)
  : Eff.M W (option (Z * Z)) :=
  do response <- fetchVision elementDescription screenshot ;;
  if Reasoner.ok response then
    do raw <- Reasoner.liftOutcome (Reasoner.content response) ;;
    let content := JS.trim <$> raw in
    if JS.truthy content then
      match Regex.exec JSON_MATCH_REGEX (JS.orElse content "") with
      | None => Eff.ret None
      | Some jsonMatch =>
          do parsed <- Reasoner.liftOutcome
                         (JSON_parse
                            (string_of_list_ascii (Regex.whole jsonMatch))) ;;
          match numberProp "x" parsed, numberProp "y" parsed with
          | Some x, Some y => Eff.ret (Some (x, y))
          | _, _ => Eff.ret None
          end
      end
    else Eff.ret None
  else Eff.ret None.

(** The function [createOllamaVisionFallback] returns. *)
Definition visionFallback : HybridLocator.VisionFallbackFn W :=
  fun elementDescription screenshot =>
    Eff.tryCatch (tryBlock elementDescription screenshot)
                 (fun _ => Eff.ret None).

End WithFetch.

End VisionFallback.

Module HealingLogger.

(** ["selector" | "vision" | "failed"] *)
Inductive Method := selector | vision | failed.

Record HealingEventLog := {
  timestamp : Z;
  elementDescription : string;
  attemptedSelector : option string;
  method : Method;
  coordinates : option (Z * Z);
  durationMs : Z;
}.

Record HealingSummary := {
  sessionId : string;
  startTime : Z;
  endTime : option Z;
  totalLocateAttempts : Z;
  selectorSuccesses : Z;
  visionHealings : Z;
  failures : Z;
  events : list HealingEventLog;
}.

(** [new HealingLogger(sessionId)]; [Date_now] and [startTime] are the
    two readings of the clock. *)
Definition new (sessionId : option string) (Date_now startTime : Z)
  : HealingSummary :=
  {| sessionId := JS.orElse sessionId ("session-" +:+ JS.showZ Date_now);
     startTime := startTime;
     endTime := None;
     totalLocateAttempts := 0;
     selectorSuccesses := 0;
     visionHealings := 0;
     failures := 0;
     events := [] |}.

(** The summary after [logEvent(event)]. *)
Definition logEvent (event : HealingEventLog) (s : HealingSummary)
  : HealingSummary :=
  {| sessionId := sessionId s;
     startTime := startTime s;
     endTime := endTime s;
     totalLocateAttempts := totalLocateAttempts s + 1;
     selectorSuccesses :=
       match method event with
       | selector => selectorSuccesses s + 1
       | _ => selectorSuccesses s
       end;
     visionHealings :=
       match method event with
       | vision => visionHealings s + 1
       | _ => visionHealings s
       end;
     failures :=
       match method event with
       | failed => failures s + 1
       | _ => failures s
       end;
     events := events s ++ [event] |}.

Definition getSummary (now : Z) (s : HealingSummary) : HealingSummary :=
  {| sessionId := sessionId s;
     startTime := startTime s;
     endTime := Some now;
     totalLocateAttempts := totalLocateAttempts s;
     selectorSuccesses := selectorSuccesses s;
     visionHealings := visionHealings s;
     failures := failures s;
     events := events s |}.

(** The two percentages [printSummary] prints (before [toFixed]): the
    healing rate and the overall success rate; none for an empty session. *)
Definition printedRates (s : HealingSummary) : option (Q * Q) :=
  if 0 <? totalLocateAttempts s then
    Some ((inject_Z (visionHealings s) / inject_Z (totalLocateAttempts s)
           * 100)%Q,
          (inject_Z (selectorSuccesses s + visionHealings s)
           / inject_Z (totalLocateAttempts s) * 100)%Q)
  else None.

End HealingLogger.

(* ================================================================== *)
(** * nodes/executor.ts: the executor with access to the healing log *)
(* ================================================================== *)

Module HealingAccess.

Section WithDriver.
Context {W : Type}.
Variable driver : Driver.IMobileDriver W.
Variable Date_now : W -> Z.
Variable visionFallback : option (HybridLocator.VisionFallbackFn W).

(** The store is the [hybridLocator] that [createExecutorWithHealingAccess]
    makes and that its two getters read. *)
Definition M := Eff.M (HybridLocator.State W).

Definition create (w : W) : HybridLocator.State W :=
  HybridLocator.new visionFallback w.

(** [executor]: it makes a node with [createExecutorNode], which makes a
    locator of its own, and calls that node. *)
Definition executor (state : State.AgentState) : M State.Patch :=
  fun own =>
    let node := HybridLocator.new visionFallback (HybridLocator.world own) in
    let (r, node') := Executor.executor driver Date_now state node in
    (r, HybridLocator.withWorld own (HybridLocator.world node')).

Definition getHealingLog : M (list HybridLocator.HealingEvent) :=
  HybridLocator.getHealingLog.

Definition getHealingStats : M HybridLocator.Stats :=
  Eff.gets (fun own =>
              HybridLocator.getHealingStats (HybridLocator.healingLog own)).

End WithDriver.

End HealingAccess.

(* ================================================================== *)
(** * graph.ts: the graph and its run; index.ts: the result of a run *)
(* ================================================================== *)

Module GraphRun.

Inductive Node := observerNode | reasonerNode | executorNode.

(** [initialState] of [runGraph], folded into the channels' defaults. *)
Definition initialState (goal : string) : State.AgentState :=
  {| State.screenshot := "";
     State.uiTree := [];
     State.goal := goal;
     State.actionHistory := [];
     State.retryCount := 0;
     State.errors := [];
     State.isComplete := false;
     State.lastAction := None;
     State.iteration := 0 |}.

(** The edges: observer, reasoner, executor, then the router's choice. *)
Definition next (node : Node) (state : State.AgentState) : option Node :=
  match node with
  | observerNode => Some reasonerNode
  | reasonerNode => Some executorNode
  | executorNode =>
      match Graph.router state with
      | Graph.RouteContinue => Some observerNode
      | Graph.RouteEnd => None
      end
  end.

(** [visionFn] of [createAutomationGraph]. *)
Definition visionFn {W} (enableVisionFallback : bool)
           (visionFallback : option (HybridLocator.VisionFallbackFn W))
           (ollama : HybridLocator.VisionFallbackFn W)
  : option (HybridLocator.VisionFallbackFn W) :=
  if enableVisionFallback
  then Some (match visionFallback with Some fn => fn | None => ollama end)
  else None.

Section WithConfig.
Context {W : Type}.
Variable driver : Driver.IMobileDriver W.
Variable Date_now : W -> Z.
Variable XMLParser_parse : string -> JS.outcome (list XmlParser.XmlNode).
Variable JSON_parse : string -> JS.outcome Schema.JSON.
Variable ZodError_message : Schema.JSON -> string.
Variable fetchChat : string -> string -> Eff.M W Reasoner.Response.
(** What the graph library throws when the step budget runs out. *)
Variable GraphRecursionError : JS.Thrown.

(** The store of a run is the locator the executor node closes over,
    and through it the world. *)
Definition M := Eff.M (HybridLocator.State W).

Definition runNode (node : Node) (state : State.AgentState) : M State.Patch :=
  match node with
  | observerNode =>
      HybridLocator.onWorld (Observer.observer driver XMLParser_parse state)
  | reasonerNode =>
      HybridLocator.onWorld
        (Reasoner.reasoner JSON_parse ZodError_message fetchChat state)
  | executorNode => Executor.executor driver Date_now state
  end.

(** [compiledGraph.invoke]: run [node], fold its patch into the state
    with the reducers, follow the edge; one step of the budget is spent
    on every node run.  The library tests the budget before it looks for
    the nodes to run next, so a run whose last node has used up the
    budget throws as well, although no node is left to run: a run
    returns only when it ends within [recursionLimit - 1] node runs. *)
Fixpoint invoke (recursionLimit : nat) (node : Node)
         (state : State.AgentState) : M State.AgentState :=
  match recursionLimit with
  | O => Eff.throw GraphRecursionError
  | S budget =>
      do patch <- runNode node state ;;
      let state' := State.applyPatch state patch in
      match budget with
      | O => Eff.throw GraphRecursionError
      | S _ =>
          match next node state' with
          | Some node' => invoke budget node' state'
          | None => Eff.ret state'
          end
      end
  end.

Definition runGraph (goal : string) : M State.AgentState :=
  invoke (Z.to_nat (Graph.MAX_ITERATIONS * 3)) observerNode
         (initialState goal).

End WithConfig.

(** [ExecutionResult], as [runAutomation] builds it from the final state. *)
Record ExecutionResult := {
  success : bool;
  goal : string;
  actionHistory : list string;
  finalState : Graph.FinalState;
  errors : list string;
}.

Definition resultOf (goal : string) (finalState : State.AgentState)
  : ExecutionResult :=
  {| success := State.isComplete finalState;
     goal := goal;
     actionHistory := State.actionHistory finalState;
     finalState := Graph.finalStateOf finalState;
     errors := State.errors finalState |}.

End GraphRun.

(* ================================================================== *)
(** * drivers/android.driver.ts: the mock driver *)
(* ================================================================== *)

Module MockDriver.

Record MockScreen := {
  name : string;
  screenshot : string;
  xml : string;
}.

(** The [type] and [params] of an entry of [actionLog]. *)
Inductive Action :=
| LConnect
| LDisconnect
| LGetScreenshot
| LGetPageSource
| LTap (x y : Z)
| LType (text : string)
| LSwipe (direction : Types.SwipeDirection) (duration : Z)
| LPressKey (key : string)
| LWaitFor (ms : Z)
| LFindByAccessibilityId (id : string)
| LFindByResourceId (id : string)
| LFindByText (text : string) (exact : bool).

Record Entry := { action : Action; timestamp : Z }.

(** The fields of the object.  The index is a number: [setScreen]
    stores what it is given. *)
Record Mock := {
  screens : list MockScreen;
  currentScreenIndex : Q;
  connected : bool;
  actionLog : list Entry;
}.

(** [a < b] on numbers. *)
Definition lessThan (a b : Q) : bool := negb (Qle_bool b a).

(** [arr[index]]: an array has its elements at the whole indexes from 0;
    at any other number it has [undefined]. *)
Definition elementAt {A} (arr : list A) (index : Q) : option A :=
  if Qle_bool 0 index && Qeq_bool index (inject_Z (Qfloor index))
  then nth_error arr (Z.to_nat (Qfloor index))
  else None.

(** [s.includes(needle)] *)
Fixpoint includesAt (needle hay : list ascii) : bool :=
  match Regex.stripPrefix needle hay with
  | Some _ => true
  | None =>
      match hay with
      | [] => false
      | _ :: hay' => includesAt needle hay'
      end
  end.

Definition includes (needle s : string) : bool :=
  includesAt (list_ascii_of_string needle) (list_ascii_of_string s).

(** [s.toLowerCase()], on the code units below 256. *)
Definition lowerChar (c : ascii) : ascii :=
  let n := nat_of_ascii c in
  if ((65 <=? n)%nat && (n <=? 90)%nat)
     || ((192 <=? n)%nat && (n <=? 222)%nat && negb (n =? 215)%nat)
  then ascii_of_nat (n + 32)
  else c.

Definition toLowerCase (s : string) : string :=
  string_of_list_ascii (map lowerChar (list_ascii_of_string s)).

(** The own properties of [resourceMap] and of [textMap], in order. *)
Definition resourceMap : list (string * (Z * Z * option string)) :=
  [ ("com.app:id/username", (540, 450, None));
    ("com.app:id/password", (540, 600, None));
    ("com.app:id/login_button", (540, 800, Some "Login"));
    ("com.app:id/welcome", (540, 250, Some "Welcome, User!"));
    ("com.app:id/logout_button", (540, 450, Some "Logout")) ].

Definition textMap : list (string * (Z * Z)) :=
  [ ("Login", (540, 800)); ("Logout", (540, 450));
    ("Welcome, User!", (540, 250)) ].

(** The properties an object literal inherits: reading one of them from
    [resourceMap] gives a function or an object, which is truthy and has
    no [x], [y] or [text]. *)
Definition Object_prototype : list string :=
  [ "constructor"; "hasOwnProperty"; "isPrototypeOf";
    "propertyIsEnumerable"; "toLocaleString"; "toString"; "valueOf";
    "__proto__"; "__defineGetter__"; "__defineSetter__";
    "__lookupGetter__"; "__lookupSetter__" ].

Fixpoint own {A} (key : string) (members : list (string * A)) : option A :=
  match members with
  | [] => None
  | (k, v) :: rest => if String.eqb k key then Some v else own key rest
  end.

Definition inherited (key : string) : bool :=
  existsb (String.eqb key) Object_prototype.

Definition found (x y : option Z) (text : option string)
  : Driver.ElementResult :=
  {| Driver.found := true; Driver.x := x; Driver.y := y;
     Driver.width := Some 880; Driver.height := Some 100;
     Driver.text := text; Driver.error := None |}.

Definition notFound (error : string) : Driver.ElementResult :=
  {| Driver.found := false; Driver.x := None; Driver.y := None;
     Driver.width := None; Driver.height := None;
     Driver.text := None; Driver.error := Some error |}.

Section WithClock.
(** [Date.now()], and the error raised by reading a property of
    [undefined]. *)
Variable Date_now : Mock -> Z.
Variable TypeError : JS.Thrown.

Definition M := Eff.M Mock.

(** [new MockDriver(config)] *)
Definition new (config_screens : list MockScreen) : Mock :=
  {| screens := config_screens; currentScreenIndex := 0%Q;
     connected := false; actionLog := [] |}.

Definition logAction (a : Action) : M unit :=
  Eff.modify (fun m =>
    {| screens := screens m;
       currentScreenIndex := currentScreenIndex m;
       connected := connected m;
       actionLog :=
         actionLog m ++ [{| action := a; timestamp := Date_now m |}] |}).

(** [if (!this.connected) throw new Error("Driver not connected")] *)
Definition requireConnected : M unit :=
  do isConnected <- Eff.gets connected ;;
  if isConnected then Eff.ret tt
  else Eff.throwError "Driver not connected".

(** [this.currentScreen], read for one of its properties. *)
Definition currentScreen : M MockScreen :=
  do m <- Eff.gets (fun m => m) ;;
  match elementAt (screens m) (currentScreenIndex m) with
  | Some screen => Eff.ret screen
  | None => Eff.throw TypeError
  end.

Definition setConnected (b : bool) : M unit :=
  Eff.modify (fun m =>
    {| screens := screens m;
       currentScreenIndex := currentScreenIndex m;
       connected := b;
       actionLog := actionLog m |}).

Definition setIndex (i : Q) : M unit :=
  Eff.modify (fun m =>
    {| screens := screens m;
       currentScreenIndex := i;
       connected := connected m;
       actionLog := actionLog m |}).

Definition connect : M unit :=
  run setConnected true ;; logAction LConnect.

Definition disconnect : M unit :=
  run setConnected false ;; logAction LDisconnect.

Definition getScreenshot : M string :=
  run requireConnected ;;
  run logAction LGetScreenshot ;;
  do screen <- currentScreen ;;
  Eff.ret (screenshot screen).

Definition getPageSource : M string :=
  run requireConnected ;;
  run logAction LGetPageSource ;;
  do screen <- currentScreen ;;
  Eff.ret (xml screen).

Definition advanceScreen : M unit :=
  do m <- Eff.gets (fun m => m) ;;
  if lessThan (currentScreenIndex m)
              (inject_Z (Z.of_nat (length (screens m))) - 1)
  then setIndex (currentScreenIndex m + 1)%Q
  else Eff.ret tt.

Definition tap (x y : Z) : M unit :=
  run requireConnected ;;
  run logAction (LTap x y) ;;
  advanceScreen.

Definition type (text : string) : M unit :=
  run requireConnected ;;
  logAction (LType text).

Definition swipe (direction : Types.SwipeDirection) (duration : Z) : M unit :=
  run requireConnected ;;
  run logAction (LSwipe direction duration) ;;
  match direction with
  | Types.up | Types.down => advanceScreen
  | _ => Eff.ret tt
  end.

Definition pressKey (key : string) : M unit :=
  run requireConnected ;;
  logAction (LPressKey key).

(** [waitFor]: the delay itself changes nothing. *)
Definition waitFor (ms : Z) : M unit := logAction (LWaitFor ms).

Definition reset : M unit :=
  Eff.modify (fun m =>
    {| screens := screens m; currentScreenIndex := 0%Q;
       connected := connected m; actionLog := [] |}).

(** [setScreen(index)]: the guard compares numbers, whole or not. *)
Definition setScreen (index : Q) : M unit :=
  do m <- Eff.gets (fun m => m) ;;
  if Qle_bool 0 index
     && lessThan index (inject_Z (Z.of_nat (length (screens m))))
  then setIndex index
  else Eff.ret tt.

Definition getActions : M (list Entry) := Eff.gets actionLog.

Definition getScreenSize : Z * Z := (1080, 1920).

Definition findByAccessibilityId (id : string) : M Driver.ElementResult :=
  run logAction (LFindByAccessibilityId id) ;;
  if includes "login" id || includes "username" id || includes "password" id
  then Eff.ret (found (Some 540) (Some 450) (Some id))
  else Eff.ret (notFound ("Element with accessibilityId '" +:+ id
                          +:+ "' not found")).

Definition findByResourceId (id : string) : M Driver.ElementResult :=
  run logAction (LFindByResourceId id) ;;
  match own id resourceMap with
  | Some (x, y, text) => Eff.ret (found (Some x) (Some y) text)
  | None =>
      if inherited id then Eff.ret (found None None None)
      else Eff.ret (notFound ("Element with resourceId '" +:+ id
                              +:+ "' not found"))
  end.

Definition findByText (text : string) (exact : bool)
  : M Driver.ElementResult :=
  run logAction (LFindByText text exact) ;;
  match
    find (fun entry =>
            if exact then String.eqb (fst entry) text
            else includes (toLowerCase text) (toLowerCase (fst entry)))
         textMap
  with
  | Some (key, (x, y)) => Eff.ret (found (Some x) (Some y) (Some key))
  | None => Eff.ret (notFound ("Element with text '" +:+ text
                               +:+ "' not found"))
  end.

Definition tapElement (locator : Driver.LocatorStrategy) : M (Z * Z) :=
  let tapResult := fun result : Driver.ElementResult =>
    match Driver.found result, Driver.x result, Driver.y result with
    | true, Some x, Some y => run tap x y ;; Eff.ret (x, y)
    | _, _, _ =>
        Eff.throwError (JS.orElse (Driver.error result) "Element not found")
    end in
  match locator with
  | Driver.accessibilityId value =>
      do result <- findByAccessibilityId value ;; tapResult result
  | Driver.resourceId value =>
      do result <- findByResourceId value ;; tapResult result
  | Driver.text_ value =>
      do result <- findByText value false ;; tapResult result
  | Driver.xpath _ => tapResult (notFound "XPath not supported in mock driver")
  | Driver.coordinates x y => run tap x y ;; Eff.ret (x, y)
  end.

Definition typeIntoElement (locator : Driver.LocatorStrategy)
           (text : string) : M unit :=
  run tapElement locator ;;
  run waitFor 100 ;;
  type text.

(** The mock as the driver the nodes are given. *)
Definition asDriver : Driver.IMobileDriver Mock :=
  {| Driver.getScreenshot := getScreenshot;
     Driver.getPageSource := getPageSource;
     Driver.tap := tap;
     Driver.type := type;
     Driver.swipe := swipe;
     Driver.waitFor := waitFor;
     Driver.findByAccessibilityId := findByAccessibilityId;
     Driver.findByResourceId := findByResourceId;
     Driver.findByText := fun text => findByText text false |}.

End WithClock.

End MockDriver.

(* ================================================================== *)
(** * Properties: the router *)
(* ================================================================== *)

(** The state [s] with the three fields the router reads overwritten. *)
Definition withFlags (s : State.AgentState) (complete : bool)
           (retries iterations : Z) : State.AgentState :=
  {| State.screenshot := State.screenshot s;
     State.uiTree := State.uiTree s;
     State.goal := State.goal s;
     State.actionHistory := State.actionHistory s;
     State.retryCount := retries;
     State.errors := State.errors s;
     State.isComplete := complete;
     State.lastAction := State.lastAction s;
     State.iteration := iterations |}.

Lemma router_end_iff (s : State.AgentState) :
  Graph.router s = Graph.RouteEnd <->
  State.isComplete s = true \/ 3 <= State.retryCount s
  \/ 15 <= State.iteration s.
Proof.
  unfold Graph.router, Graph.MAX_RETRIES, Graph.MAX_ITERATIONS.
  destruct (State.isComplete s); [tauto|].
  destruct (Z.leb_spec 3 (State.retryCount s)); [tauto|].
  destruct (Z.leb_spec 15 (State.iteration s)); [tauto|].
  split; [discriminate|].
  intros [?|[?|?]]; [discriminate|lia|lia].
Qed.

Lemma route_cases (r : Graph.Route) :
  r = Graph.RouteContinue <-> r <> Graph.RouteEnd.
Proof. destruct r; split; congruence. Qed.

(** C3. The router answers "end" exactly when [isComplete] holds, or
    [retryCount] has reached 3, or [iteration] has reached 15, and
    "continue" exactly otherwise; with [isComplete] set it answers "end"
    whatever the two counters are. *)
Theorem router_decision (s : State.AgentState) :
  (Graph.router s = Graph.RouteEnd <->
   State.isComplete s = true \/ 3 <= State.retryCount s
   \/ 15 <= State.iteration s)
  /\ (Graph.router s = Graph.RouteContinue <->
      ~ (State.isComplete s = true \/ 3 <= State.retryCount s
         \/ 15 <= State.iteration s))
  /\ (forall retries iterations : Z,
        Graph.router (withFlags s true retries iterations) = Graph.RouteEnd)
  /\ Graph.routeName Graph.RouteEnd = "end"
  /\ Graph.routeName Graph.RouteContinue = "continue"
  /\ Graph.MAX_RETRIES = 3 /\ Graph.MAX_ITERATIONS = 15.
Proof.
  split; [apply router_end_iff|].
  split; [rewrite route_cases, router_end_iff; tauto|].
  split; [|repeat split].
  intros retries iterations. apply router_end_iff. left. reflexivity.
Qed.

(* ================================================================== *)
(** * Properties: retryCount after a stage succeeds or fails *)
(* ================================================================== *)

Section NodeFacts.
Context {W : Type}.
Variable driver : Driver.IMobileDriver W.
Variable Date_now : W -> Z.

Lemma tryCatch_inr {S A} (c : Eff.M S A) (h : JS.Thrown -> Eff.M S A) s a s' :
  c s = (inr a, s') -> Eff.tryCatch c h s = (inr a, s').
Proof. intros H. unfold Eff.tryCatch. rewrite H. reflexivity. Qed.

Lemma tryCatch_inl {S A} (c : Eff.M S A) (h : JS.Thrown -> Eff.M S A) s e s' :
  c s = (inl e, s') -> Eff.tryCatch c h s = h e s'.
Proof. intros H. unfold Eff.tryCatch. rewrite H. reflexivity. Qed.

Lemma bind_inr {S A B} (c : Eff.M S A) (k : A -> Eff.M S B) s b s' :
  Eff.bind c k s = (inr b, s') ->
  exists a s1, c s = (inr a, s1) /\ k a s1 = (inr b, s').
Proof.
  unfold Eff.bind. destruct (c s) as [[e|a] s1]; [discriminate|].
  intros H. exists a, s1. split; [reflexivity|exact H].
Qed.

(** The code after the [switch] only ever returns the patch that resets
    [retryCount]. *)
Lemma afterSwitch_returns (entry : Executor.M string) st patch st' :
  Executor.afterSwitch driver entry st = (inr patch, st') ->
  exists historyEntry, patch = Executor.successPatch historyEntry.
Proof.
  unfold Executor.afterSwitch. intros H.
  apply bind_inr in H as (h & s1 & _ & H).
  apply bind_inr in H as ([] & s2 & _ & H).
  exists h. unfold Eff.ret in H. congruence.
Qed.

Lemma tryBlock_returns (action : Types.ReasonerOutput) st patch st' :
  Executor.tryBlock driver Date_now action st = (inr patch, st') ->
  (Types.action action <> Types.done /\
   exists historyEntry, patch = Executor.successPatch historyEntry)
  \/ (Types.action action = Types.done /\ st' = st /\
      patch = Executor.donePatch ("Goal completed: " +:+ Types.thought action)).
Proof.
  unfold Executor.tryBlock.
  destruct (Types.action action); intros H;
    try (left; split; [discriminate|eapply afterSwitch_returns; exact H]).
  right. unfold Eff.ret in H. repeat split; congruence.
Qed.

End NodeFacts.

(** C4, as the code has it.  When the [try] block of the Executor runs an
    action to its end, the node returns the block's patch.  For every
    action other than "done", and whatever [retryCount] was, that patch
    sets [retryCount] to 0.  For "done" the patch has no [retryCount] key:
    it sets [isComplete] and the merged state keeps the prior count. *)
Theorem executor_success_retryCount {W : Type}
        (driver : Driver.IMobileDriver W) (Date_now : W -> Z)
        (state : State.AgentState) (action : Types.ReasonerOutput)
        (st st' : HybridLocator.State W) (patch : State.Patch) :
  State.lastAction state = Some action ->
  Executor.tryBlock driver Date_now action st = (inr patch, st') ->
  Executor.executor driver Date_now state st = (inr patch, st')
  /\ (Types.action action <> Types.done ->
      State.p_retryCount patch = Some 0
      /\ State.retryCount (State.applyPatch state patch) = 0)
  /\ (Types.action action = Types.done ->
      State.p_retryCount patch = None
      /\ State.p_isComplete patch = Some true
      /\ State.retryCount (State.applyPatch state patch)
         = State.retryCount state).
Proof.
  intros Hlast Hrun. split.
  - unfold Executor.executor. rewrite Hlast.
    apply tryCatch_inr. exact Hrun.
  - apply tryBlock_returns in Hrun as [[Hne [h ->]]|[Heq [_ ->]]].
    + split; [intros _; split; reflexivity|contradiction].
    + split; [contradiction|intros _; repeat split].
Qed.

Lemma executor_success_retryCount_witness :
  State.p_retryCount
    (Executor.successPatch "Clicked at (10, 20) - target") = Some 0
  /\ State.retryCount
       (State.applyPatch (Fixture.stateWith 2 (Some (Fixture.clickAt 10 20)))
          (Executor.successPatch "Clicked at (10, 20) - target")) = 0.
Proof.
  refine (proj1 (proj2
    (executor_success_retryCount Fixture.calmDriver Fixture.clock
       (Fixture.stateWith 2 (Some (Fixture.clickAt 10 20))) (Fixture.clickAt 10 20)
       (HybridLocator.new None [])
       {| HybridLocator.healingLog := [];
          HybridLocator.visionFallback := None;
          HybridLocator.world := [Fixture.CTap 10 20; Fixture.CWaitFor 500] |}
       (Executor.successPatch "Clicked at (10, 20) - target")
       _ _)) _).
  - reflexivity.
  - vm_compute. reflexivity.
  - discriminate.
Defined.

(** C4, as stated, fails for "done": the Executor completes the action,
    and the patch it returns leaves [retryCount] at its prior value 2. *)
Lemma done_leaves_retryCount :
  let state := Fixture.stateWith 2 (Some (Fixture.act Types.done Fixture.params0)) in
  let st := HybridLocator.new None [] in
  let patch := Executor.donePatch "Goal completed: next" in
  Executor.executor Fixture.calmDriver Fixture.clock state st = (inr patch, st)
  /\ State.p_retryCount patch <> Some 0
  /\ State.retryCount (State.applyPatch state patch) = 2.
Proof. cbv zeta. split; [reflexivity|]. split; [discriminate|reflexivity]. Qed.

Section ReasonerFailures.
Variable JSON_parse : string -> JS.outcome Schema.JSON.
Variable ZodError_message : Schema.JSON -> string.
Context {W : Type}.
Variable fetchChat : string -> string -> Eff.M W Reasoner.Response.

Abbreviation reasonerBlock :=
  (Reasoner.tryBlock JSON_parse ZodError_message fetchChat).

(** A service failure: the request itself rejects. *)
Lemma reasoner_fetch_rejects state w e w' :
  State.isComplete state = false ->
  fetchChat (Reasoner.buildUserPrompt state) (State.screenshot state) w = (inl e, w') ->
  reasonerBlock state w = (inl e, w').
Proof.
  intros Hc Hf. unfold Reasoner.tryBlock, Eff.bind. rewrite Hc, Hf. reflexivity.
Qed.

(** A service failure: the endpoint answers with a status that is not 2xx. *)
Lemma reasoner_status_not_ok state w response w' errorText :
  State.isComplete state = false ->
  fetchChat (Reasoner.buildUserPrompt state) (State.screenshot state) w
  = (inr response, w') ->
  Reasoner.ok response = false ->
  Reasoner.textBody response = inr errorText ->
  reasonerBlock state w
  = (inl (JS.ErrorObj ("Ollama API error: "
                       +:+ JS.showZ (Reasoner.status response)
                       +:+ " - " +:+ errorText)), w').
Proof.
  intros Hc Hf Hok Ht.
  unfold Reasoner.tryBlock, Eff.bind, Reasoner.liftOutcome.
  rewrite Hc, Hf, Hok, Ht. reflexivity.
Qed.

(** A parse failure: the reply has content, and the parser rejects it. *)
Lemma reasoner_parse_fails state w response w' text e :
  State.isComplete state = false ->
  fetchChat (Reasoner.buildUserPrompt state) (State.screenshot state) w
  = (inr response, w') ->
  Reasoner.ok response = true ->
  Reasoner.content response = inr (Some text) ->
  text <> "" ->
  Reasoner.parseReasonerResponse JSON_parse ZodError_message text = inl e ->
  reasonerBlock state w = (inl e, w').
Proof.
  intros Hc Hf Hok Hcontent Hne Hp.
  unfold Reasoner.tryBlock, Eff.bind, Reasoner.liftOutcome.
  rewrite Hc, Hf, Hok, Hcontent. unfold Eff.ret.
  destruct text as [|c t]; [contradiction|]. simpl. rewrite Hp. reflexivity.
Qed.

End ReasonerFailures.

(** C5, as the code has it.  A failure of the Reasoner (its [try] block
    throws: the service call or the parse failed) and a failure of the
    Executor (its [try] block throws) are recorded in [errors], and the
    patch sets [retryCount] to the prior count plus one.  A capture
    failure of the Observer is recorded in [errors] too, but its patch has
    no [retryCount] key: the merged state keeps the prior count. *)
Theorem stage_failure_retryCount {W : Type}
        (driver : Driver.IMobileDriver W) (Date_now : W -> Z)
        (XMLParser_parse : string -> JS.outcome (list XmlParser.XmlNode))
        (JSON_parse : string -> JS.outcome Schema.JSON)
        (ZodError_message : Schema.JSON -> string)
        (fetchChat : string -> string -> Eff.M W Reasoner.Response)
        (state : State.AgentState) (e : JS.Thrown) :
  (forall w w',
      Reasoner.tryBlock JSON_parse ZodError_message fetchChat state w
      = (inl e, w') ->
      exists patch,
        Reasoner.reasoner JSON_parse ZodError_message fetchChat state w
        = (inr patch, w')
        /\ State.p_errors patch
           = Some [JS.messageOr "Unknown reasoner error" e]
        /\ State.p_retryCount patch = Some (State.retryCount state + 1)
        /\ State.retryCount (State.applyPatch state patch)
           = State.retryCount state + 1)
  /\ (forall action st st',
         State.lastAction state = Some action ->
         Executor.tryBlock driver Date_now action st = (inl e, st') ->
         exists patch,
           Executor.executor driver Date_now state st = (inr patch, st')
           /\ State.p_errors patch
              = Some ["Executor failed: "
                      +:+ JS.messageOr "Unknown executor error" e]
           /\ State.p_retryCount patch = Some (State.retryCount state + 1)
           /\ State.retryCount (State.applyPatch state patch)
              = State.retryCount state + 1)
  /\ (forall w w',
         Observer.capture driver w = (inl e, w') ->
         exists patch,
           Observer.observer driver XMLParser_parse state w = (inr patch, w')
           /\ State.p_errors patch
              = Some [JS.messageOr "Unknown observer error" e]
           /\ State.p_retryCount patch = None
           /\ State.retryCount (State.applyPatch state patch)
              = State.retryCount state).
Proof.
  split; [|split].
  - intros w w' H. eexists. split.
    + unfold Reasoner.reasoner. erewrite tryCatch_inl by exact H. reflexivity.
    + repeat split.
  - intros action st st' Hlast H. eexists. split.
    + unfold Executor.executor. rewrite Hlast.
      erewrite tryCatch_inl by exact H. reflexivity.
    + repeat split.
  - intros w w' H. eexists. split.
    + unfold Observer.observer.
      erewrite tryCatch_inl; [reflexivity|].
      unfold Observer.tryBlock, Eff.bind. rewrite H. reflexivity.
    + repeat split.
Qed.

Lemma stage_failure_retryCount_witness :
  exists patch,
    Executor.executor Fixture.deadDriver Fixture.clock
      (Fixture.stateWith 2 (Some (Fixture.clickAt 10 20))) (HybridLocator.new None [])
    = (inr patch,
       {| HybridLocator.healingLog := [];
          HybridLocator.visionFallback := None;
          HybridLocator.world := [Fixture.CTap 10 20] |})
    /\ State.p_errors patch = Some ["Executor failed: Driver not connected"]
    /\ State.p_retryCount patch = Some 3
    /\ State.retryCount
         (State.applyPatch (Fixture.stateWith 2 (Some (Fixture.clickAt 10 20))) patch)
       = 3.
Proof.
  refine (proj1 (proj2
    (stage_failure_retryCount Fixture.deadDriver Fixture.clock Fixture.noXml Fixture.noJson Fixture.noZod
       Fixture.noChat (Fixture.stateWith 2 (Some (Fixture.clickAt 10 20)))
       (JS.ErrorObj "Driver not connected")))
    (Fixture.clickAt 10 20) (HybridLocator.new None []) _ _ _).
  - reflexivity.
  - vm_compute. reflexivity.
Defined.

(** C5, as stated, fails for the Observer: with a driver whose captures
    reject, the Observer records the error, and the patch leaves
    [retryCount] at its prior value 2 instead of 3. *)
Lemma observer_failure_keeps_retryCount :
  let state := Fixture.stateWith 2 None in
  let patch := Observer.failurePatch "Driver not connected" in
  Observer.capture Fixture.deadDriver []
  = (inl (JS.ErrorObj "Driver not connected"),
     [Fixture.CGetScreenshot; Fixture.CGetPageSource])
  /\ Observer.observer Fixture.deadDriver Fixture.noXml state []
     = (inr patch, [Fixture.CGetScreenshot; Fixture.CGetPageSource])
  /\ State.p_errors patch = Some ["Driver not connected"]
  /\ State.p_retryCount patch <> Some (State.retryCount state + 1)
  /\ State.retryCount (State.applyPatch state patch) = 2.
Proof.
  cbv zeta. repeat split; try reflexivity. discriminate.
Qed.

(* ================================================================== *)
(** * Properties: the hybrid locator *)
(* ================================================================== *)

(** The test of step 1: the lookup reports [found] with both coordinates. *)
Definition yieldsCoordinates (r : Driver.ElementResult) : bool :=
  Driver.found r && bool_decide (is_Some (Driver.x r))
  && bool_decide (is_Some (Driver.y r)).

(** The event and the result of the last step of [locate]. *)
Definition failureEvent {W} (Date_now : W -> Z) (st : HybridLocator.State W)
           (locator : Driver.LocatorStrategy)
           (selectorResult : Driver.ElementResult)
  : HybridLocator.HealingEvent :=
  {| HybridLocator.timestamp := Date_now (HybridLocator.world st);
     HybridLocator.attemptedLocator := locator;
     HybridLocator.success := false;
     HybridLocator.method := HybridLocator.selector;
     HybridLocator.coordinates := None;
     HybridLocator.error := Driver.error selectorResult;
     HybridLocator.healingTriggered :=
       bool_decide (is_Some (HybridLocator.visionFallback st)) |}.

Definition notFoundResult (configured : bool) (error : string)
  : HybridLocator.HybridLocateResult :=
  {| HybridLocator.r_found := false;
     HybridLocator.r_x := None;
     HybridLocator.r_y := None;
     HybridLocator.r_method := HybridLocator.none;
     HybridLocator.r_healingTriggered := configured;
     HybridLocator.r_error := Some error |}.

Section LocatorFacts.
Context {W : Type}.
Variable driver : Driver.IMobileDriver W.
Variable Date_now : W -> Z.

(** The ways in which step 2 of [locate] comes to nothing, with the state
    it leaves: no fallback is configured; the screenshot for it cannot be
    taken; the fallback answers [null]; the fallback raises. *)
Inductive visionYieldsNothing (elementDescription : string)
          (st : HybridLocator.State W) : HybridLocator.State W -> Prop :=
| vision_absent :
    HybridLocator.visionFallback st = None ->
    visionYieldsNothing elementDescription st st
| vision_no_screenshot fn e w1 :
    HybridLocator.visionFallback st = Some fn ->
    Driver.getScreenshot driver (HybridLocator.world st) = (inl e, w1) ->
    visionYieldsNothing elementDescription st (HybridLocator.withWorld st w1)
| vision_null fn screenshot w1 w2 :
    HybridLocator.visionFallback st = Some fn ->
    Driver.getScreenshot driver (HybridLocator.world st)
    = (inr screenshot, w1) ->
    fn elementDescription screenshot w1 = (inr None, w2) ->
    visionYieldsNothing elementDescription st (HybridLocator.withWorld st w2)
| vision_raises fn screenshot w1 e w2 :
    HybridLocator.visionFallback st = Some fn ->
    Driver.getScreenshot driver (HybridLocator.world st)
    = (inr screenshot, w1) ->
    fn elementDescription screenshot w1 = (inl e, w2) ->
    visionYieldsNothing elementDescription st (HybridLocator.withWorld st w2).

Lemma visionYieldsNothing_fallback description st st' :
  visionYieldsNothing description st st' ->
  HybridLocator.visionFallback st' = HybridLocator.visionFallback st
  /\ HybridLocator.healingLog st' = HybridLocator.healingLog st.
Proof. destruct 1; split; reflexivity. Qed.

Lemma tryVision_nothing locator description st st' :
  visionYieldsNothing description st st' ->
  HybridLocator.tryVision driver Date_now locator description st
  = (inr None, st').
Proof.
  unfold HybridLocator.tryVision, Eff.bind, Eff.gets.
  destruct 1 as [Hf|fn e w1 Hf Hs|fn shot w1 w2 Hf Hs Hv|fn shot w1 e w2 Hf Hs Hv];
    rewrite Hf; [reflexivity|..];
    unfold Eff.tryCatch, Eff.bind, HybridLocator.onWorld; rewrite Hs;
    [reflexivity|..]; simpl; rewrite Hv; reflexivity.
Qed.

(** The selector lookup acts on the world only. *)
Lemma trySelector_frame locator st r st1 :
  HybridLocator.trySelector driver locator st = (r, st1) ->
  HybridLocator.healingLog st1 = HybridLocator.healingLog st
  /\ HybridLocator.visionFallback st1 = HybridLocator.visionFallback st.
Proof.
  unfold HybridLocator.trySelector, HybridLocator.onWorld, Eff.ret.
  destruct locator; intros H;
    try (match type of H with
         | context [?f ?v (HybridLocator.world st)] =>
             destruct (f v (HybridLocator.world st))
         end);
    inversion H; subst; split; reflexivity.
Qed.

Lemma locate_falls_through locator description st selectorResult st1 :
  HybridLocator.trySelector driver locator st = (inr selectorResult, st1) ->
  yieldsCoordinates selectorResult = false ->
  HybridLocator.locate driver Date_now locator description st
  = Eff.bind (HybridLocator.tryVision driver Date_now locator description)
      (fun healed =>
         match healed with
         | Some r => Eff.ret r
         | None =>
             fun st2 =>
               (inr (notFoundResult
                       (bool_decide (is_Some (HybridLocator.visionFallback st2)))
                       (JS.orElse (Driver.error selectorResult)
                                  "Element not found")),
                HybridLocator.pushed st2
                  (failureEvent Date_now st2 locator selectorResult))
         end) st1.
Proof.
  intros Hsel Hno. unfold HybridLocator.locate.
  unfold Eff.bind at 1. rewrite Hsel.
  unfold yieldsCoordinates in Hno.
  destruct (Driver.found selectorResult), (Driver.x selectorResult),
    (Driver.y selectorResult); try discriminate Hno; reflexivity.
Qed.

End LocatorFacts.

(** C1, as the code has it.  When the selector lookup returns a result
    that does not carry coordinates, and the vision fallback is absent,
    answers [null] or raises (or its screenshot cannot be taken),
    [locate] returns [found = false] and [method = "none"];
    [healingTriggered] tells whether a fallback function is configured;
    [error] is the lookup's error message when that is present and not
    the empty string, and "Element not found" otherwise.  The one event
    appended records the failure. *)
Theorem locate_both_fail {W : Type} (driver : Driver.IMobileDriver W)
        (Date_now : W -> Z) (locator : Driver.LocatorStrategy)
        (description : string) (st st1 st2 : HybridLocator.State W)
        (selectorResult : Driver.ElementResult) :
  HybridLocator.trySelector driver locator st = (inr selectorResult, st1) ->
  yieldsCoordinates selectorResult = false ->
  visionYieldsNothing driver description st1 st2 ->
  exists result,
    HybridLocator.locate driver Date_now locator description st
    = (inr result,
       HybridLocator.pushed st2
         (failureEvent Date_now st2 locator selectorResult))
    /\ HybridLocator.r_found result = false
    /\ HybridLocator.r_method result = HybridLocator.none
    /\ HybridLocator.r_x result = None
    /\ HybridLocator.r_y result = None
    /\ HybridLocator.r_healingTriggered result
       = bool_decide (is_Some (HybridLocator.visionFallback st))
    /\ HybridLocator.r_error result
       = Some (match Driver.error selectorResult with
               | Some "" | None => "Element not found"
               | Some message => message
               end).
Proof.
  intros Hsel Hno Hvis.
  rewrite (locate_falls_through driver Date_now _ _ _ _ _ Hsel Hno).
  unfold Eff.bind.
  rewrite (tryVision_nothing driver Date_now _ _ _ _ Hvis).
  eexists. split; [reflexivity|].
  destruct (visionYieldsNothing_fallback driver _ _ _ Hvis) as [Hf _].
  destruct (trySelector_frame driver _ _ _ _ Hsel) as [_ Hf1].
  simpl. rewrite Hf, Hf1. repeat split.
  destruct (Driver.error selectorResult) as [[|c m]|]; reflexivity.
Qed.

Lemma locate_both_fail_witness :
  exists result,
    HybridLocator.locate (Fixture.blindDriver (Some "no such element")) Fixture.clock
      (Driver.accessibilityId "login") "Login button"
      (HybridLocator.new None [])
    = (inr result,
       HybridLocator.pushed
         (HybridLocator.new None
            [Fixture.CFind (Driver.accessibilityId "login")])
         (failureEvent Fixture.clock
            (HybridLocator.new None
               [Fixture.CFind (Driver.accessibilityId "login")])
            (Driver.accessibilityId "login")
            (Fixture.notFound (Some "no such element"))))
    /\ HybridLocator.r_found result = false
    /\ HybridLocator.r_method result = HybridLocator.none
    /\ HybridLocator.r_x result = None
    /\ HybridLocator.r_y result = None
    /\ HybridLocator.r_healingTriggered result = false
    /\ HybridLocator.r_error result = Some "no such element".
Proof.
  refine (locate_both_fail (Fixture.blindDriver (Some "no such element"))
            Fixture.clock (Driver.accessibilityId "login") "Login button"
            (HybridLocator.new None [])
            (HybridLocator.new None
               [Fixture.CFind (Driver.accessibilityId "login")])
            (HybridLocator.new None
               [Fixture.CFind (Driver.accessibilityId "login")])
            (Fixture.notFound (Some "no such element")) _ _ _).
  - reflexivity.
  - reflexivity.
  - apply vision_absent. reflexivity.
Defined.

(** C1, as stated, fails in two places.  When the lookup's error message
    is present and empty, [locate] answers with the generic message, not
    with the lookup's.  And when the lookup yields no coordinates because
    it raises, [locate] returns no result at all: it raises too. *)
Lemma locate_empty_message_or_raising_lookup :
  let st := HybridLocator.new None [] in
  let selectorResult := Fixture.notFound (Some "") in
  (exists result st',
      HybridLocator.trySelector (Fixture.blindDriver (Some ""))
        (Driver.accessibilityId "login") st
      = (inr selectorResult,
         HybridLocator.new None
           [Fixture.CFind (Driver.accessibilityId "login")])
      /\ HybridLocator.locate (Fixture.blindDriver (Some "")) Fixture.clock
           (Driver.accessibilityId "login") "Login button" st
         = (inr result, st')
      /\ Driver.error selectorResult = Some ""
      /\ HybridLocator.r_error result = Some "Element not found"
      /\ HybridLocator.r_error result <> Driver.error selectorResult)
  /\ (forall result st',
         HybridLocator.locate Fixture.deadDriver Fixture.clock
           (Driver.accessibilityId "login") "Login button" st
         <> (inr result, st')).
Proof.
  cbv zeta. split.
  - eexists. eexists.
    split; [reflexivity|]. split; [reflexivity|].
    split; [reflexivity|]. split; [reflexivity|]. discriminate.
  - intros result st'. discriminate.
Qed.

Section LocatorLog.
Context {W : Type}.
Variable driver : Driver.IMobileDriver W.
Variable Date_now : W -> Z.

Lemma onWorld_log {A} (c : Eff.M W A) st r st' :
  HybridLocator.onWorld c st = (r, st') ->
  HybridLocator.healingLog st' = HybridLocator.healingLog st.
Proof.
  unfold HybridLocator.onWorld. destruct (c (HybridLocator.world st)).
  intros H. inversion H. reflexivity.
Qed.

(** Step 2 either returns a vision result, having pushed one event, or
    falls through with the log as it was; it never throws. *)
Lemma tryVision_log locator description st :
  exists healed st',
    HybridLocator.tryVision driver Date_now locator description st
    = (inr healed, st')
    /\ match healed with
       | Some r =>
           HybridLocator.r_method r = HybridLocator.vision
           /\ HybridLocator.r_found r = true
           /\ exists event,
               HybridLocator.healingLog st'
               = HybridLocator.healingLog st ++ [event]
               /\ HybridLocator.success event = true
               /\ HybridLocator.method event = HybridLocator.vision
       | None => HybridLocator.healingLog st' = HybridLocator.healingLog st
       end.
Proof.
  unfold HybridLocator.tryVision, Eff.bind, Eff.gets.
  destruct (HybridLocator.visionFallback st) as [fn|];
    [|exists None, st; split; reflexivity].
  unfold Eff.tryCatch, Eff.bind, HybridLocator.onWorld.
  destruct (Driver.getScreenshot driver (HybridLocator.world st))
    as [[e|shot] w1]; [eexists None, _; split; reflexivity|].
  simpl. destruct (fn description shot w1) as [[e|[[vx vy]|]] w2];
    try (eexists None, _; split; reflexivity).
  eexists (Some _), _. split; [reflexivity|].
  split; [reflexivity|]. split; [reflexivity|]. eexists. repeat split.
Qed.

End LocatorLog.

(** C2, as the code has it.  A call of [locate] whose selector lookup
    returns a result itself returns a result, by one of the three ways
    (selector, vision, both failed), and appends exactly one event to the
    healing log: the log grows by one.  A call whose selector lookup
    raises propagates the exception and appends nothing. *)
Theorem locate_appends_one_event {W : Type} (driver : Driver.IMobileDriver W)
        (Date_now : W -> Z) (locator : Driver.LocatorStrategy)
        (description : string) (st : HybridLocator.State W) :
  (forall selectorResult st1,
      HybridLocator.trySelector driver locator st
      = (inr selectorResult, st1) ->
      exists result st' event,
        HybridLocator.locate driver Date_now locator description st
        = (inr result, st')
        /\ HybridLocator.healingLog st'
           = HybridLocator.healingLog st ++ [event]
        /\ length (HybridLocator.healingLog st')
           = S (length (HybridLocator.healingLog st))
        /\ HybridLocator.success event = HybridLocator.r_found result
        /\ match HybridLocator.r_method result with
           | HybridLocator.none =>
               HybridLocator.r_found result = false
               /\ HybridLocator.method event = HybridLocator.selector
           | m =>
               HybridLocator.r_found result = true
               /\ HybridLocator.method event = m
           end)
  /\ (forall e st1,
         HybridLocator.trySelector driver locator st = (inl e, st1) ->
         HybridLocator.locate driver Date_now locator description st
         = (inl e, st1)
         /\ HybridLocator.healingLog st1 = HybridLocator.healingLog st).
Proof.
  split.
  - intros sr st1 Hsel.
    destruct (trySelector_frame driver _ _ _ _ Hsel) as [Hlog1 _].
    destruct (yieldsCoordinates sr) eqn:Hyc.
    + unfold HybridLocator.locate, Eff.bind at 1. rewrite Hsel.
      unfold yieldsCoordinates in Hyc.
      destruct (Driver.found sr), (Driver.x sr), (Driver.y sr);
        try discriminate Hyc.
      eexists _, _, _. split; [reflexivity|]. simpl. rewrite Hlog1.
      split; [reflexivity|]. split; [|repeat split].
      rewrite length_app. simpl. lia.
    + rewrite (locate_falls_through driver Date_now _ _ _ _ _ Hsel Hyc).
      unfold Eff.bind.
      destruct (tryVision_log driver Date_now locator description st1)
        as (healed & st2 & -> & Hh).
      destruct healed as [r|].
      * destruct Hh as (Hm & Hfound & event & Hlog & Hs & Hmeth).
        exists r, st2, event. unfold Eff.ret.
        split; [reflexivity|]. rewrite Hlog, Hlog1.
        split; [reflexivity|]. split; [rewrite length_app; simpl; lia|].
        rewrite Hm, Hs, Hmeth, Hfound. repeat split.
      * eexists _, _, _. split; [reflexivity|]. simpl. rewrite Hh, Hlog1.
        split; [reflexivity|]. split; [rewrite length_app; simpl; lia|].
        repeat split.
  - intros e st1 Hsel. split.
    + unfold HybridLocator.locate, Eff.bind. rewrite Hsel. reflexivity.
    + apply (trySelector_frame driver _ _ _ _ Hsel).
Qed.

Lemma locate_appends_one_event_witness :
  exists result st' event,
    HybridLocator.locate (Fixture.blindDriver (Some "no such element")) Fixture.clock
      (Driver.text_ "Settings") "Settings menu item"
      (HybridLocator.new (Some (fun _ _ w => (inr (Some (10, 20)), w))) [])
    = (inr result, st')
    /\ HybridLocator.healingLog st' = [] ++ [event]
    /\ length (HybridLocator.healingLog st') = 1%nat
    /\ HybridLocator.success event = HybridLocator.r_found result
    /\ match HybridLocator.r_method result with
       | HybridLocator.none =>
           HybridLocator.r_found result = false
           /\ HybridLocator.method event = HybridLocator.selector
       | m =>
           HybridLocator.r_found result = true
           /\ HybridLocator.method event = m
       end.
Proof.
  refine (proj1
    (locate_appends_one_event (Fixture.blindDriver (Some "no such element"))
       Fixture.clock (Driver.text_ "Settings") "Settings menu item"
       (HybridLocator.new (Some (fun _ _ w => (inr (Some (10, 20)), w))) []))
    (Fixture.notFound (Some "no such element"))
    (HybridLocator.new (Some (fun _ _ w => (inr (Some (10, 20)), w)))
       [Fixture.CFind (Driver.text_ "Settings")]) _).
  reflexivity.
Defined.

(** C2, as stated, fails when the selector lookup raises: the call ends
    without an event, and the log is as long as before. *)
Lemma locate_lookup_raises_no_event :
  let st := HybridLocator.new None [] in
  exists st',
    HybridLocator.locate Fixture.deadDriver Fixture.clock
      (Driver.accessibilityId "login") "Login button" st
    = (inl (JS.ErrorObj "Driver not connected"), st')
    /\ length (HybridLocator.healingLog st')
       = length (HybridLocator.healingLog st)
    /\ length (HybridLocator.healingLog st')
       <> S (length (HybridLocator.healingLog st)).
Proof.
  cbv zeta. eexists. split; [reflexivity|]. split; [reflexivity|].
  simpl. discriminate.
Qed.

(** The three test cases of the specification, on the recording driver. *)
Example locate_by_selector :
  HybridLocator.locate
    (Fixture.recording (inr tt) (inr "") (inr (Fixture.foundAt 540 450)))
    Fixture.clock (Driver.accessibilityId "login") "Login button"
    (HybridLocator.new None [])
  = (inr {| HybridLocator.r_found := true;
            HybridLocator.r_x := Some 540; HybridLocator.r_y := Some 450;
            HybridLocator.r_method := HybridLocator.selector;
            HybridLocator.r_healingTriggered := false;
            HybridLocator.r_error := None |},
     {| HybridLocator.healingLog :=
          [{| HybridLocator.timestamp := 1;
              HybridLocator.attemptedLocator := Driver.accessibilityId "login";
              HybridLocator.success := true;
              HybridLocator.method := HybridLocator.selector;
              HybridLocator.coordinates := Some (540, 450);
              HybridLocator.error := None;
              HybridLocator.healingTriggered := false |}];
        HybridLocator.visionFallback := None;
        HybridLocator.world :=
          [Fixture.CFind (Driver.accessibilityId "login")] |}).
Proof. reflexivity. Qed.

Example locate_by_vision :
  let fallback : HybridLocator.VisionFallbackFn Fixture.World :=
    fun _ _ w => (inr (Some (10, 20)), w) in
  fst (HybridLocator.locate (Fixture.blindDriver None) Fixture.clock
         (Driver.text_ "Settings") "Settings menu item"
         (HybridLocator.new (Some fallback) []))
  = inr {| HybridLocator.r_found := true;
           HybridLocator.r_x := Some 10; HybridLocator.r_y := Some 20;
           HybridLocator.r_method := HybridLocator.vision;
           HybridLocator.r_healingTriggered := true;
           HybridLocator.r_error := None |}.
Proof. reflexivity. Qed.

(* ================================================================== *)
(** * Properties: healing statistics *)
(* ================================================================== *)

(** The object [getHealingStats] returns, as its keys and values. *)
Definition statsObject (s : HybridLocator.Stats) : list (string * Q) :=
  [ ("totalAttempts", inject_Z (Z.of_nat (HybridLocator.totalAttempts s)));
    ("selectorSuccesses",
     inject_Z (Z.of_nat (HybridLocator.selectorSuccesses s)));
    ("visionSuccesses", inject_Z (Z.of_nat (HybridLocator.visionSuccesses s)));
    ("failures", inject_Z (Z.of_nat (HybridLocator.failures s)));
    ("healingRate", HybridLocator.healingRate s) ].

(** The overall success rate, as [HealingLogger.printSummary] derives it
    from the counters: (selector successes + vision successes) / total. *)
Definition overallSuccessRate (s : HybridLocator.Stats) : Q :=
  (inject_Z (Z.of_nat (HybridLocator.selectorSuccesses s
                       + HybridLocator.visionSuccesses s))
   / inject_Z (Z.of_nat (HybridLocator.totalAttempts s)))%Q.

Definition eventOf (ok : bool) (m : HybridLocator.Method)
  : HybridLocator.HealingEvent :=
  {| HybridLocator.timestamp := 0;
     HybridLocator.attemptedLocator := Driver.text_ "Settings";
     HybridLocator.success := ok;
     HybridLocator.method := m;
     HybridLocator.coordinates := if ok then Some (10, 20) else None;
     HybridLocator.error := if ok then None else Some "not found";
     HybridLocator.healingTriggered := HybridLocator.isVision m |}.

(** Ten attempts: seven by selector, two healed by vision, one failed. *)
Definition tenAttempts : list HybridLocator.HealingEvent :=
  [ eventOf true HybridLocator.selector; eventOf true HybridLocator.selector;
    eventOf true HybridLocator.vision; eventOf true HybridLocator.selector;
    eventOf false HybridLocator.selector; eventOf true HybridLocator.selector;
    eventOf true HybridLocator.selector; eventOf true HybridLocator.vision;
    eventOf true HybridLocator.selector; eventOf true HybridLocator.selector ].

Lemma healingRate_def (log : list HybridLocator.HealingEvent) :
  HybridLocator.healingRate (HybridLocator.getHealingStats log)
  = match log with
    | [] => 0%Q
    | _ :: _ =>
        (inject_Z (Z.of_nat (HybridLocator.visionSuccesses
                               (HybridLocator.getHealingStats log)))
         / inject_Z (Z.of_nat (length log)))%Q
    end.
Proof. destruct log; reflexivity. Qed.

(** C7, as the code has it.  [getHealingStats] reports the length of the
    log as [totalAttempts], and as [healingRate] the vision successes
    divided by that length, or 0 for the empty log.  For every log of 10
    attempts of which 7 are selector successes, 2 vision successes and 1
    a failure, [healingRate] is 0.2.  The object returned has the five
    keys [totalAttempts], [selectorSuccesses], [visionSuccesses],
    [failures] and [healingRate], and no overall success rate; that rate,
    derived from the counters as (selector + vision successes) / total,
    is 0.9. *)
Theorem getHealingStats_rates (log : list HybridLocator.HealingEvent) :
  let stats := HybridLocator.getHealingStats log in
  HybridLocator.totalAttempts stats = length log
  /\ (log = [] -> HybridLocator.healingRate stats = 0%Q)
  /\ (log <> [] ->
      HybridLocator.healingRate stats
      = (inject_Z (Z.of_nat (HybridLocator.visionSuccesses stats))
         / inject_Z (Z.of_nat (length log)))%Q)
  /\ (length log = 10%nat ->
      HybridLocator.selectorSuccesses stats = 7%nat ->
      HybridLocator.visionSuccesses stats = 2%nat ->
      HybridLocator.failures stats = 1%nat ->
      (HybridLocator.healingRate stats == 0.2)%Q
      /\ (overallSuccessRate stats == 0.9)%Q
      /\ map fst (statsObject stats)
         = ["totalAttempts"; "selectorSuccesses"; "visionSuccesses";
            "failures"; "healingRate"]).
Proof.
  cbv zeta. split; [reflexivity|].
  split; [intros ->; reflexivity|].
  split; [intros Hne; rewrite healingRate_def; destruct log; congruence|].
  intros Hlen Hsel Hvis Hfail.
  split; [|split; [|reflexivity]].
  - rewrite healingRate_def. destruct log; [discriminate|].
    rewrite Hvis, Hlen. reflexivity.
  - unfold overallSuccessRate. rewrite Hsel, Hvis.
    change (HybridLocator.totalAttempts (HybridLocator.getHealingStats log))
      with (length log).
    rewrite Hlen. reflexivity.
Qed.

Lemma getHealingStats_rates_witness :
  (HybridLocator.healingRate (HybridLocator.getHealingStats tenAttempts)
   == 0.2)%Q
  /\ (overallSuccessRate (HybridLocator.getHealingStats tenAttempts) == 0.9)%Q
  /\ map fst (statsObject (HybridLocator.getHealingStats tenAttempts))
     = ["totalAttempts"; "selectorSuccesses"; "visionSuccesses";
        "failures"; "healingRate"].
Proof.
  refine (proj2 (proj2 (proj2 (getHealingStats_rates tenAttempts))) _ _ _ _);
    reflexivity.
Defined.

(** C7, as stated, fails in its last part: on the log of ten attempts,
    no value of the object [getHealingStats] returns is 0.9. *)
Lemma getHealingStats_no_success_rate :
  HybridLocator.getHealingStats tenAttempts
  = {| HybridLocator.totalAttempts := 10;
       HybridLocator.selectorSuccesses := 7;
       HybridLocator.visionSuccesses := 2;
       HybridLocator.failures := 1;
       HybridLocator.healingRate := (2 # 1) * / (10 # 1) |}
  /\ Forall (fun member => ~ (snd member == 0.9)%Q)
            (statsObject (HybridLocator.getHealingStats tenAttempts)).
Proof.
  split; [reflexivity|].
  repeat constructor; simpl; intros H; vm_compute in H; discriminate H.
Qed.

(* ================================================================== *)
(** * Properties: a click with a "coordinates" selector hint *)
(* ================================================================== *)

(** What the Executor node does when it taps directly at [params.x],
    [params.y] without consulting the locator: fail when one of them is
    missing; else one [tap], then the settle delay. *)
Definition directTap {W} (driver : Driver.IMobileDriver W)
           (state : State.AgentState) (action : Types.ReasonerOutput)
           (st : HybridLocator.State W)
  : JS.outcome State.Patch * HybridLocator.State W :=
  let failed := fun e =>
    Executor.failurePatch state action
      (JS.messageOr "Unknown executor error" e) in
  match Types.p_x (Types.params action), Types.p_y (Types.params action) with
  | Some x, Some y =>
      match Driver.tap driver x y (HybridLocator.world st) with
      | (inl e, w1) => (inr (failed e), HybridLocator.withWorld st w1)
      | (inr _, w1) =>
          match Driver.waitFor driver 500 w1 with
          | (inl e, w2) => (inr (failed e), HybridLocator.withWorld st w2)
          | (inr _, w2) =>
              (inr (Executor.successPatch
                      ("Clicked at " +:+ Executor.point x y +:+ " - "
                       +:+ Types.targetElement action)),
               HybridLocator.withWorld st w2)
          end
      end
  | _, _ =>
      (inr (Executor.failurePatch state action
              "Click action requires x and y coordinates or selector hint"),
       st)
  end.

(** The action [a] with another selector hint. *)
Definition withSelector (a : Types.ReasonerOutput)
           (selector : option Types.SelectorHint) : Types.ReasonerOutput :=
  {| Types.thought := Types.thought a;
     Types.action := Types.action a;
     Types.params :=
       {| Types.p_x := Types.p_x (Types.params a);
          Types.p_y := Types.p_y (Types.params a);
          Types.p_text := Types.p_text (Types.params a);
          Types.p_direction := Types.p_direction (Types.params a);
          Types.p_duration := Types.p_duration (Types.params a);
          Types.p_selector := selector;
          Types.p_elementDescription :=
            Types.p_elementDescription (Types.params a) |};
     Types.targetElement := Types.targetElement a |}.

Definition withLastAction (s : State.AgentState)
           (a : Types.ReasonerOutput) : State.AgentState :=
  {| State.screenshot := State.screenshot s;
     State.uiTree := State.uiTree s;
     State.goal := State.goal s;
     State.actionHistory := State.actionHistory s;
     State.retryCount := State.retryCount s;
     State.errors := State.errors s;
     State.isComplete := State.isComplete s;
     State.lastAction := Some a;
     State.iteration := State.iteration s |}.

Lemma directTap_log {W} (driver : Driver.IMobileDriver W) state action st :
  HybridLocator.healingLog (snd (directTap driver state action st))
  = HybridLocator.healingLog st.
Proof.
  unfold directTap.
  destruct (Types.p_x (Types.params action)) as [x|]; [|reflexivity].
  destruct (Types.p_y (Types.params action)) as [y|]; [|reflexivity].
  destruct (Driver.tap driver x y (HybridLocator.world st)) as [[e|[]] w1];
    [reflexivity|].
  destruct (Driver.waitFor driver 500 w1) as [[e|[]] w2]; reflexivity.
Qed.

Lemma executor_click_coordinates {W} (driver : Driver.IMobileDriver W)
      (Date_now : W -> Z) state action selector st :
  Types.action action = Types.click ->
  Types.sel_type selector = Types.coordinates ->
  Executor.executor driver Date_now
    (withLastAction state (withSelector action (Some selector))) st
  = directTap driver state action st.
Proof.
  intros Hact Hty.
  unfold Executor.executor, Executor.tryBlock, directTap. simpl.
  rewrite Hact.
  unfold Executor.afterSwitch, Executor.doClick, Executor.hybridSelector.
  simpl. rewrite Hty.
  unfold Eff.tryCatch, Eff.bind, Executor.callDriver, HybridLocator.onWorld,
    Executor.failurePatch, Executor.point.
  simpl. rewrite Hact.
  destruct (Types.p_x (Types.params action)) as [x|]; [|reflexivity].
  destruct (Types.p_y (Types.params action)) as [y|]; [|reflexivity].
  destruct (Driver.tap driver x y (HybridLocator.world st)) as [[e|[]] w1];
    [reflexivity|].
  simpl. unfold Executor.DEFAULT_WAIT_MS.
  destruct (Driver.waitFor driver 500 w1) as [[e|[]] w2]; reflexivity.
Qed.

(** C10.  For a click whose selector hint has type "coordinates", the
    Executor taps directly at [params.x], [params.y], failing when one of
    them is missing; what it does is the same whatever the hint's own [x]
    and [y] are; no driver lookup is made and the healing log is left as
    it was.  The locator itself takes a coordinates locator as found, at
    the hint's coordinates, and would have logged a selector success. *)
Theorem click_coordinates_hint_bypasses_locator {W : Type}
        (driver : Driver.IMobileDriver W) (Date_now : W -> Z)
        (state : State.AgentState) (action : Types.ReasonerOutput)
        (selector : Types.SelectorHint) (st : HybridLocator.State W) :
  State.lastAction state = Some action ->
  Types.action action = Types.click ->
  Types.p_selector (Types.params action) = Some selector ->
  Types.sel_type selector = Types.coordinates ->
  Executor.executor driver Date_now state st
  = directTap driver state action st
  /\ HybridLocator.healingLog
       (snd (Executor.executor driver Date_now state st))
     = HybridLocator.healingLog st
  /\ (Types.p_x (Types.params action) = None
      \/ Types.p_y (Types.params action) = None ->
      Executor.executor driver Date_now state st
      = (inr (Executor.failurePatch state action
                "Click action requires x and y coordinates or selector hint"),
         st))
  /\ (forall hx hy,
        Executor.executor driver Date_now
          (withLastAction state
             (withSelector action
                (Some {| Types.sel_type := Types.coordinates;
                         Types.sel_value := Types.sel_value selector;
                         Types.sel_x := hx; Types.sel_y := hy |}))) st
        = Executor.executor driver Date_now state st)
  /\ (exists event,
        HybridLocator.locate driver Date_now
          (Executor.selectorToLocator selector) "" st
        = (inr {| HybridLocator.r_found := true;
                  HybridLocator.r_x := Some (JS.numOr (Types.sel_x selector) 0);
                  HybridLocator.r_y := Some (JS.numOr (Types.sel_y selector) 0);
                  HybridLocator.r_method := HybridLocator.selector;
                  HybridLocator.r_healingTriggered := false;
                  HybridLocator.r_error := None |},
           HybridLocator.pushed st event)).
Proof.
  intros Hlast Hact Hsel Hty.
  assert (Hstate : state
                   = withLastAction state (withSelector action (Some selector))).
  { destruct state as [a b c d e f g la i]. simpl in Hlast. subst la.
    unfold withLastAction, withSelector. simpl.
    destruct action as [t a' [px py txt dir dur s ed] tgt].
    simpl in Hsel. subst s. reflexivity. }
  assert (Hrun : Executor.executor driver Date_now state st
                 = directTap driver state action st).
  { rewrite Hstate at 1.
    apply (executor_click_coordinates driver Date_now state action selector st
             Hact Hty). }
  split; [exact Hrun|].
  split; [rewrite Hrun; apply directTap_log|].
  split.
  - intros Hmissing. rewrite Hrun. unfold directTap. simpl.
    destruct Hmissing as [-> | ->];
      [|destruct (Types.p_x (Types.params action))]; reflexivity.
  - split.
    + intros hx hy. rewrite Hrun.
      apply (executor_click_coordinates driver Date_now state action
               {| Types.sel_type := Types.coordinates;
                  Types.sel_value := Types.sel_value selector;
                  Types.sel_x := hx; Types.sel_y := hy |} st Hact eq_refl).
    + unfold Executor.selectorToLocator. rewrite Hty.
      eexists. reflexivity.
Qed.

(** A click at (362, 150) carrying the hint [{type: "coordinates", x: 1, y: 2}]. *)
Definition hintedClick : Types.ReasonerOutput :=
  withSelector (Fixture.clickAt 362 150)
    (Some {| Types.sel_type := Types.coordinates; Types.sel_value := None;
             Types.sel_x := Some 1; Types.sel_y := Some 2 |}).

Lemma click_coordinates_hint_bypasses_locator_witness :
  Executor.executor Fixture.calmDriver Fixture.clock
    (Fixture.stateWith 0 (Some hintedClick)) (HybridLocator.new None [])
  = directTap Fixture.calmDriver (Fixture.stateWith 0 (Some hintedClick)) hintedClick
      (HybridLocator.new None [])
  /\ HybridLocator.healingLog
       (snd (Executor.executor Fixture.calmDriver Fixture.clock
               (Fixture.stateWith 0 (Some hintedClick))
               (HybridLocator.new None [])))
     = [].
Proof.
  refine (let H :=
            click_coordinates_hint_bypasses_locator Fixture.calmDriver Fixture.clock
              (Fixture.stateWith 0 (Some hintedClick)) hintedClick
              {| Types.sel_type := Types.coordinates; Types.sel_value := None;
                 Types.sel_x := Some 1; Types.sel_y := Some 2 |}
              (HybridLocator.new None []) _ _ _ _ in
          conj (proj1 H) (proj1 (proj2 H))); reflexivity.
Defined.

(** The calls the driver sees for that click: the tap at [params.x],
    [params.y] and the settle delay; the hint's (1, 2) appears nowhere. *)
Example hinted_click_run :
  Executor.executor Fixture.calmDriver Fixture.clock
    (Fixture.stateWith 0 (Some hintedClick)) (HybridLocator.new None [])
  = (inr (Executor.successPatch "Clicked at (362, 150) - target"),
     HybridLocator.new None [Fixture.CTap 362 150; Fixture.CWaitFor 500]).
Proof. reflexivity. Qed.

(* ================================================================== *)
(** * Properties: the regular-expression matcher *)
(* ================================================================== *)

(** [Matches re w gs]: the text [w] is in the language of [re], with [gs]
    the texts of its capturing groups. *)
Inductive Matches : list Regex.item -> list ascii -> list (list ascii) -> Prop :=
| M_nil : Matches [] [] []
| M_lit t re w gs :
    Matches re w gs -> Matches (Regex.Lit t :: re) (t ++ w) gs
| M_opt_some t re w gs :
    Matches re w gs -> Matches (Regex.Opt t :: re) (t ++ w) gs
| M_opt_none t re w gs :
    Matches re w gs -> Matches (Regex.Opt t :: re) w gs
| M_rep k atLeastOne greedy capture re cs w gs :
    Forall (fun c => Regex.inCls k c = true) cs ->
    (atLeastOne = true -> cs <> []) ->
    Matches re w gs ->
    Matches (Regex.Rep k atLeastOne greedy capture :: re) (cs ++ w)
            (if capture then cs :: gs else gs).

Lemma stripPrefix_spec (p s s' : list ascii) :
  Regex.stripPrefix p s = Some s' <-> s = p ++ s'.
Proof.
  revert s. induction p as [|a p IH]; intros s; simpl.
  - split; congruence.
  - destruct s as [|b s]; [split; discriminate|].
    destruct (Ascii.eqb_spec a b) as [->|Hne].
    + rewrite IH. split; congruence.
    + split; [discriminate|]. intros H. simpl in H. congruence.
Qed.

Lemma stripPrefix_app (p s : list ascii) : Regex.stripPrefix p (p ++ s) = Some s.
Proof. apply stripPrefix_spec. reflexivity. Qed.

Lemma orTry_Some {A} (a b : option A) r :
  Regex.orTry a b = Some r -> a = Some r \/ b = Some r.
Proof. destruct a; simpl; auto. Qed.

Lemma orTry_is_Some {A} (a b : option A) :
  is_Some a \/ is_Some b -> is_Some (Regex.orTry a b).
Proof. destruct a; simpl; [eauto|]. intros [[? H]|H]; [discriminate|exact H]. Qed.

Lemma repLoop_sound rest k greedy need s cap m :
  Regex.repLoop rest k greedy need s = Some (cap, m) ->
  exists s',
    s = cap ++ s'
    /\ Forall (fun c => Regex.inCls k c = true) cap
    /\ (need = true -> cap <> [])
    /\ rest s' = Some m.
Proof.
  revert need cap m. induction s as [|c s IH]; intros need cap m H.
  - simpl in H.
    assert (Hstop : (if need then None else (fun m => ([], m)) <$> rest [])
                    = Some (cap, m)).
    { destruct greedy; simpl in H; [exact H|].
      apply orTry_Some in H as [H|H]; [exact H|discriminate]. }
    destruct need; [discriminate|].
    destruct (rest []) as [m0|] eqn:Hr; [|discriminate].
    simpl in Hstop. inversion Hstop; subst.
    exists []. repeat split; [constructor|discriminate|exact Hr].
  - simpl in H.
    assert (Hcases :
              (if need then None else (fun m => ([], m)) <$> rest (c :: s))
              = Some (cap, m)
              \/ (if Regex.inCls k c
                  then (fun r => (c :: r.1, r.2))
                         <$> Regex.repLoop rest k greedy false s
                  else None) = Some (cap, m)).
    { destruct greedy; apply orTry_Some in H; tauto. }
    destruct Hcases as [Hstop|Hmore].
    + destruct need; [discriminate|].
      destruct (rest (c :: s)) as [m0|] eqn:Hr; [|discriminate].
      simpl in Hstop. inversion Hstop; subst.
      exists (c :: s). repeat split; [constructor|discriminate|exact Hr].
    + destruct (Regex.inCls k c) eqn:Hc; [|discriminate].
      destruct (Regex.repLoop rest k greedy false s) as [[cap' m']|] eqn:Hl;
        [|discriminate].
      simpl in Hmore. inversion Hmore; subst.
      destruct (IH _ _ _ Hl) as (s' & -> & Hall & _ & Hr).
      exists s'. repeat split; [constructor; assumption|discriminate|exact Hr].
Qed.

Lemma matchHere_sound re : forall s m,
  Regex.matchHere re s = Some m ->
  exists tail,
    s = Regex.whole m ++ tail
    /\ Matches re (Regex.whole m) (Regex.groups m).
Proof.
  induction re as [|i re IH]; intros s m H; simpl in H.
  - inversion H; subst. exists s. split; [reflexivity|constructor].
  - destruct i as [t|t|k a g c].
    + destruct (Regex.stripPrefix t s) as [s'|] eqn:Hp; [|discriminate].
      apply stripPrefix_spec in Hp as ->.
      destruct (Regex.matchHere re s') as [m'|] eqn:Hm; [|discriminate].
      inversion H; subst. destruct (IH _ _ Hm) as (tail & -> & HM).
      exists tail. simpl. split; [rewrite app_assoc; reflexivity|].
      constructor. exact HM.
    + apply orTry_Some in H as [H|H].
      * destruct (Regex.stripPrefix t s) as [s'|] eqn:Hp; [|discriminate].
        apply stripPrefix_spec in Hp as ->.
        destruct (Regex.matchHere re s') as [m'|] eqn:Hm; [|discriminate].
        inversion H; subst. destruct (IH _ _ Hm) as (tail & -> & HM).
        exists tail. simpl. split; [rewrite app_assoc; reflexivity|].
        apply M_opt_some. exact HM.
      * destruct (IH _ _ H) as (tail & -> & HM).
        exists tail. split; [reflexivity|]. apply M_opt_none. exact HM.
    + destruct (Regex.repLoop (Regex.matchHere re) k g a s) as [[cap m']|] eqn:Hl;
        [|discriminate].
      inversion H; subst.
      destruct (repLoop_sound _ _ _ _ _ _ _ Hl) as (s' & -> & Hall & Hne & Hm).
      destruct (IH _ _ Hm) as (tail & -> & HM).
      exists tail. simpl. split; [rewrite app_assoc; reflexivity|].
      constructor; assumption.
Qed.

Lemma repLoop_complete rest k greedy cs s' :
  Forall (fun c => Regex.inCls k c = true) cs ->
  is_Some (rest s') ->
  forall need, (need = true -> cs <> []) ->
  is_Some (Regex.repLoop rest k greedy need (cs ++ s')).
Proof.
  intros Hall Hrest. induction Hall as [|c cs Hc Hall IH]; intros need Hneed.
  - destruct need; [exfalso; apply Hneed; reflexivity|].
    assert (Hstop : is_Some ((fun m => ([] : list ascii, m)) <$> rest s')).
    { destruct Hrest as [m ->]. simpl. eauto. }
    simpl. destruct s'; simpl; destruct greedy;
      first [exact Hstop | apply orTry_is_Some; auto].
  - simpl. rewrite Hc.
    assert (Hmore : is_Some ((fun r => (c :: r.1, r.2))
                             <$> Regex.repLoop rest k greedy false (cs ++ s'))).
    { destruct (IH false) as [r ->]; [discriminate|]. simpl. eauto. }
    destruct greedy; apply orTry_is_Some; auto.
Qed.

Lemma matchHere_complete re w gs :
  Matches re w gs -> forall tail, is_Some (Regex.matchHere re (w ++ tail)).
Proof.
  induction 1 as [|t re w gs _ IH|t re w gs _ IH|t re w gs _ IH
                  |k a g c re cs w gs Hall Hne _ IH]; intros tail; simpl.
  - eauto.
  - rewrite <- app_assoc, stripPrefix_app.
    destruct (IH tail) as [m ->]. simpl. eauto.
  - apply orTry_is_Some. left.
    rewrite <- app_assoc, stripPrefix_app.
    destruct (IH tail) as [m ->]. simpl. eauto.
  - apply orTry_is_Some. right. apply IH.
  - rewrite <- app_assoc.
    destruct (repLoop_complete (Regex.matchHere re) k g cs (w ++ tail)
                Hall (IH tail) a Hne) as [r ->].
    simpl. eauto.
Qed.

(** [search] finds a match exactly when some part of the text matches. *)
Lemma search_sound re : forall s m,
  Regex.search re s = Some m ->
  exists before after,
    s = before ++ Regex.whole m ++ after
    /\ Matches re (Regex.whole m) (Regex.groups m).
Proof.
  induction s as [|c s IH]; intros m H; simpl in H.
  - destruct (Regex.matchHere re []) as [m'|] eqn:Hm; [|discriminate].
    inversion H; subst. destruct (matchHere_sound _ _ _ Hm) as (tail & Hs & HM).
    exists [], tail. split; assumption.
  - destruct (Regex.matchHere re (c :: s)) as [m'|] eqn:Hm.
    + inversion H; subst.
      destruct (matchHere_sound _ _ _ Hm) as (tail & Hs & HM).
      exists [], tail. split; assumption.
    + destruct (IH _ H) as (before & after & -> & HM).
      exists (c :: before), after. split; [reflexivity|exact HM].
Qed.

Lemma search_complete re w gs before after :
  Matches re w gs -> is_Some (Regex.search re (before ++ w ++ after)).
Proof.
  intros HM. induction before as [|c before IH]; simpl.
  - destruct (matchHere_complete _ _ _ HM after) as [m Hm].
    destruct (w ++ after); simpl in *; rewrite Hm; eauto.
  - destruct (Regex.matchHere re (c :: before ++ w ++ after)); [eauto|exact IH].
Qed.

(* ================================================================== *)
(** * Properties: decimal numerals, [parseInt] and [Math.round] *)
(* ================================================================== *)

(** A numeral as [\d+] captures it: one decimal digit or more. *)
Definition isNumeral (ds : list ascii) : Prop :=
  ds <> [] /\ Forall (fun c => JS.isDigit c = true) ds.

Definition uintChars (d : Decimal.uint) : list ascii :=
  list_ascii_of_string (NilEmpty.string_of_uint d).

Lemma uintChars_digits (d : Decimal.uint) :
  Forall (fun c => JS.isDigit c = true) (uintChars d).
Proof.
  unfold uintChars. induction d; simpl; constructor; auto.
Qed.

Lemma parseInt_acc (d : Decimal.uint) (acc : positive) :
  fold_left (fun a c => 10 * a + JS.digitVal c) (uintChars d) (Zpos acc)
  = Zpos (Pos.of_uint_acc d acc).
Proof.
  unfold uintChars. revert acc.
  induction d; intros acc; simpl; [reflexivity|..];
    match goal with
    | |- fold_left _ _ ?z = _ =>
        match goal with
        | |- _ = Zpos (Pos.of_uint_acc _ ?p) =>
            replace z with (Zpos p)
              by (match goal with
                  | |- context [JS.digitVal ?c] =>
                      let v := eval vm_compute in (JS.digitVal c) in
                      change (JS.digitVal c) with v
                  end; lia)
        end
    end; apply IHd.
Qed.

Lemma mathInt_uint (d : Decimal.uint) :
  JS.mathInt (uintChars d) = Z.of_uint d.
Proof.
  unfold JS.mathInt, Z.of_uint, uintChars.
  induction d; simpl; [reflexivity|exact IHd|..];
    match goal with
    | |- fold_left _ _ ?z = Zpos (Pos.of_uint_acc _ ?p) =>
        change z with (Zpos p)
    end; apply parseInt_acc.
Qed.

(** The numeral printed for an integer denotes it. *)
Lemma mathInt_showZ (n : Z) :
  0 <= n ->
  isNumeral (list_ascii_of_string (JS.showZ n))
  /\ JS.mathInt (list_ascii_of_string (JS.showZ n)) = n.
Proof.
  intros Hn. unfold JS.showZ. destruct n as [|p|p]; [| |lia].
  - split; [|reflexivity]. split; [discriminate|]. repeat constructor.
  - simpl. pose proof (DecimalPos.Unsigned.to_uint_nonnil p) as Hnn.
    assert (Hs : NilZero.string_of_uint (Pos.to_uint p)
                 = NilEmpty.string_of_uint (Pos.to_uint p)).
    { destruct (Pos.to_uint p); [contradiction|reflexivity..]. }
    rewrite Hs. fold (uintChars (Pos.to_uint p)).
    split; [split|].
    + unfold uintChars. destruct (Pos.to_uint p); [contradiction|discriminate..].
    + apply uintChars_digits.
    + rewrite mathInt_uint. unfold Z.of_uint.
      rewrite DecimalPos.Unsigned.of_to. reflexivity.
Qed.

Lemma digitVal_nonneg (c : ascii) : JS.isDigit c = true -> 0 <= JS.digitVal c.
Proof.
  unfold JS.isDigit, JS.digitVal. intros H.
  apply andb_true_iff in H as [H _]. apply Nat.leb_le in H. lia.
Qed.

(** A numeral denotes an integer that is not negative. *)
Lemma mathInt_nonneg (ds : list ascii) :
  Forall (fun c => JS.isDigit c = true) ds -> 0 <= JS.mathInt ds.
Proof.
  unfold JS.mathInt. intros H.
  assert (G : forall acc, 0 <= acc ->
              0 <= fold_left (fun a c => 10 * a + JS.digitVal c) ds acc).
  { induction H as [|c ds Hc _ IH]; intros acc Hacc; simpl; [exact Hacc|].
    apply IH. pose proof (digitVal_nonneg c Hc). lia. }
  apply G. lia.
Qed.

(** Below [2^53] in size every integer is a number. *)
Lemma toNumber_exact (z : Z) :
  Z.abs z < 2 ^ 53 -> JS.toNumber z = JS.Finite z.
Proof.
  intros H. unfold JS.toNumber.
  destruct (Z.ltb_spec (Z.abs z) (2 ^ 53)); [reflexivity|lia].
Qed.

(** Rounding to a number keeps the sign: the test [<= 0] on the number
    nearest to an integer is the test on the integer. *)
Lemma toNumber_atMostZero (z : Z) :
  JS.atMostZero (JS.toNumber z) = (z <=? 0).
Proof.
  unfold JS.toNumber. cbv zeta.
  destruct (Z.ltb_spec (Z.abs z) (2 ^ 53)) as [|Hbig]; [reflexivity|].
  set (a := Z.abs z) in *.
  set (e := Z.log2 a - 52).
  assert (Ha : 0 < a) by (assert (0 < 2 ^ 53) by (apply Z.pow_pos_nonneg; lia); lia).
  assert (Hlog : 53 <= Z.log2 a).
  { rewrite <- (Z.log2_pow2 53) by lia. apply Z.log2_le_mono. exact Hbig. }
  assert (He : 0 < 2 ^ e) by (apply Z.pow_pos_nonneg; lia).
  assert (Hq : 1 <= a / 2 ^ e).
  { apply Z.div_le_lower_bound; [exact He|].
    destruct (Z.log2_spec a Ha) as [Hlo _].
    assert (2 ^ e <= 2 ^ Z.log2 a)
      by (apply Z.pow_le_mono_r; unfold e; lia).
    lia. }
  set (q := a / 2 ^ e) in *.
  match goal with
  | |- context [if ?b then q + 1 else q] =>
      set (q' := if b then q + 1 else q);
      assert (Hq' : 1 <= q') by (subst q'; destruct b; lia)
  end.
  assert (Hv : 0 < q' * 2 ^ e) by (apply Z.mul_pos_pos; lia).
  destruct (2 ^ 1024 <=? q' * 2 ^ e).
  - destruct (Z.ltb_spec z 0), (Z.leb_spec z 0); simpl; try reflexivity; lia.
  - simpl. destruct (Z.leb_spec z 0), (Z.leb_spec (Z.sgn z * (q' * 2 ^ e)) 0);
      try reflexivity; exfalso.
    + assert (Z.sgn z = -1) by (apply Z.sgn_neg; lia). lia.
    + assert (Z.sgn z = 1) by (apply Z.sgn_pos; lia). lia.
Qed.

(** What [parseInt] makes of a numeral: a finite number that is not
    negative, or [Infinity]. *)
Lemma parseInt_cases (ds : list ascii) :
  Forall (fun c => JS.isDigit c = true) ds ->
  (exists v, JS.parseInt ds = JS.Finite v /\ 0 <= v)
  \/ JS.parseInt ds = JS.Infinity.
Proof.
  intros H. pose proof (mathInt_nonneg ds H) as Hn.
  pose proof (toNumber_atMostZero (JS.mathInt ds)) as Hs.
  unfold JS.parseInt. unfold JS.toNumber in *. cbv zeta in *.
  destruct (Z.abs (JS.mathInt ds) <? 2 ^ 53); [left; eauto|].
  destruct (2 ^ 1024 <=? _).
  - destruct (Z.ltb_spec (JS.mathInt ds) 0); [lia|right; reflexivity].
  - left. eexists. split; [reflexivity|].
    simpl in Hs. destruct (Z.leb_spec (JS.mathInt ds) 0) as [H0|H0].
    + assert (JS.mathInt ds = 0) as -> by lia. simpl. lia.
    + apply Z.leb_gt in Hs. lia.
Qed.

(** [parseInt] reads back what the template literal prints, below
    [2^53]. *)
Lemma parseInt_showZ (n : Z) :
  0 <= n < 2 ^ 53 ->
  isNumeral (list_ascii_of_string (JS.showZ n))
  /\ JS.parseInt (list_ascii_of_string (JS.showZ n)) = JS.Finite n.
Proof.
  intros Hn. destruct (mathInt_showZ n) as [N E]; [lia|].
  split; [exact N|]. unfold JS.parseInt. rewrite E.
  apply toNumber_exact. lia.
Qed.

(** Numbers as they are read and printed: above [2^53] the doubles are
    spaced out and a tie goes to the even one, past the largest double
    comes [Infinity]; a number is printed with the fewest digits that
    read back as it, and from [10^21] on in the exponent form. *)
Example number_examples :
  JS.toNumber 9007199254740993 = JS.Finite 9007199254740992
  /\ JS.toNumber 9007199254740995 = JS.Finite 9007199254740996
  /\ JS.toNumber (2 ^ 1024 - 2 ^ 970 - 1) = JS.Finite (2 ^ 1024 - 2 ^ 971)
  /\ JS.toNumber (2 ^ 1024 - 2 ^ 970) = JS.Infinity
  /\ JS.sub JS.Infinity JS.Infinity = JS.NaN
  /\ JS.atMostZero JS.NaN = false
  /\ JS.showNumber (JS.Finite 540) = "540"
  /\ JS.showNumber (JS.toNumber (2 ^ 64)) = "18446744073709552000"
  /\ JS.showNumber (JS.toNumber (10 ^ 21)) = "1e+21"
  /\ JS.showNumber (JS.toNumber (2 ^ 70)) = "1.1805916207174113e+21"
  /\ JS.showNumber (JS.toNumber (2 ^ 1024 - 2 ^ 971))
     = "1.7976931348623157e+308".
Proof. vm_compute. repeat split. Qed.

(** For an integer [n], [Math.round(n / 2)] is [n / 2] rounded up. *)
Lemma Math_round_half (n : Z) :
  JS.Math_round (inject_Z n / 2) = (n + 1) / 2.
Proof.
  unfold JS.Math_round, Qfloor, Qdiv, Qmult, Qplus, Qinv, inject_Z.
  cbn [Qnum Qden].
  change (Z.pos (1 * 2 * 2)) with (2 * 2).
  replace (n * 1 * 2 + 1 * Z.pos (1 * 2)) with ((n + 1) * 2) by lia.
  apply Z.div_mul_cancel_r; lia.
Qed.

(* ================================================================== *)
(** * Properties: [parseBounds] *)
(* ================================================================== *)

(** The text ["[d1,d2][d3,d4]"]. *)
Definition boundsText (d1 d2 d3 d4 : list ascii) : list ascii :=
  "["%char :: d1 ++ ","%char :: d2 ++ "]"%char :: "["%char :: d3
  ++ ","%char :: d4 ++ ["]"%char].

(** The bounds string of four integers, as a template literal prints it. *)
Definition boundsString (x1 y1 x2 y2 : Z) : string :=
  string_of_list_ascii
    (boundsText (list_ascii_of_string (JS.showZ x1))
                (list_ascii_of_string (JS.showZ y1))
                (list_ascii_of_string (JS.showZ x2))
                (list_ascii_of_string (JS.showZ y2))).

(** The string has a part of the form ["[d1,d2][d3,d4]"] somewhere. *)
Definition containsBounds (s : string) : Prop :=
  exists before d1 d2 d3 d4 after,
    isNumeral d1 /\ isNumeral d2 /\ isNumeral d3 /\ isNumeral d4
    /\ list_ascii_of_string s = before ++ boundsText d1 d2 d3 d4 ++ after.

(** What [parseBounds] builds from the four captured numerals. *)
Definition boundsOf (d1 d2 d3 d4 : list ascii) : Types.Bounds :=
  {| Types.x1 := JS.parseInt d1;
     Types.y1 := JS.parseInt d2;
     Types.x2 := JS.parseInt d3;
     Types.y2 := JS.parseInt d4;
     Types.centerX := JS.roundHalf (JS.add (JS.parseInt d1) (JS.parseInt d3));
     Types.centerY := JS.roundHalf (JS.add (JS.parseInt d2) (JS.parseInt d4)) |}.

(** The bounds of four integers whose sums along each axis stay below
    [2^53]: the edges, and the midpoints rounded by [Math.round]. *)
Definition exactBounds (x1 y1 x2 y2 : Z) : Types.Bounds :=
  {| Types.x1 := JS.Finite x1; Types.y1 := JS.Finite y1;
     Types.x2 := JS.Finite x2; Types.y2 := JS.Finite y2;
     Types.centerX := JS.Finite (JS.Math_round (inject_Z (x1 + x2) / 2));
     Types.centerY := JS.Finite (JS.Math_round (inject_Z (y1 + y2) / 2)) |}.

Lemma Matches_bounds_inv w gs :
  Matches XmlParser.BOUNDS_REGEX w gs ->
  exists d1 d2 d3 d4,
    isNumeral d1 /\ isNumeral d2 /\ isNumeral d3 /\ isNumeral d4
    /\ w = boundsText d1 d2 d3 d4 /\ gs = [d1; d2; d3; d4].
Proof.
  unfold XmlParser.BOUNDS_REGEX. intros H.
  repeat match goal with
         | H : Matches (_ :: _) _ _ |- _ => inversion H; subst; clear H
         | H : Matches [] _ _ |- _ => inversion H; subst; clear H
         end.
  unfold isNumeral, boundsText.
  eexists _, _, _, _. repeat split; eauto.
Qed.

Lemma Matches_bounds_intro d1 d2 d3 d4 :
  isNumeral d1 -> isNumeral d2 -> isNumeral d3 -> isNumeral d4 ->
  Matches XmlParser.BOUNDS_REGEX (boundsText d1 d2 d3 d4) [d1; d2; d3; d4].
Proof.
  intros [N1 D1] [N2 D2] [N3 D3] [N4 D4].
  unfold XmlParser.BOUNDS_REGEX, boundsText.
  apply (M_lit ["["%char]).
  apply (M_rep Regex.Digit true true true); [assumption|auto|].
  apply (M_lit [","%char]).
  apply (M_rep Regex.Digit true true true); [assumption|auto|].
  apply (M_lit ["]"%char]). apply (M_lit ["["%char]).
  apply (M_rep Regex.Digit true true true); [assumption|auto|].
  apply (M_lit [","%char]).
  apply (M_rep Regex.Digit true true true); [assumption|auto|].
  apply (M_lit ["]"%char] _ []). constructor.
Qed.

(** A run of digits ends at the first character that is not a digit. *)
Lemma digit_run_unique ds es c c' r r' :
  Forall (fun a => JS.isDigit a = true) ds ->
  Forall (fun a => JS.isDigit a = true) es ->
  JS.isDigit c = false -> JS.isDigit c' = false ->
  ds ++ c :: r = es ++ c' :: r' ->
  ds = es /\ r = r'.
Proof.
  intros Hds. revert es. induction Hds as [|d ds Hd Hds IH]; intros es Hes Hc Hc' E.
  - destruct Hes as [|e es He Hes]; simpl in E.
    + inversion E. split; reflexivity.
    + inversion E; subst. congruence.
  - destruct Hes as [|e es He Hes]; simpl in E.
    + inversion E; subst. congruence.
    + inversion E; subst. destruct (IH es Hes Hc Hc' H1) as [-> ->].
      split; reflexivity.
Qed.

Lemma boundsText_unique d1 d2 d3 d4 e1 e2 e3 e4 t t' :
  isNumeral d1 -> isNumeral d2 -> isNumeral d3 -> isNumeral d4 ->
  isNumeral e1 -> isNumeral e2 -> isNumeral e3 -> isNumeral e4 ->
  boundsText d1 d2 d3 d4 ++ t = boundsText e1 e2 e3 e4 ++ t' ->
  d1 = e1 /\ d2 = e2 /\ d3 = e3 /\ d4 = e4.
Proof.
  intros [_ D1] [_ D2] [_ D3] [_ D4] [_ E1] [_ E2] [_ E3] [_ E4] E.
  unfold boundsText in E. simpl in E.
  repeat rewrite <- ?app_assoc, <- ?app_comm_cons in E. simpl in E.
  inversion E as [E1']. clear E.
  apply digit_run_unique in E1' as [-> E2']; try assumption; try reflexivity.
  apply digit_run_unique in E2' as [-> E3']; try assumption; try reflexivity.
  inversion E3' as [E3'']. clear E3'.
  apply digit_run_unique in E3'' as [-> E4']; try assumption; try reflexivity.
  apply digit_run_unique in E4' as [-> _]; try assumption; try reflexivity.
  repeat split.
Qed.

Lemma search_head re s m :
  Regex.matchHere re s = Some m -> Regex.search re s = Some m.
Proof. intros H. destruct s; simpl; rewrite H; reflexivity. Qed.

(** On a text of the form ["[d1,d2][d3,d4]"], followed by anything, the
    expression matches at once and captures the four numerals. *)
Lemma bounds_match_here d1 d2 d3 d4 after :
  isNumeral d1 -> isNumeral d2 -> isNumeral d3 -> isNumeral d4 ->
  exists m,
    Regex.matchHere XmlParser.BOUNDS_REGEX (boundsText d1 d2 d3 d4 ++ after)
    = Some m
    /\ Regex.groups m = [d1; d2; d3; d4].
Proof.
  intros N1 N2 N3 N4.
  destruct (matchHere_complete _ _ _
              (Matches_bounds_intro d1 d2 d3 d4 N1 N2 N3 N4) after) as [m Hm].
  exists m. split; [exact Hm|].
  destruct (matchHere_sound _ _ _ Hm) as (tail & E & HM).
  destruct (Matches_bounds_inv _ _ HM)
    as (e1 & e2 & e3 & e4 & M1 & M2 & M3 & M4 & Hw & Hg).
  rewrite Hw in E.
  destruct (boundsText_unique _ _ _ _ _ _ _ _ _ _ N1 N2 N3 N4 M1 M2 M3 M4 E)
    as (-> & -> & -> & ->).
  exact Hg.
Qed.

Lemma parseBounds_of_text d1 d2 d3 d4 :
  isNumeral d1 -> isNumeral d2 -> isNumeral d3 -> isNumeral d4 ->
  XmlParser.parseBounds (string_of_list_ascii (boundsText d1 d2 d3 d4))
  = Some (boundsOf d1 d2 d3 d4).
Proof.
  intros N1 N2 N3 N4.
  destruct (bounds_match_here d1 d2 d3 d4 [] N1 N2 N3 N4) as (m & Hm & Hg).
  rewrite app_nil_r in Hm.
  unfold XmlParser.parseBounds, Regex.exec.
  rewrite list_ascii_of_string_of_list_ascii, (search_head _ _ _ Hm).
  unfold Regex.group. rewrite Hg. reflexivity.
Qed.

Lemma parseBounds_None_iff (s : string) :
  XmlParser.parseBounds s = None <-> ~ containsBounds s.
Proof.
  unfold XmlParser.parseBounds, Regex.exec. split.
  - intros Hnone (before & d1 & d2 & d3 & d4 & after & N1 & N2 & N3 & N4 & E).
    rewrite E in Hnone.
    destruct (search_complete _ _ _ before after
                (Matches_bounds_intro d1 d2 d3 d4 N1 N2 N3 N4)) as [m Hm].
    rewrite Hm in Hnone. discriminate.
  - intros Hno.
    destruct (Regex.search XmlParser.BOUNDS_REGEX (list_ascii_of_string s))
      as [m|] eqn:Hs; [|reflexivity].
    exfalso. apply Hno.
    destruct (search_sound _ _ _ Hs) as (before & after & E & HM).
    destruct (Matches_bounds_inv _ _ HM)
      as (d1 & d2 & d3 & d4 & N1 & N2 & N3 & N4 & Hw & _).
    exists before, d1, d2, d3, d4, after. rewrite <- Hw. auto.
Qed.

Lemma parseBounds_Some (s : string) (b : Types.Bounds) :
  XmlParser.parseBounds s = Some b ->
  exists before d1 d2 d3 d4 after,
    isNumeral d1 /\ isNumeral d2 /\ isNumeral d3 /\ isNumeral d4
    /\ list_ascii_of_string s = before ++ boundsText d1 d2 d3 d4 ++ after
    /\ b = boundsOf d1 d2 d3 d4.
Proof.
  unfold XmlParser.parseBounds, Regex.exec.
  destruct (Regex.search XmlParser.BOUNDS_REGEX (list_ascii_of_string s))
    as [m|] eqn:Hs; [|discriminate].
  intros [= <-].
  destruct (search_sound _ _ _ Hs) as (before & after & E & HM).
  destruct (Matches_bounds_inv _ _ HM)
    as (d1 & d2 & d3 & d4 & N1 & N2 & N3 & N4 & Hw & Hg).
  exists before, d1, d2, d3, d4, after.
  rewrite <- Hw. unfold Regex.group, boundsOf. rewrite Hg. simpl. auto 10.
Qed.

(** In the range where the sums are exact, the bounds built from four
    numerals are those of the integers they denote. *)
Lemma boundsOf_exact d1 d2 d3 d4 :
  isNumeral d1 -> isNumeral d2 -> isNumeral d3 -> isNumeral d4 ->
  JS.mathInt d1 + JS.mathInt d3 < 2 ^ 53 ->
  JS.mathInt d2 + JS.mathInt d4 < 2 ^ 53 ->
  boundsOf d1 d2 d3 d4
  = exactBounds (JS.mathInt d1) (JS.mathInt d2)
                (JS.mathInt d3) (JS.mathInt d4).
Proof.
  intros [_ D1] [_ D2] [_ D3] [_ D4] Hx Hy.
  pose proof (mathInt_nonneg d1 D1). pose proof (mathInt_nonneg d2 D2).
  pose proof (mathInt_nonneg d3 D3). pose proof (mathInt_nonneg d4 D4).
  unfold boundsOf, exactBounds, JS.parseInt.
  rewrite !toNumber_exact by lia. unfold JS.add.
  rewrite !toNumber_exact by lia. reflexivity.
Qed.

(** C8, as the code has it.  For every string ["[x1,y1][x2,y2]"] whose
    four parts are decimal numerals (so none is negative) with x1 < x2,
    y1 < y2 and the sums x1 + x2 and y1 + y2 below 2^53, [parseBounds]
    yields the four integers with centerX = round((x1+x2)/2) and
    centerY = round((y1+y2)/2), the midpoint rounded up; so it does for
    the string printed from four such integers.  (Longer numerals are
    read as the nearest double, see [parseBounds_rounds_long_numerals].)
    It yields [null] exactly for the strings that have no part of that
    form anywhere: text before or after the pattern does not prevent the
    match, and the bounds it yields are those of such a part of the
    string. *)
Theorem parseBounds_centers_and_absence :
  (forall d1 d2 d3 d4 : list ascii,
      isNumeral d1 -> isNumeral d2 -> isNumeral d3 -> isNumeral d4 ->
      let x1 := JS.mathInt d1 in
      let y1 := JS.mathInt d2 in
      let x2 := JS.mathInt d3 in
      let y2 := JS.mathInt d4 in
      x1 < x2 -> y1 < y2 -> x1 + x2 < 2 ^ 53 -> y1 + y2 < 2 ^ 53 ->
      XmlParser.parseBounds (string_of_list_ascii (boundsText d1 d2 d3 d4))
      = Some {| Types.x1 := JS.Finite x1; Types.y1 := JS.Finite y1;
                Types.x2 := JS.Finite x2; Types.y2 := JS.Finite y2;
                Types.centerX :=
                  JS.Finite (JS.Math_round (inject_Z (x1 + x2) / 2));
                Types.centerY :=
                  JS.Finite (JS.Math_round (inject_Z (y1 + y2) / 2)) |}
      /\ JS.Math_round (inject_Z (x1 + x2) / 2) = (x1 + x2 + 1) / 2
      /\ JS.Math_round (inject_Z (y1 + y2) / 2) = (y1 + y2 + 1) / 2)
  /\ (forall x1 y1 x2 y2 : Z,
         0 <= x1 < x2 -> 0 <= y1 < y2 ->
         x1 + x2 < 2 ^ 53 -> y1 + y2 < 2 ^ 53 ->
         XmlParser.parseBounds (boundsString x1 y1 x2 y2)
         = Some {| Types.x1 := JS.Finite x1; Types.y1 := JS.Finite y1;
                   Types.x2 := JS.Finite x2; Types.y2 := JS.Finite y2;
                   Types.centerX :=
                     JS.Finite (JS.Math_round (inject_Z (x1 + x2) / 2));
                   Types.centerY :=
                     JS.Finite (JS.Math_round (inject_Z (y1 + y2) / 2)) |}
         /\ JS.Math_round (inject_Z (x1 + x2) / 2) = (x1 + x2 + 1) / 2
         /\ JS.Math_round (inject_Z (y1 + y2) / 2) = (y1 + y2 + 1) / 2)
  /\ (forall s : string,
         XmlParser.parseBounds s = None <-> ~ containsBounds s)
  /\ (forall (s : string) (b : Types.Bounds),
         XmlParser.parseBounds s = Some b ->
         exists before d1 d2 d3 d4 after,
           isNumeral d1 /\ isNumeral d2 /\ isNumeral d3 /\ isNumeral d4
           /\ list_ascii_of_string s
              = before ++ boundsText d1 d2 d3 d4 ++ after
           /\ b = boundsOf d1 d2 d3 d4).
Proof.
  split; [|split; [|split; [|apply parseBounds_Some]]].
  - intros d1 d2 d3 d4 N1 N2 N3 N4. cbv zeta. intros _ _ Hx Hy.
    split; [|split; apply Math_round_half].
    rewrite (parseBounds_of_text d1 d2 d3 d4 N1 N2 N3 N4).
    rewrite (boundsOf_exact d1 d2 d3 d4 N1 N2 N3 N4 Hx Hy). reflexivity.
  - intros x1 y1 x2 y2 Hx Hy Hsx Hsy.
    destruct (mathInt_showZ x1) as [N1 P1]; [lia|].
    destruct (mathInt_showZ y1) as [N2 P2]; [lia|].
    destruct (mathInt_showZ x2) as [N3 P3]; [lia|].
    destruct (mathInt_showZ y2) as [N4 P4]; [lia|].
    split; [|split; apply Math_round_half].
    unfold boundsString.
    rewrite (parseBounds_of_text _ _ _ _ N1 N2 N3 N4).
    rewrite (boundsOf_exact _ _ _ _ N1 N2 N3 N4) by (rewrite ?P1, ?P2, ?P3, ?P4; lia).
    rewrite P1, P2, P3, P4. reflexivity.
  - apply parseBounds_None_iff.
Qed.

Lemma parseBounds_centers_and_absence_witness :
  XmlParser.parseBounds (boundsString 156 892 924 1050)
  = Some {| Types.x1 := JS.Finite 156; Types.y1 := JS.Finite 892;
            Types.x2 := JS.Finite 924; Types.y2 := JS.Finite 1050;
            Types.centerX :=
              JS.Finite (JS.Math_round (inject_Z (156 + 924) / 2));
            Types.centerY :=
              JS.Finite (JS.Math_round (inject_Z (892 + 1050) / 2)) |}
  /\ JS.Math_round (inject_Z (156 + 924) / 2) = (156 + 924 + 1) / 2
  /\ JS.Math_round (inject_Z (892 + 1050) / 2) = (892 + 1050 + 1) / 2.
Proof.
  refine (proj1 (proj2 parseBounds_centers_and_absence)
            156 892 924 1050 _ _ _ _);
    lia.
Defined.

(** The example of the source comment, and a midpoint that is rounded up. *)
Example parseBounds_example :
  XmlParser.parseBounds "[156,892][924,1050]"
  = Some {| Types.x1 := JS.Finite 156; Types.y1 := JS.Finite 892;
            Types.x2 := JS.Finite 924; Types.y2 := JS.Finite 1050;
            Types.centerX := JS.Finite 540; Types.centerY := JS.Finite 971 |}.
Proof. reflexivity. Qed.

Example parseBounds_rounds_up :
  XmlParser.parseBounds "[0,0][3,5]"
  = Some {| Types.x1 := JS.Finite 0; Types.y1 := JS.Finite 0;
            Types.x2 := JS.Finite 3; Types.y2 := JS.Finite 5;
            Types.centerX := JS.Finite 2; Types.centerY := JS.Finite 3 |}.
Proof. reflexivity. Qed.

(** A numeral above [2^53] is read as the nearest double: here the right
    edge is even where the numeral is odd, and the midpoint is that of
    the edges as read. *)
Example parseBounds_rounds_long_numerals :
  XmlParser.parseBounds "[0,0][9007199254740993,7]"
  = Some {| Types.x1 := JS.Finite 0; Types.y1 := JS.Finite 0;
            Types.x2 := JS.Finite 9007199254740992;
            Types.y2 := JS.Finite 7;
            Types.centerX := JS.Finite 4503599627370496;
            Types.centerY := JS.Finite 4 |}.
Proof. vm_compute. reflexivity. Qed.

(** A minus sign is no part of a numeral: nothing of the form is in the
    string, and [parseBounds] yields [null]. *)
Example parseBounds_negative_edge :
  XmlParser.parseBounds "[-1,2][3,4]" = None.
Proof. reflexivity. Qed.

(** C8, as stated, fails in its second half: this string is not of the
    form ["[x1,y1][x2,y2]"] (it starts with other text), and [parseBounds]
    does not yield [null] for it. *)
Lemma parseBounds_matches_inside_text :
  (forall d1 d2 d3 d4 : list ascii,
      list_ascii_of_string "bounds=[1,2][3,4]" <> boundsText d1 d2 d3 d4)
  /\ XmlParser.parseBounds "bounds=[1,2][3,4]"
     = Some {| Types.x1 := JS.Finite 1; Types.y1 := JS.Finite 2;
               Types.x2 := JS.Finite 3; Types.y2 := JS.Finite 4;
               Types.centerX := JS.Finite 2; Types.centerY := JS.Finite 3 |}
  /\ XmlParser.parseBounds "bounds=[1,2][3,4]" <> None.
Proof.
  split; [|split; [reflexivity|discriminate]].
  intros d1 d2 d3 d4 E. discriminate E.
Qed.

(* ================================================================== *)
(** * Properties: the tree pruner *)
(* ================================================================== *)

(** A text field of an emitted element: not empty, and either at most 50
    characters long or 50 characters followed by the ellipsis. *)
Definition textWithinLimit (t : option string) : Prop :=
  forall s, t = Some s ->
    s <> ""
    /\ ((String.length s <= 50)%nat
        \/ exists p, String.length p = 50%nat /\ s = p +:+ "...").

(** [n > 0]: a comparison with NaN is false. *)
Definition positive (n : JS.number) : Prop :=
  match n with
  | JS.Finite z => 0 < z
  | JS.Infinity => True
  | JS.NegInfinity | JS.NaN => False
  end.

(** Width and height are strictly positive. *)
Definition positiveSize (b : Types.Bounds) : Prop :=
  positive (JS.sub (Types.x2 b) (Types.x1 b))
  /\ positive (JS.sub (Types.y2 b) (Types.y1 b)).

(** What the size test of [isVisible] lets through along one axis: an
    extent [hi - lo] that is strictly positive, and the one that is NaN,
    between two edges that both are [Infinity]. *)
Definition passesSizeTest (lo hi : JS.number) : Prop :=
  positive (JS.sub hi lo) \/ (lo = JS.Infinity /\ hi = JS.Infinity).

Definition sizeTested (b : Types.Bounds) : Prop :=
  passesSizeTest (Types.x1 b) (Types.x2 b)
  /\ passesSizeTest (Types.y1 b) (Types.y2 b).

Lemma toNumber_positive (z : Z) : 0 < z -> positive (JS.toNumber z).
Proof.
  intros Hz. pose proof (toNumber_atMostZero z) as H.
  destruct (Z.leb_spec z 0); [lia|].
  unfold JS.toNumber in *. cbv zeta in *.
  destruct (Z.abs z <? 2 ^ 53); [exact Hz|].
  destruct (2 ^ 1024 <=? _).
  - destruct (z <? 0); [discriminate H|exact I].
  - simpl in *. apply Z.leb_gt in H. exact H.
Qed.

Lemma sizeTest_cases (lo hi : JS.number) :
  (exists v, lo = JS.Finite v /\ 0 <= v) \/ lo = JS.Infinity ->
  (exists v, hi = JS.Finite v /\ 0 <= v) \/ hi = JS.Infinity ->
  JS.atMostZero (JS.sub hi lo) = false ->
  passesSizeTest lo hi.
Proof.
  intros [(a & -> & _)| ->] [(c & -> & _)| ->] H; unfold passesSizeTest.
  - left. simpl in *. rewrite toNumber_atMostZero in H.
    apply Z.leb_gt in H. apply toNumber_positive. lia.
  - left. exact I.
  - discriminate H.
  - right. split; reflexivity.
Qed.

(** The edges [parseBounds] yields are read by [parseInt]. *)
Lemma parseBounds_edges (s : string) (b : Types.Bounds) :
  XmlParser.parseBounds s = Some b ->
  Forall (fun edge => (exists v, edge = JS.Finite v /\ 0 <= v)
                      \/ edge = JS.Infinity)
         [Types.x1 b; Types.y1 b; Types.x2 b; Types.y2 b].
Proof.
  intros H. apply parseBounds_Some in H
    as (before & d1 & d2 & d3 & d4 & after
        & [_ D1] & [_ D2] & [_ D3] & [_ D4] & _ & ->).
  unfold boundsOf. simpl.
  repeat (apply List.Forall_cons; [apply parseInt_cases; assumption|]).
  apply List.Forall_nil.
Qed.

(** The element [e] is what the pruner emits for a node with the
    attributes [attrs]. *)
Definition emittedFor (attrs : gmap string string) (e : Types.PrunedElement)
  : Prop :=
  attrs !! "displayed" <> Some "false"
  /\ exists boundsStr b,
      attrs !! "bounds" = Some boundsStr
      /\ XmlParser.parseBounds boundsStr = Some b
      /\ e = XmlParser.prunedOf attrs b.

(** [descends n root]: the node [n] is [root] or lies below it. *)
Inductive descends (n : XmlParser.XmlNode) : XmlParser.XmlNode -> Prop :=
| descends_here : descends n n
| descends_below w members key children child :
    In (key, Some children) members ->
    In child children ->
    descends n child ->
    descends n (XmlParser.XObject w members).

Lemma string_length_of_list (l : list ascii) :
  String.length (string_of_list_ascii l) = length l.
Proof. induction l as [|a l IH]; simpl; [|rewrite IH]; reflexivity. Qed.

Lemma list_length_of_string (s : string) :
  length (list_ascii_of_string s) = String.length s.
Proof. induction s as [|a s IH]; simpl; [|rewrite IH]; reflexivity. Qed.

Lemma string_length_append (a b : string) :
  String.length (a +:+ b) = (String.length a + String.length b)%nat.
Proof. induction a as [|c a IH]; simpl; [|rewrite IH]; reflexivity. Qed.

Lemma truncateText_limit (t : option string) :
  textWithinLimit (XmlParser.truncateText t).
Proof.
  unfold textWithinLimit, XmlParser.truncateText. intros s.
  destruct t as [[|c t]|]; try discriminate.
  set (trimmed := JS.trim (String c t)).
  destruct (Nat.eqb_spec (String.length trimmed) 0) as [|Hne]; [discriminate|].
  unfold XmlParser.MAX_TEXT_LENGTH.
  destruct (Nat.leb_spec (String.length trimmed) 50) as [Hle|Hgt];
    intros [= <-].
  - split; [|left; exact Hle]. intros E. rewrite E in Hne. contradiction.
  - assert (Hlen : String.length (JS.slice0 50 trimmed) = 50%nat).
    { unfold JS.slice0.
      rewrite string_length_of_list, List.length_firstn, list_length_of_string.
      lia. }
    split.
    + intros E. apply (f_equal String.length) in E.
      rewrite string_length_append, Hlen in E. discriminate.
    + right. exists (JS.slice0 50 trimmed). split; [exact Hlen|reflexivity].
Qed.

(** What one node adds to the array. *)
Lemma visitNode_emits attrs acc e :
  In e (XmlParser.visitNode attrs acc) ->
  In e acc
  \/ (emittedFor attrs e
      /\ sizeTested (Types.bounds e)
      /\ textWithinLimit (Types.text e)
      /\ textWithinLimit (Types.contentDesc e)).
Proof.
  unfold XmlParser.visitNode, XmlParser.isVisible.
  destruct (attrs !! "bounds") as [[|c boundsStr]|] eqn:Hb; simpl; auto.
  destruct (decide (attrs !! "displayed" = Some "false")) as [|Hd]; auto.
  destruct (XmlParser.parseBounds (String c boundsStr)) as [b|] eqn:Hp; auto.
  destruct (JS.atMostZero (JS.sub (Types.x2 b) (Types.x1 b))) eqn:Hw;
    simpl; auto.
  destruct (JS.atMostZero (JS.sub (Types.y2 b) (Types.y1 b))) eqn:Hh;
    simpl; auto.
  destruct (XmlParser.hasIdentifiableContent attrs
            || bool_decide (attrs !! "clickable" = Some "true")); auto.
  intros Hin. apply in_app_or in Hin as [Hin|[<-|[]]]; [left; exact Hin|].
  pose proof (parseBounds_edges _ _ Hp) as He.
  inversion He as [|? ? E1 He1]; subst. inversion He1 as [|? ? E2 He2]; subst.
  inversion He2 as [|? ? E3 He3]; subst. inversion He3 as [|? ? E4 _]; subst.
  right. split; [|split; [|split]].
  - split; [exact Hd|]. exists (String c boundsStr), b. auto.
  - split; simpl; apply sizeTest_cases; assumption.
  - apply truncateText_limit.
  - apply truncateText_limit.
Qed.

(** Induction on a parsed tree: a property holds of a node when it holds
    of every node in every array among its members. *)
Section XmlNodeInduction.
Variable P : XmlParser.XmlNode -> Prop.
Hypothesis P_other : P XmlParser.XOther.
Hypothesis P_object :
  forall w members,
    Forall (fun member =>
              match snd member with
              | Some children => Forall P children
              | None => True
              end) members ->
    P (XmlParser.XObject w members).

Fixpoint XmlNode_induction (n : XmlParser.XmlNode) : P n :=
  match n with
  | XmlParser.XOther => P_other
  | XmlParser.XObject w members =>
      P_object w members
        ((fix onMembers (ms : list (string * option (list XmlParser.XmlNode)))
            : Forall (fun member =>
                        match snd member with
                        | Some children => Forall P children
                        | None => True
                        end) ms :=
            match ms with
            | [] => @List.Forall_nil _ _
            | (key, value) :: ms' =>
                @List.Forall_cons _ _ (key, value) ms'
                  (match value
                         return match value with
                                | Some children => Forall P children
                                | None => True
                                end
                   with
                   | Some children =>
                       (fix onChildren (cs : list XmlParser.XmlNode)
                          : Forall P cs :=
                          match cs with
                          | [] => @List.Forall_nil _ _
                          | c :: cs' =>
                              @List.Forall_cons _ _ c cs' (XmlNode_induction c)
                                          (onChildren cs')
                          end) children
                   | None => I
                   end)
                  (onMembers ms')
            end) members)
  end.

End XmlNodeInduction.

(** Every element the pruner adds comes from a node of the tree and is
    well formed. *)
Definition emittedBelow (root : XmlParser.XmlNode) (e : Types.PrunedElement)
  : Prop :=
  exists w members,
    descends (XmlParser.XObject w members) root
    /\ emittedFor (XmlParser.attrsOf w) e
    /\ sizeTested (Types.bounds e)
    /\ textWithinLimit (Types.text e)
    /\ textWithinLimit (Types.contentDesc e).

Lemma extractChildren_emits children :
  Forall (fun c => forall acc e,
            In e (XmlParser.extractNode c acc) ->
            In e acc \/ emittedBelow c e) children ->
  forall acc e,
    In e (fold_left (fun acc' child => XmlParser.extractNode child acc')
                    children acc) ->
    In e acc \/ exists child, In child children /\ emittedBelow child e.
Proof.
  induction 1 as [|c cs Hc _ IH]; intros acc e Hin; simpl in Hin; [auto|].
  apply IH in Hin as [Hin|(child & Hchild & He)].
  - apply Hc in Hin as [Hin|He]; [auto|].
    right. exists c. split; [left; reflexivity|exact He].
  - right. exists child. split; [right; exact Hchild|exact He].
Qed.

Lemma extractMembers_emits members :
  Forall (fun member =>
            match snd member with
            | Some children =>
                Forall (fun c => forall acc e,
                          In e (XmlParser.extractNode c acc) ->
                          In e acc \/ emittedBelow c e) children
            | None => True
            end) members ->
  forall acc e,
    In e (fold_left
            (fun acc' member =>
               match snd member with
               | Some children =>
                   fold_left
                     (fun acc'' child => XmlParser.extractNode child acc'')
                     children acc'
               | None => acc'
               end) members acc) ->
    In e acc
    \/ exists (key : string) (children : list XmlParser.XmlNode) child,
        In (key, Some children) members /\ In child children
        /\ emittedBelow child e.
Proof.
  induction 1 as [|[key value] ms Hm _ IH]; intros acc e Hin; simpl in Hin;
    [auto|].
  apply IH in Hin as [Hin|(k & cs & c & Hk & Hc & He)].
  - simpl in Hm. destruct value as [children|]; [|auto].
    apply (extractChildren_emits children Hm) in Hin
      as [Hin|(child & Hchild & He)]; [auto|].
    right. exists key, children, child.
    split; [left; reflexivity|]. split; assumption.
  - right. exists k, cs, c. split; [right; exact Hk|]. split; assumption.
Qed.

Lemma extractNode_emits (n : XmlParser.XmlNode) :
  forall acc e,
    In e (XmlParser.extractNode n acc) -> In e acc \/ emittedBelow n e.
Proof.
  induction n as [|w members IH] using XmlNode_induction; intros acc e Hin.
  - left. exact Hin.
  - simpl in Hin.
    apply (extractMembers_emits members IH) in Hin
      as [Hin|(key & children & child & Hk & Hc & (w' & ms' & Hd & He))].
    + apply visitNode_emits in Hin as [Hin|He]; [auto|].
      right. exists w, members. split; [constructor|exact He].
    + right. exists w', ms'.
      split; [|exact He]. econstructor; eassumption.
Qed.

Lemma extractElements_emits nodes :
  forall acc e,
    In e (XmlParser.extractElements nodes acc) ->
    In e acc \/ exists root, In root nodes /\ emittedBelow root e.
Proof.
  unfold XmlParser.extractElements.
  apply extractChildren_emits.
  apply Forall_forall. intros c _. apply extractNode_emits.
Qed.

(** C6, as the code has it.  Whatever the raw hierarchy, every element
    the tree pruner emits was built from the attributes of a node of the
    parsed tree that is not marked [displayed = "false"] and whose
    [bounds] attribute parses to the element's bounds; its [text] and
    [contentDesc], when present, are not empty and are either at most 50
    characters long or 50 characters followed by the ellipsis ["..."].
    Its width [x2 - x1] and its height [y2 - y1] are strictly positive,
    with one exception: when both edges of an axis are [Infinity] (their
    numerals are too long for a double) the extent is NaN, the test
    [<= 0] is false of it, and the element is emitted all the same. *)
Theorem pruner_emits_visible_elements
        (XMLParser_parse : string -> JS.outcome (list XmlParser.XmlNode))
        (xml : string) (e : Types.PrunedElement) :
  In e (XmlParser.parseAndroidXml XMLParser_parse xml) ->
  let width := JS.sub (Types.x2 (Types.bounds e)) (Types.x1 (Types.bounds e)) in
  let height := JS.sub (Types.y2 (Types.bounds e)) (Types.y1 (Types.bounds e)) in
  (positive width
   \/ (Types.x1 (Types.bounds e) = JS.Infinity
       /\ Types.x2 (Types.bounds e) = JS.Infinity))
  /\ (positive height
      \/ (Types.y1 (Types.bounds e) = JS.Infinity
          /\ Types.y2 (Types.bounds e) = JS.Infinity))
  /\ textWithinLimit (Types.text e)
  /\ textWithinLimit (Types.contentDesc e)
  /\ exists parsed root w members boundsStr,
      XMLParser_parse xml = inr parsed
      /\ In root parsed
      /\ descends (XmlParser.XObject w members) root
      /\ XmlParser.attrsOf w !! "displayed" <> Some "false"
      /\ XmlParser.attrsOf w !! "bounds" = Some boundsStr
      /\ XmlParser.parseBounds boundsStr = Some (Types.bounds e)
      /\ e = XmlParser.prunedOf (XmlParser.attrsOf w) (Types.bounds e).
Proof.
  unfold XmlParser.parseAndroidXml.
  destruct (XMLParser_parse xml) as [err|parsed]; [intros []|].
  intros Hin. cbv zeta.
  apply extractElements_emits in Hin
    as [[]|(root & Hroot & w & members & Hd & He & [Hw Hh] & Ht & Hc)].
  destruct He as (Hdisp & boundsStr & b & Hb & Hp & ->).
  split; [exact Hw|]. split; [exact Hh|].
  split; [exact Ht|]. split; [exact Hc|].
  exists parsed, root, w, members, boundsStr. simpl. auto 10.
Qed.

(** A parsed hierarchy: a button; below it a hidden label, a label of
    zero height, and a label with a text of 60 characters. *)
Definition nodeWith (attrs : list (string * string))
           (children : list XmlParser.XmlNode) : XmlParser.XmlNode :=
  XmlParser.XObject (Some (Some (list_to_map attrs)))
                    [("node", Some children); ("#text", None)].

Definition sampleTree : list XmlParser.XmlNode :=
  [ XmlParser.XObject None
      [("hierarchy",
        Some [ nodeWith [("bounds", "[156,892][924,1050]"); ("text", "Login");
                         ("clickable", "true");
                         ("class", "android.widget.Button")]
                 [ nodeWith [("bounds", "[0,0][100,100]"); ("text", "hidden");
                             ("displayed", "false")] [];
                   nodeWith [("bounds", "[0,50][100,50]"); ("text", "flat")] [];
                   XmlParser.XOther;
                   nodeWith
                     [("bounds", "[0,100][200,150]");
                      ("text",
                       "  0123456789012345678901234567890123456789012345678901234567890  ")]
                     [] ] ])] ].

Definition sampleParser (_ : string) : JS.outcome (list XmlParser.XmlNode) :=
  inr sampleTree.

Definition loginButton : Types.PrunedElement :=
  {| Types.resourceId := None;
     Types.text := Some "Login";
     Types.contentDesc := None;
     Types.className := "android.widget.Button";
     Types.bounds :=
       {| Types.x1 := JS.Finite 156; Types.y1 := JS.Finite 892;
          Types.x2 := JS.Finite 924; Types.y2 := JS.Finite 1050;
          Types.centerX := JS.Finite 540; Types.centerY := JS.Finite 971 |};
     Types.clickable := true;
     Types.enabled := true |}.

Example pruner_sample_run :
  XmlParser.parseAndroidXml sampleParser "<hierarchy/>"
  = [ loginButton;
      {| Types.resourceId := None;
         Types.text :=
           Some "01234567890123456789012345678901234567890123456789...";
         Types.contentDesc := None;
         Types.className := "unknown";
         Types.bounds :=
           {| Types.x1 := JS.Finite 0; Types.y1 := JS.Finite 100;
              Types.x2 := JS.Finite 200; Types.y2 := JS.Finite 150;
              Types.centerX := JS.Finite 100;
              Types.centerY := JS.Finite 125 |};
         Types.clickable := false;
         Types.enabled := true |} ].
Proof. vm_compute. reflexivity. Qed.

Lemma pruner_emits_visible_elements_witness :
  (positive (JS.Finite (924 - 156))
   \/ (JS.Finite 156 = JS.Infinity /\ JS.Finite 924 = JS.Infinity))
  /\ (positive (JS.Finite (1050 - 892))
      \/ (JS.Finite 892 = JS.Infinity /\ JS.Finite 1050 = JS.Infinity))
  /\ textWithinLimit (Types.text loginButton)
  /\ textWithinLimit (Types.contentDesc loginButton)
  /\ exists parsed root w members boundsStr,
      sampleParser "<hierarchy/>" = inr parsed
      /\ In root parsed
      /\ descends (XmlParser.XObject w members) root
      /\ XmlParser.attrsOf w !! "displayed" <> Some "false"
      /\ XmlParser.attrsOf w !! "bounds" = Some boundsStr
      /\ XmlParser.parseBounds boundsStr = Some (Types.bounds loginButton)
      /\ loginButton
         = XmlParser.prunedOf (XmlParser.attrsOf w) (Types.bounds loginButton).
Proof.
  refine (pruner_emits_visible_elements sampleParser "<hierarchy/>"
            loginButton _).
  vm_compute. left. reflexivity.
Defined.

(** A numeral of 309 digits, above the largest double. *)
Definition longNumeral : string :=
  string_of_list_ascii ("2"%char :: repeat "0"%char 308).

(** A hierarchy with one labelled node whose left and right edges are
    that numeral. *)
Definition overflowingTree : list XmlParser.XmlNode :=
  [ nodeWith [("bounds",
               "[" +:+ longNumeral +:+ ",0][" +:+ longNumeral +:+ ",5]");
              ("text", "wide")] [] ].

(** C6, as stated, fails for such a hierarchy: the node is emitted, and
    the width of the element is NaN, which is not greater than 0. *)
Lemma pruner_emits_element_without_width :
  exists e,
    XmlParser.parseAndroidXml (fun _ => inr overflowingTree) "<hierarchy/>"
    = [e]
    /\ Types.text e = Some "wide"
    /\ Types.x1 (Types.bounds e) = JS.Infinity
    /\ Types.x2 (Types.bounds e) = JS.Infinity
    /\ JS.sub (Types.x2 (Types.bounds e)) (Types.x1 (Types.bounds e)) = JS.NaN
    /\ ~ positive (JS.sub (Types.x2 (Types.bounds e))
                          (Types.x1 (Types.bounds e))).
Proof.
  eexists. split; [vm_compute; reflexivity|].
  simpl. repeat split. intros [].
Qed.

(* ================================================================== *)
(** * Properties: the schema of the reasoner's output *)
(* ================================================================== *)

(** The schema, stated as a relation between a JSON value and the typed
    output it is accepted as. *)
Definition isString (j : Schema.JSON) (s : string) : Prop := j = Schema.JStr s.

Definition isNumber (j : Schema.JSON) (n : Z) : Prop := j = Schema.JNum n.

Definition isNamed {A} (name : A -> string) (j : Schema.JSON) (a : A) : Prop :=
  j = Schema.JStr (name a).

(** A key that may be missing: missing, it gives [undefined]. *)
Definition optionalKey {A} (accepts : Schema.JSON -> A -> Prop)
           (j : option Schema.JSON) (v : option A) : Prop :=
  match j, v with
  | None, None => True
  | Some x, Some a => accepts x a
  | _, _ => False
  end.

(** A key that may be missing: missing, it gives the default [d]. *)
Definition defaultedKey {A} (accepts : Schema.JSON -> A -> Prop) (d : A)
           (j : option Schema.JSON) (v : A) : Prop :=
  match j with
  | None => v = d
  | Some x => accepts x v
  end.

Definition requiredKey {A} (accepts : Schema.JSON -> A -> Prop)
           (j : option Schema.JSON) (v : A) : Prop :=
  match j with
  | None => False
  | Some x => accepts x v
  end.

Definition isSelectorHint (j : Schema.JSON) (h : Types.SelectorHint) : Prop :=
  exists o,
    j = Schema.JObj o
    /\ requiredKey (isNamed Types.selectorTypeName)
                   (Schema.prop "type" o) (Types.sel_type h)
    /\ optionalKey isString (Schema.prop "value" o) (Types.sel_value h)
    /\ optionalKey isNumber (Schema.prop "x" o) (Types.sel_x h)
    /\ optionalKey isNumber (Schema.prop "y" o) (Types.sel_y h).

Definition isParams (j : Schema.JSON) (p : Types.ActionParams) : Prop :=
  exists o,
    j = Schema.JObj o
    /\ optionalKey isNumber (Schema.prop "x" o) (Types.p_x p)
    /\ optionalKey isNumber (Schema.prop "y" o) (Types.p_y p)
    /\ optionalKey isString (Schema.prop "text" o) (Types.p_text p)
    /\ optionalKey (isNamed Types.directionName)
                   (Schema.prop "direction" o) (Types.p_direction p)
    /\ optionalKey isNumber (Schema.prop "duration" o) (Types.p_duration p)
    /\ optionalKey isSelectorHint (Schema.prop "selector" o)
                   (Types.p_selector p)
    /\ optionalKey isString (Schema.prop "elementDescription" o)
                   (Types.p_elementDescription p).

Definition conforms (j : Schema.JSON) (out : Types.ReasonerOutput) : Prop :=
  exists o,
    j = Schema.JObj o
    /\ requiredKey isString (Schema.prop "thought" o) (Types.thought out)
    /\ requiredKey (isNamed Types.actionName)
                   (Schema.prop "action" o) (Types.action out)
    /\ defaultedKey isParams Schema.noParams
                    (Schema.prop "params" o) (Types.params out)
    /\ defaultedKey isString "unknown"
                    (Schema.prop "targetElement" o) (Types.targetElement out).

Section SchemaFacts.

Lemma zString_spec j s : Schema.zString j = Some s <-> isString j s.
Proof. unfold isString. destruct j; simpl; split; congruence. Qed.

Lemma zNumber_spec j n : Schema.zNumber j = Some n <-> isNumber j n.
Proof. unfold isNumber. destruct j; simpl; split; congruence. Qed.

Lemma zEnum_action j a :
  Schema.zEnum Types.actionName Types.actionEnum j = Some a
  <-> isNamed Types.actionName j a.
Proof.
  unfold isNamed, Schema.zEnum. split.
  - destruct j as [| | |s| |]; try discriminate. intros H.
    apply find_some in H as [_ H]. apply String.eqb_eq in H. congruence.
  - intros ->. destruct a; reflexivity.
Qed.

Lemma zEnum_direction j a :
  Schema.zEnum Types.directionName Types.directionEnum j = Some a
  <-> isNamed Types.directionName j a.
Proof.
  unfold isNamed, Schema.zEnum. split.
  - destruct j as [| | |s| |]; try discriminate. intros H.
    apply find_some in H as [_ H]. apply String.eqb_eq in H. congruence.
  - intros ->. destruct a; reflexivity.
Qed.

Lemma zEnum_selectorType j a :
  Schema.zEnum Types.selectorTypeName Types.selectorTypeEnum j = Some a
  <-> isNamed Types.selectorTypeName j a.
Proof.
  unfold isNamed, Schema.zEnum. split.
  - destruct j as [| | |s| |]; try discriminate. intros H.
    apply find_some in H as [_ H]. apply String.eqb_eq in H. congruence.
  - intros ->. destruct a; reflexivity.
Qed.

Lemma zOptional_spec {A} (schema : Schema.JSON -> option A)
      (accepts : Schema.JSON -> A -> Prop) :
  (forall j a, schema j = Some a <-> accepts j a) ->
  forall j v, Schema.zOptional schema j = Some v <-> optionalKey accepts j v.
Proof.
  intros H j v. unfold Schema.zOptional, optionalKey.
  destruct j as [x|], v as [a|]; simpl; try (split; congruence || tauto).
  - rewrite <- H. destruct (schema x); simpl; split; congruence.
  - destruct (schema x); simpl; split; (discriminate || tauto).
Qed.

Lemma zDefault_spec {A} (schema : Schema.JSON -> option A)
      (accepts : Schema.JSON -> A -> Prop) (d : A) :
  (forall j a, schema j = Some a <-> accepts j a) ->
  forall j v, Schema.zDefault schema d j = Some v <-> defaultedKey accepts d j v.
Proof.
  intros H j v. unfold Schema.zDefault, defaultedKey.
  destruct j as [x|]; [apply H|split; congruence].
Qed.

Lemma zRequired_spec {A} (schema : Schema.JSON -> option A)
      (accepts : Schema.JSON -> A -> Prop) :
  (forall j a, schema j = Some a <-> accepts j a) ->
  forall j v, Schema.zRequired schema j = Some v <-> requiredKey accepts j v.
Proof.
  intros H j v. unfold Schema.zRequired, requiredKey.
  destruct j as [x|]; [apply H|split; [discriminate|tauto]].
Qed.

End SchemaFacts.

Ltac split_binds H :=
  repeat match type of H with
         | mbind _ _ = Some _ =>
             let x := fresh "x" in
             let Hx := fresh "Hx" in
             apply bind_Some in H as (x & Hx & H)
         end.

Lemma SelectorHintSchema_spec j h :
  Schema.SelectorHintSchema j = Some h <-> isSelectorHint j h.
Proof.
  unfold isSelectorHint. split.
  - destruct j as [| | | | |o]; try discriminate. simpl. intros H.
    split_binds H. injection H as <-. exists o. simpl.
    split; [reflexivity|].
    split; [apply (zRequired_spec _ _ zEnum_selectorType); assumption|].
    split; [apply (zOptional_spec _ _ zString_spec); assumption|].
    split; apply (zOptional_spec _ _ zNumber_spec); assumption.
  - intros (o & -> & Ht & Hv & Hx & Hy). simpl.
    apply (zRequired_spec _ _ zEnum_selectorType) in Ht.
    apply (zOptional_spec _ _ zString_spec) in Hv.
    apply (zOptional_spec _ _ zNumber_spec) in Hx, Hy.
    rewrite Ht. simpl. rewrite Hv. simpl. rewrite Hx. simpl. rewrite Hy. simpl.
    destruct h; reflexivity.
Qed.

Lemma ParamsSchema_spec j p :
  Schema.ParamsSchema j = Some p <-> isParams j p.
Proof.
  unfold isParams. split.
  - destruct j as [| | | | |o]; try discriminate. simpl. intros H.
    split_binds H. injection H as <-. exists o. simpl.
    split; [reflexivity|].
    split; [apply (zOptional_spec _ _ zNumber_spec); assumption|].
    split; [apply (zOptional_spec _ _ zNumber_spec); assumption|].
    split; [apply (zOptional_spec _ _ zString_spec); assumption|].
    split; [apply (zOptional_spec _ _ zEnum_direction); assumption|].
    split; [apply (zOptional_spec _ _ zNumber_spec); assumption|].
    split; [apply (zOptional_spec _ _ SelectorHintSchema_spec); assumption|].
    apply (zOptional_spec _ _ zString_spec); assumption.
  - intros (o & -> & Hx & Hy & Ht & Hd & Hu & Hs & He). simpl.
    apply (zOptional_spec _ _ zNumber_spec) in Hx, Hy, Hu.
    apply (zOptional_spec _ _ zString_spec) in Ht, He.
    apply (zOptional_spec _ _ zEnum_direction) in Hd.
    apply (zOptional_spec _ _ SelectorHintSchema_spec) in Hs.
    rewrite Hx. simpl. rewrite Hy. simpl. rewrite Ht. simpl.
    rewrite Hd. simpl. rewrite Hu. simpl. rewrite Hs. simpl.
    rewrite He. simpl. destruct p; reflexivity.
Qed.

(** The validator accepts a value as [out] exactly when the value
    conforms to the schema with [out] as its typed reading. *)
Lemma ReasonerOutputSchema_spec j out :
  Schema.ReasonerOutputSchema j = Some out <-> conforms j out.
Proof.
  unfold conforms. split.
  - destruct j as [| | | | |o]; try discriminate. simpl. intros H.
    split_binds H. injection H as <-. exists o. simpl.
    split; [reflexivity|].
    split; [apply (zRequired_spec _ _ zString_spec); assumption|].
    split; [apply (zRequired_spec _ _ zEnum_action); assumption|].
    split; [apply (zDefault_spec _ _ _ ParamsSchema_spec); assumption|].
    apply (zDefault_spec _ _ _ zString_spec); assumption.
  - intros (o & -> & Ht & Ha & Hp & He). simpl.
    apply (zRequired_spec _ _ zString_spec) in Ht.
    apply (zRequired_spec _ _ zEnum_action) in Ha.
    apply (zDefault_spec _ _ _ ParamsSchema_spec) in Hp.
    apply (zDefault_spec _ _ _ zString_spec) in He.
    rewrite Ht. simpl. rewrite Ha. simpl. rewrite Hp. simpl.
    rewrite He. simpl. destruct out; reflexivity.
Qed.

(** A conforming value names its action, with one of the six names. *)
Lemma conforms_action j out :
  conforms j out ->
  (exists o, j = Schema.JObj o
             /\ Schema.prop "action" o
                = Some (Schema.JStr (Types.actionName (Types.action out))))
  /\ In (Types.actionName (Types.action out))
        ["click"; "type"; "swipe"; "scroll"; "wait"; "done"].
Proof.
  intros (o & -> & _ & Ha & _). split.
  - exists o. split; [reflexivity|].
    unfold requiredKey, isNamed in Ha.
    destruct (Schema.prop "action" o); [congruence|contradiction].
  - destruct (Types.action out); simpl; tauto.
Qed.

(* ================================================================== *)
(** * Properties: what the response parser extracts *)
(* ================================================================== *)

(** [search] returns the match at the leftmost position that has one. *)
Lemma search_leftmost re : forall s m,
  Regex.search re s = Some m ->
  exists before after,
    s = before ++ Regex.whole m ++ after
    /\ Regex.matchHere re (Regex.whole m ++ after) = Some m
    /\ forall b1 c b2,
        before = b1 ++ c :: b2 ->
        Regex.matchHere re (c :: b2 ++ Regex.whole m ++ after) = None.
Proof.
  induction s as [|c s IH]; intros m H; simpl in H.
  - destruct (Regex.matchHere re []) as [m'|] eqn:Hm; [|discriminate].
    inversion H; subst. destruct (matchHere_sound _ _ _ Hm) as (tail & Hs & _).
    exists [], tail. simpl. split; [exact Hs|].
    split; [rewrite <- Hs; exact Hm|]. intros [|] ? ? E; discriminate E.
  - destruct (Regex.matchHere re (c :: s)) as [m'|] eqn:Hm.
    + inversion H; subst.
      destruct (matchHere_sound _ _ _ Hm) as (tail & Hs & _).
      exists [], tail. simpl. split; [exact Hs|].
      split; [rewrite <- Hs; exact Hm|]. intros [|] ? ? E; discriminate E.
    + destruct (IH _ H) as (before & after & -> & Hhere & Hleft).
      exists (c :: before), after. split; [reflexivity|].
      split; [exact Hhere|].
      intros [|b b1] c' b2 E; simpl in E; inversion E; subst.
      * exact Hm.
      * eapply Hleft. reflexivity.
Qed.

(** A greedy repetition takes the longest run after which the rest still
    matches. *)
Lemma repLoop_greedy_longest rest k : forall s need cap m,
  Regex.repLoop rest k true need s = Some (cap, m) ->
  forall extra s2,
    extra <> [] ->
    s = cap ++ extra ++ s2 ->
    Forall (fun c => Regex.inCls k c = true) extra ->
    rest s2 = None.
Proof.
  induction s as [|c s IH]; intros need cap m H extra s2 Hne E Hall.
  - destruct cap, extra; try discriminate; contradiction.
  - simpl in H. pose proof H as H0.
    apply orTry_Some in H as [Hmore|Hstop].
    + clear H0. destruct (Regex.inCls k c); [|discriminate].
      destruct (Regex.repLoop rest k true false s) as [[cap' m']|] eqn:Hl;
        [|discriminate].
      simpl in Hmore. inversion Hmore; subst. simpl in E. inversion E.
      eapply IH; eauto.
    + destruct need; [discriminate|].
      destruct (rest (c :: s)) as [m0|] eqn:Hr; [|discriminate].
      simpl in Hstop. inversion Hstop; subst. simpl in E.
      destruct extra as [|x extra]; [contradiction|].
      simpl in E. inversion E; subst. inversion Hall as [|? ? Hx Hextra]; subst.
      destruct (rest s2) as [m2|] eqn:Hr2; [|reflexivity]. exfalso.
      destruct (repLoop_complete rest k true extra s2 Hextra
                  (ltac:(rewrite Hr2; eauto)) false ltac:(discriminate))
        as [r Hr'].
      revert H0. rewrite Hx, Hr'. simpl. discriminate.
Qed.

Lemma orTry_first {A} (a b : option A) r :
  Regex.orTry a b = Some r -> a = Some r \/ (a = None /\ b = Some r).
Proof. destruct a; simpl; auto. Qed.

(** A lazy repetition takes the shortest run after which the rest
    matches. *)
Lemma repLoop_lazy_shortest rest k : forall s need cap m,
  Regex.repLoop rest k false need s = Some (cap, m) ->
  forall c1 c2 s2,
    cap = c1 ++ c2 ->
    c2 <> [] ->
    (need = true -> c1 <> []) ->
    s = cap ++ s2 ->
    rest (c2 ++ s2) = None.
Proof.
  induction s as [|c s IH]; intros need cap m H c1 c2 s2 Ecap Hne Hneed E.
  - destruct cap; [|discriminate]. destruct c1, c2; try discriminate.
    contradiction.
  - simpl in H. apply orTry_first in H as [Hstop|[Hstop Hmore]].
    + destruct need; [discriminate|].
      destruct (rest (c :: s)); [|discriminate].
      simpl in Hstop. inversion Hstop; subst.
      destruct c1, c2; try discriminate. contradiction.
    + destruct (Regex.inCls k c); [|discriminate].
      destruct (Regex.repLoop rest k false false s) as [[cap' m']|] eqn:Hl;
        [|discriminate].
      simpl in Hmore. inversion Hmore; subst. simpl in E. inversion E as [E'].
      destruct c1 as [|x c1].
      * simpl in E'. rewrite <- E'.
        destruct need; [exfalso; apply Hneed; reflexivity|].
        destruct (rest (c :: s)); [discriminate|reflexivity].
      * simpl in H0, E'. inversion H0; subst. inversion E' as [E''].
        apply (IH false _ _ Hl c1 c2 s2 eq_refl Hne); [discriminate|].
        exact E''.
Qed.

Lemma matchHere_Lit t re s m :
  Regex.matchHere (Regex.Lit t :: re) s = Some m ->
  exists s' m',
    s = t ++ s' /\ Regex.matchHere re s' = Some m'
    /\ m = Regex.consumed t m'.
Proof.
  simpl. destruct (Regex.stripPrefix t s) as [s'|] eqn:Hp; [|discriminate].
  apply stripPrefix_spec in Hp.
  destruct (Regex.matchHere re s') as [m'|] eqn:Hm; [|discriminate].
  intros [= <-]. eauto.
Qed.

Lemma matchHere_Rep k a g c re s m :
  Regex.matchHere (Regex.Rep k a g c :: re) s = Some m ->
  exists cap s' m',
    Regex.repLoop (Regex.matchHere re) k g a s = Some (cap, m')
    /\ s = cap ++ s'
    /\ Forall (fun x => Regex.inCls k x = true) cap
    /\ Regex.matchHere re s' = Some m'
    /\ m = Regex.closeRep c (cap, m').
Proof.
  simpl.
  destruct (Regex.repLoop (Regex.matchHere re) k g a s) as [[cap m']|] eqn:Hl;
    [|discriminate].
  intros [= <-].
  destruct (repLoop_sound _ _ _ _ _ _ _ Hl) as (s' & Hs & Hall & _ & Hm).
  exists cap, s', m'. auto.
Qed.

Definition fenceMark : list ascii := list_ascii_of_string "```".

(** The text has an opening and a closing fence. *)
Definition hasFence (text : string) : Prop :=
  exists before body after,
    list_ascii_of_string text
    = before ++ fenceMark ++ body ++ fenceMark ++ after.

(** The text has an opening brace and, later, a closing one. *)
Definition hasBraces (text : string) : Prop :=
  exists before body after,
    list_ascii_of_string text = before ++ "{"%char :: body ++ "}"%char :: after.

Lemma object_match_intro body :
  Matches Reasoner.OBJECT_REGEX ("{"%char :: body ++ ["}"%char]) [].
Proof.
  unfold Reasoner.OBJECT_REGEX, Reasoner.lit.
  apply (M_lit ["{"%char]).
  apply (M_rep Regex.AnyChar false true false _ body ["}"%char] []);
    [apply Forall_forall; reflexivity|discriminate|].
  apply (M_lit ["}"%char] _ []). constructor.
Qed.

Lemma hasBraces_matches text :
  hasBraces text <-> is_Some (Regex.exec Reasoner.OBJECT_REGEX text).
Proof.
  unfold Regex.exec. split.
  - intros (before & body & after & ->).
    replace (before ++ "{"%char :: body ++ "}"%char :: after)
      with (before ++ ("{"%char :: body ++ ["}"%char]) ++ after)
      by (simpl; rewrite <- app_assoc; reflexivity).
    eapply search_complete. apply object_match_intro.
  - intros [m Hm]. destruct (search_sound _ _ _ Hm) as (before & after & E & HM).
    unfold Reasoner.OBJECT_REGEX, Reasoner.lit in HM. simpl in HM.
    repeat match goal with
           | H : Matches (_ :: _) _ _ |- _ => inversion H; subst; clear H
           | H : Matches [] _ _ |- _ => inversion H; subst; clear H
           end.
    exists before, cs, after. rewrite E.
    match goal with H : _ = Regex.whole m |- _ => rewrite <- H end.
    simpl. rewrite <- app_assoc. reflexivity.
Qed.

Lemma object_match_here s m :
  Regex.matchHere Reasoner.OBJECT_REGEX s = Some m ->
  exists body after,
    s = "{"%char :: body ++ "}"%char :: after
    /\ Regex.whole m = "{"%char :: body ++ ["}"%char]
    /\ ~ In "}"%char after.
Proof.
  unfold Reasoner.OBJECT_REGEX, Reasoner.lit.
  change (list_ascii_of_string "{") with ["{"%char].
  change (list_ascii_of_string "}") with ["}"%char].
  intros H.
  apply matchHere_Lit in H as (s1 & m1 & E1 & Hm1 & Em).
  apply matchHere_Rep in Hm1 as (body & s2 & m2 & Hloop & E2 & _ & Hm2 & Em1).
  apply matchHere_Lit in Hm2 as (after & m3 & E3 & Hm3 & Em2).
  simpl in Hm3. injection Hm3 as <-.
  exists body, after. subst s s1 s2 m m1 m2. simpl.
  split; [reflexivity|]. split; [reflexivity|].
  intros Hin. apply in_split in Hin as (a1 & a2 & ->).
  assert (Hnone : Regex.matchHere [Regex.Lit ["}"%char]] ("}"%char :: a2)
                  = None).
  { apply (repLoop_greedy_longest _ _ _ _ _ _ Hloop ("}"%char :: a1));
      [discriminate| |apply Forall_forall; reflexivity].
    reflexivity. }
  simpl in Hnone. discriminate Hnone.
Qed.

(** The object expression takes the text from the first opening brace to
    the last closing brace. *)
Lemma object_match_extent text m :
  Regex.exec Reasoner.OBJECT_REGEX text = Some m ->
  exists before body after,
    list_ascii_of_string text = before ++ "{"%char :: body ++ "}"%char :: after
    /\ ~ In "{"%char before
    /\ ~ In "}"%char after
    /\ Regex.whole m = "{"%char :: body ++ ["}"%char].
Proof.
  unfold Regex.exec. intros Hs.
  destruct (search_leftmost _ _ _ Hs) as (before & after' & E & Hhere & Hleft).
  destruct (object_match_here _ _ Hhere) as (body & after & E1 & Hw & Hafter).
  rewrite Hw in E1, E, Hleft. simpl in E1. rewrite <- app_assoc in E1.
  injection E1 as E1. apply app_inv_head in E1. injection E1 as ->.
  exists before, body, after.
  split; [rewrite E; simpl; rewrite <- app_assoc; reflexivity|].
  split; [|split; [exact Hafter|exact Hw]].
  intros Hin. apply in_split in Hin as (b1 & b2 & ->).
  specialize (Hleft b1 "{"%char b2 eq_refl).
  destruct (matchHere_complete _ _ _
              (object_match_intro (b2 ++ "{"%char :: body)) after)
    as [m' Hm'].
  replace (("{"%char :: (b2 ++ "{"%char :: body) ++ ["}"%char]) ++ after)
    with ("{"%char :: b2 ++ ("{"%char :: body ++ ["}"%char]) ++ after)
    in Hm'
    by (simpl; f_equal; repeat (rewrite <- app_assoc; simpl); reflexivity).
  congruence.
Qed.

Lemma matchHere_Opt t re s m :
  Regex.matchHere (Regex.Opt t :: re) s = Some m ->
  (exists s' m',
      s = t ++ s' /\ Regex.matchHere re s' = Some m'
      /\ m = Regex.consumed t m')
  \/ Regex.matchHere re s = Some m.
Proof.
  simpl. intros H. apply orTry_Some in H as [H|H]; [left|right; exact H].
  destruct (Regex.stripPrefix t s) as [s'|] eqn:Hp; [|discriminate].
  apply stripPrefix_spec in Hp.
  destruct (Regex.matchHere re s') as [m'|] eqn:Hm; [|discriminate].
  injection H as <-. eauto.
Qed.

Lemma fence_match_intro body :
  Matches Reasoner.FENCE_REGEX (fenceMark ++ body ++ fenceMark) [body].
Proof.
  unfold Reasoner.FENCE_REGEX, Reasoner.lit. fold fenceMark.
  apply M_lit. apply M_opt_none.
  apply (M_rep Regex.Space false true false _ [] (body ++ fenceMark) [body]);
    [constructor|discriminate|].
  apply (M_rep Regex.AnyChar false false true _ body fenceMark []);
    [apply Forall_forall; reflexivity|discriminate|].
  apply (M_lit fenceMark _ []). constructor.
Qed.

(** The tail of the fence expression: the lazy capture and the closing
    fence. *)
Lemma fence_capture s m :
  Regex.matchHere
    [Regex.Rep Regex.AnyChar false false true; Regex.Lit fenceMark] s
  = Some m ->
  exists content after,
    s = content ++ fenceMark ++ after
    /\ Regex.whole m = content ++ fenceMark
    /\ Regex.groups m = [content]
    /\ forall c1 c2,
        content = c1 ++ c2 -> c2 <> [] ->
        Regex.stripPrefix fenceMark (c2 ++ fenceMark ++ after) = None.
Proof.
  intros H.
  apply matchHere_Rep in H as (content & s2 & m2 & Hloop & E2 & _ & Hm2 & ->).
  apply matchHere_Lit in Hm2 as (after & m3 & E3 & Hm3 & ->).
  simpl in Hm3. injection Hm3 as <-.
  exists content, after. subst s s2.
  unfold Regex.closeRep, Regex.consumed. cbn [Regex.whole Regex.groups].
  rewrite app_nil_r.
  split; [reflexivity|]. split; [reflexivity|]. split; [reflexivity|].
  intros c1 c2 Ec Hne.
  pose proof (repLoop_lazy_shortest _ _ _ _ _ _ Hloop c1 c2
                (fenceMark ++ after) Ec Hne ltac:(discriminate) eq_refl)
    as Hnone.
  cbn [Regex.matchHere] in Hnone.
  destruct (Regex.stripPrefix fenceMark (c2 ++ fenceMark ++ after));
    [discriminate|reflexivity].
Qed.

Lemma fence_match_here s m :
  Regex.matchHere Reasoner.FENCE_REGEX s = Some m ->
  exists label space content after,
    s = fenceMark ++ label ++ space ++ content ++ fenceMark ++ after
    /\ Regex.whole m = fenceMark ++ label ++ space ++ content ++ fenceMark
    /\ (label = list_ascii_of_string "json" \/ label = [])
    /\ Forall (fun c => JS.isSpace c = true) space
    /\ Regex.groups m = [content]
    /\ forall c1 c2,
        content = c1 ++ c2 -> c2 <> [] ->
        Regex.stripPrefix fenceMark (c2 ++ fenceMark ++ after) = None.
Proof.
  unfold Reasoner.FENCE_REGEX, Reasoner.lit. fold fenceMark. intros H.
  apply matchHere_Lit in H as (s1 & m1 & E1 & Hm1 & ->).
  apply matchHere_Opt in Hm1 as [(s2 & m2 & E2 & Hm2 & ->)|Hm1].
  - apply matchHere_Rep in Hm2 as (space & s3 & m3 & _ & E3 & Hsp & Hm3 & ->).
    apply fence_capture in Hm3 as (content & after & E4 & Hw & Hg & Hmin).
    exists (list_ascii_of_string "json"), space, content, after.
    subst s s1 s2 s3.
    unfold Regex.closeRep, Regex.consumed. cbn [Regex.whole Regex.groups].
    rewrite Hw, Hg. auto 10.
  - apply matchHere_Rep in Hm1 as (space & s3 & m3 & _ & E3 & Hsp & Hm3 & ->).
    apply fence_capture in Hm3 as (content & after & E4 & Hw & Hg & Hmin).
    exists [], space, content, after.
    subst s s1 s3.
    unfold Regex.closeRep, Regex.consumed. cbn [Regex.whole Regex.groups app].
    rewrite Hw, Hg. auto 10.
Qed.

Lemma hasFence_matches text :
  hasFence text <-> is_Some (Regex.exec Reasoner.FENCE_REGEX text).
Proof.
  unfold Regex.exec. split.
  - intros (before & body & after & ->).
    replace (before ++ fenceMark ++ body ++ fenceMark ++ after)
      with (before ++ (fenceMark ++ body ++ fenceMark) ++ after)
      by (rewrite <- !app_assoc; reflexivity).
    eapply search_complete. apply fence_match_intro.
  - intros [m Hm].
    destruct (search_leftmost _ _ _ Hm) as (before & after' & E & Hhere & _).
    destruct (fence_match_here _ _ Hhere)
      as (label & space & content & after & _ & Hw & _).
    exists before, (label ++ space ++ content), after'.
    rewrite E, Hw, <- !app_assoc. reflexivity.
Qed.

Definition startsWith (p s : list ascii) : Prop := exists rest, s = p ++ rest.

Lemma stripPrefix_None p s :
  Regex.stripPrefix p s = None <-> ~ startsWith p s.
Proof.
  unfold startsWith. split.
  - intros H [rest E]. apply stripPrefix_spec in E. congruence.
  - intros H. destruct (Regex.stripPrefix p s) as [s'|] eqn:Hp; [|reflexivity].
    exfalso. apply H. exists s'. apply stripPrefix_spec. exact Hp.
Qed.

Lemma dropSpace_suffix l : exists spaces, l = spaces ++ JS.dropSpace l.
Proof.
  induction l as [|c l [spaces IH]]; [exists []; reflexivity|].
  simpl. destruct (JS.isSpace c).
  - exists (c :: spaces). simpl. congruence.
  - exists []. reflexivity.
Qed.

(** The trimmed text is a part of the text. *)
Lemma trimL_part l : exists before after, l = before ++ JS.trimL l ++ after.
Proof.
  unfold JS.trimL.
  destruct (dropSpace_suffix l) as [before E1].
  destruct (dropSpace_suffix (rev (JS.dropSpace l))) as [after E2].
  exists before, (rev after).
  rewrite <- rev_app_distr, <- E2, rev_involutive. exact E1.
Qed.

Lemma hasBraces_trim text : hasBraces (JS.trim text) -> hasBraces text.
Proof.
  unfold hasBraces, JS.trim. rewrite list_ascii_of_string_of_list_ascii.
  intros (before & body & after & E).
  destruct (trimL_part (list_ascii_of_string text)) as (pre & post & E').
  rewrite E in E'.
  exists (pre ++ before), body, (after ++ post). rewrite E'.
  repeat (rewrite <- ?app_assoc; simpl). reflexivity.
Qed.

Section ParserFacts.
Variable JSON_parse : string -> JS.outcome Schema.JSON.
Variable ZodError_message : Schema.JSON -> string.

(** [JSON.parse] gives an object only for a text with an opening brace
    and a later closing brace. *)
Hypothesis JSON_object_text :
  forall s members, JSON_parse s = inr (Schema.JObj members) -> hasBraces s.

Lemma extractJson_fence text :
  hasFence text ->
  exists before label space content after,
    list_ascii_of_string text
    = before ++ fenceMark ++ label ++ space ++ content ++ fenceMark ++ after
    /\ (label = list_ascii_of_string "json" \/ label = [])
    /\ Forall (fun c => JS.isSpace c = true) space
    /\ (forall c1 c2,
          content = c1 ++ c2 -> c2 <> [] ->
          ~ startsWith fenceMark (c2 ++ fenceMark ++ after))
    /\ Reasoner.extractJson text = JS.trim (string_of_list_ascii content).
Proof.
  intros Hf. apply hasFence_matches in Hf as [m Hm].
  unfold Reasoner.extractJson. rewrite Hm.
  destruct (search_leftmost _ _ _ Hm) as (before & after' & E & Hhere & _).
  destruct (fence_match_here _ _ Hhere)
    as (label & space & content & after & E1 & Hw & Hl & Hs & Hg & Hmin).
  rewrite Hw in E1. rewrite <- !app_assoc in E1.
  do 5 apply app_inv_head in E1. subst after'.
  exists before, label, space, content, after.
  split; [rewrite E, Hw, <- !app_assoc; reflexivity|].
  split; [exact Hl|]. split; [exact Hs|].
  split; [intros c1 c2 Ec Hne; apply stripPrefix_None; eauto|].
  unfold Regex.group. rewrite Hg. reflexivity.
Qed.

Lemma extractJson_braces text :
  ~ hasFence text -> hasBraces text ->
  exists before body after,
    list_ascii_of_string text = before ++ "{"%char :: body ++ "}"%char :: after
    /\ ~ In "{"%char before
    /\ ~ In "}"%char after
    /\ Reasoner.extractJson text
       = string_of_list_ascii ("{"%char :: body ++ ["}"%char]).
Proof.
  intros Hnf Hb. unfold Reasoner.extractJson.
  destruct (Regex.exec Reasoner.FENCE_REGEX text) as [m|] eqn:Hf.
  - exfalso. apply Hnf. apply hasFence_matches. eauto.
  - apply hasBraces_matches in Hb as [m Hm]. rewrite Hm.
    destruct (object_match_extent _ _ Hm)
      as (before & body & after & E & Hbefore & Hafter & Hw).
    exists before, body, after. rewrite Hw. auto.
Qed.

Lemma extractJson_neither text :
  ~ hasFence text -> ~ hasBraces text ->
  Reasoner.extractJson text = JS.trim text.
Proof.
  intros Hnf Hnb. unfold Reasoner.extractJson.
  destruct (Regex.exec Reasoner.FENCE_REGEX text) as [m|] eqn:Hf.
  - exfalso. apply Hnf. apply hasFence_matches. eauto.
  - destruct (Regex.exec Reasoner.OBJECT_REGEX text) as [m|] eqn:Ho;
      [|reflexivity].
    exfalso. apply Hnb. apply hasBraces_matches. eauto.
Qed.

(** An accepted response was extracted from a fenced block or from a
    brace-delimited part of the text. *)
Lemma accepted_was_extracted text out :
  Reasoner.parseReasonerResponse JSON_parse ZodError_message text = inr out ->
  is_Some (Regex.exec Reasoner.FENCE_REGEX text)
  \/ is_Some (Regex.exec Reasoner.OBJECT_REGEX text).
Proof.
  unfold Reasoner.parseReasonerResponse, Reasoner.extractJson.
  destruct (Regex.exec Reasoner.FENCE_REGEX text) as [m|]; [eauto|].
  destruct (Regex.exec Reasoner.OBJECT_REGEX text) as [m|] eqn:Ho; [eauto|].
  destruct (JSON_parse (JS.trim text)) as [e|j] eqn:Hj; [discriminate|].
  destruct j as [| | | | |o]; try discriminate.
  intros _. exfalso.
  assert (Hb : hasBraces text)
    by (apply hasBraces_trim; eapply JSON_object_text; exact Hj).
  apply hasBraces_matches in Hb as [m' Hm']. congruence.
Qed.

End ParserFacts.

(** C9.  For every text, the response parser either returns an output
    that conforms to the schema (its action is the action the parsed
    object names, one of the six enum values; its parameters satisfy the
    parameter schema or are the default empty bag) or fails with the
    error of the JSON parser or of the validator; a parse or validation
    failure never yields an output.  What is parsed is the trimmed
    content of the fenced block that ends at the first closing fence,
    when the text has a fenced block; else the part from the first
    opening brace to the last closing brace.  (An output is only ever
    returned in one of these two cases.) *)
Theorem parseReasonerResponse_validated_or_fails
        (JSON_parse : string -> JS.outcome Schema.JSON)
        (ZodError_message : Schema.JSON -> string)
        (text : string) :
  (forall s members, JSON_parse s = inr (Schema.JObj members) -> hasBraces s) ->
  match Reasoner.parseReasonerResponse JSON_parse ZodError_message text with
  | inr out =>
      (hasFence text \/ hasBraces text)
      /\ exists o,
          JSON_parse (Reasoner.extractJson text) = inr (Schema.JObj o)
          /\ conforms (Schema.JObj o) out
          /\ Schema.prop "action" o
             = Some (Schema.JStr (Types.actionName (Types.action out)))
          /\ In (Types.actionName (Types.action out))
                ["click"; "type"; "swipe"; "scroll"; "wait"; "done"]
  | inl e =>
      JSON_parse (Reasoner.extractJson text) = inl e
      \/ exists j,
          JSON_parse (Reasoner.extractJson text) = inr j
          /\ (forall out, ~ conforms j out)
          /\ e = JS.ErrorObj (ZodError_message j)
  end
  /\ (hasFence text ->
      exists before label space content after,
        list_ascii_of_string text
        = before ++ fenceMark ++ label ++ space ++ content
          ++ fenceMark ++ after
        /\ (label = list_ascii_of_string "json" \/ label = [])
        /\ Forall (fun c => JS.isSpace c = true) space
        /\ (forall c1 c2,
              content = c1 ++ c2 -> c2 <> [] ->
              ~ startsWith fenceMark (c2 ++ fenceMark ++ after))
        /\ Reasoner.extractJson text
           = JS.trim (string_of_list_ascii content))
  /\ (~ hasFence text -> hasBraces text ->
      exists before body after,
        list_ascii_of_string text
        = before ++ "{"%char :: body ++ "}"%char :: after
        /\ ~ In "{"%char before
        /\ ~ In "}"%char after
        /\ Reasoner.extractJson text
           = string_of_list_ascii ("{"%char :: body ++ ["}"%char])).
Proof.
  intros Hjson.
  split; [|split; [apply extractJson_fence|apply extractJson_braces]].
  destruct (Reasoner.parseReasonerResponse JSON_parse ZodError_message text)
    as [e|out] eqn:Hp.
  - unfold Reasoner.parseReasonerResponse in Hp.
    destruct (JSON_parse (Reasoner.extractJson text)) as [e'|j];
      [left; congruence|].
    right. exists j. split; [reflexivity|].
    destruct (Schema.ReasonerOutputSchema j) as [out|] eqn:Hs; [discriminate|].
    split; [|congruence].
    intros out Hc. apply ReasonerOutputSchema_spec in Hc. congruence.
  - split.
    + destruct (accepted_was_extracted JSON_parse ZodError_message Hjson
                  text out Hp) as [H|H].
      * left. apply hasFence_matches. exact H.
      * right. apply hasBraces_matches. exact H.
    + unfold Reasoner.parseReasonerResponse in Hp.
      destruct (JSON_parse (Reasoner.extractJson text)) as [e'|j];
        [discriminate|].
      destruct (Schema.ReasonerOutputSchema j) as [out'|] eqn:Hs;
        [|discriminate].
      injection Hp as ->. apply ReasonerOutputSchema_spec in Hs.
      destruct (conforms_action _ _ Hs) as [(o & -> & Ha) Hin].
      exists o. auto.
Qed.

(** A stand-in for [JSON.parse] that knows two texts. *)
Definition member (key value : string) : string :=
  JS.quoted key +:+ ":" +:+ JS.quoted value.

Definition doneJson : string :=
  "{" +:+ member "thought" "Welcome screen is visible" +:+ ","
  +:+ member "action" "done" +:+ "}".

Definition jumpJson : string :=
  "{" +:+ member "thought" "Jump over the dialog" +:+ ","
  +:+ member "action" "jump" +:+ "}".

Definition toyParse (s : string) : JS.outcome Schema.JSON :=
  if String.eqb s doneJson then
    inr (Schema.JObj [("thought", Schema.JStr "Welcome screen is visible");
                      ("action", Schema.JStr "done")])
  else if String.eqb s jumpJson then
    inr (Schema.JObj [("thought", Schema.JStr "Jump over the dialog");
                      ("action", Schema.JStr "jump")])
  else inl (JS.ErrorObj "Unexpected token").

Definition fencedReply : string :=
  "The goal is reached." +:+ JS.newline +:+ "```json" +:+ JS.newline +:+ doneJson
  +:+ JS.newline +:+ "```" +:+ JS.newline.

Definition doneOutput : Types.ReasonerOutput :=
  {| Types.thought := "Welcome screen is visible";
     Types.action := Types.done;
     Types.params := Schema.noParams;
     Types.targetElement := "unknown" |}.

Lemma toyParse_object_text s members :
  toyParse s = inr (Schema.JObj members) -> hasBraces s.
Proof.
  unfold toyParse.
  destruct (String.eqb_spec s doneJson) as [->|_].
  - intros _. exists [].
    eexists (removelast (tl (list_ascii_of_string doneJson))), [].
    vm_compute. reflexivity.
  - destruct (String.eqb_spec s jumpJson) as [->|_]; [|discriminate].
    intros _. exists [].
    eexists (removelast (tl (list_ascii_of_string jumpJson))), [].
    vm_compute. reflexivity.
Qed.

Example parse_fenced_reply :
  Reasoner.extractJson fencedReply = doneJson
  /\ Reasoner.parseReasonerResponse toyParse Fixture.noZod fencedReply
     = inr doneOutput.
Proof. vm_compute. split; reflexivity. Qed.

Example parse_bare_object :
  Reasoner.parseReasonerResponse toyParse Fixture.noZod
    ("Sure: " +:+ doneJson +:+ " (done)")
  = inr doneOutput.
Proof. vm_compute. reflexivity. Qed.

(** An action outside the enum, and a text that is not JSON: both fail,
    and no output is made up. *)
Example parse_unknown_action :
  Reasoner.parseReasonerResponse toyParse Fixture.noZod jumpJson
  = inl (JS.ErrorObj "invalid").
Proof. vm_compute. reflexivity. Qed.

Example parse_not_json :
  Reasoner.parseReasonerResponse toyParse Fixture.noZod "I would tap the button."
  = inl (JS.ErrorObj "Unexpected token").
Proof. vm_compute. reflexivity. Qed.

Lemma parseReasonerResponse_validated_or_fails_witness :
  (hasFence fencedReply \/ hasBraces fencedReply)
  /\ exists o,
      toyParse (Reasoner.extractJson fencedReply) = inr (Schema.JObj o)
      /\ conforms (Schema.JObj o) doneOutput
      /\ Schema.prop "action" o
         = Some (Schema.JStr (Types.actionName (Types.action doneOutput)))
      /\ In (Types.actionName (Types.action doneOutput))
            ["click"; "type"; "swipe"; "scroll"; "wait"; "done"].
Proof.
  exact (proj1 (parseReasonerResponse_validated_or_fails toyParse Fixture.noZod
                  fencedReply toyParse_object_text)).
Defined.

(* ================================================================== *)
(** * Further properties: the hybrid locator *)
(* ================================================================== *)

(** What a result of [locate] looks like, by its [method]. *)
Definition wellShaped (r : HybridLocator.HybridLocateResult) : Prop :=
  match HybridLocator.r_method r with
  | HybridLocator.selector =>
      HybridLocator.r_found r = true
      /\ is_Some (HybridLocator.r_x r) /\ is_Some (HybridLocator.r_y r)
      /\ HybridLocator.r_healingTriggered r = false
      /\ HybridLocator.r_error r = None
  | HybridLocator.vision =>
      HybridLocator.r_found r = true
      /\ is_Some (HybridLocator.r_x r) /\ is_Some (HybridLocator.r_y r)
      /\ HybridLocator.r_healingTriggered r = true
      /\ HybridLocator.r_error r = None
  | HybridLocator.none =>
      HybridLocator.r_found r = false
      /\ HybridLocator.r_x r = None /\ HybridLocator.r_y r = None
      /\ exists c message, HybridLocator.r_error r = Some (String c message)
  end.

(** The method an event records for a result: a failure is filed under
    "selector". *)
Definition eventMethod (m : HybridLocator.Method) : HybridLocator.Method :=
  match m with
  | HybridLocator.none => HybridLocator.selector
  | _ => m
  end.

Section LocateReturns.
Context {W : Type}.
Variable driver : Driver.IMobileDriver W.
Variable Date_now : W -> Z.

(** Step 2, when it answers: the result and the event carry the
    coordinates the fallback gave. *)
Lemma tryVision_returns locator description st :
  exists healed st',
    HybridLocator.tryVision driver Date_now locator description st
    = (inr healed, st')
    /\ HybridLocator.visionFallback st' = HybridLocator.visionFallback st
    /\ match healed with
       | Some r =>
           exists vx vy event,
             r = {| HybridLocator.r_found := true;
                    HybridLocator.r_x := Some vx;
                    HybridLocator.r_y := Some vy;
                    HybridLocator.r_method := HybridLocator.vision;
                    HybridLocator.r_healingTriggered := true;
                    HybridLocator.r_error := None |}
             /\ HybridLocator.healingLog st'
                = HybridLocator.healingLog st ++ [event]
             /\ HybridLocator.success event = true
             /\ HybridLocator.method event = HybridLocator.vision
             /\ HybridLocator.coordinates event = Some (vx, vy)
             /\ HybridLocator.healingTriggered event = true
             /\ HybridLocator.attemptedLocator event = locator
       | None => HybridLocator.healingLog st' = HybridLocator.healingLog st
       end.
Proof.
  unfold HybridLocator.tryVision, Eff.bind, Eff.gets.
  destruct (HybridLocator.visionFallback st) as [fn|] eqn:Hf;
    [|exists None, st; repeat split; assumption].
  unfold Eff.tryCatch, Eff.bind, HybridLocator.onWorld.
  destruct (Driver.getScreenshot driver (HybridLocator.world st))
    as [[e|shot] w1]; [eexists None, _; repeat split; assumption|].
  simpl. destruct (fn description shot w1) as [[e|[[vx vy]|]] w2];
    try (eexists None, _; repeat split; assumption).
  eexists (Some _), _. split; [reflexivity|]. split; [exact Hf|].
  eexists vx, vy, _. repeat split.
Qed.

(** A call of [locate] that returns has appended one event, which
    agrees with the result, and the result is well shaped. *)
Lemma locate_returns locator description st result st' :
  HybridLocator.locate driver Date_now locator description st
  = (inr result, st') ->
  wellShaped result
  /\ exists event,
      HybridLocator.healingLog st' = HybridLocator.healingLog st ++ [event]
      /\ HybridLocator.success event = HybridLocator.r_found result
      /\ HybridLocator.method event
         = eventMethod (HybridLocator.r_method result)
      /\ HybridLocator.attemptedLocator event = locator.
Proof.
  destruct (HybridLocator.trySelector driver locator st) as [[e|sr] st1] eqn:Hsel.
  { unfold HybridLocator.locate, Eff.bind. rewrite Hsel. discriminate. }
  destruct (trySelector_frame driver _ _ _ _ Hsel) as [Hlog1 _].
  destruct (yieldsCoordinates sr) eqn:Hyc.
  - unfold HybridLocator.locate, Eff.bind at 1. rewrite Hsel.
    unfold yieldsCoordinates in Hyc.
    destruct (Driver.found sr), (Driver.x sr), (Driver.y sr);
      try discriminate Hyc.
    intros [= <- <-]. split.
    + unfold wellShaped. simpl. eauto 10.
    + eexists. simpl. rewrite Hlog1. repeat split.
  - rewrite (locate_falls_through driver Date_now _ _ _ _ _ Hsel Hyc).
    unfold Eff.bind.
    destruct (tryVision_returns locator description st1)
      as (healed & st2 & -> & _ & Hh).
    destruct healed as [r|].
    + destruct Hh as (vx & vy & event & -> & Hlog & Hs & Hmeth & _ & _ & Hloc).
      intros [= <- <-]. split.
      * unfold wellShaped. simpl. eauto 10.
      * exists event. rewrite Hlog, Hlog1, Hs, Hmeth. repeat split.
        exact Hloc.
    + intros [= <- <-]. split.
      * unfold wellShaped, notFoundResult. simpl.
        repeat split. destruct (Driver.error sr) as [[|c m]|]; simpl; eauto.
      * eexists. simpl. rewrite Hh, Hlog1. repeat split.
Qed.

End LocateReturns.

(** X1. Whenever [locate] returns, its result is consistent: with
    [method] "selector" or "vision" it is [found] and carries both
    coordinates and no error, and [healingTriggered] tells which of the
    two it was; with [method] "none" it is not [found], carries no
    coordinates, and its error message is present and not empty. *)
Theorem locate_result_well_shaped {W : Type} (driver : Driver.IMobileDriver W)
        (Date_now : W -> Z) (locator : Driver.LocatorStrategy)
        (description : string) (st st' : HybridLocator.State W)
        (result : HybridLocator.HybridLocateResult) :
  HybridLocator.locate driver Date_now locator description st
  = (inr result, st') ->
  wellShaped result
  /\ (HybridLocator.r_found result = true <->
      HybridLocator.r_method result <> HybridLocator.none)
  /\ (HybridLocator.r_found result = true ->
      exists x y, HybridLocator.r_x result = Some x
                  /\ HybridLocator.r_y result = Some y).
Proof.
  intros H. destruct (locate_returns driver Date_now _ _ _ _ _ H) as [Hs _].
  split; [exact Hs|]. unfold wellShaped in Hs.
  destruct (HybridLocator.r_method result).
  - destruct Hs as (Hf & [x Hx] & [y Hy] & _).
    split; [split; [discriminate|intros _; exact Hf]|]. eauto.
  - destruct Hs as (Hf & [x Hx] & [y Hy] & _).
    split; [split; [discriminate|intros _; exact Hf]|]. eauto.
  - destruct Hs as (Hf & _). rewrite Hf.
    split; [split; [discriminate|congruence]|discriminate].
Qed.

Lemma locate_result_well_shaped_witness :
  let result :=
    {| HybridLocator.r_found := true;
       HybridLocator.r_x := Some 10; HybridLocator.r_y := Some 20;
       HybridLocator.r_method := HybridLocator.vision;
       HybridLocator.r_healingTriggered := true;
       HybridLocator.r_error := None |} in
  wellShaped result
  /\ (HybridLocator.r_found result = true <->
      HybridLocator.r_method result <> HybridLocator.none)
  /\ (HybridLocator.r_found result = true ->
      exists x y, HybridLocator.r_x result = Some x
                  /\ HybridLocator.r_y result = Some y).
Proof.
  refine (locate_result_well_shaped (Fixture.blindDriver None) Fixture.clock
            (Driver.text_ "Settings") "Settings menu item"
            (HybridLocator.new (Some (fun _ _ w => (inr (Some (10, 20)), w))) [])
            _ _ _).
  reflexivity.
Defined.

(** X2. [locateAndTap] taps exactly where [locate] found the element,
    and only then: after a [locate] that found it, the one further call
    is [tap] at the result's coordinates, and the method handed back is
    the result's; after a [locate] that did not, nothing more is done to
    the device and the error thrown is "Failed to locate element: " with
    the description and the (non-empty) reason.  The method it returns is
    never "none". *)
Theorem locateAndTap_outcome {W : Type} (driver : Driver.IMobileDriver W)
        (Date_now : W -> Z) (locator : Driver.LocatorStrategy)
        (description : string) (st st1 : HybridLocator.State W)
        (result : HybridLocator.HybridLocateResult) :
  HybridLocator.locate driver Date_now locator description st
  = (inr result, st1) ->
  (HybridLocator.r_found result = true ->
   exists x y,
     HybridLocator.r_x result = Some x /\ HybridLocator.r_y result = Some y
     /\ HybridLocator.locateAndTap driver Date_now locator description st
        = (match fst (Driver.tap driver x y (HybridLocator.world st1)) with
           | inl e => inl e
           | inr _ => inr (x, y, HybridLocator.r_method result)
           end,
           HybridLocator.withWorld st1
             (snd (Driver.tap driver x y (HybridLocator.world st1)))))
  /\ (HybridLocator.r_found result = false ->
      exists c message,
        HybridLocator.r_error result = Some (String c message)
        /\ HybridLocator.locateAndTap driver Date_now locator description st
           = (inl (JS.ErrorObj ("Failed to locate element: " +:+ description
                                +:+ ". " +:+ String c message)), st1))
  /\ (forall x y m st',
         HybridLocator.locateAndTap driver Date_now locator description st
         = (inr (x, y, m), st') ->
         m = HybridLocator.r_method result
         /\ (m = HybridLocator.selector \/ m = HybridLocator.vision)).
Proof.
  intros H. destruct (locate_returns driver Date_now _ _ _ _ _ H) as [Hs _].
  unfold HybridLocator.locateAndTap, Eff.bind. rewrite H.
  unfold wellShaped in Hs.
  destruct (HybridLocator.r_method result) eqn:Hm.
  - destruct Hs as (Hf & [x Hx] & [y Hy] & _). rewrite Hf, Hx, Hy.
    unfold HybridLocator.onWorld, Eff.ret.
    split; [|split; [discriminate|]].
    + intros _. exists x, y. split; [reflexivity|]. split; [reflexivity|].
      destruct (Driver.tap driver x y (HybridLocator.world st1)) as [[e|[]] w];
        reflexivity.
    + intros x' y' m st'.
      destruct (Driver.tap driver x y (HybridLocator.world st1)) as [[e|[]] w];
        [discriminate|].
      intros [= <- <- <- <-]. auto.
  - destruct Hs as (Hf & [x Hx] & [y Hy] & _). rewrite Hf, Hx, Hy.
    unfold HybridLocator.onWorld, Eff.ret.
    split; [|split; [discriminate|]].
    + intros _. exists x, y. split; [reflexivity|]. split; [reflexivity|].
      destruct (Driver.tap driver x y (HybridLocator.world st1)) as [[e|[]] w];
        reflexivity.
    + intros x' y' m st'.
      destruct (Driver.tap driver x y (HybridLocator.world st1)) as [[e|[]] w];
        [discriminate|].
      intros [= <- <- <- <-]. auto.
  - destruct Hs as (Hf & Hx & Hy & c & message & He). rewrite Hf, He.
    split; [discriminate|]. split; [|discriminate].
    intros _. exists c, message. split; reflexivity.
Qed.

Lemma locateAndTap_outcome_witness :
  HybridLocator.locateAndTap (Fixture.blindDriver (Some "no such element"))
    Fixture.clock (Driver.accessibilityId "login") "Login button"
    (HybridLocator.new None [])
  = (inl (JS.ErrorObj
            "Failed to locate element: Login button. no such element"),
     HybridLocator.pushed
       (HybridLocator.new None [Fixture.CFind (Driver.accessibilityId "login")])
       (failureEvent Fixture.clock
          (HybridLocator.new None
             [Fixture.CFind (Driver.accessibilityId "login")])
          (Driver.accessibilityId "login")
          (Fixture.notFound (Some "no such element")))).
Proof.
  destruct (proj1 (proj2
    (locateAndTap_outcome (Fixture.blindDriver (Some "no such element"))
       Fixture.clock (Driver.accessibilityId "login") "Login button"
       (HybridLocator.new None []) _ _ eq_refl)) eq_refl)
    as (c & message & He & Htap).
  injection He as <- <-. exact Htap.
Defined.

(** X3. The two ways [locate] succeeds.  When the selector lookup
    reports the element with both coordinates, [locate] answers with
    them and [method] "selector" and is done: no screenshot is taken and
    the vision fallback is not consulted, configured or not.  When the
    lookup yields no coordinates, a fallback is configured, the
    screenshot is taken and the fallback answers with coordinates,
    [locate] answers with the fallback's coordinates, [method] "vision"
    and [healingTriggered] set.  Either way one successful event with
    those coordinates is logged. *)
Theorem locate_success_paths {W : Type} (driver : Driver.IMobileDriver W)
        (Date_now : W -> Z) (locator : Driver.LocatorStrategy)
        (description : string) (st st1 : HybridLocator.State W)
        (selectorResult : Driver.ElementResult) :
  HybridLocator.trySelector driver locator st = (inr selectorResult, st1) ->
  (forall sx sy,
      Driver.found selectorResult = true ->
      Driver.x selectorResult = Some sx ->
      Driver.y selectorResult = Some sy ->
      HybridLocator.locate driver Date_now locator description st
      = (inr {| HybridLocator.r_found := true;
                HybridLocator.r_x := Some sx; HybridLocator.r_y := Some sy;
                HybridLocator.r_method := HybridLocator.selector;
                HybridLocator.r_healingTriggered := false;
                HybridLocator.r_error := None |},
         HybridLocator.pushed st1
           {| HybridLocator.timestamp := Date_now (HybridLocator.world st1);
              HybridLocator.attemptedLocator := locator;
              HybridLocator.success := true;
              HybridLocator.method := HybridLocator.selector;
              HybridLocator.coordinates := Some (sx, sy);
              HybridLocator.error := None;
              HybridLocator.healingTriggered := false |}))
  /\ (forall fn screenshot w1 vx vy w2,
         yieldsCoordinates selectorResult = false ->
         HybridLocator.visionFallback st = Some fn ->
         Driver.getScreenshot driver (HybridLocator.world st1)
         = (inr screenshot, w1) ->
         fn description screenshot w1 = (inr (Some (vx, vy)), w2) ->
         HybridLocator.locate driver Date_now locator description st
         = (inr {| HybridLocator.r_found := true;
                   HybridLocator.r_x := Some vx; HybridLocator.r_y := Some vy;
                   HybridLocator.r_method := HybridLocator.vision;
                   HybridLocator.r_healingTriggered := true;
                   HybridLocator.r_error := None |},
            HybridLocator.pushed (HybridLocator.withWorld st1 w2)
              {| HybridLocator.timestamp := Date_now w2;
                 HybridLocator.attemptedLocator := locator;
                 HybridLocator.success := true;
                 HybridLocator.method := HybridLocator.vision;
                 HybridLocator.coordinates := Some (vx, vy);
                 HybridLocator.error := None;
                 HybridLocator.healingTriggered := true |})).
Proof.
  intros Hsel. split.
  - intros sx sy Hf Hx Hy.
    unfold HybridLocator.locate, Eff.bind at 1. rewrite Hsel, Hf, Hx, Hy.
    reflexivity.
  - intros fn screenshot w1 vx vy w2 Hyc Hfn Hshot Hv.
    rewrite (locate_falls_through driver Date_now _ _ _ _ _ Hsel Hyc).
    destruct (trySelector_frame driver _ _ _ _ Hsel) as [_ Hfb].
    unfold Eff.bind at 1.
    unfold HybridLocator.tryVision, Eff.bind, Eff.gets.
    rewrite Hfb, Hfn.
    unfold Eff.tryCatch, Eff.bind, HybridLocator.onWorld. rewrite Hshot.
    simpl. rewrite Hv. reflexivity.
Qed.

Lemma locate_success_paths_witness :
  HybridLocator.locate (Fixture.blindDriver None) Fixture.clock
    (Driver.text_ "Settings") "Settings menu item"
    (HybridLocator.new (Some (fun _ _ w => (inr (Some (10, 20)), w))) [])
  = (inr {| HybridLocator.r_found := true;
            HybridLocator.r_x := Some 10; HybridLocator.r_y := Some 20;
            HybridLocator.r_method := HybridLocator.vision;
            HybridLocator.r_healingTriggered := true;
            HybridLocator.r_error := None |},
     HybridLocator.pushed
       (HybridLocator.withWorld
          (HybridLocator.new (Some (fun _ _ w => (inr (Some (10, 20)), w)))
             [Fixture.CFind (Driver.text_ "Settings")])
          [Fixture.CFind (Driver.text_ "Settings"); Fixture.CGetScreenshot])
       {| HybridLocator.timestamp := 2;
          HybridLocator.attemptedLocator := Driver.text_ "Settings";
          HybridLocator.success := true;
          HybridLocator.method := HybridLocator.vision;
          HybridLocator.coordinates := Some (10, 20);
          HybridLocator.error := None;
          HybridLocator.healingTriggered := true |}).
Proof.
  refine (proj2
    (locate_success_paths (Fixture.blindDriver None) Fixture.clock
       (Driver.text_ "Settings") "Settings menu item"
       (HybridLocator.new (Some (fun _ _ w => (inr (Some (10, 20)), w))) [])
       (HybridLocator.new (Some (fun _ _ w => (inr (Some (10, 20)), w)))
          [Fixture.CFind (Driver.text_ "Settings")])
       (Fixture.notFound None) eq_refl)
    (fun _ _ w => (inr (Some (10, 20)), w)) ""
    [Fixture.CFind (Driver.text_ "Settings"); Fixture.CGetScreenshot]
    10 20 [Fixture.CFind (Driver.text_ "Settings"); Fixture.CGetScreenshot]
    eq_refl eq_refl eq_refl eq_refl).
Defined.

(** X4. Two locators never reach the driver's lookups.  A "coordinates"
    locator is answered at once with its own coordinates and [method]
    "selector": the device is not touched and nothing can fail.  An
    "xpath" locator is never resolved by selector: [locate] always
    returns for it, and what it returns is either a vision result or a
    failure whose error is "XPath requires direct driver access". *)
Theorem locate_coordinates_and_xpath {W : Type}
        (driver : Driver.IMobileDriver W) (Date_now : W -> Z)
        (description : string) (st : HybridLocator.State W) :
  (forall x y,
      HybridLocator.locate driver Date_now (Driver.coordinates x y)
        description st
      = (inr {| HybridLocator.r_found := true;
                HybridLocator.r_x := Some x; HybridLocator.r_y := Some y;
                HybridLocator.r_method := HybridLocator.selector;
                HybridLocator.r_healingTriggered := false;
                HybridLocator.r_error := None |},
         HybridLocator.pushed st
           {| HybridLocator.timestamp := Date_now (HybridLocator.world st);
              HybridLocator.attemptedLocator := Driver.coordinates x y;
              HybridLocator.success := true;
              HybridLocator.method := HybridLocator.selector;
              HybridLocator.coordinates := Some (x, y);
              HybridLocator.error := None;
              HybridLocator.healingTriggered := false |}))
  /\ (forall value,
         exists result st',
           HybridLocator.locate driver Date_now (Driver.xpath value)
             description st
           = (inr result, st')
           /\ HybridLocator.r_method result <> HybridLocator.selector
           /\ (HybridLocator.r_method result = HybridLocator.none ->
               HybridLocator.r_error result
               = Some "XPath requires direct driver access")).
Proof.
  split; [reflexivity|].
  intros value.
  pose (sr := {| Driver.found := false;
                 Driver.x := None; Driver.y := None;
                 Driver.width := None; Driver.height := None;
                 Driver.text := None;
                 Driver.error :=
                   Some "XPath requires direct driver access" |}).
  rewrite (locate_falls_through driver Date_now (Driver.xpath value)
             description st sr st eq_refl eq_refl).
  unfold Eff.bind.
  destruct (tryVision_returns driver Date_now (Driver.xpath value)
              description st) as (healed & st2 & -> & _ & Hh).
  destruct healed as [r|].
  - destruct Hh as (vx & vy & event & -> & _).
    eexists _, _. split; [reflexivity|]. split; discriminate.
  - eexists _, _. split; [reflexivity|]. split; [discriminate|reflexivity].
Qed.

(* ================================================================== *)
(** * Further properties: healing statistics *)
(* ================================================================== *)

Lemma count_cons (p : HybridLocator.HealingEvent -> bool) e log :
  HybridLocator.count p (e :: log)
  = ((if p e then 1 else 0) + HybridLocator.count p log)%nat.
Proof.
  unfold HybridLocator.count. rewrite filter_cons.
  destruct (decide (p e = true)) as [->|Hn]; [reflexivity|].
  destruct (p e); [contradiction|reflexivity].
Qed.

Lemma count_snoc (p : HybridLocator.HealingEvent -> bool) log e :
  HybridLocator.count p (log ++ [e])
  = (HybridLocator.count p log + (if p e then 1 else 0))%nat.
Proof.
  induction log as [|e' log IH].
  - rewrite app_nil_l, count_cons. unfold HybridLocator.count.
    rewrite filter_nil. simpl. lia.
  - rewrite <- app_comm_cons, !count_cons, IH. lia.
Qed.

Lemma count_le (p : HybridLocator.HealingEvent -> bool) log :
  (HybridLocator.count p log <= length log)%nat.
Proof.
  induction log as [|e log IH]; [reflexivity|].
  rewrite count_cons. simpl. destruct (p e); lia.
Qed.

(** X5. The counters of [getHealingStats] partition the log: every
    event (its method is "selector" or "vision") is counted once, as a
    selector success, a vision success or a failure, so the three add up
    to [totalAttempts]; and [healingRate] lies between 0 and 1. *)
Theorem getHealingStats_partition (log : list HybridLocator.HealingEvent) :
  let stats := HybridLocator.getHealingStats log in
  (Forall (fun e => HybridLocator.method e <> HybridLocator.none) log ->
   (HybridLocator.selectorSuccesses stats + HybridLocator.visionSuccesses stats
    + HybridLocator.failures stats)%nat
   = HybridLocator.totalAttempts stats)
  /\ (0 <= HybridLocator.healingRate stats)%Q
  /\ (HybridLocator.healingRate stats <= 1)%Q.
Proof.
  cbv zeta. split.
  - unfold HybridLocator.getHealingStats. cbn [HybridLocator.selectorSuccesses
      HybridLocator.visionSuccesses HybridLocator.failures
      HybridLocator.totalAttempts].
    induction 1 as [|e log He _ IH]; [reflexivity|].
    rewrite !count_cons. cbn [length]. rewrite <- IH.
    destruct (HybridLocator.success e), (HybridLocator.method e);
      simpl; try lia; contradiction.
  - rewrite healingRate_def. destruct log as [|e log]; [split; discriminate|].
    set (v := HybridLocator.visionSuccesses _).
    assert (Hv : (v <= length (e :: log))%nat) by apply count_le.
    set (n := length (e :: log)) in *.
    assert (Hn : (0 < n)%nat) by (subst n; simpl; lia).
    assert (Hq : (0 < inject_Z (Z.of_nat n))%Q).
    { rewrite <- (Zlt_Qlt 0). lia. }
    split.
    + apply Qle_shift_div_l; [exact Hq|].
      rewrite Qmult_0_l. rewrite <- (Zle_Qle 0). lia.
    + apply Qle_shift_div_r; [exact Hq|].
      rewrite Qmult_1_l. rewrite <- Zle_Qle. lia.
Qed.

Lemma getHealingStats_partition_witness :
  (7 + 2 + 1)%nat
  = HybridLocator.totalAttempts (HybridLocator.getHealingStats tenAttempts).
Proof.
  refine (proj1 (getHealingStats_partition tenAttempts) _).
  repeat constructor; discriminate.
Defined.

(** X6. A call of [locate] that returns moves the statistics by one
    attempt and one counter: [totalAttempts] grows by one; a "selector"
    result adds one selector success, a "vision" result one vision
    success, a result that is not [found] one failure; the other
    counters stay. *)
Theorem locate_updates_stats {W : Type} (driver : Driver.IMobileDriver W)
        (Date_now : W -> Z) (locator : Driver.LocatorStrategy)
        (description : string) (st st' : HybridLocator.State W)
        (result : HybridLocator.HybridLocateResult) :
  HybridLocator.locate driver Date_now locator description st
  = (inr result, st') ->
  let before := HybridLocator.getHealingStats (HybridLocator.healingLog st) in
  let after := HybridLocator.getHealingStats (HybridLocator.healingLog st') in
  HybridLocator.totalAttempts after = S (HybridLocator.totalAttempts before)
  /\ HybridLocator.selectorSuccesses after
     = (HybridLocator.selectorSuccesses before
        + if HybridLocator.isSelector (HybridLocator.r_method result)
          then 1 else 0)%nat
  /\ HybridLocator.visionSuccesses after
     = (HybridLocator.visionSuccesses before
        + if HybridLocator.isVision (HybridLocator.r_method result)
          then 1 else 0)%nat
  /\ HybridLocator.failures after
     = (HybridLocator.failures before
        + if HybridLocator.r_found result then 0 else 1)%nat.
Proof.
  intros H. cbv zeta.
  destruct (locate_returns driver Date_now _ _ _ _ _ H)
    as (Hs & event & Hlog & Hsucc & Hmeth & _).
  unfold HybridLocator.getHealingStats.
  cbn [HybridLocator.selectorSuccesses HybridLocator.visionSuccesses
       HybridLocator.failures HybridLocator.totalAttempts].
  rewrite Hlog, !count_snoc, length_app, Hsucc, Hmeth. cbn [length].
  unfold wellShaped in Hs.
  destruct (HybridLocator.r_method result);
    destruct Hs as (-> & _); simpl; repeat split; lia.
Qed.

Lemma locate_updates_stats_witness :
  let after :=
    HybridLocator.getHealingStats
      [failureEvent Fixture.clock
         (HybridLocator.new None
            [Fixture.CFind (Driver.accessibilityId "login")])
         (Driver.accessibilityId "login")
         (Fixture.notFound (Some "no such element"))] in
  HybridLocator.totalAttempts after = 1%nat
  /\ HybridLocator.selectorSuccesses after = 0%nat
  /\ HybridLocator.visionSuccesses after = 0%nat
  /\ HybridLocator.failures after = 1%nat.
Proof.
  exact (locate_updates_stats (Fixture.blindDriver (Some "no such element"))
           Fixture.clock (Driver.accessibilityId "login") "Login button"
           (HybridLocator.new None []) _ _ eq_refl).
Defined.

(* ================================================================== *)
(** * Further properties: what the three nodes return *)
(* ================================================================== *)

(** The patch of an observation. *)
Definition observedPatch (screenshot : string)
           (uiTree : list Types.PrunedElement) : State.Patch :=
  {| State.p_screenshot := Some screenshot;
     State.p_uiTree := Some uiTree;
     State.p_goal := None;
     State.p_actionHistory := None;
     State.p_retryCount := None;
     State.p_errors := None;
     State.p_isComplete := None;
     State.p_lastAction := None;
     State.p_iteration := Some 1 |}.

(** The patch of a decision. *)
Definition decidedPatch (action : Types.ReasonerOutput) : State.Patch :=
  {| State.p_screenshot := None;
     State.p_uiTree := None;
     State.p_goal := None;
     State.p_actionHistory := None;
     State.p_retryCount := None;
     State.p_errors := None;
     State.p_isComplete := None;
     State.p_lastAction := Some (Some action);
     State.p_iteration := None |}.

Section NodeCases.
Context {W : Type}.
Variable driver : Driver.IMobileDriver W.
Variable Date_now : W -> Z.
Variable XMLParser_parse : string -> JS.outcome (list XmlParser.XmlNode).
Variable JSON_parse : string -> JS.outcome Schema.JSON.
Variable ZodError_message : Schema.JSON -> string.
Variable fetchChat : string -> string -> Eff.M W Reasoner.Response.

Lemma observer_cases state w :
  Observer.observer driver XMLParser_parse state w
  = match Observer.capture driver w with
    | (inr captured, w') =>
        (inr (observedPatch (fst captured)
                (XmlParser.parseAndroidXml XMLParser_parse (snd captured))),
         w')
    | (inl e, w') =>
        (inr (Observer.failurePatch (JS.messageOr "Unknown observer error" e)),
         w')
    end.
Proof.
  unfold Observer.observer, Eff.tryCatch, Observer.tryBlock, Eff.bind.
  destruct (Observer.capture driver w) as [[e|captured] w']; reflexivity.
Qed.

Lemma reasoner_tryBlock_returns state w patch w' :
  Reasoner.tryBlock JSON_parse ZodError_message fetchChat state w
  = (inr patch, w') ->
  (State.isComplete state = true /\ patch = State.emptyPatch /\ w' = w)
  \/ (State.isComplete state = false
      /\ exists action, patch = decidedPatch action).
Proof.
  unfold Reasoner.tryBlock.
  destruct (State.isComplete state).
  { intros [= <- <-]. left. auto. }
  intros H. right. split; [reflexivity|].
  apply bind_inr in H as (response & w1 & _ & H).
  apply bind_inr in H as ([] & w2 & _ & H).
  apply bind_inr in H as (content & w3 & _ & H).
  destruct (JS.truthy content); [|discriminate].
  apply bind_inr in H as (action & w4 & _ & H).
  exists action. unfold Eff.ret in H. unfold decidedPatch. congruence.
Qed.

Lemma reasoner_cases state w :
  exists patch w',
    Reasoner.reasoner JSON_parse ZodError_message fetchChat state w
    = (inr patch, w')
    /\ ((State.isComplete state = true /\ patch = State.emptyPatch /\ w' = w)
        \/ (State.isComplete state = false
            /\ exists action, patch = decidedPatch action)
        \/ (State.isComplete state = false
            /\ exists e,
                Reasoner.tryBlock JSON_parse ZodError_message fetchChat
                  state w = (inl e, w')
                /\ patch = Reasoner.failurePatch state
                             (JS.messageOr "Unknown reasoner error" e))).
Proof.
  unfold Reasoner.reasoner, Eff.tryCatch.
  destruct (Reasoner.tryBlock JSON_parse ZodError_message fetchChat state w)
    as [[e|patch] w'] eqn:H.
  - eexists _, _. split; [reflexivity|]. right. right.
    split; [|exists e; split; reflexivity].
    unfold Reasoner.tryBlock in H.
    destruct (State.isComplete state); [discriminate|reflexivity].
  - exists patch, w'. split; [reflexivity|].
    apply reasoner_tryBlock_returns in H as [H|H]; auto.
Qed.

Lemma executor_cases state st :
  exists patch st',
    Executor.executor driver Date_now state st = (inr patch, st')
    /\ match State.lastAction state with
       | None => patch = State.emptyPatch /\ st' = st
       | Some action =>
           (Types.action action <> Types.done
            /\ exists historyEntry,
                patch = Executor.successPatch historyEntry)
           \/ (Types.action action = Types.done /\ st' = st
               /\ patch = Executor.donePatch
                            ("Goal completed: " +:+ Types.thought action))
           \/ (Types.action action <> Types.done
               /\ exists e,
                   Executor.tryBlock driver Date_now action st = (inl e, st')
                   /\ patch = Executor.failurePatch state action
                                (JS.messageOr "Unknown executor error" e))
       end.
Proof.
  unfold Executor.executor.
  destruct (State.lastAction state) as [action|];
    [|exists State.emptyPatch, st; repeat split].
  unfold Eff.tryCatch.
  destruct (Executor.tryBlock driver Date_now action st)
    as [[e|patch] st'] eqn:H.
  - eexists _, _. split; [reflexivity|]. right. right.
    split; [|exists e; split; reflexivity].
    intros Hd. unfold Executor.tryBlock in H. rewrite Hd in H. discriminate.
  - exists patch, st'. split; [reflexivity|].
    apply tryBlock_returns in H as [H|H]; auto.
Qed.

End NodeCases.

(** X7. The Observer fails only when a capture rejects.  When both
    captures return, its patch carries the screenshot and the pruned
    tree and the iteration mark: merged into the state, [iteration]
    grows by exactly one and [retryCount], [errors], [actionHistory] and
    [lastAction] stay.  A page source the XML parser rejects is not a
    failure: the tree is then empty. *)
Theorem observer_outcome {W : Type} (driver : Driver.IMobileDriver W)
        (XMLParser_parse : string -> JS.outcome (list XmlParser.XmlNode))
        (state : State.AgentState) (w w' : W)
        (screenshot pageSource : string) :
  Observer.capture driver w = (inr (screenshot, pageSource), w') ->
  let patch :=
    observedPatch screenshot
      (XmlParser.parseAndroidXml XMLParser_parse pageSource) in
  let merged := State.applyPatch state patch in
  Observer.observer driver XMLParser_parse state w = (inr patch, w')
  /\ State.iteration merged = State.iteration state + 1
  /\ State.screenshot merged = screenshot
  /\ State.retryCount merged = State.retryCount state
  /\ State.errors merged = State.errors state
  /\ State.actionHistory merged = State.actionHistory state
  /\ State.lastAction merged = State.lastAction state
  /\ (forall e, XMLParser_parse pageSource = inl e ->
                State.uiTree merged = []).
Proof.
  intros H. cbv zeta. rewrite observer_cases, H.
  repeat split. intros e He. simpl.
  unfold XmlParser.parseAndroidXml. rewrite He. reflexivity.
Qed.

Lemma observer_outcome_witness :
  Observer.observer Fixture.calmDriver Fixture.noXml
    (Fixture.stateWith 2 None) []
  = (inr (observedPatch "" []),
     [Fixture.CGetScreenshot; Fixture.CGetPageSource]).
Proof.
  exact (proj1 (observer_outcome Fixture.calmDriver Fixture.noXml
                  (Fixture.stateWith 2 None) [] _ "" "" eq_refl)).
Defined.

(** X8. The Reasoner never rejects, and what it returns is one of three
    patches.  On a state that is already complete it returns the empty
    patch without calling the service.  Otherwise it returns either a
    patch whose only key is [lastAction], or, when its [try] block
    throws, the failure patch, which has no [lastAction] key: the
    merged state then still holds the action of the cycle before. *)
Theorem reasoner_outcome {W : Type}
        (JSON_parse : string -> JS.outcome Schema.JSON)
        (ZodError_message : Schema.JSON -> string)
        (fetchChat : string -> string -> Eff.M W Reasoner.Response)
        (state : State.AgentState) (w : W) :
  exists patch w',
    Reasoner.reasoner JSON_parse ZodError_message fetchChat state w
    = (inr patch, w')
    /\ ((State.isComplete state = true
         /\ patch = State.emptyPatch /\ w' = w
         /\ State.applyPatch state patch = state)
        \/ (State.isComplete state = false
            /\ exists action,
                patch = decidedPatch action
                /\ State.lastAction (State.applyPatch state patch)
                   = Some action)
        \/ (State.isComplete state = false
            /\ State.p_lastAction patch = None
            /\ State.lastAction (State.applyPatch state patch)
               = State.lastAction state
            /\ State.retryCount (State.applyPatch state patch)
               = State.retryCount state + 1)).
Proof.
  destruct (reasoner_cases JSON_parse ZodError_message fetchChat state w)
    as (patch & w' & H & Hc).
  exists patch, w'. split; [exact H|].
  destruct Hc as [(Hc & -> & ->)|[(Hc & action & ->)|(Hc & e & _ & ->)]].
  - left. repeat split; try assumption. destruct state; reflexivity.
  - right. left. split; [exact Hc|]. exists action. split; reflexivity.
  - right. right. repeat split. exact Hc.
Qed.

(** X9. The Executor never rejects.  With no pending action it returns
    the empty patch and touches nothing.  With one, its patch appends
    exactly one entry to the history, and is one of three: the success
    patch (retry count 0); for "done", the completion patch, the locator
    and the device being left alone; or, when its [try] block throws, the
    failure patch (entry "FAILED: ...", one error, retry count plus
    one).  A "done" action never fails. *)
Theorem executor_outcome {W : Type} (driver : Driver.IMobileDriver W)
        (Date_now : W -> Z) (state : State.AgentState)
        (st : HybridLocator.State W) :
  exists patch st',
    Executor.executor driver Date_now state st = (inr patch, st')
    /\ match State.lastAction state with
       | None => patch = State.emptyPatch /\ st' = st
       | Some action =>
           (exists entry,
               State.p_actionHistory patch = Some [entry]
               /\ State.actionHistory (State.applyPatch state patch)
                  = State.actionHistory state ++ [entry])
           /\ ((Types.action action <> Types.done
                /\ exists historyEntry,
                    patch = Executor.successPatch historyEntry)
               \/ (Types.action action = Types.done /\ st' = st
                   /\ patch = Executor.donePatch
                                ("Goal completed: " +:+ Types.thought action))
               \/ (Types.action action <> Types.done
                   /\ exists message,
                       patch = Executor.failurePatch state action message))
       end.
Proof.
  destruct (executor_cases driver Date_now state st) as (patch & st' & H & Hc).
  exists patch, st'. split; [exact H|].
  destruct (State.lastAction state) as [action|]; [|exact Hc].
  destruct Hc as [(Hn & h & ->)|[(Hd & -> & ->)|(Hn & e & _ & ->)]].
  - split; [eexists; split; reflexivity|]. left. eauto.
  - split; [eexists; split; reflexivity|]. right. left. auto.
  - split; [eexists; split; reflexivity|]. right. right. eauto.
Qed.

(* ================================================================== *)
(** * Further properties: actions the executor refuses or rescues *)
(* ================================================================== *)

(** X10. An action that lacks what it needs fails before anything is
    done: a "type" whose text is missing or empty, a "swipe" or "scroll"
    without a direction, a "click" that has neither a usable selector
    hint nor both coordinates.  The Executor returns the failure patch
    with the matching message, and the locator, its log and the device
    are as they were. *)
Theorem missing_parameter_touches_nothing {W : Type}
        (driver : Driver.IMobileDriver W) (Date_now : W -> Z)
        (state : State.AgentState) (action : Types.ReasonerOutput)
        (st : HybridLocator.State W) :
  State.lastAction state = Some action ->
  (Types.action action = Types.type ->
   JS.truthy (Types.p_text (Types.params action)) = false ->
   Executor.executor driver Date_now state st
   = (inr (Executor.failurePatch state action
             "Type action requires text parameter"), st))
  /\ (Types.action action = Types.swipe \/ Types.action action = Types.scroll ->
      Types.p_direction (Types.params action) = None ->
      Executor.executor driver Date_now state st
      = (inr (Executor.failurePatch state action
                "Scroll/swipe action requires direction parameter"), st))
  /\ (Types.action action = Types.click ->
      Executor.hybridSelector (Types.params action) = None ->
      Types.p_x (Types.params action) = None
      \/ Types.p_y (Types.params action) = None ->
      Executor.executor driver Date_now state st
      = (inr (Executor.failurePatch state action
                "Click action requires x and y coordinates or selector hint"),
         st)).
Proof.
  intros Hlast. unfold Executor.executor. rewrite Hlast.
  unfold Eff.tryCatch, Executor.tryBlock, Executor.afterSwitch, Eff.bind.
  split; [|split].
  - intros -> Ht. unfold Executor.doType. rewrite Ht. reflexivity.
  - intros [-> | ->] Hd; unfold Executor.doSwipe; rewrite Hd; reflexivity.
  - intros -> Hs Hxy. unfold Executor.doClick. rewrite Hs.
    destruct Hxy as [-> | ->];
      [|destruct (Types.p_x (Types.params action))]; reflexivity.
Qed.

Lemma missing_parameter_touches_nothing_witness :
  Executor.executor Fixture.calmDriver Fixture.clock
    (Fixture.stateWith 1 (Some (Fixture.act Types.swipe Fixture.params0)))
    (HybridLocator.new None [])
  = (inr (Executor.failurePatch
            (Fixture.stateWith 1
               (Some (Fixture.act Types.swipe Fixture.params0)))
            (Fixture.act Types.swipe Fixture.params0)
            "Scroll/swipe action requires direction parameter"),
     HybridLocator.new None []).
Proof.
  exact (proj1 (proj2
    (missing_parameter_touches_nothing Fixture.calmDriver Fixture.clock
       (Fixture.stateWith 1 (Some (Fixture.act Types.swipe Fixture.params0)))
       (Fixture.act Types.swipe Fixture.params0) (HybridLocator.new None [])
       eq_refl)) (or_introl eq_refl) eq_refl).
Defined.

(** The code after the [switch], once the case has set the entry. *)
Lemma afterSwitch_settles {W : Type} (driver : Driver.IMobileDriver W)
      (entry : Eff.M (HybridLocator.State W) string)
      (st : HybridLocator.State W) (historyEntry : string)
      (st1 : HybridLocator.State W) (w2 : W) :
  entry st = (inr historyEntry, st1) ->
  Driver.waitFor driver 500 (HybridLocator.world st1) = (inr tt, w2) ->
  Executor.afterSwitch driver entry st
  = (inr (Executor.successPatch historyEntry),
     HybridLocator.withWorld st1 w2).
Proof.
  intros He Hw. unfold Executor.afterSwitch, Eff.bind. rewrite He.
  unfold Executor.callDriver, HybridLocator.onWorld,
    Executor.DEFAULT_WAIT_MS.
  rewrite Hw. reflexivity.
Qed.

(** X11. A "type" action cannot fail because of the locator: the text
    is typed in every case.  If the driver's [type] and [waitFor] never
    reject, every "type" action with a non-empty text ends with the
    success patch, and the calls made are these.  Without a selector
    hint, [type] with the text, then the settling wait.  With a hint,
    [locateAndType]; when that returns it has tapped the field, waited
    200 ms and typed the text, and the settling wait follows; when it
    throws (the field was not found, or the tap or the wait rejected),
    [type] with the text is called on the device as the failed attempt
    left it, then the settling wait.  The history entry tells the three
    cases apart. *)
Theorem type_survives_locator_failure {W : Type}
        (driver : Driver.IMobileDriver W) (Date_now : W -> Z)
        (state : State.AgentState) (action : Types.ReasonerOutput)
        (st : HybridLocator.State W) :
  (forall text w, exists w', Driver.type driver text w = (inr tt, w')) ->
  (forall w, exists w', Driver.waitFor driver 500 w = (inr tt, w')) ->
  State.lastAction state = Some action ->
  Types.action action = Types.type ->
  JS.truthy (Types.p_text (Types.params action)) = true ->
  let text := JS.orElse (Types.p_text (Types.params action)) "" in
  let shown := "Typed " +:+ JS.quoted (Executor.truncatedText text) in
  match Executor.hybridSelector (Types.params action) with
  | None =>
      exists w1 w2,
        Driver.type driver text (HybridLocator.world st) = (inr tt, w1)
        /\ Driver.waitFor driver 500 w1 = (inr tt, w2)
        /\ Executor.executor driver Date_now state st
           = (inr (Executor.successPatch
                     (shown +:+ " into " +:+ Types.targetElement action)),
              HybridLocator.withWorld st w2)
  | Some selector =>
      let description :=
        JS.orElse3 (Types.p_elementDescription (Types.params action))
                   (Some (Types.targetElement action)) "input field" in
      match HybridLocator.locateAndType driver Date_now
              (Executor.selectorToLocator selector) description text st with
      | (inl _, st1) =>
          exists w1 w2,
            Driver.type driver text (HybridLocator.world st1) = (inr tt, w1)
            /\ Driver.waitFor driver 500 w1 = (inr tt, w2)
            /\ Executor.executor driver Date_now state st
               = (inr (Executor.successPatch
                         (shown +:+ " (field already focused)")),
                  HybridLocator.withWorld st1 w2)
      | (inr (x, y, method), st1) =>
          exists tapped w0 w1 w2,
            HybridLocator.locateAndTap driver Date_now
              (Executor.selectorToLocator selector) description st
            = (inr (x, y, method), tapped)
            /\ Driver.waitFor driver 200 (HybridLocator.world tapped)
               = (inr tt, w0)
            /\ Driver.type driver text w0 = (inr tt, w1)
            /\ st1 = HybridLocator.withWorld tapped w1
            /\ Driver.waitFor driver 500 w1 = (inr tt, w2)
            /\ Executor.executor driver Date_now state st
               = (inr (Executor.successPatch
                         (shown +:+ " into " +:+ description +:+ " via "
                          +:+ HybridLocator.methodName method
                          +:+ Executor.healedSuffix method)),
                  HybridLocator.withWorld st1 w2)
      end
  end.
Proof.
  intros Htype Hwait Hlast Ha Ht. cbv zeta.
  assert (Hrun : forall entry st1 w2,
             Executor.doType driver Date_now action st = (inr entry, st1) ->
             Driver.waitFor driver 500 (HybridLocator.world st1)
             = (inr tt, w2) ->
             Executor.executor driver Date_now state st
             = (inr (Executor.successPatch entry),
                HybridLocator.withWorld st1 w2)).
  { intros entry st1 w2 Hdo Hw2. unfold Executor.executor. rewrite Hlast.
    apply tryCatch_inr. unfold Executor.tryBlock. rewrite Ha.
    exact (afterSwitch_settles driver _ st entry st1 w2 Hdo Hw2). }
  unfold Executor.doType in Hrun. rewrite Ht in Hrun.
  destruct (Executor.hybridSelector (Types.params action)) as [selector|].
  - destruct (HybridLocator.locateAndType driver Date_now
                (Executor.selectorToLocator selector) _ _ st)
      as [[e|[[x y] method]] st1] eqn:Hlocate.
    + destruct (Htype (JS.orElse (Types.p_text (Types.params action)) "")
                      (HybridLocator.world st1)) as (w1 & Hw1).
      destruct (Hwait w1) as (w2 & Hw2).
      exists w1, w2. split; [exact Hw1|]. split; [exact Hw2|].
      apply (Hrun _ (HybridLocator.withWorld st1 w1) w2); [|exact Hw2].
      unfold Eff.tryCatch, Eff.bind at 1. rewrite Hlocate.
      unfold Eff.bind, Executor.callDriver, HybridLocator.onWorld.
      rewrite Hw1. reflexivity.
    + pose proof Hlocate as Hparts.
      unfold HybridLocator.locateAndType, Eff.bind in Hparts.
      destruct (HybridLocator.locateAndTap driver Date_now
                  (Executor.selectorToLocator selector) _ st)
        as [[e|tapResult] tapped] eqn:Htap; [discriminate|].
      unfold HybridLocator.onWorld in Hparts.
      destruct (Driver.waitFor driver 200 (HybridLocator.world tapped))
        as [[e|[]] w0] eqn:Hw0; [discriminate|].
      change (HybridLocator.world (HybridLocator.withWorld tapped w0))
        with w0 in Hparts.
      destruct (Driver.type driver _ w0) as [[e|[]] w1] eqn:Hw1;
        [discriminate|].
      unfold Eff.ret in Hparts. injection Hparts as -> Hst1.
      destruct (Hwait w1) as (w2 & Hw2).
      exists tapped, w0, w1, w2.
      split; [reflexivity|]. split; [exact Hw0|]. split; [exact Hw1|].
      split; [rewrite <- Hst1; reflexivity|]. split; [exact Hw2|].
      apply Hrun; [|rewrite <- Hst1; exact Hw2].
      unfold Eff.tryCatch, Eff.bind. rewrite Hlocate. reflexivity.
  - destruct (Htype (JS.orElse (Types.p_text (Types.params action)) "")
                    (HybridLocator.world st)) as (w1 & Hw1).
    destruct (Hwait w1) as (w2 & Hw2).
    exists w1, w2. split; [exact Hw1|]. split; [exact Hw2|].
    apply (Hrun _ (HybridLocator.withWorld st w1) w2); [|exact Hw2].
    unfold Eff.bind, Executor.callDriver, HybridLocator.onWorld.
    rewrite Hw1. reflexivity.
Qed.

Definition typeInto (selector : Types.SelectorHint) (text : string)
  : Types.ReasonerOutput :=
  Fixture.act Types.type
    {| Types.p_x := None; Types.p_y := None; Types.p_text := Some text;
       Types.p_direction := None; Types.p_duration := None;
       Types.p_selector := Some selector;
       Types.p_elementDescription := None |}.

Definition byResourceId (value : string) : Types.SelectorHint :=
  {| Types.sel_type := Types.resourceId_; Types.sel_value := Some value;
     Types.sel_x := None; Types.sel_y := None |}.

Lemma type_survives_locator_failure_witness :
  let state :=
    Fixture.stateWith 2 (Some (typeInto (byResourceId "user") "alice")) in
  let st1 :=
    snd (HybridLocator.locateAndType Fixture.calmDriver Fixture.clock
           (Driver.resourceId "user") "target" "alice"
           (HybridLocator.new None [])) in
  exists w1 w2,
    Driver.type Fixture.calmDriver "alice" (HybridLocator.world st1)
    = (inr tt, w1)
    /\ Driver.waitFor Fixture.calmDriver 500 w1 = (inr tt, w2)
    /\ Executor.executor Fixture.calmDriver Fixture.clock state
         (HybridLocator.new None [])
       = (inr (Executor.successPatch
                 ("Typed " +:+ JS.quoted "alice"
                  +:+ " (field already focused)")),
          HybridLocator.withWorld st1 w2).
Proof.
  refine (type_survives_locator_failure Fixture.calmDriver Fixture.clock
            (Fixture.stateWith 2 (Some (typeInto (byResourceId "user") "alice")))
            (typeInto (byResourceId "user") "alice")
            (HybridLocator.new None []) _ _ eq_refl eq_refl eq_refl).
  - intros text w. eexists. reflexivity.
  - intros w. eexists. reflexivity.
Defined.

Example type_rescued_run :
  Executor.executor Fixture.calmDriver Fixture.clock
    (Fixture.stateWith 2 (Some (typeInto (byResourceId "user") "alice")))
    (HybridLocator.new None [])
  = (inr (Executor.successPatch
            ("Typed " +:+ JS.quoted "alice" +:+ " (field already focused)")),
     {| HybridLocator.healingLog :=
          [failureEvent Fixture.clock
             (HybridLocator.new None
                [Fixture.CFind (Driver.resourceId "user")])
             (Driver.resourceId "user") (Fixture.notFound None)];
        HybridLocator.visionFallback := None;
        HybridLocator.world :=
          [Fixture.CFind (Driver.resourceId "user");
           Fixture.CType "alice"; Fixture.CWaitFor 500] |}).
Proof. vm_compute. reflexivity. Qed.

(* ================================================================== *)
(** * Further properties: the executor with access to the healing log *)
(* ================================================================== *)

(** The locator of [createExecutorWithHealingAccess] after the calls
    [states] of its [executor]. *)
Definition afterCalls {W} (driver : Driver.IMobileDriver W)
           (Date_now : W -> Z)
           (visionFallback : option (HybridLocator.VisionFallbackFn W))
           (states : list State.AgentState) (own : HybridLocator.State W)
  : HybridLocator.State W :=
  fold_left
    (fun own state =>
       snd (HealingAccess.executor driver Date_now visionFallback state own))
    states own.

(** X12. The healing log that [createExecutorWithHealingAccess] exposes
    is never written.  Its [executor] hands every call to a node made on
    the spot, with a locator of its own, so whatever actions are
    executed, [getHealingLog] answers with the empty list and
    [getHealingStats] with zeros. *)
Theorem healing_access_log_stays_empty {W : Type}
        (driver : Driver.IMobileDriver W) (Date_now : W -> Z)
        (visionFallback : option (HybridLocator.VisionFallbackFn W))
        (states : list State.AgentState) (w : W) :
  let own :=
    afterCalls driver Date_now visionFallback states
      (HealingAccess.create visionFallback w) in
  HealingAccess.getHealingLog own = (inr [], own)
  /\ fst (HealingAccess.getHealingStats own)
     = inr {| HybridLocator.totalAttempts := 0;
              HybridLocator.selectorSuccesses := 0;
              HybridLocator.visionSuccesses := 0;
              HybridLocator.failures := 0;
              HybridLocator.healingRate := 0 |}.
Proof.
  cbv zeta.
  assert (Hlog : forall own,
             HybridLocator.healingLog own = [] ->
             HybridLocator.healingLog
               (afterCalls driver Date_now visionFallback states own) = []).
  { unfold afterCalls. induction states as [|state states IH];
      intros own Hown; [exact Hown|].
    simpl. apply IH. unfold HealingAccess.executor.
    destruct (Executor.executor driver Date_now state _). exact Hown. }
  specialize (Hlog (HealingAccess.create visionFallback w) eq_refl).
  unfold HealingAccess.getHealingLog, HybridLocator.getHealingLog,
    HealingAccess.getHealingStats, Eff.gets.
  rewrite Hlog. split; reflexivity.
Qed.

(** The node made by [createExecutorNode] does log, on the same input. *)
Example healing_access_contrast :
  let state :=
    Fixture.stateWith 0 (Some (typeInto (byResourceId "user") "alice")) in
  length (HybridLocator.healingLog
            (snd (Executor.executor Fixture.calmDriver Fixture.clock state
                    (HybridLocator.new None [])))) = 1%nat
  /\ HybridLocator.healingLog
       (snd (HealingAccess.executor Fixture.calmDriver Fixture.clock None state
               (HealingAccess.create None []))) = [].
Proof. vm_compute. split; reflexivity. Qed.

(* ================================================================== *)
(** * Further properties: the run of the graph *)
(* ================================================================== *)

Lemma applyPatch_iteration_kept state patch :
  State.p_iteration patch = None ->
  State.iteration (State.applyPatch state patch) = State.iteration state.
Proof. intros H. simpl. rewrite H. reflexivity. Qed.

Ltac node_facts :=
  split; [reflexivity|];
  split; [intros ?; first [congruence | reflexivity]
         |intros ?; first [congruence | split; reflexivity]].

Section GraphFacts.
Context {W : Type}.
Variable driver : Driver.IMobileDriver W.
Variable Date_now : W -> Z.
Variable XMLParser_parse : string -> JS.outcome (list XmlParser.XmlNode).
Variable JSON_parse : string -> JS.outcome Schema.JSON.
Variable ZodError_message : Schema.JSON -> string.
Variable fetchChat : string -> string -> Eff.M W Reasoner.Response.
Variable GraphRecursionError : JS.Thrown.

Abbreviation runNode :=
  (GraphRun.runNode driver Date_now XMLParser_parse JSON_parse
     ZodError_message fetchChat).
Abbreviation invoke :=
  (GraphRun.invoke driver Date_now XMLParser_parse JSON_parse
     ZodError_message fetchChat GraphRecursionError).

Lemma invoke_step n node state st :
  invoke (S n) node state st
  = match runNode node state st with
    | (inr patch, st') =>
        match n with
        | O => (inl GraphRecursionError, st')
        | S _ =>
            match GraphRun.next node (State.applyPatch state patch) with
            | Some node' => invoke n node' (State.applyPatch state patch) st'
            | None => (inr (State.applyPatch state patch), st')
            end
        end
    | (inl e, st') => (inl e, st')
    end.
Proof.
  cbn [GraphRun.invoke]. unfold Eff.bind.
  destruct (runNode node state st) as [[e|patch] st']; [reflexivity|].
  destruct n; [reflexivity|].
  destruct (GraphRun.next node (State.applyPatch state patch)); reflexivity.
Qed.

(** The run when the budget is used up after the node. *)
Definition outOfSteps (n : nat) (state : State.AgentState)
           (st : HybridLocator.State W)
  : JS.outcome State.AgentState * HybridLocator.State W :=
  match n with
  | O => (inl GraphRecursionError, st)
  | S _ => (inr state, st)
  end.

(** No node rejects, and no node writes the goal; only the Observer
    writes the iteration mark, and only the Executor touches the
    locator's fields. *)
Lemma runNode_returns node state st :
  exists patch st',
    runNode node state st = (inr patch, st')
    /\ State.p_goal patch = None
    /\ (node <> GraphRun.observerNode -> State.p_iteration patch = None)
    /\ (node <> GraphRun.executorNode ->
        HybridLocator.healingLog st' = HybridLocator.healingLog st
        /\ HybridLocator.visionFallback st'
           = HybridLocator.visionFallback st).
Proof.
  destruct node; unfold GraphRun.runNode.
  - unfold HybridLocator.onWorld. rewrite observer_cases.
    destruct (Observer.capture driver (HybridLocator.world st))
      as [[e|captured] w']; eexists _, _;
      (split; [reflexivity|]); node_facts.
  - unfold HybridLocator.onWorld.
    destruct (reasoner_cases JSON_parse ZodError_message fetchChat state
                (HybridLocator.world st)) as (patch & w' & -> & Hc).
    eexists _, _. split; [reflexivity|].
    destruct Hc as [(_ & -> & _)|[(_ & action & ->)|(_ & e & _ & ->)]];
      node_facts.
  - destruct (executor_cases driver Date_now state st)
      as (patch & st' & -> & Hc).
    exists patch, st'. split; [reflexivity|].
    destruct (State.lastAction state) as [action|].
    + destruct Hc as [(_ & h & ->)|[(_ & _ & ->)|(_ & e & _ & ->)]];
        node_facts.
    + destruct Hc as [-> ->]. node_facts.
Qed.

Lemma capture_returns :
  (forall w, exists s w', Driver.getScreenshot driver w = (inr s, w')) ->
  (forall w, exists s w', Driver.getPageSource driver w = (inr s, w')) ->
  forall w, exists captured w',
    Observer.capture driver w = (inr captured, w').
Proof.
  intros Hshot Hsrc w. unfold Observer.capture, Observer.Promise_all2.
  destruct (Hshot w) as (s & w1 & ->).
  destruct (Hsrc w1) as (x & w2 & ->).
  eexists _, _. reflexivity.
Qed.

(** One turn of the loop when the captures return: the iteration count
    has grown by one when the router is asked. *)
Lemma cycle_observed n state st :
  (forall w, exists captured w',
      Observer.capture driver w = (inr captured, w')) ->
  exists s3 st3,
    State.iteration s3 = State.iteration state + 1
    /\ invoke (S (S (S n))) GraphRun.observerNode state st
       = match Graph.router s3 with
         | Graph.RouteEnd => outOfSteps n s3 st3
         | Graph.RouteContinue => invoke n GraphRun.observerNode s3 st3
         end.
Proof.
  intros Hcap. rewrite invoke_step.
  unfold GraphRun.runNode at 1, HybridLocator.onWorld.
  rewrite observer_cases.
  destruct (Hcap (HybridLocator.world st)) as (captured & w1 & ->).
  cbn [GraphRun.next]. rewrite invoke_step.
  match goal with
  | |- context [runNode GraphRun.reasonerNode ?s ?t] =>
      destruct (runNode_returns GraphRun.reasonerNode s t)
        as (p2 & st2 & -> & _ & Hit2 & _)
  end.
  cbn [GraphRun.next]. rewrite invoke_step.
  match goal with
  | |- context [runNode GraphRun.executorNode ?s ?t] =>
      destruct (runNode_returns GraphRun.executorNode s t)
        as (p3 & st3 & -> & _ & Hit3 & _)
  end.
  match goal with
  | |- context [GraphRun.next GraphRun.executorNode ?s] => exists s, st3
  end.
  split; [|cbn [GraphRun.next]; destruct (Graph.router _), n; reflexivity].
  rewrite !applyPatch_iteration_kept by (auto; discriminate). reflexivity.
Qed.

(** The Observer's turn, whatever the captures do. *)
Lemma observer_node_step state st :
  exists patch st',
    runNode GraphRun.observerNode state st = (inr patch, st')
    /\ State.isComplete (State.applyPatch state patch)
       = State.isComplete state
    /\ State.lastAction (State.applyPatch state patch)
       = State.lastAction state
    /\ State.actionHistory (State.applyPatch state patch)
       = State.actionHistory state
    /\ State.retryCount (State.applyPatch state patch)
       = State.retryCount state
    /\ State.iteration state
       <= State.iteration (State.applyPatch state patch)
       <= State.iteration state + 1
    /\ (length (State.errors state)
        <= length (State.errors (State.applyPatch state patch)))%nat
    /\ HybridLocator.healingLog st' = HybridLocator.healingLog st.
Proof.
  unfold GraphRun.runNode, HybridLocator.onWorld. rewrite observer_cases.
  destruct (Observer.capture driver (HybridLocator.world st))
    as [[e|captured] w1]; eexists _, _; (split; [reflexivity|]); simpl;
    rewrite ?length_app; simpl; repeat split; lia.
Qed.

(** The Reasoner's turn when the chat endpoint rejects. *)
Lemma unreachable_reasoner_step state st :
  (forall prompt screenshot w, exists e w',
      fetchChat prompt screenshot w = (inl e, w')) ->
  State.isComplete state = false ->
  exists patch st',
    runNode GraphRun.reasonerNode state st = (inr patch, st')
    /\ State.isComplete (State.applyPatch state patch) = false
    /\ State.lastAction (State.applyPatch state patch)
       = State.lastAction state
    /\ State.actionHistory (State.applyPatch state patch)
       = State.actionHistory state
    /\ State.retryCount (State.applyPatch state patch)
       = State.retryCount state + 1
    /\ State.iteration (State.applyPatch state patch) = State.iteration state
    /\ length (State.errors (State.applyPatch state patch))
       = S (length (State.errors state))
    /\ HybridLocator.healingLog st' = HybridLocator.healingLog st.
Proof.
  intros Hdead Hc. unfold GraphRun.runNode, HybridLocator.onWorld.
  destruct (Hdead (Reasoner.buildUserPrompt state) (State.screenshot state)
                  (HybridLocator.world st)) as (e & w' & Hf).
  unfold Reasoner.reasoner.
  rewrite (tryCatch_inl _ _ _ _ _
             (reasoner_fetch_rejects JSON_parse ZodError_message fetchChat
                state _ e w' Hc Hf)).
  eexists _, _. split; [reflexivity|]. simpl.
  rewrite length_app. simpl. repeat split; try assumption; lia.
Qed.

Lemma applyPatch_empty state : State.applyPatch state State.emptyPatch = state.
Proof. destruct state; reflexivity. Qed.

Lemma idle_executor_step state st :
  State.lastAction state = None ->
  runNode GraphRun.executorNode state st = (inr State.emptyPatch, st).
Proof.
  intros H. unfold GraphRun.runNode, Executor.executor. rewrite H. reflexivity.
Qed.

(** One turn of the loop when the chat endpoint rejects and no action
    has been decided yet. *)
Lemma cycle_unreasoned n state st :
  (forall prompt screenshot w, exists e w',
      fetchChat prompt screenshot w = (inl e, w')) ->
  State.isComplete state = false ->
  State.lastAction state = None ->
  State.actionHistory state = [] ->
  exists s3 st3,
    invoke (S (S (S n))) GraphRun.observerNode state st
    = match Graph.router s3 with
      | Graph.RouteEnd => outOfSteps n s3 st3
      | Graph.RouteContinue => invoke n GraphRun.observerNode s3 st3
      end
    /\ State.isComplete s3 = false
    /\ State.lastAction s3 = None
    /\ State.actionHistory s3 = []
    /\ State.retryCount s3 = State.retryCount state + 1
    /\ State.iteration state <= State.iteration s3 <= State.iteration state + 1
    /\ (length (State.errors state) < length (State.errors s3))%nat
    /\ HybridLocator.healingLog st3 = HybridLocator.healingLog st.
Proof.
  intros Hdead Hc Hl Hh. rewrite invoke_step.
  destruct (observer_node_step state st)
    as (p1 & st1 & -> & Hc1 & Hl1 & Hh1 & Hr1 & Hi1 & He1 & Hlog1).
  cbn [GraphRun.next]. rewrite invoke_step.
  destruct (unreachable_reasoner_step (State.applyPatch state p1) st1 Hdead)
    as (p2 & st2 & -> & Hc2 & Hl2 & Hh2 & Hr2 & Hi2 & He2 & Hlog2);
    [congruence|].
  cbn [GraphRun.next]. rewrite invoke_step.
  rewrite idle_executor_step by congruence.
  rewrite applyPatch_empty.
  match goal with
  | |- context [GraphRun.next GraphRun.executorNode ?s] => exists s, st2
  end.
  split; [cbn [GraphRun.next]; destruct (Graph.router _), n; reflexivity|].
  repeat split; try congruence; lia.
Qed.

(** The Reasoner's turn when the model always asks to wait. *)
Lemma waiting_reasoner_step state st :
  (forall prompt screenshot w,
      exists response w' text action,
        fetchChat prompt screenshot w = (inr response, w')
        /\ Reasoner.ok response = true
        /\ Reasoner.content response = inr (Some text)
        /\ text <> ""
        /\ Reasoner.parseReasonerResponse JSON_parse ZodError_message text
           = inr action
        /\ Types.action action = Types.wait) ->
  State.isComplete state = false ->
  exists action st',
    runNode GraphRun.reasonerNode state st
    = (inr (decidedPatch action), st')
    /\ Types.action action = Types.wait.
Proof.
  intros Hwait Hc. unfold GraphRun.runNode, HybridLocator.onWorld.
  destruct (Hwait (Reasoner.buildUserPrompt state) (State.screenshot state)
                  (HybridLocator.world st))
    as (response & w' & text & action & Hf & Hok & Hcontent & Hne & Hp & Ha).
  exists action. eexists.
  unfold Reasoner.reasoner, Eff.tryCatch, Reasoner.tryBlock, Eff.bind,
    Reasoner.liftOutcome.
  rewrite Hc, Hf, Hok, Hcontent. unfold Eff.ret.
  destruct text as [|c t]; [contradiction|]. simpl. rewrite Hp.
  split; [reflexivity|exact Ha].
Qed.

(** The Executor's turn on a "wait" when the driver's [waitFor] returns. *)
Lemma waiting_executor_step state action st :
  (forall ms w, exists w', Driver.waitFor driver ms w = (inr tt, w')) ->
  State.lastAction state = Some action ->
  Types.action action = Types.wait ->
  exists historyEntry st',
    runNode GraphRun.executorNode state st
    = (inr (Executor.successPatch historyEntry), st').
Proof.
  intros Hwait Hl Ha.
  unfold GraphRun.runNode, Executor.executor. rewrite Hl.
  unfold Eff.tryCatch, Executor.tryBlock. rewrite Ha.
  unfold Executor.afterSwitch, Executor.doWait, Eff.bind,
    Executor.callDriver, HybridLocator.onWorld.
  destruct (Hwait (JS.numOr (Types.p_duration (Types.params action))
                            Executor.DEFAULT_WAIT_MS)
                  (HybridLocator.world st)) as (w1 & ->).
  unfold Eff.ret.
  change (HybridLocator.world (HybridLocator.withWorld st w1)) with w1.
  destruct (Hwait Executor.DEFAULT_WAIT_MS w1) as (w2 & ->).
  eexists _, _. reflexivity.
Qed.

Lemma invoke_never_ends :
  (forall w, exists e w', Observer.capture driver w = (inl e, w')) ->
  (forall prompt screenshot w,
      exists response w' text action,
        fetchChat prompt screenshot w = (inr response, w')
        /\ Reasoner.ok response = true
        /\ Reasoner.content response = inr (Some text)
        /\ text <> ""
        /\ Reasoner.parseReasonerResponse JSON_parse ZodError_message text
           = inr action
        /\ Types.action action = Types.wait) ->
  (forall ms w, exists w', Driver.waitFor driver ms w = (inr tt, w')) ->
  forall (n : nat) node state st,
    State.isComplete state = false ->
    State.iteration state < 15 ->
    (node = GraphRun.executorNode ->
     exists action, State.lastAction state = Some action
                    /\ Types.action action = Types.wait) ->
    exists st', invoke n node state st = (inl GraphRecursionError, st').
Proof.
  intros Hcap Hfetch Hwait.
  induction n as [|n IH]; intros node state st Hc Hi Hl; [eexists; reflexivity|].
  rewrite invoke_step. destruct node.
  - unfold GraphRun.runNode, HybridLocator.onWorld. rewrite observer_cases.
    destruct (Hcap (HybridLocator.world st)) as (e & w1 & ->).
    destruct n as [|m]; [eexists; reflexivity|].
    cbn [GraphRun.next]. apply IH; [exact Hc|exact Hi|discriminate].
  - destruct (waiting_reasoner_step state st Hfetch Hc)
      as (action & st1 & -> & Ha).
    destruct n as [|m]; [eexists; reflexivity|].
    cbn [GraphRun.next]. apply IH; [exact Hc|exact Hi|].
    intros _. exists action. split; [reflexivity|exact Ha].
  - destruct (Hl eq_refl) as (action & Hla & Ha).
    destruct (waiting_executor_step state action st Hwait Hla Ha)
      as (h & st1 & ->).
    destruct n as [|m]; [eexists; reflexivity|].
    cbn [GraphRun.next].
    assert (Hr : Graph.router
                   (State.applyPatch state (Executor.successPatch h))
                 = Graph.RouteContinue).
    { apply route_cases. rewrite router_end_iff. simpl.
      unfold State.replace. rewrite Hc. intros [?|[?|?]]; [discriminate|lia|lia]. }
    rewrite Hr. apply IH; [exact Hc|exact Hi|discriminate].
Qed.

(** A run only ever appends to the two logs, and leaves the goal alone. *)
Lemma invoke_appends (n : nat) :
  forall node state st final st',
    invoke n node state st = (inr final, st') ->
    State.goal final = State.goal state
    /\ (exists added,
           State.actionHistory final = State.actionHistory state ++ added)
    /\ (exists added, State.errors final = State.errors state ++ added).
Proof.
  induction n as [|n IH]; intros node state st final st' H; [discriminate|].
  rewrite invoke_step in H.
  destruct (runNode_returns node state st) as (patch & st1 & Hrun & Hg & _).
  rewrite Hrun in H.
  assert (Hstep : State.goal (State.applyPatch state patch) = State.goal state
                  /\ (exists added,
                         State.actionHistory (State.applyPatch state patch)
                         = State.actionHistory state ++ added)
                  /\ (exists added,
                         State.errors (State.applyPatch state patch)
                         = State.errors state ++ added)).
  { simpl. rewrite Hg. split; [reflexivity|]. split.
    - destruct (State.p_actionHistory patch) as [l|]; simpl;
        [exists l|exists []; rewrite app_nil_r]; reflexivity.
    - destruct (State.p_errors patch) as [l|]; simpl;
        [exists l|exists []; rewrite app_nil_r]; reflexivity. }
  destruct Hstep as (Hg1 & [a1 Ha1] & [e1 He1]).
  destruct n as [|m]; [discriminate|].
  destruct (GraphRun.next node (State.applyPatch state patch)) as [node'|].
  - apply IH in H as (Hg2 & [a2 Ha2] & [e2 He2]).
    split; [congruence|]. split.
    + exists (a1 ++ a2). rewrite Ha2, Ha1, app_assoc. reflexivity.
    + exists (e1 ++ e2). rewrite He2, He1, app_assoc. reflexivity.
  - injection H as <- <-. eauto.
Qed.

(** Node runs still to come in the turn a node belongs to, the node
    itself not counted. *)
Definition restOfTurn (node : GraphRun.Node) : Z :=
  match node with
  | GraphRun.observerNode => 0
  | GraphRun.reasonerNode => 2
  | GraphRun.executorNode => 1
  end.

(** Only the Observer raises [iteration], and by one at most. *)
Lemma runNode_iteration node state st :
  exists patch st',
    runNode node state st = (inr patch, st')
    /\ State.iteration (State.applyPatch state patch)
       <= State.iteration state
          + match node with GraphRun.observerNode => 1 | _ => 0 end.
Proof.
  destruct node.
  - destruct (observer_node_step state st)
      as (patch & st' & Hrun & _ & _ & _ & _ & Hi & _).
    exists patch, st'. split; [exact Hrun|lia].
  - destruct (runNode_returns GraphRun.reasonerNode state st)
      as (patch & st' & Hrun & _ & Hi & _).
    exists patch, st'. split; [exact Hrun|].
    rewrite applyPatch_iteration_kept by (apply Hi; discriminate). lia.
  - destruct (runNode_returns GraphRun.executorNode state st)
      as (patch & st' & Hrun & _ & Hi & _).
    exists patch, st'. split; [exact Hrun|].
    rewrite applyPatch_iteration_kept by (apply Hi; discriminate). lia.
Qed.

(** A run that returns has ended by the router with a step of the budget
    to spare: three node runs were spent on every rise of [iteration]. *)
Lemma invoke_returns (n : nat) :
  forall node state st final st',
    invoke n node state st = (inr final, st') ->
    Graph.router final = Graph.RouteEnd
    /\ 3 * (State.iteration final - State.iteration state) + restOfTurn node
       < Z.of_nat n.
Proof.
  induction n as [|n IH]; intros node state st final st' H; [discriminate|].
  rewrite invoke_step in H.
  destruct (runNode_iteration node state st) as (patch & st1 & Hrun & Hi).
  rewrite Hrun in H. destruct n as [|m]; [discriminate|].
  destruct node; cbn [GraphRun.next] in H.
  - apply IH in H as [Hr Hb]. split; [exact Hr|]. simpl restOfTurn in *. lia.
  - apply IH in H as [Hr Hb]. split; [exact Hr|]. simpl restOfTurn in *. lia.
  - destruct (Graph.router (State.applyPatch state patch)) eqn:Hrouter.
    + apply IH in H as [Hr Hb]. split; [exact Hr|]. simpl restOfTurn in *. lia.
    + injection H as <- <-. split; [exact Hrouter|]. simpl restOfTurn. lia.
Qed.

(** The nodes catch what they raise: a run that throws has run out of
    steps. *)
Lemma invoke_throws (n : nat) :
  forall node state st e st',
    invoke n node state st = (inl e, st') -> e = GraphRecursionError.
Proof.
  induction n as [|n IH]; intros node state st e st' H.
  - injection H as <- _. reflexivity.
  - rewrite invoke_step in H.
    destruct (runNode_returns node state st) as (patch & st1 & Hrun & _).
    rewrite Hrun in H. destruct n as [|m]; [injection H as <- _; reflexivity|].
    destruct (GraphRun.next node (State.applyPatch state patch)) as [node'|];
      [exact (IH _ _ _ _ _ H)|discriminate].
Qed.

(** What [runGraph] returns, with its budget of 45 node runs. *)
Lemma runGraph_returns goal st final st' :
  GraphRun.runGraph driver Date_now XMLParser_parse JSON_parse
    ZodError_message fetchChat GraphRecursionError goal st
  = (inr final, st') ->
  Graph.router final = Graph.RouteEnd
  /\ State.iteration final <= 14
  /\ (State.isComplete final = true \/ 3 <= State.retryCount final).
Proof.
  unfold GraphRun.runGraph.
  change (Z.to_nat (Graph.MAX_ITERATIONS * 3)) with 45%nat.
  intros H. apply invoke_returns in H as [Hr Hb]. simpl in Hb.
  split; [exact Hr|]. split; [lia|].
  apply router_end_iff in Hr as [?|[?|?]]; [auto|auto|lia].
Qed.

(** While the model asks for waits that the driver performs, the run
    is never complete and never out of retries, whatever the captures
    do. *)
Lemma invoke_keeps_waiting :
  (forall prompt screenshot w,
      exists response w' text action,
        fetchChat prompt screenshot w = (inr response, w')
        /\ Reasoner.ok response = true
        /\ Reasoner.content response = inr (Some text)
        /\ text <> ""
        /\ Reasoner.parseReasonerResponse JSON_parse ZodError_message text
           = inr action
        /\ Types.action action = Types.wait) ->
  (forall ms w, exists w', Driver.waitFor driver ms w = (inr tt, w')) ->
  forall (n : nat) node state st final st',
    State.isComplete state = false ->
    State.retryCount state < 3 ->
    (node = GraphRun.executorNode ->
     exists action, State.lastAction state = Some action
                    /\ Types.action action = Types.wait) ->
    invoke n node state st = (inr final, st') ->
    State.isComplete final = false /\ State.retryCount final < 3.
Proof.
  intros Hfetch Hwait.
  induction n as [|n IH]; intros node state st final st' Hc Hr Hl H;
    [discriminate|].
  rewrite invoke_step in H. destruct node.
  - destruct (observer_node_step state st)
      as (p1 & st1 & Hrun & Hc1 & _ & _ & Hr1 & _).
    rewrite Hrun in H. destruct n as [|m]; [discriminate|].
    cbn [GraphRun.next] in H.
    apply IH in H; [exact H|congruence|lia|discriminate].
  - destruct (waiting_reasoner_step state st Hfetch Hc)
      as (action & st1 & Hrun & Ha).
    rewrite Hrun in H. destruct n as [|m]; [discriminate|].
    cbn [GraphRun.next] in H.
    apply IH in H; [exact H|exact Hc|exact Hr|].
    intros _. exists action. split; [reflexivity|exact Ha].
  - destruct (Hl eq_refl) as (action & Hla & Ha).
    destruct (waiting_executor_step state action st Hwait Hla Ha)
      as (h & st1 & Hrun).
    rewrite Hrun in H. destruct n as [|m]; [discriminate|].
    cbn [GraphRun.next] in H.
    destruct (Graph.router (State.applyPatch state (Executor.successPatch h))).
    + apply IH in H; [exact H|exact Hc|simpl; unfold State.replace; lia
                     |discriminate].
    + injection H as <- _. split; [exact Hc|].
      simpl. unfold State.replace. lia.
Qed.

End GraphFacts.

(** A model that always asks to wait, and a driver whose captures
    reject while its actions succeed. *)
Definition waitingChat (_ _ : string)
  : Eff.M Fixture.World Reasoner.Response :=
  fun w =>
    (inr {| Reasoner.ok := true; Reasoner.status := 200;
            Reasoner.textBody := inr "";
            Reasoner.content := inr (Some "{}") |}, w).

Definition waitingParse (_ : string) : JS.outcome Schema.JSON :=
  inr (Schema.JObj [("thought", Schema.JStr "The screen is loading");
                    ("action", Schema.JStr "wait")]).

Definition sightlessDriver : Driver.IMobileDriver Fixture.World :=
  Fixture.recording (inr tt) (inl (JS.ErrorObj "screenshot timed out"))
                    (inr (Fixture.notFound None)).

(** X13. The router's iteration cap never ends a run.  [runGraph] gives
    the graph library a budget of 45 node runs, and the library throws
    its recursion error when the budget is used up, also when the node
    that used it up was the last one to run.  So a run either returns a
    final state on which the router says "end" with [iteration] at most
    14, the goal reached or the retries used up; or it throws the
    recursion error, and nothing else (the nodes catch what they raise).
    The fifteenth turn is never answered with a final state: when, say,
    the model keeps asking for a "wait" that the driver performs,
    [runGraph] throws the recursion error whatever the captures do. *)
Theorem run_never_ends_by_cap {W : Type} (driver : Driver.IMobileDriver W)
        (Date_now : W -> Z)
        (XMLParser_parse : string -> JS.outcome (list XmlParser.XmlNode))
        (JSON_parse : string -> JS.outcome Schema.JSON)
        (ZodError_message : Schema.JSON -> string)
        (fetchChat : string -> string -> Eff.M W Reasoner.Response)
        (GraphRecursionError : JS.Thrown)
        (goal : string) (st : HybridLocator.State W) :
  let ended :=
    GraphRun.runGraph driver Date_now XMLParser_parse JSON_parse
      ZodError_message fetchChat GraphRecursionError goal st in
  ((exists final st',
       ended = (inr final, st')
       /\ Graph.router final = Graph.RouteEnd
       /\ State.iteration final <= 14
       /\ (State.isComplete final = true \/ 3 <= State.retryCount final))
   \/ (exists st', ended = (inl GraphRecursionError, st')))
  /\ ((forall prompt screenshot w,
          exists response w' text action,
            fetchChat prompt screenshot w = (inr response, w')
            /\ Reasoner.ok response = true
            /\ Reasoner.content response = inr (Some text)
            /\ text <> ""
            /\ Reasoner.parseReasonerResponse JSON_parse ZodError_message text
               = inr action
            /\ Types.action action = Types.wait) ->
      (forall ms w, exists w', Driver.waitFor driver ms w = (inr tt, w')) ->
      exists st', ended = (inl GraphRecursionError, st')).
Proof.
  cbv zeta.
  assert (Hcases :
    (exists final st',
        GraphRun.runGraph driver Date_now XMLParser_parse JSON_parse
          ZodError_message fetchChat GraphRecursionError goal st
        = (inr final, st')
        /\ Graph.router final = Graph.RouteEnd
        /\ State.iteration final <= 14
        /\ (State.isComplete final = true \/ 3 <= State.retryCount final))
    \/ (exists st',
           GraphRun.runGraph driver Date_now XMLParser_parse JSON_parse
             ZodError_message fetchChat GraphRecursionError goal st
           = (inl GraphRecursionError, st'))).
  { destruct (GraphRun.runGraph driver Date_now XMLParser_parse JSON_parse
                ZodError_message fetchChat GraphRecursionError goal st)
      as [[e|final] st'] eqn:H.
    - right. exists st'. unfold GraphRun.runGraph in H.
      rewrite (invoke_throws _ _ _ _ _ _ _ _ _ _ _ _ _ H). reflexivity.
    - left. exists final, st'. split; [reflexivity|].
      exact (runGraph_returns _ _ _ _ _ _ _ _ _ _ _ H). }
  split; [exact Hcases|].
  intros Hfetch Hwait.
  destruct Hcases as [(final & st' & H & _ & _ & Hdone)|Hthrown];
    [|exact Hthrown].
  exfalso. unfold GraphRun.runGraph in H.
  apply (invoke_keeps_waiting driver Date_now XMLParser_parse JSON_parse
           ZodError_message fetchChat GraphRecursionError Hfetch Hwait)
    in H as [Hc Hr]; [|reflexivity|simpl; lia|discriminate].
  destruct Hdone; [congruence|lia].
Qed.

Lemma run_never_ends_by_cap_witness :
  exists st',
    GraphRun.runGraph Fixture.calmDriver Fixture.clock Fixture.noXml
      waitingParse Fixture.noZod waitingChat JS.NonError
      "Open the settings" (HybridLocator.new None [])
    = (inl JS.NonError, st').
Proof.
  refine (proj2
    (run_never_ends_by_cap Fixture.calmDriver Fixture.clock Fixture.noXml
       waitingParse Fixture.noZod waitingChat JS.NonError
       "Open the settings" (HybridLocator.new None [])) _ _).
  - intros prompt screenshot w. eexists _, _, "{}", _.
    split; [reflexivity|]. split; [reflexivity|]. split; [reflexivity|].
    split; [discriminate|]. split; reflexivity.
  - intros ms w. eexists. reflexivity.
Defined.

(** X14. When the chat endpoint rejects every request, a run stops
    after exactly three turns with the retries used up: the final state
    has [retryCount] 3 and is not complete, no action was decided or
    executed (the history is empty, the healing log untouched), at least
    three errors are recorded, and the result is classified
    "max_retries". *)
Theorem unreachable_model_stops_after_three {W : Type}
        (driver : Driver.IMobileDriver W) (Date_now : W -> Z)
        (XMLParser_parse : string -> JS.outcome (list XmlParser.XmlNode))
        (JSON_parse : string -> JS.outcome Schema.JSON)
        (ZodError_message : Schema.JSON -> string)
        (fetchChat : string -> string -> Eff.M W Reasoner.Response)
        (GraphRecursionError : JS.Thrown)
        (goal : string) (st : HybridLocator.State W) :
  (forall prompt screenshot w, exists e w',
      fetchChat prompt screenshot w = (inl e, w')) ->
  exists final st',
    GraphRun.runGraph driver Date_now XMLParser_parse JSON_parse
      ZodError_message fetchChat GraphRecursionError goal st
    = (inr final, st')
    /\ State.retryCount final = 3
    /\ State.isComplete final = false
    /\ State.lastAction final = None
    /\ State.actionHistory final = []
    /\ (3 <= length (State.errors final))%nat
    /\ State.iteration final <= 3
    /\ GraphRun.finalState (GraphRun.resultOf goal final) = Graph.max_retries
    /\ GraphRun.success (GraphRun.resultOf goal final) = false
    /\ HybridLocator.healingLog st' = HybridLocator.healingLog st.
Proof.
  intros Hdead. unfold GraphRun.runGraph.
  change (Z.to_nat (Graph.MAX_ITERATIONS * 3))
    with (S (S (S (S (S (S (S (S (S 36))))))))).
  destruct (cycle_unreasoned driver Date_now XMLParser_parse JSON_parse
              ZodError_message fetchChat GraphRecursionError
              (S (S (S (S (S (S 36)))))) (GraphRun.initialState goal) st
              Hdead eq_refl eq_refl eq_refl)
    as (s1 & st1 & -> & Hc1 & Hl1 & Hh1 & Hr1 & Hi1 & He1 & Hlog1).
  simpl in Hr1, Hi1, He1.
  assert (R1 : Graph.router s1 = Graph.RouteContinue).
  { apply route_cases. rewrite router_end_iff.
    intros [?|[?|?]]; [congruence|lia|lia]. }
  rewrite R1.
  destruct (cycle_unreasoned driver Date_now XMLParser_parse JSON_parse
              ZodError_message fetchChat GraphRecursionError
              (S (S (S 36))) s1 st1 Hdead Hc1 Hl1 Hh1)
    as (s2 & st2 & -> & Hc2 & Hl2 & Hh2 & Hr2 & Hi2 & He2 & Hlog2).
  assert (R2 : Graph.router s2 = Graph.RouteContinue).
  { apply route_cases. rewrite router_end_iff.
    intros [?|[?|?]]; [congruence|lia|lia]. }
  rewrite R2.
  destruct (cycle_unreasoned driver Date_now XMLParser_parse JSON_parse
              ZodError_message fetchChat GraphRecursionError
              36 s2 st2 Hdead Hc2 Hl2 Hh2)
    as (s3 & st3 & -> & Hc3 & Hl3 & Hh3 & Hr3 & Hi3 & He3 & Hlog3).
  assert (R3 : Graph.router s3 = Graph.RouteEnd).
  { apply router_end_iff. right. left. lia. }
  rewrite R3. exists s3, st3. split; [reflexivity|].
  unfold GraphRun.resultOf, Graph.finalStateOf. simpl. rewrite Hc3.
  destruct (Z.leb_spec 3 (State.retryCount s3)); [|lia].
  repeat split; try assumption; try lia; congruence.
Qed.

Lemma unreachable_model_stops_after_three_witness :
  exists final st',
    GraphRun.runGraph Fixture.calmDriver Fixture.clock Fixture.noXml
      Fixture.noJson Fixture.noZod Fixture.noChat JS.NonError
      "Open the settings" (HybridLocator.new None [])
    = (inr final, st')
    /\ State.retryCount final = 3
    /\ State.isComplete final = false
    /\ State.lastAction final = None
    /\ State.actionHistory final = []
    /\ (3 <= length (State.errors final))%nat
    /\ State.iteration final <= 3
    /\ GraphRun.finalState (GraphRun.resultOf "Open the settings" final)
       = Graph.max_retries
    /\ GraphRun.success (GraphRun.resultOf "Open the settings" final) = false
    /\ HybridLocator.healingLog st' = [].
Proof.
  refine (unreachable_model_stops_after_three Fixture.calmDriver Fixture.clock
            Fixture.noXml Fixture.noJson Fixture.noZod Fixture.noChat
            JS.NonError "Open the settings" (HybridLocator.new None []) _).
  intros prompt screenshot w. eexists _, _. reflexivity.
Defined.

(** X15. The router's three tests do not bound the loop by themselves.
    [iteration] is raised only by a successful observation, and a
    successful action resets [retryCount]; so when the captures reject
    every time while the model keeps asking for a "wait" that the driver
    performs, the router says "continue" at every turn: whatever the
    step budget, the run uses it up and ends with the graph library's
    recursion error, never with a final state. *)
Theorem failing_captures_never_end {W : Type}
        (driver : Driver.IMobileDriver W) (Date_now : W -> Z)
        (XMLParser_parse : string -> JS.outcome (list XmlParser.XmlNode))
        (JSON_parse : string -> JS.outcome Schema.JSON)
        (ZodError_message : Schema.JSON -> string)
        (fetchChat : string -> string -> Eff.M W Reasoner.Response)
        (GraphRecursionError : JS.Thrown)
        (goal : string) (st : HybridLocator.State W) :
  (forall w, exists e w', Observer.capture driver w = (inl e, w')) ->
  (forall prompt screenshot w,
      exists response w' text action,
        fetchChat prompt screenshot w = (inr response, w')
        /\ Reasoner.ok response = true
        /\ Reasoner.content response = inr (Some text)
        /\ text <> ""
        /\ Reasoner.parseReasonerResponse JSON_parse ZodError_message text
           = inr action
        /\ Types.action action = Types.wait) ->
  (forall ms w, exists w', Driver.waitFor driver ms w = (inr tt, w')) ->
  (exists st',
      GraphRun.runGraph driver Date_now XMLParser_parse JSON_parse
        ZodError_message fetchChat GraphRecursionError goal st
      = (inl GraphRecursionError, st'))
  /\ (forall recursionLimit : nat,
         exists st',
           GraphRun.invoke driver Date_now XMLParser_parse JSON_parse
             ZodError_message fetchChat GraphRecursionError recursionLimit
             GraphRun.observerNode (GraphRun.initialState goal) st
           = (inl GraphRecursionError, st')).
Proof.
  intros Hcap Hfetch Hwait.
  assert (H : forall n, exists st',
             GraphRun.invoke driver Date_now XMLParser_parse JSON_parse
               ZodError_message fetchChat GraphRecursionError n
               GraphRun.observerNode (GraphRun.initialState goal) st
             = (inl GraphRecursionError, st')).
  { intros n.
    apply (invoke_never_ends driver Date_now XMLParser_parse JSON_parse
             ZodError_message fetchChat GraphRecursionError Hcap Hfetch Hwait);
      [reflexivity|simpl; lia|discriminate]. }
  split; [apply H|exact H].
Qed.

Lemma failing_captures_never_end_witness :
  exists st',
    GraphRun.runGraph sightlessDriver Fixture.clock Fixture.noXml
      waitingParse Fixture.noZod waitingChat JS.NonError
      "Open the settings" (HybridLocator.new None [])
    = (inl JS.NonError, st').
Proof.
  refine (proj1
    (failing_captures_never_end sightlessDriver Fixture.clock Fixture.noXml
       waitingParse Fixture.noZod waitingChat JS.NonError
       "Open the settings" (HybridLocator.new None []) _ _ _)).
  - intros w. eexists _, _. reflexivity.
  - intros prompt screenshot w. eexists _, _, "{}", _.
    split; [reflexivity|]. split; [reflexivity|]. split; [reflexivity|].
    split; [discriminate|]. split; reflexivity.
  - intros ms w. eexists. reflexivity.
Defined.

(** X16. After a failure of the Reasoner the Executor runs the action of
    the cycle before.  The Reasoner's failure patch has no [lastAction]
    key, so the merged state still holds the earlier action, with
    [retryCount] raised by one; the Executor then executes that action
    again, and when it completes (and is not "done") its patch resets
    [retryCount] to 0: the Reasoner's failure is kept in [errors] but no
    longer counted. *)
Theorem stale_action_is_rerun {W : Type} (driver : Driver.IMobileDriver W)
        (Date_now : W -> Z)
        (XMLParser_parse : string -> JS.outcome (list XmlParser.XmlNode))
        (JSON_parse : string -> JS.outcome Schema.JSON)
        (ZodError_message : Schema.JSON -> string)
        (fetchChat : string -> string -> Eff.M W Reasoner.Response)
        (state : State.AgentState) (action : Types.ReasonerOutput)
        (st : HybridLocator.State W) (e : JS.Thrown) (w1 : W) :
  State.lastAction state = Some action ->
  Reasoner.tryBlock JSON_parse ZodError_message fetchChat state
    (HybridLocator.world st) = (inl e, w1) ->
  let failed :=
    Reasoner.failurePatch state (JS.messageOr "Unknown reasoner error" e) in
  let stale := State.applyPatch state failed in
  let st1 := HybridLocator.withWorld st w1 in
  GraphRun.runNode driver Date_now XMLParser_parse JSON_parse
    ZodError_message fetchChat GraphRun.reasonerNode state st
  = (inr failed, st1)
  /\ State.lastAction stale = Some action
  /\ State.retryCount stale = State.retryCount state + 1
  /\ (forall patch st2,
         Executor.tryBlock driver Date_now action st1 = (inr patch, st2) ->
         GraphRun.runNode driver Date_now XMLParser_parse JSON_parse
           ZodError_message fetchChat GraphRun.executorNode stale st1
         = (inr patch, st2)
         /\ (Types.action action <> Types.done ->
             State.retryCount (State.applyPatch stale patch) = 0
             /\ State.errors (State.applyPatch stale patch)
                = State.errors state
                  ++ [JS.messageOr "Unknown reasoner error" e])).
Proof.
  intros Hl Hfail. cbv zeta. split; [|split; [|split]].
  - unfold GraphRun.runNode, HybridLocator.onWorld, Reasoner.reasoner.
    rewrite (tryCatch_inl _ _ _ _ _ Hfail). reflexivity.
  - simpl. exact Hl.
  - reflexivity.
  - intros patch st2 Hrun. split.
    + unfold GraphRun.runNode, Executor.executor. simpl. rewrite Hl.
      rewrite (tryCatch_inr _ _ _ _ _ Hrun). reflexivity.
    + intros Hn.
      apply tryBlock_returns in Hrun as [(_ & h & ->)|(Hd & _)];
        [|contradiction].
      split; reflexivity.
Qed.

Lemma stale_action_is_rerun_witness :
  let state := Fixture.stateWith 0 (Some (Fixture.clickAt 10 20)) in
  let stale :=
    State.applyPatch state (Reasoner.failurePatch state "fetch failed") in
  State.lastAction stale = Some (Fixture.clickAt 10 20)
  /\ State.retryCount stale = 1
  /\ exists patch st2,
      Executor.executor Fixture.calmDriver Fixture.clock stale
        (HybridLocator.new None [])
      = (inr patch, st2)
      /\ State.retryCount (State.applyPatch stale patch) = 0
      /\ State.errors (State.applyPatch stale patch) = ["fetch failed"].
Proof.
  cbv zeta.
  destruct (stale_action_is_rerun Fixture.calmDriver Fixture.clock
              Fixture.noXml Fixture.noJson Fixture.noZod Fixture.noChat
              (Fixture.stateWith 0 (Some (Fixture.clickAt 10 20)))
              (Fixture.clickAt 10 20) (HybridLocator.new None [])
              (JS.ErrorObj "fetch failed") [] eq_refl eq_refl)
    as (_ & Hl & Hr & Hrun).
  split; [exact Hl|]. split; [exact Hr|].
  destruct (Hrun _ _ eq_refl) as (Hexec & Hreset).
  eexists _, _. split; [exact Hexec|]. apply Hreset. discriminate.
Defined.

(** X17. How a run that returns is classified.  [runAutomation] builds
    its result from the state [runGraph] returns, and has no [catch].
    Such a state is complete or out of retries, so the result is
    "completed" and a success, or "max_retries" and no success: it is
    never "failed".  The result carries the goal, and the history and
    the errors of the final state. *)
Theorem returned_run_classification {W : Type}
        (driver : Driver.IMobileDriver W) (Date_now : W -> Z)
        (XMLParser_parse : string -> JS.outcome (list XmlParser.XmlNode))
        (JSON_parse : string -> JS.outcome Schema.JSON)
        (ZodError_message : Schema.JSON -> string)
        (fetchChat : string -> string -> Eff.M W Reasoner.Response)
        (GraphRecursionError : JS.Thrown)
        (goal : string) (st : HybridLocator.State W)
        (final : State.AgentState) (st' : HybridLocator.State W) :
  GraphRun.runGraph driver Date_now XMLParser_parse JSON_parse
    ZodError_message fetchChat GraphRecursionError goal st
  = (inr final, st') ->
  let result := GraphRun.resultOf goal final in
  GraphRun.finalState result <> Graph.failed
  /\ ((GraphRun.success result = true
       /\ GraphRun.finalState result = Graph.completed)
      \/ (GraphRun.success result = false
          /\ GraphRun.finalState result = Graph.max_retries
          /\ 3 <= State.retryCount final))
  /\ GraphRun.goal result = State.goal final
  /\ GraphRun.actionHistory result = State.actionHistory final
  /\ GraphRun.errors result = State.errors final.
Proof.
  intros H. cbv zeta.
  pose proof (invoke_appends _ _ _ _ _ _ _ _ _ _ _ _ _ H) as (Hgoal & _).
  apply runGraph_returns in H as (_ & _ & Hdone).
  unfold GraphRun.resultOf, Graph.finalStateOf. simpl.
  split; [|split; [|split; [symmetry; exact Hgoal|split; reflexivity]]].
  - destruct (State.isComplete final); [discriminate|].
    destruct Hdone as [?|Hr]; [discriminate|].
    destruct (Z.leb_spec 3 (State.retryCount final)); [discriminate|lia].
  - destruct (State.isComplete final); [left; split; reflexivity|].
    destruct Hdone as [?|Hr]; [discriminate|].
    destruct (Z.leb_spec 3 (State.retryCount final)); [|lia].
    right. repeat split. exact Hr.
Qed.

Lemma returned_run_classification_witness :
  exists final st',
    GraphRun.runGraph Fixture.calmDriver Fixture.clock Fixture.noXml
      Fixture.noJson Fixture.noZod Fixture.noChat JS.NonError
      "Open the settings" (HybridLocator.new None [])
    = (inr final, st')
    /\ GraphRun.finalState (GraphRun.resultOf "Open the settings" final)
       <> Graph.failed.
Proof.
  eexists _, _. split; [vm_compute; reflexivity|].
  refine (proj1
    (returned_run_classification Fixture.calmDriver Fixture.clock
       Fixture.noXml Fixture.noJson Fixture.noZod Fixture.noChat JS.NonError
       "Open the settings" (HybridLocator.new None []) _ _ _)).
  vm_compute. reflexivity.
Defined.

(** X18. A run never rewrites what it has recorded.  Whatever the
    nodes do, in the final state the goal is the one the run started
    with, and [actionHistory] and [errors] are those of the starting
    state with entries appended. *)
Theorem run_only_appends {W : Type} (driver : Driver.IMobileDriver W)
        (Date_now : W -> Z)
        (XMLParser_parse : string -> JS.outcome (list XmlParser.XmlNode))
        (JSON_parse : string -> JS.outcome Schema.JSON)
        (ZodError_message : Schema.JSON -> string)
        (fetchChat : string -> string -> Eff.M W Reasoner.Response)
        (GraphRecursionError : JS.Thrown)
        (recursionLimit : nat) (node : GraphRun.Node)
        (state final : State.AgentState) (st st' : HybridLocator.State W) :
  GraphRun.invoke driver Date_now XMLParser_parse JSON_parse
    ZodError_message fetchChat GraphRecursionError recursionLimit node
    state st
  = (inr final, st') ->
  State.goal final = State.goal state
  /\ (exists added,
         State.actionHistory final = State.actionHistory state ++ added)
  /\ (exists added, State.errors final = State.errors state ++ added).
Proof.
  apply invoke_appends.
Qed.

Lemma run_only_appends_witness :
  let state := Fixture.stateWith 2 (Some (Fixture.clickAt 10 20)) in
  exists final,
    State.goal final = "goal"
    /\ (exists added, State.actionHistory final = [] ++ added)
    /\ (exists added, State.errors final = [] ++ added).
Proof.
  cbv zeta. eexists.
  refine (run_only_appends Fixture.deadDriver Fixture.clock Fixture.noXml
            Fixture.noJson Fixture.noZod Fixture.noChat JS.NonError
            2 GraphRun.executorNode
            (Fixture.stateWith 2 (Some (Fixture.clickAt 10 20))) _
            (HybridLocator.new None []) _ _).
  vm_compute. reflexivity.
Defined.

(* ================================================================== *)
(** * Further properties: the tree pruner *)
(* ================================================================== *)

(** A loop whose body only appends to the array: its effect on an array
    is its effect on the empty one, appended. *)
Lemma fold_appends {A B} (f : A -> list B -> list B) (l : list A) :
  Forall (fun a => forall acc, f a acc = acc ++ f a []) l ->
  forall acc,
    fold_left (fun acc a => f a acc) l acc
    = acc ++ fold_left (fun acc a => f a acc) l [].
Proof.
  induction 1 as [|a l Ha _ IH]; intros acc; simpl;
    [rewrite app_nil_r; reflexivity|].
  rewrite IH, (IH (f a [])), Ha, app_assoc. reflexivity.
Qed.

Lemma visitNode_appends attrs acc :
  XmlParser.visitNode attrs acc = acc ++ XmlParser.visitNode attrs [].
Proof.
  unfold XmlParser.visitNode.
  destruct (JS.truthy (attrs !! "bounds") && XmlParser.isVisible attrs);
    [|rewrite app_nil_r; reflexivity].
  destruct (XmlParser.parseBounds _); [|rewrite app_nil_r; reflexivity].
  destruct (XmlParser.hasIdentifiableContent attrs
            || bool_decide (attrs !! "clickable" = Some "true"));
    [reflexivity|rewrite app_nil_r; reflexivity].
Qed.

Lemma extractNode_appends (n : XmlParser.XmlNode) :
  forall acc, XmlParser.extractNode n acc = acc ++ XmlParser.extractNode n [].
Proof.
  induction n as [|w members IH] using XmlNode_induction; intros acc.
  - simpl. rewrite app_nil_r. reflexivity.
  - cbn [XmlParser.extractNode].
    set (onMember := fun (member : string * option (list XmlParser.XmlNode))
                         (acc : list Types.PrunedElement) =>
                       match snd member with
                       | Some children =>
                           fold_left
                             (fun acc' child => XmlParser.extractNode child acc')
                             children acc
                       | None => acc
                       end).
    assert (Hm : Forall (fun member => forall acc,
                           onMember member acc = acc ++ onMember member [])
                        members).
    { apply Forall_forall. intros member Hin a. unfold onMember.
      rewrite Forall_forall in IH. specialize (IH member Hin).
      destruct (snd member) as [children|]; [|rewrite app_nil_r; reflexivity].
      apply (fold_appends (fun child acc' => XmlParser.extractNode child acc')).
      exact IH. }
    change (fold_left (fun acc0 member => onMember member acc0) members
              (XmlParser.visitNode (XmlParser.attrsOf w) acc)
            = acc ++ fold_left (fun acc0 member => onMember member acc0) members
                       (XmlParser.visitNode (XmlParser.attrsOf w) [])).
    rewrite (fold_appends onMember members Hm).
    rewrite (fold_appends onMember members Hm
               (XmlParser.visitNode (XmlParser.attrsOf w) [])).
    rewrite visitNode_appends, app_assoc. reflexivity.
Qed.

(** X19. The pruner only appends, in document order: running it on an
    array that already holds elements leaves them in place and adds
    what it would add to the empty array; and the elements of a forest
    are those of its first trees followed by those of the rest. *)
Theorem extractElements_appends (nodes nodes' : list XmlParser.XmlNode)
        (elements : list Types.PrunedElement) :
  XmlParser.extractElements nodes elements
  = elements ++ XmlParser.extractElements nodes []
  /\ XmlParser.extractElements (nodes ++ nodes') []
     = XmlParser.extractElements nodes []
       ++ XmlParser.extractElements nodes' [].
Proof.
  assert (H : forall l acc,
             XmlParser.extractElements l acc
             = acc ++ XmlParser.extractElements l []).
  { intros l acc. unfold XmlParser.extractElements.
    apply (fold_appends (fun node acc' => XmlParser.extractNode node acc')).
    apply Forall_forall. intros n _. apply extractNode_appends. }
  split; [apply H|].
  unfold XmlParser.extractElements at 1. rewrite fold_left_app.
  apply H.
Qed.

(** A node the pruner keeps: displayed, with bounds that parse to a
    box of positive size (the edges as [parseInt] reads them, the
    differences as the code computes them), and identified or
    clickable. *)
Definition qualifies (attrs : gmap string string) (b : Types.Bounds) : Prop :=
  attrs !! "displayed" <> Some "false"
  /\ (exists boundsStr,
         attrs !! "bounds" = Some boundsStr
         /\ XmlParser.parseBounds boundsStr = Some b)
  /\ positiveSize b
  /\ (XmlParser.hasIdentifiableContent attrs = true
      \/ attrs !! "clickable" = Some "true").

Lemma positive_passes (n : JS.number) :
  positive n -> JS.atMostZero n = false.
Proof.
  destruct n as [z| | |]; simpl; intros H; try reflexivity; try contradiction.
  apply Z.leb_gt. exact H.
Qed.

Lemma visitNode_keeps attrs b acc :
  qualifies attrs b ->
  In (XmlParser.prunedOf attrs b) (XmlParser.visitNode attrs acc).
Proof.
  intros (Hd & (boundsStr & Hb & Hp) & [Hw Hh] & Hid).
  unfold XmlParser.visitNode, XmlParser.isVisible.
  rewrite Hb.
  destruct boundsStr as [|c boundsStr]; [vm_compute in Hp; discriminate|].
  simpl. destruct (decide (attrs !! "displayed" = Some "false"));
    [contradiction|].
  rewrite Hp, (positive_passes _ Hw), (positive_passes _ Hh). simpl.
  assert (Hor : XmlParser.hasIdentifiableContent attrs
                || bool_decide (attrs !! "clickable" = Some "true") = true).
  { destruct Hid as [-> | Hc]; [reflexivity|].
    rewrite (bool_decide_eq_true_2 _ Hc). apply orb_true_r. }
  rewrite Hor. apply in_or_app. right. left. reflexivity.
Qed.

Lemma fold_keeps {A B} (f : A -> list B -> list B) (l : list A) (e : B) :
  (forall a acc, f a acc = acc ++ f a []) ->
  forall acc,
    In e acc \/ (exists a, In a l /\ forall acc', In e (f a acc')) ->
    In e (fold_left (fun acc a => f a acc) l acc).
Proof.
  intros Hf. induction l as [|a l IH]; intros acc H; simpl.
  - destruct H as [H|(a & [] & _)]. exact H.
  - apply IH. destruct H as [H|(a' & [<-|Hin] & Ha)].
    + left. rewrite Hf. apply in_or_app. left. exact H.
    + left. apply Ha.
    + right. exists a'. split; assumption.
Qed.

Lemma extractNode_keeps n root e :
  descends n root ->
  (forall acc, In e (XmlParser.extractNode n acc)) ->
  forall acc, In e (XmlParser.extractNode root acc).
Proof.
  intros Hd Hn. induction Hd as [|w members key children child Hk Hc _ IH];
    [exact Hn|].
  intros acc. cbn [XmlParser.extractNode].
  apply (fold_keeps
           (fun (member : string * option (list XmlParser.XmlNode)) acc0 =>
              match snd member with
              | Some children0 =>
                  fold_left
                    (fun acc' child0 => XmlParser.extractNode child0 acc')
                    children0 acc0
              | None => acc0
              end)).
  - intros [k [cs|]] a; simpl; [|rewrite app_nil_r; reflexivity].
    apply (fold_appends (fun child0 acc' => XmlParser.extractNode child0 acc')).
    apply Forall_forall. intros c _. apply extractNode_appends.
  - right. exists (key, Some children). split; [exact Hk|].
    intros acc'. simpl.
    apply (fold_keeps (fun child0 acc0 => XmlParser.extractNode child0 acc0)).
    + apply extractNode_appends.
    + right. exists child. split; [exact Hc|exact IH].
Qed.

(** X20. The pruner keeps every node that qualifies, wherever it lies
    in a tree that the recursion can walk within the call stack.
    A node of the parsed tree that is not marked [displayed = "false"],
    whose [bounds] parse to a box of positive width and height (of the
    edges as doubles: two numerals above 2^53 that are read as the same
    double give width 0), and that has a resource id, a text or a
    description, or is clickable, has its element in the output; what
    its ancestors are (hidden, without bounds, of zero size) does not
    matter. *)
Theorem pruner_keeps_qualifying_nodes
        (XMLParser_parse : string -> JS.outcome (list XmlParser.XmlNode))
        (xml : string) (parsed : list XmlParser.XmlNode)
        (root : XmlParser.XmlNode)
        (w : option (option (gmap string string)))
        (members : list (string * option (list XmlParser.XmlNode)))
        (b : Types.Bounds) :
  XMLParser_parse xml = inr parsed ->
  In root parsed ->
  descends (XmlParser.XObject w members) root ->
  qualifies (XmlParser.attrsOf w) b ->
  In (XmlParser.prunedOf (XmlParser.attrsOf w) b)
     (XmlParser.parseAndroidXml XMLParser_parse xml).
Proof.
  intros Hparse Hroot Hd Hq. unfold XmlParser.parseAndroidXml.
  rewrite Hparse. unfold XmlParser.extractElements.
  apply (fold_keeps (fun node acc => XmlParser.extractNode node acc)).
  - apply extractNode_appends.
  - right. exists root. split; [exact Hroot|].
    apply (extractNode_keeps _ _ _ Hd).
    intros acc. cbn [XmlParser.extractNode].
    apply (fold_keeps
             (fun (member : string * option (list XmlParser.XmlNode)) acc0 =>
                match snd member with
                | Some children0 =>
                    fold_left
                      (fun acc' child0 => XmlParser.extractNode child0 acc')
                      children0 acc0
                | None => acc0
                end)).
    + intros [k [cs|]] a; simpl; [|rewrite app_nil_r; reflexivity].
      apply (fold_appends
               (fun child0 acc' => XmlParser.extractNode child0 acc')).
      apply Forall_forall. intros c _. apply extractNode_appends.
    + left. apply visitNode_keeps. exact Hq.
Qed.

(** A visible label below a hidden, unidentified container. *)
Definition hiddenParent : XmlParser.XmlNode :=
  nodeWith [("bounds", "[0,0][100,100]"); ("displayed", "false")]
    [ nodeWith [("bounds", "[10,10][90,40]"); ("text", "Welcome")] [] ].

Lemma pruner_keeps_qualifying_nodes_witness :
  In (XmlParser.prunedOf
        (list_to_map [("bounds", "[10,10][90,40]"); ("text", "Welcome")])
        {| Types.x1 := JS.Finite 10; Types.y1 := JS.Finite 10;
           Types.x2 := JS.Finite 90; Types.y2 := JS.Finite 40;
           Types.centerX := JS.Finite 50; Types.centerY := JS.Finite 25 |})
     (XmlParser.parseAndroidXml (fun _ => inr [hiddenParent]) "<node/>").
Proof.
  refine (pruner_keeps_qualifying_nodes (fun _ => inr [hiddenParent]) "<node/>"
            [hiddenParent] hiddenParent
            (Some (Some (list_to_map
                           [("bounds", "[10,10][90,40]"); ("text", "Welcome")])))
            [("node", Some []); ("#text", None)]
            {| Types.x1 := JS.Finite 10; Types.y1 := JS.Finite 10;
               Types.x2 := JS.Finite 90; Types.y2 := JS.Finite 40;
               Types.centerX := JS.Finite 50;
               Types.centerY := JS.Finite 25 |}
            eq_refl _ _ _).
  - left. reflexivity.
  - eapply descends_below; [left; reflexivity|left; reflexivity|].
    apply descends_here.
  - split; [vm_compute; discriminate|].
    split; [exists "[10,10][90,40]"; split; vm_compute; reflexivity|].
    split; [split; simpl; lia|]. left. vm_compute. reflexivity.
Defined.

(** Two right edges above [2^53] that are read as one double: the width
    is 0 and the node is dropped, although the numerals differ. *)
Example pruner_drops_rounded_edges :
  XmlParser.parseAndroidXml
    (fun _ =>
       inr [ nodeWith [("bounds",
                        "[9007199254740992,0][9007199254740993,5]");
                       ("text", "thin")] [] ])
    "<hierarchy/>"
  = [].
Proof. vm_compute. reflexivity. Qed.

(** A text that is absent, or made of white space only. *)
Definition blank (t : option string) : Prop :=
  match t with
  | None => True
  | Some s => forallb JS.isSpace (list_ascii_of_string s) = true
  end.

Lemma dropSpace_nil_iff l :
  JS.dropSpace l = [] <-> forallb JS.isSpace l = true.
Proof.
  induction l as [|c l IH]; simpl; [tauto|].
  destruct (JS.isSpace c); simpl; [exact IH|]. split; discriminate.
Qed.

Lemma dropSpace_all l :
  forallb JS.isSpace (JS.dropSpace l) = true -> JS.dropSpace l = [].
Proof.
  induction l as [|c l IH]; simpl; [reflexivity|].
  destruct (JS.isSpace c) eqn:Hc; [exact IH|].
  simpl. rewrite Hc. discriminate.
Qed.

Lemma forallb_rev {A} (p : A -> bool) l :
  forallb p (rev l) = forallb p l.
Proof.
  induction l as [|a l IH]; [reflexivity|].
  simpl. rewrite forallb_app, IH. simpl. rewrite andb_true_r, andb_comm.
  reflexivity.
Qed.

Lemma trimL_nil_iff l :
  JS.trimL l = [] <-> forallb JS.isSpace l = true.
Proof.
  unfold JS.trimL. rewrite <- dropSpace_nil_iff. split.
  - intros H. apply (f_equal (@rev ascii)) in H. rewrite rev_involutive in H.
    simpl in H. apply dropSpace_nil_iff in H. rewrite forallb_rev in H.
    apply dropSpace_all. exact H.
  - intros ->. reflexivity.
Qed.

Lemma trim_empty_iff s :
  JS.trim s = "" <-> forallb JS.isSpace (list_ascii_of_string s) = true.
Proof.
  unfold JS.trim. rewrite <- trimL_nil_iff.
  destruct (JS.trimL (list_ascii_of_string s)); simpl; split;
    congruence.
Qed.

(** X21. [truncateText] answers [null] exactly for a text that is
    absent or blank (empty, or white space only), and never the empty
    string.  The test for identifiable content is not the same: it goes
    by the raw attribute, so a node whose only content is a blank,
    non-empty text counts as identified, and its element carries no
    identifier at all. *)
Theorem truncateText_blank (t : option string) :
  (XmlParser.truncateText t = None <-> blank t)
  /\ XmlParser.truncateText t <> Some ""
  /\ (forall (attrs : gmap string string) c s b,
         t = Some (String c s) -> blank t ->
         attrs !! "text" = t ->
         attrs !! "resource-id" = None ->
         attrs !! "content-desc" = None ->
         XmlParser.hasIdentifiableContent attrs = true
         /\ Types.text (XmlParser.prunedOf attrs b) = None
         /\ Types.resourceId (XmlParser.prunedOf attrs b) = None
         /\ Types.contentDesc (XmlParser.prunedOf attrs b) = None).
Proof.
  assert (Hiff : XmlParser.truncateText t = None <-> blank t).
  { unfold XmlParser.truncateText, blank.
    destruct t as [[|c s]|]; [simpl; tauto| |tauto].
    rewrite <- trim_empty_iff.
    set (trimmed := JS.trim (String c s)).
    destruct (Nat.eqb_spec (String.length trimmed) 0) as [H0|H0].
    - split; [intros _|reflexivity].
      destruct trimmed; [reflexivity|discriminate].
    - destruct (String.length trimmed <=? XmlParser.MAX_TEXT_LENGTH)%nat;
        (split; [discriminate|]); intros E; rewrite E in H0;
        contradiction. }
  split; [exact Hiff|]. split.
  - intros E. destruct (truncateText_limit t "" E) as [Hne _]. congruence.
  - intros attrs c s b -> Hblank Ht Hr Hc.
    unfold XmlParser.hasIdentifiableContent, XmlParser.prunedOf. simpl.
    rewrite Ht, Hr, Hc. simpl.
    split; [reflexivity|]. split; [|split; reflexivity].
    apply Hiff. exact Hblank.
Qed.

Lemma truncateText_blank_witness :
  let attrs : gmap string string :=
    list_to_map [("bounds", "[0,0][10,10]"); ("text", "   ")] in
  let b := {| Types.x1 := JS.Finite 0; Types.y1 := JS.Finite 0;
              Types.x2 := JS.Finite 10; Types.y2 := JS.Finite 10;
              Types.centerX := JS.Finite 5; Types.centerY := JS.Finite 5 |} in
  XmlParser.hasIdentifiableContent attrs = true
  /\ Types.text (XmlParser.prunedOf attrs b) = None
  /\ Types.resourceId (XmlParser.prunedOf attrs b) = None
  /\ Types.contentDesc (XmlParser.prunedOf attrs b) = None.
Proof.
  cbv zeta.
  refine (proj2 (proj2 (truncateText_blank (Some "   ")))
            (list_to_map [("bounds", "[0,0][10,10]"); ("text", "   ")])
            " "%char "  "
            {| Types.x1 := JS.Finite 0; Types.y1 := JS.Finite 0;
               Types.x2 := JS.Finite 10; Types.y2 := JS.Finite 10;
               Types.centerX := JS.Finite 5; Types.centerY := JS.Finite 5 |}
            eq_refl _ _ _ _);
    vm_compute; reflexivity.
Defined.

(* ================================================================== *)
(** * Further properties: the prompt of the Reasoner *)
(* ================================================================== *)

Lemma lastN_nil_iff {A} (n : nat) (l : list A) :
  (0 < n)%nat -> JS.lastN n l = [] <-> l = [].
Proof.
  intros Hn. unfold JS.lastN. split; [|intros ->; reflexivity].
  intros H. apply (f_equal (@length A)) in H.
  rewrite List.length_skipn in H. simpl in H.
  destruct l; [reflexivity|simpl in H; lia].
Qed.

(** [needle] occurs in [text]. *)
Definition shows (needle text : string) : Prop :=
  exists before after, text = before +:+ needle +:+ after.

Lemma append_assoc (a b c : string) : (a +:+ b) +:+ c = a +:+ b +:+ c.
Proof.
  induction a as [|x a IH]; [reflexivity|].
  change (String x ((a +:+ b) +:+ c) = String x (a +:+ b +:+ c)).
  rewrite IH. reflexivity.
Qed.

Lemma append_empty (a : string) : a +:+ "" = a.
Proof.
  induction a as [|x a IH]; [reflexivity|].
  change (String x (a +:+ "") = String x a). rewrite IH. reflexivity.
Qed.

Lemma shows_here (a : string) : shows a a.
Proof. exists "", "". rewrite append_empty. reflexivity. Qed.

Lemma shows_before (needle a b : string) : shows needle b -> shows needle (a +:+ b).
Proof.
  intros (x & y & ->). exists (a +:+ x), y. rewrite append_assoc. reflexivity.
Qed.

Lemma shows_after (needle a b : string) : shows needle a -> shows needle (a +:+ b).
Proof.
  intros (x & y & ->). exists x, (y +:+ b). rewrite !append_assoc. reflexivity.
Qed.

(** Every part joined is in the result. *)
Lemma join_shows (sep part : string) (parts : list string) :
  In part parts -> shows part (JS.join sep parts).
Proof.
  induction parts as [|p rest IH]; intros Hin; [destruct Hin|].
  destruct rest as [|q rest].
  - destruct Hin as [->|[]]. apply shows_here.
  - change (JS.join sep (p :: q :: rest))
      with (p +:+ sep +:+ JS.join sep (q :: rest)).
    destruct Hin as [->|Hin].
    + apply shows_after, shows_here.
    + apply shows_before, shows_before, IH, Hin.
Qed.

(** X22. The prompt shows the model a bounded window of the run, and
    shows all of it.  In the prompt are: the goal; the last five history
    entries, numbered from 1; when there are errors, the last three of
    them and the retry count; the number of elements and the formatted
    tree.  And nothing else of the state is: two states that agree on
    the goal, the tree, the last five entries, the last three errors
    and the retry count get the same prompt, whatever their older
    history and errors, their screenshot, iteration count, pending
    action and completion flag. *)
Theorem buildUserPrompt_window (s : State.AgentState) :
  let prompt := Reasoner.buildUserPrompt s in
  shows ("GOAL: " +:+ State.goal s) prompt
  /\ (forall (i : nat) action,
         JS.lastN 5 (State.actionHistory s) !! i = Some action ->
         shows ("  " +:+ JS.showZ (Z.of_nat i + 1) +:+ ". " +:+ action) prompt)
  /\ (forall error,
         In error (JS.lastN 3 (State.errors s)) ->
         shows ("  - " +:+ error) prompt
         /\ shows ("Retry count: " +:+ JS.showZ (State.retryCount s) +:+ "/3")
                  prompt)
  /\ shows ("UI ELEMENTS ("
            +:+ JS.showZ (Z.of_nat (length (State.uiTree s)))
            +:+ " elements):") prompt
  /\ shows (XmlParser.formatElementsForPrompt (State.uiTree s)) prompt
  /\ (forall s',
         State.goal s = State.goal s' ->
         State.uiTree s = State.uiTree s' ->
         JS.lastN 5 (State.actionHistory s)
         = JS.lastN 5 (State.actionHistory s') ->
         JS.lastN 3 (State.errors s) = JS.lastN 3 (State.errors s') ->
         State.retryCount s = State.retryCount s' ->
         prompt = Reasoner.buildUserPrompt s').
Proof.
  cbv zeta. unfold Reasoner.buildUserPrompt.
  split; [apply join_shows; simpl; auto|].
  split; [|split; [|split; [|split]]].
  - intros i action Hi. apply join_shows.
    apply in_or_app. right. apply in_or_app. left.
    destruct (State.actionHistory s) as [|a h] eqn:E;
      [destruct i; discriminate|].
    apply in_or_app. right. apply in_or_app. left.
    apply list_elem_of_In.
    exact (elem_of_lookup_imap_2 _ _ _ _ Hi).
  - intros error Hin.
    destruct (State.errors s) as [|a h] eqn:E; [destruct Hin|].
    split; apply join_shows; apply in_or_app; right; apply in_or_app; right;
      apply in_or_app; left; apply in_or_app; right; apply in_or_app.
    + left. apply in_map. exact Hin.
    + right. left. reflexivity.
  - apply join_shows. do 3 (apply in_or_app; right). left. reflexivity.
  - apply join_shows. do 3 (apply in_or_app; right). right. left. reflexivity.
  - intros s' Hg Ht Hh He Hr.
    rewrite Hg, Ht, Hr. f_equal. f_equal. f_equal; [|f_equal].
    + destruct (State.actionHistory s) as [|a h] eqn:E1,
               (State.actionHistory s') as [|a' h'] eqn:E2.
      * reflexivity.
      * symmetry in Hh. apply lastN_nil_iff in Hh; [discriminate|lia].
      * apply lastN_nil_iff in Hh; [discriminate|lia].
      * rewrite Hh. reflexivity.
    + destruct (State.errors s) as [|a h] eqn:E1,
               (State.errors s') as [|a' h'] eqn:E2.
      * reflexivity.
      * symmetry in He. apply lastN_nil_iff in He; [discriminate|lia].
      * apply lastN_nil_iff in He; [discriminate|lia].
      * rewrite He. reflexivity.
Qed.

(** Two states of one run, six and seven actions in. *)
Definition sixActions : list string :=
  ["Clicked at (1, 1) - a"; "Clicked at (2, 2) - b"; "Clicked at (3, 3) - c";
   "Clicked at (4, 4) - d"; "Clicked at (5, 5) - e"; "Waited 500ms"].

Definition afterActions (history : list string) (shot : string)
           (iterations : Z) : State.AgentState :=
  {| State.screenshot := shot; State.uiTree := [loginButton];
     State.goal := "Log in"; State.actionHistory := history;
     State.retryCount := 0; State.errors := [];
     State.isComplete := false; State.lastAction := None;
     State.iteration := iterations |}.

Lemma buildUserPrompt_window_witness :
  Reasoner.buildUserPrompt (afterActions sixActions "c2NyZWVuMQ==" 6)
  = Reasoner.buildUserPrompt
      (afterActions ("Scrolled down" :: sixActions) "c2NyZWVuMg==" 7).
Proof.
  apply (proj2 (proj2 (proj2 (proj2 (proj2
           (buildUserPrompt_window
              (afterActions sixActions "c2NyZWVuMQ==" 6)))))));
    reflexivity.
Defined.

(* ================================================================== *)
(** * Further properties: the session logger and the vision fallback *)
(* ================================================================== *)

Definition methodIs (m : HealingLogger.Method)
           (e : HealingLogger.HealingEventLog) : bool :=
  match m, HealingLogger.method e with
  | HealingLogger.selector, HealingLogger.selector => true
  | HealingLogger.vision, HealingLogger.vision => true
  | HealingLogger.failed, HealingLogger.failed => true
  | _, _ => false
  end.

(** How many of [events] have the method [m]. *)
Definition countMethod (m : HealingLogger.Method)
           (events : list HealingLogger.HealingEventLog) : Z :=
  Z.of_nat (length (List.filter (methodIs m) events)).

(** The logger after the calls [logEvent(e)] for [e] in [events]. *)
Definition logged (events : list HealingLogger.HealingEventLog)
           (s : HealingLogger.HealingSummary) : HealingLogger.HealingSummary :=
  fold_left (fun s e => HealingLogger.logEvent e s) events s.

Lemma countMethod_cons m e events :
  countMethod m (e :: events)
  = (if methodIs m e then 1 else 0) + countMethod m events.
Proof.
  unfold countMethod. cbn [List.filter].
  destruct (methodIs m e); cbn [length]; lia.
Qed.

Lemma logged_counters events :
  forall s,
    HealingLogger.events (logged events s) = HealingLogger.events s ++ events
    /\ HealingLogger.totalLocateAttempts (logged events s)
       = HealingLogger.totalLocateAttempts s + Z.of_nat (length events)
    /\ HealingLogger.selectorSuccesses (logged events s)
       = HealingLogger.selectorSuccesses s
         + countMethod HealingLogger.selector events
    /\ HealingLogger.visionHealings (logged events s)
       = HealingLogger.visionHealings s
         + countMethod HealingLogger.vision events
    /\ HealingLogger.failures (logged events s)
       = HealingLogger.failures s + countMethod HealingLogger.failed events
    /\ HealingLogger.sessionId (logged events s) = HealingLogger.sessionId s
    /\ HealingLogger.startTime (logged events s) = HealingLogger.startTime s.
Proof.
  unfold logged.
  induction events as [|e events IH]; intros s.
  - simpl. rewrite app_nil_r. unfold countMethod. simpl.
    rewrite !Z.add_0_r. repeat split.
  - cbn [fold_left]. destruct (IH (HealingLogger.logEvent e s))
      as (He & Ht & Hs & Hv & Hf & Hid & Hst).
    rewrite He, Ht, Hs, Hv, Hf, Hid, Hst, !countMethod_cons.
    unfold methodIs, HealingLogger.logEvent.
    cbn [HealingLogger.events HealingLogger.totalLocateAttempts
         HealingLogger.selectorSuccesses HealingLogger.visionHealings
         HealingLogger.failures HealingLogger.sessionId
         HealingLogger.startTime].
    rewrite <- app_assoc.
    destruct (HealingLogger.method e); cbn [length];
      repeat split; lia.
Qed.

Lemma countMethod_partition events :
  countMethod HealingLogger.selector events
  + countMethod HealingLogger.vision events
  + countMethod HealingLogger.failed events
  = Z.of_nat (length events).
Proof.
  induction events as [|e events IH]; [reflexivity|].
  rewrite !countMethod_cons. unfold methodIs.
  destruct (HealingLogger.method e); cbn [length]; lia.
Qed.

(** X23. The session logger's counters agree with its event list.
    After any sequence of [logEvent] calls on a fresh logger the events
    are kept in order, [totalLocateAttempts] is their number, each of
    [selectorSuccesses], [visionHealings] and [failures] is the number
    of events of that method, and the three add up to the total.  The
    rates are printed exactly when there is at least one event, and then
    0 <= healing rate <= overall success rate <= 100. *)
Theorem healingLogger_counters
        (events : list HealingLogger.HealingEventLog)
        (sessionId : option string) (Date_now startTime : Z) :
  let s := logged events (HealingLogger.new sessionId Date_now startTime) in
  HealingLogger.events s = events
  /\ HealingLogger.totalLocateAttempts s = Z.of_nat (length events)
  /\ HealingLogger.selectorSuccesses s
     = countMethod HealingLogger.selector events
  /\ HealingLogger.visionHealings s = countMethod HealingLogger.vision events
  /\ HealingLogger.failures s = countMethod HealingLogger.failed events
  /\ HealingLogger.selectorSuccesses s + HealingLogger.visionHealings s
     + HealingLogger.failures s
     = HealingLogger.totalLocateAttempts s
  /\ (HealingLogger.printedRates s = None <-> events = [])
  /\ (forall healingRate successRate,
         HealingLogger.printedRates s = Some (healingRate, successRate) ->
         (0 <= healingRate)%Q /\ (healingRate <= successRate)%Q
         /\ (successRate <= 100)%Q).
Proof.
  cbv zeta.
  destruct (logged_counters events
              (HealingLogger.new sessionId Date_now startTime))
    as (He & Ht & Hs & Hv & Hf & _).
  simpl in He, Ht, Hs, Hv, Hf. rewrite Z.add_0_l in Ht, Hs, Hv, Hf.
  pose proof (countMethod_partition events) as Hp.
  assert (Hs0 : 0 <= countMethod HealingLogger.selector events)
    by (unfold countMethod; lia).
  assert (Hv0 : 0 <= countMethod HealingLogger.vision events)
    by (unfold countMethod; lia).
  assert (Hf0 : 0 <= countMethod HealingLogger.failed events)
    by (unfold countMethod; lia).
  split; [exact He|]. split; [exact Ht|]. split; [exact Hs|].
  split; [exact Hv|]. split; [exact Hf|]. split; [lia|].
  unfold HealingLogger.printedRates. rewrite Ht, Hs, Hv.
  destruct (Z.ltb_spec 0 (Z.of_nat (length events))) as [Hpos|Hzero].
  - split; [split; [discriminate|intros ->; simpl in Hpos; lia]|].
    intros h r [= <- <-].
    assert (Hq : (0 < inject_Z (Z.of_nat (length events)))%Q).
    { rewrite <- (Zlt_Qlt 0). exact Hpos. }
    assert (H100 : (0 <= 100)%Q) by discriminate.
    split; [|split].
    + apply Qmult_le_0_compat; [|exact H100].
      apply Qle_shift_div_l; [exact Hq|].
      rewrite Qmult_0_l, <- (Zle_Qle 0). exact Hv0.
    + apply Qmult_le_compat_r; [|exact H100].
      apply Qmult_le_compat_r;
        [rewrite <- Zle_Qle; lia|].
      apply Qinv_le_0_compat, Qlt_le_weak, Hq.
    + apply Qle_trans with (1 * 100)%Q; [|unfold Qle; simpl; lia].
      apply Qmult_le_compat_r; [|exact H100].
      apply Qle_shift_div_r; [exact Hq|].
      rewrite Qmult_1_l, <- Zle_Qle. lia.
  - split; [|discriminate]. split; [intros _|reflexivity].
    destruct events; [reflexivity|simpl in Hzero; lia].
Qed.

(** X24. The vision fallback made by [createOllamaVisionFallback] never
    rejects: whatever the transport, the reply and the JSON parser do,
    it answers.  It answers with coordinates only when the request
    returned with an ok status and a content in which a brace-delimited
    text was found that parses to an object whose [x] and [y] are
    numbers; the coordinates are those two numbers.  In every other case
    it answers [null]. *)
Theorem ollama_fallback_answers {W : Type}
        (JSON_parse : string -> JS.outcome Schema.JSON)
        (fetchVision : string -> string -> Eff.M W Reasoner.Response)
        (elementDescription screenshot : string) (w : W) :
  exists answer w',
    VisionFallback.visionFallback JSON_parse fetchVision
      elementDescription screenshot w
    = (inr answer, w')
    /\ forall x y,
        answer = Some (x, y) ->
        exists response content jsonMatch members,
          fetchVision elementDescription screenshot w = (inr response, w')
          /\ Reasoner.ok response = true
          /\ Reasoner.content response = inr (Some content)
          /\ Regex.exec VisionFallback.JSON_MATCH_REGEX (JS.trim content)
             = Some jsonMatch
          /\ JSON_parse (string_of_list_ascii (Regex.whole jsonMatch))
             = inr (Schema.JObj members)
          /\ Schema.prop "x" members = Some (Schema.JNum x)
          /\ Schema.prop "y" members = Some (Schema.JNum y).
Proof.
  unfold VisionFallback.visionFallback, Eff.tryCatch,
    VisionFallback.tryBlock, Eff.bind, Reasoner.liftOutcome, Eff.ret.
  destruct (fetchVision elementDescription screenshot w)
    as [[e|response] w1] eqn:Hf;
    [eexists None, _; split; [reflexivity|discriminate]|].
  destruct (Reasoner.ok response) eqn:Hok;
    [|eexists None, _; split; [reflexivity|discriminate]].
  destruct (Reasoner.content response) as [e|[content|]] eqn:Hc;
    try (eexists None, _; split; [reflexivity|discriminate]).
  cbn [fmap option_fmap option_map].
  destruct (JS.trim content) as [|c trimmed] eqn:Htrim;
    [eexists None, _; split; [reflexivity|discriminate]|].
  cbn [JS.truthy JS.orElse].
  destruct (Regex.exec VisionFallback.JSON_MATCH_REGEX (String c trimmed))
    as [jsonMatch|] eqn:Hm;
    [|eexists None, _; split; [reflexivity|discriminate]].
  destruct (JSON_parse (string_of_list_ascii (Regex.whole jsonMatch)))
    as [e|parsed] eqn:Hp;
    [eexists None, _; split; [reflexivity|discriminate]|].
  destruct (VisionFallback.numberProp "x" parsed) as [x|] eqn:Hx;
    [|eexists None, _; split; [reflexivity|discriminate]].
  destruct (VisionFallback.numberProp "y" parsed) as [y|] eqn:Hy;
    [|eexists None, _; split; [reflexivity|discriminate]].
  eexists (Some (x, y)), _. split; [reflexivity|].
  intros x' y' [= <- <-].
  exists response, content, jsonMatch.
  unfold VisionFallback.numberProp in Hx, Hy.
  destruct parsed as [| | | | |members]; try discriminate.
  exists members.
  destruct (Schema.prop "x" members) as [[| |nx| | |]|]; try discriminate.
  destruct (Schema.prop "y" members) as [[| |ny| | |]|]; try discriminate.
  injection Hx as ->. injection Hy as ->.
  rewrite Htrim. repeat split; assumption.
Qed.

(* ================================================================== *)
(** * Further properties: the mock driver *)
(* ================================================================== *)

(** A call of a method of the mock. *)
Inductive MockCall :=
| callConnect
| callDisconnect
| callGetScreenshot
| callGetPageSource
| callTap (x y : Z)
| callType (text : string)
| callSwipe (direction : Types.SwipeDirection) (duration : Z)
| callPressKey (key : string)
| callWaitFor (ms : Z)
| callReset
| callSetScreen (index : Q)
| callFindByAccessibilityId (id : string)
| callFindByResourceId (id : string)
| callFindByText (text : string) (exact : bool)
| callTapElement (locator : Driver.LocatorStrategy)
| callTypeIntoElement (locator : Driver.LocatorStrategy) (text : string).

(** The mock shows its screen [i]: the index is that whole number, and
    it points at one of the screens. *)
Definition showsScreen (m : MockDriver.Mock) (i : Z) : Prop :=
  (MockDriver.currentScreenIndex m == inject_Z i)%Q
  /\ 0 <= i < Z.of_nat (length (MockDriver.screens m)).

(** The index points at one of the screens. *)
Definition indexInRange (m : MockDriver.Mock) : Prop :=
  exists i : Z, showsScreen m i.

(** A call that gives [setScreen] a whole number, or is of another
    method. *)
Definition wholeArgument (c : MockCall) : Prop :=
  match c with
  | callSetScreen index => exists i : Z, (index == inject_Z i)%Q
  | _ => True
  end.

Lemma lessThan_spec (a b : Q) :
  MockDriver.lessThan a b = true <-> (a < b)%Q.
Proof.
  unfold MockDriver.lessThan. rewrite negb_true_iff.
  destruct (Qle_bool b a) eqn:H.
  - apply Qle_bool_iff in H. split; [discriminate|].
    intros Hlt. exfalso. exact (Qlt_not_le _ _ Hlt H).
  - split; [|reflexivity]. intros _. apply Qnot_le_lt.
    intros Hle. apply Qle_bool_iff in Hle. congruence.
Qed.

Lemma lessThan_whole (q : Q) (i n : Z) :
  (q == inject_Z i)%Q ->
  MockDriver.lessThan q (inject_Z n) = true <-> i < n.
Proof.
  intros H. rewrite lessThan_spec, H, Zlt_Qlt. reflexivity.
Qed.

Lemma lessThan_last (q : Q) (i n : Z) :
  (q == inject_Z i)%Q ->
  MockDriver.lessThan q (inject_Z n - 1) = true <-> i < n - 1.
Proof.
  intros H. rewrite <- (lessThan_whole q i (n - 1) H), !lessThan_spec.
  assert (E : (inject_Z n - 1 == inject_Z (n - 1))%Q).
  { unfold Z.sub. rewrite inject_Z_plus. reflexivity. }
  rewrite E. reflexivity.
Qed.

Lemma next_whole (q : Q) (i : Z) :
  (q == inject_Z i)%Q -> (q + 1 == inject_Z (i + 1))%Q.
Proof. intros H. rewrite H, inject_Z_plus. reflexivity. Qed.

(** At a whole index the array is read as a list is. *)
Lemma elementAt_whole {A} (arr : list A) (q : Q) (i : Z) :
  (q == inject_Z i)%Q -> 0 <= i ->
  MockDriver.elementAt arr q = nth_error arr (Z.to_nat i).
Proof.
  intros H Hi. unfold MockDriver.elementAt.
  assert (Hf : Qfloor q = i) by (rewrite H; apply Qfloor_Z).
  rewrite Hf.
  assert (H0 : Qle_bool 0 q = true).
  { apply Qle_bool_iff. rewrite H. change 0%Q with (inject_Z 0).
    rewrite <- Zle_Qle. exact Hi. }
  assert (H1 : Qeq_bool q (inject_Z i) = true)
    by (apply Qeq_bool_iff; exact H).
  rewrite H0, H1. reflexivity.
Qed.

(** [keeps P c]: the computation [c] takes a store with [P] to a store
    with [P], whether it returns or throws. *)
Definition keeps {S A} (P : S -> Prop) (c : Eff.M S A) : Prop :=
  forall s, P s -> P (snd (c s)).

Lemma keeps_ret {S A} (P : S -> Prop) (a : A) : keeps P (Eff.ret a).
Proof. intros s H. exact H. Qed.

Lemma keeps_throw {S A} (P : S -> Prop) e : keeps P (@Eff.throw S A e).
Proof. intros s H. exact H. Qed.

Lemma keeps_gets {S A} (P : S -> Prop) (f : S -> A) : keeps P (Eff.gets f).
Proof. intros s H. exact H. Qed.

Lemma keeps_bind {S A B} (P : S -> Prop) (c : Eff.M S A)
      (k : A -> Eff.M S B) :
  keeps P c -> (forall a, keeps P (k a)) -> keeps P (Eff.bind c k).
Proof.
  intros Hc Hk s H. unfold Eff.bind. specialize (Hc s H).
  destruct (c s) as [[e|a] s']; [exact Hc|]. apply Hk. exact Hc.
Qed.

Lemma keeps_modify {S} (P : S -> Prop) (f : S -> S) :
  (forall s, P s -> P (f s)) -> keeps P (Eff.modify f).
Proof. intros Hf s H. apply Hf. exact H. Qed.

(** A call whose result is not looked at. *)
Definition dropResult {S A} (c : Eff.M S A) : Eff.M S unit :=
  Eff.bind c (fun _ => Eff.ret tt).

Lemma keeps_dropResult {S A} (P : S -> Prop) (c : Eff.M S A) :
  keeps P c -> keeps P (dropResult c).
Proof. intros H. apply keeps_bind; [exact H|]. intros _. apply keeps_ret. Qed.

Section MockFacts.
Variable Date_now : MockDriver.Mock -> Z.
Variable TypeError : JS.Thrown.
Variable config_screens : list MockDriver.MockScreen.

(** The method a call stands for, its result dropped. *)
Definition perform (c : MockCall) : Eff.M MockDriver.Mock unit :=
  match c with
  | callConnect => MockDriver.connect Date_now
  | callDisconnect => MockDriver.disconnect Date_now
  | callGetScreenshot => dropResult (MockDriver.getScreenshot Date_now TypeError)
  | callGetPageSource => dropResult (MockDriver.getPageSource Date_now TypeError)
  | callTap x y => MockDriver.tap Date_now x y
  | callType text => MockDriver.type Date_now text
  | callSwipe direction duration =>
      MockDriver.swipe Date_now direction duration
  | callPressKey key => MockDriver.pressKey Date_now key
  | callWaitFor ms => MockDriver.waitFor Date_now ms
  | callReset => MockDriver.reset
  | callSetScreen index => MockDriver.setScreen index
  | callFindByAccessibilityId id =>
      dropResult (MockDriver.findByAccessibilityId Date_now id)
  | callFindByResourceId id =>
      dropResult (MockDriver.findByResourceId Date_now id)
  | callFindByText text exact =>
      dropResult (MockDriver.findByText Date_now text exact)
  | callTapElement locator => dropResult (MockDriver.tapElement Date_now locator)
  | callTypeIntoElement locator text =>
      MockDriver.typeIntoElement Date_now locator text
  end.

(** The mock after a sequence of calls. *)
Definition afterAll (calls : list MockCall) (m : MockDriver.Mock)
  : MockDriver.Mock :=
  fold_left (fun m c => snd (perform c m)) calls m.

Definition steady (m : MockDriver.Mock) : Prop :=
  MockDriver.screens m = config_screens /\ indexInRange m.

Lemma keeps_logAction a : keeps steady (MockDriver.logAction Date_now a).
Proof. apply keeps_modify. intros s H. exact H. Qed.

Lemma keeps_requireConnected : keeps steady MockDriver.requireConnected.
Proof.
  apply keeps_bind; [apply keeps_gets|].
  intros []; [apply keeps_ret|apply keeps_throw].
Qed.

Lemma keeps_currentScreen : keeps steady (MockDriver.currentScreen TypeError).
Proof.
  apply keeps_bind; [apply keeps_gets|]. intros m.
  destruct (MockDriver.elementAt _ _); [apply keeps_ret|apply keeps_throw].
Qed.

Lemma keeps_setConnected b : keeps steady (MockDriver.setConnected b).
Proof. apply keeps_modify. intros s H. exact H. Qed.

Lemma keeps_advanceScreen : keeps steady MockDriver.advanceScreen.
Proof.
  intros m [Hs (i & Hq & Hi)].
  unfold MockDriver.advanceScreen, Eff.bind, Eff.gets.
  destruct (MockDriver.lessThan _ _) eqn:Hlt;
    [|split; [exact Hs|exists i; split; assumption]].
  apply (lessThan_last _ i _ Hq) in Hlt.
  split; [exact Hs|]. exists (i + 1). split; [|simpl; lia].
  simpl. apply next_whole. exact Hq.
Qed.

Lemma keeps_tap x y : keeps steady (MockDriver.tap Date_now x y).
Proof.
  apply keeps_bind; [apply keeps_requireConnected|]. intros _.
  apply keeps_bind; [apply keeps_logAction|]. intros _.
  apply keeps_advanceScreen.
Qed.

Lemma keeps_type text : keeps steady (MockDriver.type Date_now text).
Proof.
  apply keeps_bind; [apply keeps_requireConnected|]. intros _.
  apply keeps_logAction.
Qed.

Lemma keeps_find_a id :
  keeps steady (MockDriver.findByAccessibilityId Date_now id).
Proof.
  apply keeps_bind; [apply keeps_logAction|]. intros _.
  destruct (_ || _); apply keeps_ret.
Qed.

Lemma keeps_find_r id :
  keeps steady (MockDriver.findByResourceId Date_now id).
Proof.
  apply keeps_bind; [apply keeps_logAction|]. intros _.
  destruct (MockDriver.own id MockDriver.resourceMap) as [[[x y] t]|];
    [apply keeps_ret|].
  destruct (MockDriver.inherited id); apply keeps_ret.
Qed.

Lemma keeps_find_t text exact :
  keeps steady (MockDriver.findByText Date_now text exact).
Proof.
  apply keeps_bind; [apply keeps_logAction|]. intros _.
  destruct (find _ _) as [[key [x y]]|]; apply keeps_ret.
Qed.

Lemma keeps_tapResult (result : Driver.ElementResult) :
  keeps steady
    match Driver.found result, Driver.x result, Driver.y result with
    | true, Some x, Some y =>
        Eff.bind (MockDriver.tap Date_now x y) (fun _ => Eff.ret (x, y))
    | _, _, _ =>
        Eff.throwError (JS.orElse (Driver.error result) "Element not found")
    end.
Proof.
  destruct (Driver.found result), (Driver.x result), (Driver.y result);
    try apply keeps_throw.
  apply keeps_bind; [apply keeps_tap|]. intros _. apply keeps_ret.
Qed.

Lemma keeps_tapElement locator :
  keeps steady (MockDriver.tapElement Date_now locator).
Proof.
  unfold MockDriver.tapElement. destruct locator.
  - apply keeps_bind; [apply keeps_find_a|]. apply keeps_tapResult.
  - apply keeps_bind; [apply keeps_find_r|]. apply keeps_tapResult.
  - apply keeps_bind; [apply keeps_find_t|]. apply keeps_tapResult.
  - apply keeps_throw.
  - apply keeps_bind; [apply keeps_tap|]. intros _. apply keeps_ret.
Qed.

Lemma keeps_perform c : wholeArgument c -> keeps steady (perform c).
Proof.
  intros Hwhole. destruct c; unfold perform.
  - apply keeps_bind; [apply keeps_setConnected|]. intros _.
    apply keeps_logAction.
  - apply keeps_bind; [apply keeps_setConnected|]. intros _.
    apply keeps_logAction.
  - apply keeps_dropResult.
    apply keeps_bind; [apply keeps_requireConnected|]. intros _.
    apply keeps_bind; [apply keeps_logAction|]. intros _.
    apply keeps_bind; [apply keeps_currentScreen|]. intros screen.
    apply keeps_ret.
  - apply keeps_dropResult.
    apply keeps_bind; [apply keeps_requireConnected|]. intros _.
    apply keeps_bind; [apply keeps_logAction|]. intros _.
    apply keeps_bind; [apply keeps_currentScreen|]. intros screen.
    apply keeps_ret.
  - apply keeps_tap.
  - apply keeps_type.
  - apply keeps_bind; [apply keeps_requireConnected|]. intros _.
    apply keeps_bind; [apply keeps_logAction|]. intros _.
    destruct direction; first [apply keeps_advanceScreen|apply keeps_ret].
  - apply keeps_bind; [apply keeps_requireConnected|]. intros _.
    apply keeps_logAction.
  - apply keeps_logAction.
  - intros m [Hs (i & Hq & Hi)]. split; [exact Hs|].
    exists 0. split; [reflexivity|simpl; lia].
  - intros m [Hs Hi]. unfold MockDriver.setScreen, Eff.bind, Eff.gets.
    destruct Hwhole as (j & Hj).
    destruct (Qle_bool 0 index) eqn:H0; simpl; [|split; assumption].
    destruct (MockDriver.lessThan _ _) eqn:Hlt; [|split; assumption].
    apply (lessThan_whole _ j _ Hj) in Hlt.
    apply Qle_bool_iff in H0. rewrite Hj in H0.
    change 0%Q with (inject_Z 0) in H0. rewrite <- Zle_Qle in H0.
    split; [exact Hs|]. exists j. split; [exact Hj|simpl; lia].
  - apply keeps_dropResult, keeps_find_a.
  - apply keeps_dropResult, keeps_find_r.
  - apply keeps_dropResult, keeps_find_t.
  - apply keeps_dropResult, keeps_tapElement.
  - apply keeps_bind; [apply keeps_tapElement|]. intros _.
    apply keeps_bind; [apply keeps_logAction|]. intros _.
    apply keeps_type.
Qed.

Lemma afterAll_steady calls :
  List.Forall wholeArgument calls ->
  forall m, steady m -> steady (afterAll calls m).
Proof.
  unfold afterAll. induction 1 as [|c calls Hc _ IH]; intros m H; [exact H|].
  simpl. apply IH. apply keeps_perform; assumption.
Qed.

End MockFacts.

(** X25. The mock never walks off its screens, as long as [setScreen]
    is given whole numbers.  Made with at least one screen, after any
    sequence of calls of its methods (failed ones included) in which
    every argument of [setScreen] is a whole number, it still has the
    screens it was given and its index is a whole number that points at
    one of them; so a capture on a connected mock never fails:
    [getScreenshot] returns the screenshot of one of the screens.
    ([setScreen] takes any number its guard lets through: after
    [setScreen(0.5)] a capture throws, see [mock_fractional_index].) *)
Theorem mock_index_in_range (Date_now : MockDriver.Mock -> Z)
        (TypeError : JS.Thrown) (screens : list MockDriver.MockScreen)
        (calls : list MockCall) :
  screens <> [] ->
  List.Forall wholeArgument calls ->
  let m := afterAll Date_now TypeError calls (MockDriver.new screens) in
  MockDriver.screens m = screens
  /\ indexInRange m
  /\ (MockDriver.connected m = true ->
      exists screen m',
        In screen screens
        /\ MockDriver.getScreenshot Date_now TypeError m
           = (inr (MockDriver.screenshot screen), m')).
Proof.
  intros Hne Hwhole. cbv zeta.
  destruct (afterAll_steady Date_now TypeError screens calls Hwhole
              (MockDriver.new screens)) as [Hs Hi].
  { split; [reflexivity|]. exists 0. split; [reflexivity|]. simpl.
    destruct screens; [contradiction|simpl; lia]. }
  split; [exact Hs|]. split; [exact Hi|].
  set (m := afterAll Date_now TypeError calls (MockDriver.new screens)) in *.
  intros Hc. destruct Hi as (i & Hq & Hi).
  destruct (nth_error (MockDriver.screens m) (Z.to_nat i))
    as [screen|] eqn:Hn.
  - exists screen. eexists. split.
    + rewrite <- Hs. eapply nth_error_In. exact Hn.
    + unfold MockDriver.getScreenshot, MockDriver.requireConnected,
        MockDriver.currentScreen, MockDriver.logAction, Eff.bind, Eff.gets,
        Eff.modify, Eff.ret.
      rewrite Hc. simpl.
      rewrite (elementAt_whole _ _ i Hq) by lia.
      rewrite Hn. reflexivity.
  - apply nth_error_None in Hn. lia.
Qed.

Definition loginScreen : MockDriver.MockScreen :=
  {| MockDriver.name := "login_screen"; MockDriver.screenshot := "aVZCT1J3";
     MockDriver.xml := "<hierarchy/>" |}.

Definition homeScreen : MockDriver.MockScreen :=
  {| MockDriver.name := "home_screen"; MockDriver.screenshot := "aG9tZQ==";
     MockDriver.xml := "<hierarchy/>" |}.

Definition mockClock (m : MockDriver.Mock) : Z :=
  Z.of_nat (length (MockDriver.actionLog m)).

(** The calls of a test: two taps, a [setScreen] out of range and one
    in range, a swipe. *)
Definition testCalls : list MockCall :=
  [callConnect; callTap 540 800; callTap 1 1; callSetScreen 7;
   callSetScreen 0; callSwipe Types.down 300].

Lemma mock_index_in_range_witness :
  let m :=
    afterAll mockClock JS.NonError testCalls
      (MockDriver.new [loginScreen; homeScreen]) in
  MockDriver.screens m = [loginScreen; homeScreen]
  /\ indexInRange m
  /\ (MockDriver.connected m = true ->
      exists screen m',
        In screen [loginScreen; homeScreen]
        /\ MockDriver.getScreenshot mockClock JS.NonError m
           = (inr (MockDriver.screenshot screen), m')).
Proof.
  refine (mock_index_in_range mockClock JS.NonError [loginScreen; homeScreen]
            testCalls _ _).
  - discriminate.
  - repeat constructor.
    + exists 7. reflexivity.
    + exists 0. reflexivity.
Defined.

(** A number that is not whole passes the guard of [setScreen] and is
    stored; no screen is at that index, and the next capture throws the
    error of reading a property of [undefined]. *)
Example mock_fractional_index :
  let m :=
    afterAll mockClock JS.NonError [callConnect; callSetScreen (1 # 2)]
      (MockDriver.new [loginScreen; homeScreen]) in
  MockDriver.currentScreenIndex m = (1 # 2)%Q
  /\ fst (MockDriver.getScreenshot mockClock JS.NonError m)
     = inl JS.NonError
  /\ fst (MockDriver.getPageSource mockClock JS.NonError m)
     = inl JS.NonError.
Proof. vm_compute. repeat split. Qed.

Lemma mock_tap_step (Date_now : MockDriver.Mock -> Z) (x y : Z)
      (m : MockDriver.Mock) :
  MockDriver.connected m = true ->
  MockDriver.tap Date_now x y m
  = (inr tt,
     {| MockDriver.screens := MockDriver.screens m;
        MockDriver.currentScreenIndex :=
          if MockDriver.lessThan
               (MockDriver.currentScreenIndex m)
               (inject_Z (Z.of_nat (length (MockDriver.screens m))) - 1)
          then (MockDriver.currentScreenIndex m + 1)%Q
          else MockDriver.currentScreenIndex m;
        MockDriver.connected := true;
        MockDriver.actionLog :=
          MockDriver.actionLog m
          ++ [{| MockDriver.action := MockDriver.LTap x y;
                 MockDriver.timestamp := Date_now m |}] |}).
Proof.
  intros Hc.
  unfold MockDriver.tap, MockDriver.requireConnected, MockDriver.logAction,
    MockDriver.advanceScreen, MockDriver.setIndex, Eff.bind, Eff.gets,
    Eff.modify, Eff.ret.
  rewrite Hc. cbn [MockDriver.currentScreenIndex MockDriver.screens
                    MockDriver.connected MockDriver.actionLog].
  destruct (MockDriver.lessThan _ _); rewrite ?Hc; reflexivity.
Qed.

(** X26. A tap on a connected mock moves it to the next screen, and at
    the last screen it stays: after [n] taps from a screen [i] the mock
    shows screen [min (i + n) (last)].  Every one of the taps is logged,
    in order. *)
Theorem mock_taps_advance (Date_now : MockDriver.Mock -> Z)
        (TypeError : JS.Thrown) (x y : Z) (n : nat) (m : MockDriver.Mock)
        (i : Z) :
  MockDriver.connected m = true ->
  showsScreen m i ->
  let m' := afterAll Date_now TypeError (repeat (callTap x y) n) m in
  (MockDriver.currentScreenIndex m'
   == inject_Z (Z.min (i + Z.of_nat n)
                      (Z.of_nat (length (MockDriver.screens m)) - 1)))%Q
  /\ MockDriver.connected m' = true
  /\ map MockDriver.action (MockDriver.actionLog m')
     = map MockDriver.action (MockDriver.actionLog m)
       ++ repeat (MockDriver.LTap x y) n.
Proof.
  intros Hc Hi. cbv zeta. revert m i Hc Hi.
  induction n as [|n IH]; intros m i Hc [Hq Hi].
  - simpl. rewrite app_nil_r.
    split; [|split; [exact Hc|reflexivity]].
    rewrite Hq. replace (Z.min (i + 0) _) with i by lia. reflexivity.
  - cbn [repeat].
    change (afterAll Date_now TypeError
              (callTap x y :: repeat (callTap x y) n) m)
      with (afterAll Date_now TypeError (repeat (callTap x y) n)
              (snd (MockDriver.tap Date_now x y m))).
    rewrite (mock_tap_step Date_now x y m Hc). cbn [snd].
    set (m1 := {| MockDriver.screens := MockDriver.screens m;
                  MockDriver.currentScreenIndex := _;
                  MockDriver.connected := true;
                  MockDriver.actionLog := _ |}).
    assert (Hstep : showsScreen m1
                      (Z.min (i + 1)
                             (Z.of_nat (length (MockDriver.screens m)) - 1))).
    { subst m1. unfold showsScreen. simpl.
      destruct (MockDriver.lessThan _ _) eqn:Hlt.
      - apply (lessThan_last _ i _ Hq) in Hlt.
        replace (Z.min (i + 1) _) with (i + 1) by lia.
        split; [apply next_whole; exact Hq|lia].
      - assert (Hlast : ~ i < Z.of_nat (length (MockDriver.screens m)) - 1).
        { intros Hlt'. apply (lessThan_last _ i _ Hq) in Hlt'. congruence. }
        replace (Z.min (i + 1) _) with i by lia.
        split; [exact Hq|lia]. }
    destruct (IH m1 _ eq_refl Hstep) as (Hidx & Hcon & Hlog).
    rewrite Hidx, Hcon, Hlog.
    split; [|split; [reflexivity|]].
    + simpl MockDriver.screens.
      replace (Z.min (Z.min (i + 1) _ + Z.of_nat n) _)
        with (Z.min (i + Z.of_nat (S n))
                    (Z.of_nat (length (MockDriver.screens m)) - 1)) by lia.
      reflexivity.
    + subst m1. simpl. rewrite map_app, <- app_assoc. reflexivity.
Qed.

Lemma mock_taps_advance_witness :
  let m :=
    afterAll mockClock JS.NonError [callConnect]
      (MockDriver.new [loginScreen; homeScreen]) in
  let m' := afterAll mockClock JS.NonError (repeat (callTap 540 800) 3) m in
  (MockDriver.currentScreenIndex m' == 1)%Q
  /\ MockDriver.connected m' = true
  /\ map MockDriver.action (MockDriver.actionLog m')
     = [MockDriver.LConnect; MockDriver.LTap 540 800; MockDriver.LTap 540 800;
        MockDriver.LTap 540 800].
Proof.
  refine (mock_taps_advance mockClock JS.NonError 540 800 3
            (afterAll mockClock JS.NonError [callConnect]
               (MockDriver.new [loginScreen; homeScreen])) 0 eq_refl _).
  split; [reflexivity|simpl; lia].
Defined.

(** The outcome of a refused call, and the mock after a logged one. *)
Definition refused {A} (m : MockDriver.Mock)
  : JS.outcome A * MockDriver.Mock :=
  (inl (JS.ErrorObj "Driver not connected"), m).

Definition withEntry (Date_now : MockDriver.Mock -> Z) (m : MockDriver.Mock)
           (a : MockDriver.Action) : MockDriver.Mock :=
  {| MockDriver.screens := MockDriver.screens m;
     MockDriver.currentScreenIndex := MockDriver.currentScreenIndex m;
     MockDriver.connected := MockDriver.connected m;
     MockDriver.actionLog :=
       MockDriver.actionLog m
       ++ [{| MockDriver.action := a;
              MockDriver.timestamp := Date_now m |}] |}.

(** X27. What the mock refuses while it is not connected, and what it
    does not.  The two captures, [tap], [type], [swipe] and [pressKey]
    throw "Driver not connected" and leave the mock as it was: nothing
    is logged.  [waitFor] and the three lookups do not check the
    connection: they answer and are logged all the same. *)
Theorem mock_not_connected (Date_now : MockDriver.Mock -> Z)
        (TypeError : JS.Thrown) (m : MockDriver.Mock) :
  MockDriver.connected m = false ->
  MockDriver.getScreenshot Date_now TypeError m = refused m
  /\ MockDriver.getPageSource Date_now TypeError m = refused m
  /\ (forall x y, MockDriver.tap Date_now x y m = refused m)
  /\ (forall text, MockDriver.type Date_now text m = refused m)
  /\ (forall direction duration,
         MockDriver.swipe Date_now direction duration m = refused m)
  /\ (forall key, MockDriver.pressKey Date_now key m = refused m)
  /\ (forall ms,
         MockDriver.waitFor Date_now ms m
         = (inr tt, withEntry Date_now m (MockDriver.LWaitFor ms)))
  /\ (forall id, exists result,
         MockDriver.findByAccessibilityId Date_now id m
         = (inr result,
            withEntry Date_now m (MockDriver.LFindByAccessibilityId id)))
  /\ (forall id, exists result,
         MockDriver.findByResourceId Date_now id m
         = (inr result,
            withEntry Date_now m (MockDriver.LFindByResourceId id)))
  /\ (forall text exact, exists result,
         MockDriver.findByText Date_now text exact m
         = (inr result,
            withEntry Date_now m (MockDriver.LFindByText text exact))).
Proof.
  intros Hc. unfold refused, withEntry.
  unfold MockDriver.getScreenshot, MockDriver.getPageSource, MockDriver.tap,
    MockDriver.type, MockDriver.swipe, MockDriver.pressKey,
    MockDriver.waitFor, MockDriver.findByAccessibilityId,
    MockDriver.findByResourceId, MockDriver.findByText,
    MockDriver.requireConnected, MockDriver.logAction, Eff.bind, Eff.gets,
    Eff.modify, Eff.throwError, Eff.throw, Eff.ret.
  rewrite Hc. repeat split.
  - intros id. destruct (_ || _); eexists; reflexivity.
  - intros id.
    destruct (MockDriver.own id MockDriver.resourceMap) as [[[x y] t]|];
      [eexists; reflexivity|].
    destruct (MockDriver.inherited id); eexists; reflexivity.
  - intros text exact.
    destruct (find _ _) as [[key [x y]]|]; eexists; reflexivity.
Qed.

Lemma mock_not_connected_witness :
  MockDriver.getScreenshot mockClock JS.NonError
    (MockDriver.new [loginScreen; homeScreen])
  = refused (MockDriver.new [loginScreen; homeScreen]).
Proof.
  exact (proj1 (mock_not_connected mockClock JS.NonError
                  (MockDriver.new [loginScreen; homeScreen]) eq_refl)).
Defined.

Section LocateOverLookups.
Context {W : Type}.
Variable driver : Driver.IMobileDriver W.
Variable Date_now : W -> Z.

(** When the lookup returns, so does [locate]. *)
Lemma locate_returns_after_lookup locator description st selectorResult st1 :
  HybridLocator.trySelector driver locator st = (inr selectorResult, st1) ->
  exists result st',
    HybridLocator.locate driver Date_now locator description st
    = (inr result, st').
Proof.
  intros Hsel. destruct (yieldsCoordinates selectorResult) eqn:Hyc.
  - unfold HybridLocator.locate, Eff.bind at 1. rewrite Hsel.
    unfold yieldsCoordinates in Hyc.
    destruct (Driver.found selectorResult), (Driver.x selectorResult),
      (Driver.y selectorResult); try discriminate Hyc.
    eexists _, _. reflexivity.
  - rewrite (locate_falls_through driver Date_now _ _ _ _ _ Hsel Hyc).
    unfold Eff.bind.
    destruct (tryVision_returns driver Date_now locator description st1)
      as (healed & st2 & -> & _).
    destruct healed; eexists _, _; reflexivity.
Qed.

End LocateOverLookups.

(** X28. Over the mock driver the hybrid locator always answers.  The
    mock's lookups never reject, connected or not, so [locate] returns a
    result for every locator and logs one event.  An accessibility id
    that contains "login", "username" or "password" is found by
    selector at (540, 450); a resource id that is not one of the mock's
    five is never found by selector, not even the name of an inherited
    property such as "constructor", which the mock reports as found but
    without coordinates. *)
Theorem locate_over_mock (Date_now : MockDriver.Mock -> Z)
        (TypeError : JS.Thrown) (now : MockDriver.Mock -> Z)
        (description : string) (st : HybridLocator.State MockDriver.Mock) :
  let mock := MockDriver.asDriver Date_now TypeError in
  (forall locator, exists result st',
      HybridLocator.locate mock now locator description st = (inr result, st')
      /\ length (HybridLocator.healingLog st')
         = S (length (HybridLocator.healingLog st)))
  /\ (forall id,
         MockDriver.includes "login" id
         || MockDriver.includes "username" id
         || MockDriver.includes "password" id = true ->
         exists st',
           HybridLocator.locate mock now (Driver.accessibilityId id)
             description st
           = (inr {| HybridLocator.r_found := true;
                     HybridLocator.r_x := Some 540;
                     HybridLocator.r_y := Some 450;
                     HybridLocator.r_method := HybridLocator.selector;
                     HybridLocator.r_healingTriggered := false;
                     HybridLocator.r_error := None |}, st'))
  /\ (forall id result st',
         MockDriver.own id MockDriver.resourceMap = None ->
         HybridLocator.locate mock now (Driver.resourceId id) description st
         = (inr result, st') ->
         HybridLocator.r_method result <> HybridLocator.selector).
Proof.
  cbv zeta. split; [|split].
  - intros locator.
    assert (Hsel : exists sr st1,
               HybridLocator.trySelector
                 (MockDriver.asDriver Date_now TypeError) locator st
               = (inr sr, st1)).
    { unfold HybridLocator.trySelector, HybridLocator.onWorld.
      destruct locator; cbn [MockDriver.asDriver Driver.findByAccessibilityId
                             Driver.findByResourceId Driver.findByText].
      - unfold MockDriver.findByAccessibilityId, MockDriver.logAction,
          Eff.bind, Eff.modify, Eff.ret.
        destruct (_ || _); eexists _, _; reflexivity.
      - unfold MockDriver.findByResourceId, MockDriver.logAction,
          Eff.bind, Eff.modify, Eff.ret.
        destruct (MockDriver.own value MockDriver.resourceMap)
          as [[[x y] t]|]; [eexists _, _; reflexivity|].
        destruct (MockDriver.inherited value); eexists _, _; reflexivity.
      - unfold MockDriver.findByText, MockDriver.logAction,
          Eff.bind, Eff.modify, Eff.ret.
        destruct (find _ _) as [[key [x y]]|]; eexists _, _; reflexivity.
      - eexists _, _. reflexivity.
      - eexists _, _. reflexivity. }
    destruct Hsel as (sr & st1 & Hsel).
    destruct (locate_returns_after_lookup
                (MockDriver.asDriver Date_now TypeError) now locator
                description st sr st1 Hsel) as (result & st' & Hloc).
    exists result, st'. split; [exact Hloc|].
    destruct (locate_returns _ _ _ _ _ _ _ Hloc) as (_ & event & -> & _).
    rewrite length_app. simpl. lia.
  - intros id Hid.
    unfold HybridLocator.locate, Eff.bind at 1.
    unfold HybridLocator.trySelector, HybridLocator.onWorld.
    cbn [MockDriver.asDriver Driver.findByAccessibilityId].
    unfold MockDriver.findByAccessibilityId, MockDriver.logAction,
      Eff.bind at 1, Eff.modify, Eff.ret.
    rewrite Hid. eexists. reflexivity.
  - intros id result st' Hown.
    unfold HybridLocator.locate, Eff.bind at 1.
    unfold HybridLocator.trySelector, HybridLocator.onWorld.
    cbn [MockDriver.asDriver Driver.findByResourceId].
    unfold MockDriver.findByResourceId, MockDriver.logAction,
      Eff.bind at 1, Eff.modify, Eff.ret.
    rewrite Hown.
    destruct (MockDriver.inherited id); cbn [Driver.found Driver.x Driver.y
      MockDriver.found MockDriver.notFound];
      unfold Eff.bind;
      match goal with
      | |- context [HybridLocator.tryVision ?d ?n ?l ?de ?s] =>
          destruct (tryVision_returns d n l de s)
            as (healed & st2 & -> & _ & Hh)
      end;
      (destruct healed as [r|];
       [destruct Hh as (vx & vy & event & -> & _)|]);
      unfold Eff.ret, Eff.gets, HybridLocator.now, HybridLocator.logEvent,
        Eff.modify; intros [= <- _]; discriminate.
Qed.

Lemma locate_over_mock_witness :
  exists st',
    HybridLocator.locate (MockDriver.asDriver mockClock JS.NonError) mockClock
      (Driver.accessibilityId "login_button") "Login button"
      (HybridLocator.new None (MockDriver.new [loginScreen; homeScreen]))
    = (inr {| HybridLocator.r_found := true;
              HybridLocator.r_x := Some 540;
              HybridLocator.r_y := Some 450;
              HybridLocator.r_method := HybridLocator.selector;
              HybridLocator.r_healingTriggered := false;
              HybridLocator.r_error := None |}, st').
Proof.
  exact (proj1 (proj2
    (locate_over_mock mockClock JS.NonError mockClock "Login button"
       (HybridLocator.new None (MockDriver.new [loginScreen; homeScreen]))))
    "login_button" eq_refl).
Defined.

(* ================================================================== *)
(** * Further properties: the last resort of a click *)
(* ================================================================== *)

(** X29. A "click" that carries both coordinates cannot fail because of
    the locator.  If the driver's [tap] and [waitFor] never reject, such
    a click always ends with the success patch, and the calls made are
    these.  Without a selector hint for the locator, [tap] at the
    action's coordinates, then the settling wait.  With one,
    [locateAndTap]; when that returns, the tap was made where the
    element was found and the settling wait follows; when it throws,
    [tap] at the action's own coordinates is called on the device as the
    failed attempt left it, then the settling wait.  The history entry
    tells the three cases apart.  Without both coordinates a failure of
    the locator fails the action, and the message recorded is the
    Executor's own, "Failed to locate element: " and the description;
    the locator's reason is dropped. *)
Theorem click_falls_back_to_coordinates {W : Type}
        (driver : Driver.IMobileDriver W) (Date_now : W -> Z)
        (state : State.AgentState) (action : Types.ReasonerOutput)
        (st : HybridLocator.State W) :
  State.lastAction state = Some action ->
  Types.action action = Types.click ->
  let description :=
    JS.orElse3 (Types.p_elementDescription (Types.params action))
               (Some (Types.targetElement action)) "unknown element" in
  (forall x y,
      (forall x' y' w, exists w', Driver.tap driver x' y' w = (inr tt, w')) ->
      (forall w, exists w', Driver.waitFor driver 500 w = (inr tt, w')) ->
      Types.p_x (Types.params action) = Some x ->
      Types.p_y (Types.params action) = Some y ->
      match Executor.hybridSelector (Types.params action) with
      | None =>
          exists w1 w2,
            Driver.tap driver x y (HybridLocator.world st) = (inr tt, w1)
            /\ Driver.waitFor driver 500 w1 = (inr tt, w2)
            /\ Executor.executor driver Date_now state st
               = (inr (Executor.successPatch
                         ("Clicked at " +:+ Executor.point x y +:+ " - "
                          +:+ Types.targetElement action)),
                  HybridLocator.withWorld st w2)
      | Some selector =>
          match HybridLocator.locateAndTap driver Date_now
                  (Executor.selectorToLocator selector) description st with
          | (inl _, st1) =>
              exists w1 w2,
                Driver.tap driver x y (HybridLocator.world st1) = (inr tt, w1)
                /\ Driver.waitFor driver 500 w1 = (inr tt, w2)
                /\ Executor.executor driver Date_now state st
                   = (inr (Executor.successPatch
                             ("Clicked at " +:+ Executor.point x y +:+ " - "
                              +:+ Types.targetElement action
                              +:+ " (fallback to coordinates)")),
                      HybridLocator.withWorld st1 w2)
          | (inr (rx, ry, method), st1) =>
              exists w2,
                Driver.waitFor driver 500 (HybridLocator.world st1)
                = (inr tt, w2)
                /\ Executor.executor driver Date_now state st
                   = (inr (Executor.successPatch
                             ("Clicked " +:+ description +:+ " at "
                              +:+ Executor.point rx ry +:+ " via "
                              +:+ HybridLocator.methodName method
                              +:+ Executor.healedSuffix method)),
                      HybridLocator.withWorld st1 w2)
          end
      end)
  /\ (forall selector e st1,
         Executor.hybridSelector (Types.params action) = Some selector ->
         Types.p_x (Types.params action) = None
         \/ Types.p_y (Types.params action) = None ->
         HybridLocator.locateAndTap driver Date_now
           (Executor.selectorToLocator selector) description st
         = (inl e, st1) ->
         Executor.executor driver Date_now state st
         = (inr (Executor.failurePatch state action
                   ("Failed to locate element: " +:+ description)), st1)).
Proof.
  intros Hlast Ha. cbv zeta. split.
  - intros x y Htap Hwait Hx Hy.
    assert (Hrun : forall entry st1 w2,
               Executor.doClick driver Date_now action st = (inr entry, st1) ->
               Driver.waitFor driver 500 (HybridLocator.world st1)
               = (inr tt, w2) ->
               Executor.executor driver Date_now state st
               = (inr (Executor.successPatch entry),
                  HybridLocator.withWorld st1 w2)).
    { intros entry st1 w2 Hdo Hw2. unfold Executor.executor. rewrite Hlast.
      apply tryCatch_inr. unfold Executor.tryBlock. rewrite Ha.
      exact (afterSwitch_settles driver _ st entry st1 w2 Hdo Hw2). }
    unfold Executor.doClick in Hrun. rewrite Hx, Hy in Hrun.
    destruct (Executor.hybridSelector (Types.params action)) as [selector|].
    + destruct (HybridLocator.locateAndTap driver Date_now
                  (Executor.selectorToLocator selector) _ st)
        as [[e|[[rx ry] method]] st1] eqn:Hlocate.
      * destruct (Htap x y (HybridLocator.world st1)) as (w1 & Hw1).
        destruct (Hwait w1) as (w2 & Hw2).
        exists w1, w2. split; [exact Hw1|]. split; [exact Hw2|].
        apply (Hrun _ (HybridLocator.withWorld st1 w1) w2); [|exact Hw2].
        unfold Eff.tryCatch, Eff.bind at 1. rewrite Hlocate.
        unfold Eff.bind, Executor.callDriver, HybridLocator.onWorld.
        rewrite Hw1. reflexivity.
      * destruct (Hwait (HybridLocator.world st1)) as (w2 & Hw2).
        exists w2. split; [exact Hw2|].
        apply Hrun; [|exact Hw2].
        unfold Eff.tryCatch, Eff.bind. rewrite Hlocate. reflexivity.
    + destruct (Htap x y (HybridLocator.world st)) as (w1 & Hw1).
      destruct (Hwait w1) as (w2 & Hw2).
      exists w1, w2. split; [exact Hw1|]. split; [exact Hw2|].
      apply (Hrun _ (HybridLocator.withWorld st w1) w2); [|exact Hw2].
      unfold Eff.bind, Executor.callDriver, HybridLocator.onWorld.
      rewrite Hw1. reflexivity.
  - intros selector e st1 Hsel Hxy Htap.
    unfold Executor.executor. rewrite Hlast.
    unfold Eff.tryCatch at 1, Executor.tryBlock. rewrite Ha.
    unfold Executor.afterSwitch, Eff.bind at 1, Executor.doClick.
    rewrite Hsel. unfold Eff.tryCatch, Eff.bind. rewrite Htap.
    destruct Hxy as [-> | ->];
      [|destruct (Types.p_x (Types.params action))]; reflexivity.
Qed.

Definition clickOn (selector : Types.SelectorHint) (x y : Z)
  : Types.ReasonerOutput :=
  Fixture.act Types.click
    {| Types.p_x := Some x; Types.p_y := Some y; Types.p_text := None;
       Types.p_direction := None; Types.p_duration := None;
       Types.p_selector := Some selector;
       Types.p_elementDescription := None |}.

Lemma click_falls_back_to_coordinates_witness :
  let state :=
    Fixture.stateWith 1 (Some (clickOn (byResourceId "login") 540 800)) in
  let st1 :=
    snd (HybridLocator.locateAndTap Fixture.calmDriver Fixture.clock
           (Driver.resourceId "login") "target"
           (HybridLocator.new None [])) in
  exists w1 w2,
    Driver.tap Fixture.calmDriver 540 800 (HybridLocator.world st1)
    = (inr tt, w1)
    /\ Driver.waitFor Fixture.calmDriver 500 w1 = (inr tt, w2)
    /\ Executor.executor Fixture.calmDriver Fixture.clock state
         (HybridLocator.new None [])
       = (inr (Executor.successPatch
                 "Clicked at (540, 800) - target (fallback to coordinates)"),
          HybridLocator.withWorld st1 w2).
Proof.
  refine (proj1
    (click_falls_back_to_coordinates Fixture.calmDriver Fixture.clock
       (Fixture.stateWith 1 (Some (clickOn (byResourceId "login") 540 800)))
       (clickOn (byResourceId "login") 540 800)
       (HybridLocator.new None []) eq_refl eq_refl) 540 800 _ _ eq_refl
       eq_refl).
  - intros x y w. eexists. reflexivity.
  - intros w. eexists. reflexivity.
Defined.

Example click_fallback_run :
  Executor.executor Fixture.calmDriver Fixture.clock
    (Fixture.stateWith 1 (Some (clickOn (byResourceId "login") 540 800)))
    (HybridLocator.new None [])
  = (inr (Executor.successPatch
            "Clicked at (540, 800) - target (fallback to coordinates)"),
     {| HybridLocator.healingLog :=
          [failureEvent Fixture.clock
             (HybridLocator.new None
                [Fixture.CFind (Driver.resourceId "login")])
             (Driver.resourceId "login") (Fixture.notFound None)];
        HybridLocator.visionFallback := None;
        HybridLocator.world :=
          [Fixture.CFind (Driver.resourceId "login");
           Fixture.CTap 540 800; Fixture.CWaitFor 500] |}).
Proof. vm_compute. reflexivity. Qed.
